(* ===== verification/_CoqProject ===== *)
-Q . S2P
Prelude.v
CStr.v
Bencode.v
BencodeSpec.v
BencodeTree.v
Metainfo.v
Util.v
Ftp.v
FileConstructor.v
FilePieces.v
FilePieces2.v
Btp.v
Connection.v
Tracker.v
TrackerTests.v
TrackerServ.v
TrackerFirst.v
TrackerProto.v
Encode.v
TorrentFile.v
Programs.v
Torrent.v
TorrentMain.v
TorrentDrafts.v
HashFcns.v
UtHash.v
LinkedList.v
UtHashSpec.v
UtHashRefine.v
UtHashInt.v
UtHashSelect.v
UtHashBloom.v
UtHashSort.v
ChatTracker.v
ChatStart.v
ChatTable.v
ChatThreads.v
ChatMarks.v
ChatClient.v
