(* ===== verification/Prelude.v ===== *)
(** * SoftSysDubstepDucks: a verification library

    The repository is a small BitTorrent system in C: a decoder and an encoder
    of .torrent files, the messages of the peer wire protocol, a peer client, a
    tracker with its server, and prototypes and experiments under src/examples.  This
    library translates its functions into Rocq and proves what they do: the
    behaviour they are written for, with the conditions under which they have
    it, and where they leave the C standard.

    ** How C is modelled

    A computation has a value of type [res]: [Ok] with its result, [Exit] when
    it calls [exit], or [Fault] with the kind of undefined behaviour it runs
    into ([NoFuel] marks the recursion bound of a definition; it is not a
    behaviour of the code).  Memory is the list of the bytes of an object, from
    the pointer in use to the end of the object, and every access is checked
    against it ([rd], [wr], [slice] and [blit] for [memcpy], and the string
    functions of [CStr]).  Where code follows links, in the list of the tracker,
    the nodes are in a heap with addresses.  Integers are kept at their width:
    [to_char] and [to_int] convert, [int_arith] faults on overflow.  What the
    code gets from outside is an argument: results of system calls, bytes
    received, the contents of files, the value of uninitialised memory, what the
    allocator returns.  Two parameters stand for what a machine does where the
    standard says nothing, so that the intended behaviour can be stated next to
    the strict one: [pad] of [Tracker] (the memory behind a [strdup]ed string)
    and [dead] of [Encode] (the frame of a function that has returned).
    Allocation never fails, except in uthash, which exits then: there an argument
    says which requests succeed.  SHA-1 is a function from bytes to bytes.

    ** The files and the code they model

    - [Prelude]: outcomes, bytes, machine integers, their lemmas and tactics.
    - [CStr]: the functions of <string.h>, [strtoll], [strtoul] and decimal
      printing, as far as the sources use them.
    - [Bencode], [BencodeSpec]: the decoder of src/src/bencode.c (lines 35-198);
      the bencode format as a reference encoder; round trip, termination and
      bounds of the decoder.  The three mutually recursive loops take fuel; twice
      the length of the data and one more is enough for every input
      ([be_decoden_terminates]), and [be_decoden] uses that bound.
    - [BencodeTree]: [be_dump] and [be_free] (lines 200-287), the second on a heap
      of the blocks a tree is made of; twice the number of blocks and one more is
      enough fuel for it.
    - [Metainfo]: [_read_file], [load_be_node] and [decodeFile] of bencode.c
      (lines 290-370), with the offsets of the members of [bt_info_t].
    - [Encode]: src/src/encode.c and its copy under torrent_encoding_decoding.
      Its loop over the file takes one unit of fuel per byte and one more.
    - [TorrentFile]: encoder and reader one after the other.
    - [Programs]: the [main] functions of both encoders, of decode.c and of the
      SHA-1 example.
    - [Util]: src/src/util.c.  Counting the bits of a [char] takes at most 9
      rounds, the fuel it is given.
    - [FileConstructor]: src/src/file_constructor.c; [FilePieces] and
      [FilePieces2], the two experiments it comes from, under
      src/examples/file-construction.
    - [Ftp]: server and client of src/examples/ftp-example.  How much each system
      call moves is up to the kernels, [nat -> Z]; a loop takes one unit of fuel
      per byte and one more, since a call that goes on moves a byte.
    - [Btp]: handshake and messages of src/src/btp.c; the [message] type is the
      specification the constructors and the reception are proved against.
    - [Connection]: the state of a connection in btp.c, with [conn_run] for
      sequences of operations.
    - [Torrent]: the loops of the peer client, src/src/torrent.c: [main] cut into
      the handlers they are made of, and the relation [step] of all they can do,
      with [reachable] states.
    - [TorrentMain]: the start of that [main], which composes [Metainfo],
      [FileConstructor], [Btp] and [Tracker].
    - [TorrentDrafts]: what can be read of the clients that were not finished,
      src/src/torrent_client.c and torrent_main.c.
    - [Tracker]: src/src/tracker.c, with the representation predicate [is_list]
      of the linked list; the class [Allocator] is what it relies on of [malloc].
      Loops over the list take the size of the heap as fuel, which bounds the
      number of nodes of a list.
    - [TrackerTests]: src/src/tracker_tests.c, run on that model.
    - [TrackerServ]: src/src/tracker_serv.c, its specification [spec_run] and the
      relation [represents] between its states and lists of addresses.
    - [TrackerFirst]: the functions of the first prototype of the tracker,
      src/examples/tracker/tracker.c.
    - [TrackerProto]: the second prototype of the tracker and its client,
      src/examples/tracker/tracker2.c and client.c, with the threads of the
      connections as sequences of events.
    - [HashFcns]: the hash functions of uthash.h under
      src/examples/p2p-chat-example; the class [HashFcn] is what the table needs
      of one and [HashFcnLaws] what is proved of each.
    - [UtHash]: the hash table of uthash.h, its handles in a heap with one map
      per field.  Chains are followed with the number of handles as fuel, which
      bounds the length of a chain without repetition.
    - [LinkedList]: linked and doubly linked segments in such a heap.
    - [UtHashSpec], [UtHashRefine]: the relation [represents] between tables and
      lists of keyed elements, what each macro does to it, and the refinement for
      sequences of operations.
    - [UtHashInt]: the forms of the macros for integers and pointers, against
      finite maps.
    - [UtHashSelect]: HASH_SELECT, into a second hash of the same elements.
    - [UtHashBloom]: the table with the Bloom filter of HASH_BLOOM, and the log of
      keys of HASH_EMIT_KEYS.
    - [UtHashSort]: HASH_SRT, the merge sort of the elements, against a stable
      insertion sort.
    - [ChatTracker]: src/examples/p2p-chat-example/tracker.c on lists of peers,
      its specification on addresses and rooms and the invariant [wf].
    - [ChatStart]: its [parse_args], the start and the loop of its [main].
    - [ChatTable]: the same operations as they run, on pointers, [malloc], [free]
      and the table of [UtHash].
    - [ChatThreads]: the three threads of the chat tracker, interleaved between
      the requests of [ChatTable] and the steps of the other two.
    - [ChatMarks]: equality of its memories up to the marks the other threads
      store, which the requests respect.
    - [ChatClient]: src/examples/p2p-chat-example/client.c, and the network of
      clients and chat tracker, [net_step]; datagrams are delivered in order and
      without loss.

    The decoder is used by [Metainfo] and, to state round trips, by [Encode];
    [TorrentFile] and [Programs] put encoder and reader together.
    [Torrent] calls [Btp], [Connection] and [FileConstructor]; [TrackerServ] and
    [TrackerProto] call [Tracker]; [ChatTable] calls [UtHash], and its refinement
    theorem justifies the lists of [ChatTracker], whose handlers the network of
    [ChatClient] runs.

    ** What the theorems show

    The properties carry the ids C1 to C40, by importance, in their comments;
    other theorems named here are proved next to them.
    - Decoding: round trips ([be_decoden_roundtrip], [be_decode_roundtrip],
      [encodeString_roundtrip]), [be_decoden_terminates], bounds
      ([be_decode_str_in_bounds], [be_decode_scalar_defined]), the inputs it
      does not handle ([be_decoden_empty_container],
      [be_decode_unterminated_list]); releasing a tree ([be_free_releases]) and
      printing it ([be_dump_lines]).
    - .torrent files: reading ([decodeFile_in_metainfo], [decodeFile_too_small],
      [store_piece_length_errors]), writing ([encodeFile_metainfo],
      [encodeFile_fails]) and what is read of what was written
      ([torrent_file_way]); the programs ([encode_main_prints],
      [decode_main_prints]), which fail on the file they are made for
      ([moby_dick_unread]); [shatest_overflows].
    - Messages: [message_roundtrip] for all messages, [verify_handshake_own],
      bitfields ([count_bitfield_bits_popcount], [peerContains_spec]), the effect
      of the messages on a connection ([control_message_effect],
      [have_message_effect]).
    - Connections and the client: flags ([connection_state], [Set_Flag_spec]),
      the choke flags as an invariant of all reachable states
      ([choked_peer_gets_no_data]), what cannot happen ([no_piece_transferred],
      [tracker_peers_not_served], [handshake_answer_and_count]); the start of the
      client ([start_with_tracker]) and that it fails with the object the code
      allocates ([start_never_returns]); the unfinished clients
      ([draft_greets_without_bitfield], [draft_never_starts]).
    - Tracker: the operations on the list refine operations on lists of strings
      ([addIfAbsent_refines], [sendClients_reply], [destroyClientList_frees]), the
      server refines its specification ([server_refines]), the exchange between
      client and server ([peers_exchange]), and messages without an answer
      ([join_unanswered]).  Of the prototypes: what the first one lists and reads
      ([listed_once_per_pointer], [handler_swallows]), what the second one lists and what its client
      reads ([listed_is_last_accepted]), and the race at the start of a thread
      ([late_handler]).  The unit tests pass ([tests_pass]).
    - Pieces: writing, reading, verification ([write_piece_roundtrip],
      [write_piece_corrupts], [verify_piece_iff], [set_initial_bitfield_covers],
      [get_piece_needs_nul]); the experiments ([pieces_main],
      [get_piece_never_returns]).
    - The file transfer ([ftp_transfer]), however the kernels divide the stream.
    - uthash: sequences of operations refine those on lists ([hash_run_refines])
      and, with integers or pointers as keys, on finite maps ([key_run_refines]),
      with the integrity check as an invariant ([HASH_FSCK_passes]); the hash
      functions ([HASH_JEN_uniform], [HASH_FNV_permutation]); sorting
      ([HASH_SRT_sorts]); selection ([HASH_SELECT_selects]); the table with a
      Bloom filter, which changes no result ([bloom_run_refines]); the key log
      ([emitted_keys_read]).
    - Chat: the ports and the whole [main] of the tracker ([chat_start_ports],
      [chat_main_serves]), refinement and invariant of its operations
      ([chat_tracker_refines], [chat_table_refines]), addresses ([address_roundtrip]), rooms
      ([create_room_smallest]), memory ([create_requests_leak],
      [dead_peers_use_after_free], [dead_peers_and_room_list_undefined]), the
      threads ([ping_round], [answer_takes_effect], [replies_ignore_threads],
      [ping_race]); the agreement of all
      clients with the tracker in every run of the network
      ([chat_clients_agree]), delivery of messages ([message_reaches_room]),
      bounds of what a client accepts ([client_list_bounds]).

    ** Not modelled

    Of torrent_main.c, torrent_client.c and the first revision of the tracker,
    src/examples/tracker/tracker.c, which do not compile, what has no meaning to
    translate: the two versions between the marks of a conflict of a merge, code
    with syntax errors or undeclared names, and what is the same in torrent.c.
    bencode.c under torrent_encoding_decoding is byte for byte the one of
    src/src.  Of uthash.h the signatures, constants for a debugger.  Of the chat
    programs the locks, which are not held long enough to exclude any of the
    interleavings modelled, and, within a request of the main thread, the removal
    of dead peers (the stores of the other threads do not matter there,
    [replies_ignore_threads]); [setup_test_peers] of the client, which is not
    called.  [print_hex_memory] and [print_bits] are modelled as the text they
    print; other debugging output is left out where it has no effect. *)
From Stdlib Require Import ZArith Lia Bool String Ascii.
From stdpp Require Import base numbers option list.

#[global] Set Default Goal Selector "!".
#[global] Open Scope Z_scope.

(** ** Outcomes of a C computation

    [Ok a]: the code runs to completion with result [a].
    [Fault f]: the code does something the C standard leaves undefined; [f]
    says what.
    [Exit n]: the code calls [exit(n)].
    [NoFuel] is not a behaviour of the code: it marks the exhaustion of the
    recursion bound of a Rocq definition, and the termination theorems show it
    away. *)
Inductive fault :=
  | OutOfBounds      (** read or write outside of an object *)
  | NullDeref        (** access through a null pointer *)
  | Uninit           (** use of an indeterminate value *)
  | UseAfterFree     (** access to an object whose lifetime has ended *)
  | Overflow         (** signed integer overflow *)
  | DivByZero
  | BadUnion         (** use of a union member that was not the one stored *)
  | BadFormat        (** [printf] with a conversion and no argument for it *)
  | NoFuel.

#[export] Instance fault_eq_dec : EqDecision fault.
Proof. solve_decision. Defined.

Inductive res (A : Type) : Type :=
  | Ok (a : A)
  | Fault (f : fault)
  | Exit (code : Z).
Arguments Ok {A} a.
Arguments Fault {A} f.
Arguments Exit {A} code.

Definition res_bind {A B : Type} (m : res A) (k : A -> res B) : res B :=
  match m with
  | Ok a => k a
  | Fault f => Fault f
  | Exit c => Exit c
  end.

Declare Scope c_scope.
Delimit Scope c_scope with C.
Notation "'let*' x := m 'in' k" := (res_bind m (fun x => k))
  (at level 10, x pattern, m at level 100, k at level 200) : c_scope.
Notation "'check*' b 'else' f 'in' k" := (if (b : bool) then k else Fault f)
  (at level 10, b at level 100, f at level 0, k at level 200) : c_scope.
#[global] Open Scope c_scope.

(** The monad laws, used by the components to reassociate a handler. *)
Lemma res_bind_Ok {A B} (a : A) (k : A -> res B) : res_bind (Ok a) k = k a.
Proof. reflexivity. Qed.

Lemma res_bind_ret {A} (m : res A) : res_bind m Ok = m.
Proof. by destruct m. Qed.

Lemma res_bind_assoc {A B D} (m : res A) (f : A -> res B) (g : B -> res D) :
  res_bind (res_bind m f) g = res_bind m (fun a => res_bind (f a) g).
Proof. by destruct m. Qed.

Lemma res_bind_inv_Ok {A B} (m : res A) (k : A -> res B) b :
  res_bind m k = Ok b -> exists a, m = Ok a /\ k a = Ok b.
Proof. destruct m; simpl; intros H; [eauto | discriminate..]. Qed.

(** A computation that does not run into undefined behaviour. *)
Definition defined {A} (m : res A) : Prop :=
  match m with Fault _ => False | _ => True end.

Definition out_of_fuel {A} (m : res A) : bool :=
  match m with Fault NoFuel => true | _ => false end.

(** ** Bytes

    A byte is an integer between 0 and 255; an object of memory, or what
    remains of it from a pointer on, is the list of its bytes. *)
Abbreviation bytes := (list Z).

Definition is_byte (b : Z) : Prop := 0 <= b < 256.
Definition is_bytes (l : bytes) : Prop := Forall is_byte l.

Definition is_bytesb (l : bytes) : bool := forallb (fun b => (0 <=? b) && (b <? 256)) l.

Lemma is_bytesb_spec l : is_bytesb l = true -> is_bytes l.
Proof.
  induction l as [|b l IH]; [constructor|]. simpl. rewrite !andb_true_iff, Z.leb_le, Z.ltb_lt.
  intros [[? ?] ?]. constructor; [done|]. by apply IH.
Qed.

(** The bytes of a string literal, without the terminating NUL. *)
Definition str (s : string) : bytes :=
  map (fun c => Z.of_N (N_of_ascii c)) (list_ascii_of_string s).

Definition zlen {A} (l : list A) : Z := Z.of_nat (length l).

(** Reading one byte through a pointer: [deref] at the pointer itself,
    [rd] at an offset. *)
Definition deref (p : bytes) : res Z :=
  match p with b :: _ => Ok b | [] => Fault OutOfBounds end.

Definition rd {A} (m : list A) (i : Z) : res A :=
  if i <? 0 then Fault OutOfBounds
  else match m !! Z.to_nat i with Some b => Ok b | None => Fault OutOfBounds end.

(** [memcpy] of [n] bytes from offset [off] of [m]: the bytes copied. *)
Definition slice (m : bytes) (off n : Z) : res bytes :=
  if (0 <=? off) && (0 <=? n) && (off + n <=? zlen m)
  then Ok (take (Z.to_nat n) (drop (Z.to_nat off) m))
  else Fault OutOfBounds.

(** [memcpy] of the bytes [src] to offset [off] of [m]: the new object. *)
Definition blit (m : bytes) (off : Z) (src : bytes) : res bytes :=
  if (0 <=? off) && (off + zlen src <=? zlen m)
  then Ok (take (Z.to_nat off) m ++ src ++ drop (Z.to_nat off + length src) m)
  else Fault OutOfBounds.

Definition wr {A} (m : list A) (i : Z) (v : A) : res (list A) :=
  if (0 <=? i) && (i <? zlen m) then Ok (<[Z.to_nat i := v]> m) else Fault OutOfBounds.

(** ** Machine integers *)
Definition wrap_s (w z : Z) : Z := (z + 2 ^ (w - 1)) mod 2 ^ w - 2 ^ (w - 1).
(** conversion to (signed) [char], [int], [unsigned char] *)
Definition to_char (z : Z) : Z := wrap_s 8 z.
Definition to_int (z : Z) : Z := wrap_s 32 z.
Definition to_uchar (z : Z) : Z := z mod 256.
Definition INT_MAX : Z := 2 ^ 31 - 1.
Definition INT_MIN : Z := - 2 ^ 31.
Definition LLONG_MAX : Z := 2 ^ 63 - 1.
Definition LLONG_MIN : Z := - 2 ^ 63.
Definition is_int (z : Z) : Prop := INT_MIN <= z <= INT_MAX.
Definition is_intb (z : Z) : bool := (INT_MIN <=? z) && (z <=? INT_MAX).

(** arithmetic on [int], undefined on overflow *)
Definition int_arith (z : Z) : res Z := if is_intb z then Ok z else Fault Overflow.

(** The little-endian representation of an [n]-byte integer. *)
Fixpoint le (n : nat) (z : Z) : bytes :=
  match n with
  | O => []
  | S n => z mod 256 :: le n (z / 256)
  end.

Fixpoint le_val (l : bytes) : Z :=
  match l with
  | [] => 0
  | b :: l => b + 256 * le_val l
  end.

(** ** Lemmas on memory *)
Section memory.
Implicit Types m l : bytes.

Lemma zlen_nonneg {A} (l : list A) : 0 <= zlen l.
Proof. unfold zlen. lia. Qed.

Lemma zlen_nil {A} : zlen (@nil A) = 0.
Proof. reflexivity. Qed.

Lemma zlen_cons {A} (x : A) (l : list A) : zlen (x :: l) = 1 + zlen l.
Proof. unfold zlen. simpl. lia. Qed.

Lemma zlen_app {A} (l l' : list A) : zlen (l ++ l') = zlen l + zlen l'.
Proof. unfold zlen. rewrite length_app. lia. Qed.

Lemma zlen_replicate n (x : Z) : zlen (replicate n x) = Z.of_nat n.
Proof. unfold zlen. by rewrite length_replicate. Qed.

Lemma rd_app_mid {A} (l l' : list A) x : rd (l ++ x :: l') (zlen l) = Ok x.
Proof.
  unfold rd, zlen. rewrite (proj2 (Z.ltb_ge _ _)) by lia.
  by rewrite Nat2Z.id, list_lookup_middle.
Qed.

Lemma rd_app_l {A} (l l' : list A) i : i < zlen l -> rd (l ++ l') i = rd l i.
Proof.
  unfold rd, zlen. intros Hi. destruct (Z.ltb_spec i 0); [done|].
  rewrite lookup_app_l by lia. done.
Qed.

Lemma rd_app_r {A} (l l' : list A) i : zlen l <= i -> rd (l ++ l') i = rd l' (i - zlen l).
Proof.
  unfold rd, zlen. intros Hi.
  rewrite (proj2 (Z.ltb_ge _ _)) by lia. rewrite (proj2 (Z.ltb_ge _ _)) by lia.
  rewrite lookup_app_r by lia.
  by replace (Z.to_nat (i - Z.of_nat (length l))) with (Z.to_nat i - length l)%nat by lia.
Qed.

Lemma rd_Ok {A} (l : list A) i x : rd l i = Ok x <-> 0 <= i /\ l !! Z.to_nat i = Some x.
Proof.
  unfold rd. destruct (Z.ltb_spec i 0); [split; [done | lia]|].
  destruct (l !! Z.to_nat i); split; [intros [= ->]; done | intros [_ [= ->]]; done | done | by intros [_ ?]].
Qed.

Lemma rd_in_bounds {A} (l : list A) i : 0 <= i < zlen l -> exists x, rd l i = Ok x.
Proof.
  unfold zlen. intros [H1 H2]. destruct (lookup_lt_is_Some_2 l (Z.to_nat i)) as [x Hx]; [lia|].
  exists x. by apply rd_Ok.
Qed.

Lemma rd_out_of_bounds {A} (l : list A) i : zlen l <= i -> rd l i = Fault OutOfBounds.
Proof.
  unfold zlen, rd. intros H. rewrite (proj2 (Z.ltb_ge _ _)) by lia.
  by rewrite lookup_ge_None_2 by lia.
Qed.

Lemma slice_app_mid m l m' : slice (m ++ l ++ m') (zlen m) (zlen l) = Ok l.
Proof.
  unfold slice. rewrite !zlen_app.
  pose proof (zlen_nonneg m). pose proof (zlen_nonneg l). pose proof (zlen_nonneg m').
  rewrite !(proj2 (Z.leb_le _ _)) by lia. simpl. f_equal.
  unfold zlen. rewrite !Nat2Z.id, drop_app_length, take_app_length. done.
Qed.

Lemma slice_at m l m' off n :
  off = zlen m -> n = zlen l -> slice (m ++ l ++ m') off n = Ok l.
Proof. intros -> ->. apply slice_app_mid. Qed.

Lemma slice_prefix l m n : n = zlen l -> slice (l ++ m) 0 n = Ok l.
Proof. intros ->. by apply (slice_at [] l m). Qed.

Lemma slice_all l : slice l 0 (zlen l) = Ok l.
Proof. pose proof (slice_prefix l [] (zlen l) eq_refl) as E. by rewrite app_nil_r in E. Qed.

Lemma slice_oob m off n : 0 <= n -> zlen m < off + n -> slice m off n = Fault OutOfBounds.
Proof.
  unfold slice. intros ? ?. rewrite (proj2 (Z.leb_gt (off + n) _)) by lia.
  by rewrite andb_false_r.
Qed.

Lemma slice_Ok_len m off n l : slice m off n = Ok l -> zlen l = n.
Proof.
  unfold slice, zlen. destruct (_ && _) eqn:E; [|done]. intros [= <-].
  rewrite length_take, length_drop. lia.
Qed.

Lemma slice_in_bounds m off n :
  0 <= off -> 0 <= n -> off + n <= zlen m ->
  slice m off n = Ok (take (Z.to_nat n) (drop (Z.to_nat off) m)).
Proof. intros. unfold slice. by rewrite !(proj2 (Z.leb_le _ _)) by lia. Qed.

Lemma blit_at m l m' src off :
  off = zlen m -> zlen src = zlen l -> blit (m ++ l ++ m') off src = Ok (m ++ src ++ m').
Proof.
  intros -> Hs. unfold blit. rewrite !zlen_app.
  pose proof (zlen_nonneg m). pose proof (zlen_nonneg l). pose proof (zlen_nonneg m').
  rewrite !(proj2 (Z.leb_le _ _)) by lia. simpl. unfold zlen in *.
  rewrite Nat2Z.id, take_app_length, (app_assoc m l m').
  replace (length m + length src)%nat with (length m + length l)%nat by lia.
  by rewrite <- length_app, drop_app_length.
Qed.

Lemma blit_prefix l m' src : zlen src = zlen l -> blit (l ++ m') 0 src = Ok (src ++ m').
Proof. by apply (blit_at [] l m' src 0). Qed.

Lemma blit_Ok_len m off src m' : blit m off src = Ok m' -> zlen m' = zlen m.
Proof.
  unfold blit, zlen. destruct (_ && _) eqn:E; [|done]. intros [= <-].
  rewrite !length_app, length_take, length_drop. lia.
Qed.
End memory.

(** ** Lemmas on machine integers *)
Lemma wrap_s_small w z : 0 < w -> - 2 ^ (w - 1) <= z < 2 ^ (w - 1) -> wrap_s w z = z.
Proof.
  intros Hw Hz. unfold wrap_s.
  replace (2 ^ w) with (2 * 2 ^ (w - 1)).
  2:{ rewrite <- Z.pow_succ_r by lia. f_equal. lia. }
  rewrite Z.mod_small by lia. lia.
Qed.

Lemma wrap_s_range w z : 0 < w -> - 2 ^ (w - 1) <= wrap_s w z < 2 ^ (w - 1).
Proof.
  intros Hw. unfold wrap_s.
  assert (2 ^ w = 2 * 2 ^ (w - 1)) as E.
  { rewrite <- Z.pow_succ_r by lia. f_equal. lia. }
  pose proof (Z.mod_pos_bound (z + 2 ^ (w - 1)) (2 ^ w) ltac:(lia)). lia.
Qed.

Lemma wrap_s_mod w z : 0 < w -> wrap_s w (z mod 2 ^ w) = wrap_s w z.
Proof. intros Hw. unfold wrap_s. by rewrite Zplus_mod_idemp_l. Qed.

(** The conversions keep the value modulo the size of the type, and depend on
    nothing else. *)
Lemma wrap_s_congr w z : 0 < w -> wrap_s w z mod 2 ^ w = z mod 2 ^ w.
Proof.
  intros Hw. unfold wrap_s. rewrite Zminus_mod, Zmod_mod, <- Zminus_mod. f_equal. lia.
Qed.

Lemma mod_mod_pow z v w : 0 <= w <= v -> (z mod 2 ^ v) mod 2 ^ w = z mod 2 ^ w.
Proof.
  intros Hw. apply Z.mod_mod_divide. exists (2 ^ (v - w)). rewrite <- Z.pow_add_r by lia. f_equal. lia.
Qed.

Lemma wrap_s_mod_larger v w z : 0 < w <= v -> wrap_s w (z mod 2 ^ v) = wrap_s w z.
Proof.
  intros Hw. rewrite <- (wrap_s_mod w (z mod 2 ^ v)), mod_mod_pow by lia. apply wrap_s_mod. lia.
Qed.

Lemma to_int_id z : is_int z -> to_int z = z.
Proof. unfold is_int, INT_MIN, INT_MAX. intros. apply wrap_s_small; lia. Qed.

Lemma to_char_id z : -128 <= z < 128 -> to_char z = z.
Proof. intros. apply wrap_s_small; lia. Qed.

Lemma to_char_range z : -128 <= to_char z < 128.
Proof. apply (wrap_s_range 8). lia. Qed.

Lemma is_intb_spec z : is_intb z = true <-> is_int z.
Proof. unfold is_intb, is_int. rewrite andb_true_iff, !Z.leb_le. done. Qed.

Lemma int_arith_Ok z : is_int z -> int_arith z = Ok z.
Proof. intros H. unfold int_arith. by rewrite (proj2 (is_intb_spec z)). Qed.

Lemma length_le n z : length (le n z) = n.
Proof. revert z. induction n; simpl; auto. Qed.

Lemma zlen_le n z : zlen (le n z) = Z.of_nat n.
Proof. unfold zlen. by rewrite length_le. Qed.

Lemma le_is_bytes n z : is_bytes (le n z).
Proof.
  revert z. induction n; simpl; intros; constructor; [|apply IHn].
  unfold is_byte. apply Z.mod_pos_bound. lia.
Qed.

Lemma le_val_le n z : le_val (le n z) = z mod 2 ^ (8 * Z.of_nat n).
Proof.
  revert z. induction n as [|n IH]; intros z; [simpl; by rewrite Z.mod_1_r|].
  cbn [le le_val]. rewrite IH.
  replace (8 * Z.of_nat (S n)) with (8 + 8 * Z.of_nat n) by lia.
  rewrite Z.pow_add_r by lia. change (2 ^ 8) with 256.
  rewrite Z.rem_mul_r by lia. lia.
Qed.

(** An [int] survives being stored in four bytes and loaded again. *)
Lemma int_of_le z : to_int (le_val (le 4 z)) = to_int z.
Proof. rewrite le_val_le. apply (wrap_s_mod 32). lia. Qed.

Lemma int_of_le_id z : is_int z -> to_int (le_val (le 4 z)) = z.
Proof. intros. rewrite int_of_le. by apply to_int_id. Qed.

(** ** Automation *)
Create HintDb cmem.
Create Rewrite HintDb cmem.
#[export] Hint Rewrite @zlen_nil @zlen_cons @zlen_app @zlen_replicate @zlen_le : cmem.
#[export] Hint Resolve zlen_nonneg le_is_bytes : cmem.

(** [bounds] closes the side conditions of the memory lemmas. *)
Ltac bounds :=
  autorewrite with cmem; simpl; unfold is_int, INT_MIN, INT_MAX in *;
  repeat match goal with
  | |- context [zlen ?l] => lazymatch goal with
      | _ : 0 <= zlen l |- _ => fail
      | _ => pose proof (zlen_nonneg l)
      end
  end; lia.

(** [step_res] peels the first computation off a hypothesis [res_bind m k = Ok b]. *)
Ltac step_res H :=
  let a := fresh "a" in let Ha := fresh "Ha" in
  apply res_bind_inv_Ok in H; destruct H as (a & Ha & H).

(** [bdestruct b] replaces a boolean comparison by its meaning. *)
Ltac bdestruct X :=
  let H := fresh "Hb" in
  destruct X eqn:H;
  rewrite ?Z.eqb_eq, ?Z.eqb_neq, ?Z.ltb_lt, ?Z.ltb_ge, ?Z.leb_le, ?Z.leb_gt in H.

(** Rounding a quotient up, the way the sources do it: divide, then add one if
    there is a remainder. *)
Lemma ceil_div_quot len plen :
  0 <= len -> 0 < plen ->
  (len + plen - 1) / plen = Z.quot len plen + (if 0 <? Z.rem len plen then 1 else 0).
Proof.
  intros H1 H2.  rewrite Z.quot_div_nonneg, Z.rem_mod_nonneg by lia.
  pose proof (Z.div_mod len plen ltac:(lia)). pose proof (Z.mod_pos_bound len plen H2).
  bdestruct (0 <? len mod plen).
  - replace (len + plen - 1) with ((len / plen + 1) * plen + (len mod plen - 1)) by lia.
    rewrite Z.div_add_l, (Z.div_small (len mod plen - 1)) by lia. lia.
  - replace (len + plen - 1) with ((len / plen) * plen + (plen - 1)) by lia.
    rewrite Z.div_add_l, (Z.div_small (plen - 1)) by lia. lia.
Qed.

(** reading after an assignment *)
Lemma rd_insert {A} (l : list A) i x j :
  0 <= i < zlen l -> rd (<[Z.to_nat i := x]> l) j = if decide (j = i) then Ok x else rd l j.
Proof.
  intros Hi. unfold rd, zlen in *. bdestruct (j <? 0); [rewrite decide_False by lia; done|].
  destruct (decide (j = i)) as [->|Hne]; [by rewrite list_lookup_insert_eq by lia|].
  by rewrite list_lookup_insert_ne by lia.
Qed.
