(* ===== verification/CStr.v ===== *)
(** * The string functions of the C library that the sources call

    A string argument is the memory from the pointer to the end of the object
    it points into; a function that runs off that object faults.  Modelled are
    [strlen], [strcmp], [strncmp], [memcmp], [strcpy], [strncat], [strtoll] in
    base 10, [strtoul] in base 0 and the decimal conversions of [printf]. *)
From Stdlib Require Import ZArith Lia Bool String.
From stdpp Require Import base numbers option list.
From S2P Require Import Prelude.

(** ** Character classes (the "C" locale) *)
Definition isspace (c : Z) : bool := (c =? 32) || ((9 <=? c) && (c <=? 13)).
Definition isdigit (c : Z) : bool := (48 <=? c) && (c <=? 57).

(** ** NUL-terminated strings *)
(** the bytes before the first NUL; [strlen] is their number *)
Fixpoint cstr (m : bytes) : res bytes :=
  match m with
  | [] => Fault OutOfBounds
  | b :: m => if b =? 0 then Ok [] else let* s := cstr m in Ok (b :: s)
  end.

Definition strlen (m : bytes) : res Z := let* s := cstr m in Ok (zlen s).

Fixpoint strcmp (a b : bytes) : res Z :=
  match a, b with
  | x :: a, y :: b => if x =? y then (if x =? 0 then Ok 0 else strcmp a b) else Ok (x - y)
  | _, _ => Fault OutOfBounds
  end.

Fixpoint strncmp (a b : bytes) (n : nat) {struct n} : res Z :=
  match n with
  | O => Ok 0
  | S n =>
      match a, b with
      | x :: a, y :: b => if x =? y then (if x =? 0 then Ok 0 else strncmp a b n) else Ok (x - y)
      | _, _ => Fault OutOfBounds
      end
  end.

Fixpoint memcmp (a b : bytes) (n : nat) {struct n} : res Z :=
  match n with
  | O => Ok 0
  | S n =>
      match a, b with
      | x :: a, y :: b => if x =? y then memcmp a b n else Ok (x - y)
      | _, _ => Fault OutOfBounds
      end
  end.

(** [strcpy(dst, src)] and [strncat(dst, src, n)]: the new contents of [dst] *)
Definition strcpy (dst src : bytes) : res bytes :=
  let* s := cstr src in blit dst 0 (s ++ [0]).

(** at most [n] bytes of [src] are read, up to its NUL *)
Fixpoint strn (m : bytes) (n : nat) {struct n} : res bytes :=
  match n with
  | O => Ok []
  | S n =>
      match m with
      | [] => Fault OutOfBounds
      | b :: m => if b =? 0 then Ok [] else let* s := strn m n in Ok (b :: s)
      end
  end.

Definition strncat (dst src : bytes) (n : nat) : res bytes :=
  let* d := cstr dst in
  let* s := strn src n in
  blit dst (zlen d) (s ++ [0]).

(** ** [strtoll(p, &endp, 10)] *)
Fixpoint skip_space (p : bytes) : bytes :=
  match p with
  | c :: p' => if isspace c then skip_space p' else p
  | [] => []
  end.

(** the digits at [p]: their value on top of [acc], and the pointer behind them *)
Fixpoint scan_digits (p : bytes) (acc : Z) : res (Z * bytes) :=
  match p with
  | [] => Fault OutOfBounds
  | c :: p' => if isdigit c then scan_digits p' (10 * acc + (c - 48)) else Ok (acc, p)
  end.

Definition clamp_llong (z : Z) : Z := Z.max LLONG_MIN (Z.min LLONG_MAX z).

(** The value, saturated to [long long], and [endp]; without any digit the
    value is 0 and [endp] is [p]. *)
Definition strtoll (p : bytes) : res (Z * bytes) :=
  let q := skip_space p in
  let* c := deref q in
  let '(neg, q) := if c =? 45 then (true, tail q) else if c =? 43 then (false, tail q) else (false, q) in
  let* d := deref q in
  if isdigit d then
    let* (v, endp) := scan_digits q 0 in
    Ok (clamp_llong (if neg then - v else v), endp)
  else Ok (0, p).

(** ** [strtoul(p, NULL, 0)] *)
Definition ULONG_MAX : Z := 2 ^ 64 - 1.

Definition digit_val (c : Z) : option Z :=
  if isdigit c then Some (c - 48)
  else if (97 <=? c) && (c <=? 122) then Some (c - 87)
  else if (65 <=? c) && (c <=? 90) then Some (c - 55)
  else None.

Definition is_digit_of (base c : Z) : bool :=
  match digit_val c with Some d => d <? base | None => false end.

Fixpoint scan_base (base : Z) (p : bytes) (acc : Z) : res Z :=
  match p with
  | [] => Fault OutOfBounds
  | c :: p =>
      match digit_val c with
      | Some d => if d <? base then scan_base base p (base * acc + d) else Ok acc
      | None => Ok acc
      end
  end.

Definition strtoul0 (p : bytes) : res Z :=
  let q := skip_space p in
  let* c := deref q in
  let '(neg, q) := if c =? 45 then (true, tail q) else if c =? 43 then (false, tail q) else (false, q) in
  let* c := deref q in
  let* v :=
    (if c =? 48 then
       let* x := deref (tail q) in
       if (x =? 120) || (x =? 88) then
         let* h := deref (tail (tail q)) in
         if is_digit_of 16 h then scan_base 16 (tail (tail q)) 0 else Ok 0
       else scan_base 8 q 0
     else scan_base 10 q 0) in
  Ok (if ULONG_MAX <? v then ULONG_MAX else if neg then (- v) mod 2 ^ 64 else v).

(** ** Decimal output: ["%zu"] of a non-negative and ["%d"] of any integer *)
Fixpoint udec_aux (fuel : nat) (n : Z) (acc : bytes) : bytes :=
  match fuel with
  | O => acc
  | S fuel =>
      let acc := (48 + n mod 10) :: acc in
      if n <? 10 then acc else udec_aux fuel (n / 10) acc
  end.

Definition udec (n : Z) : bytes := udec_aux (S (Z.to_nat (Z.log2 n))) n [].

Definition dec (z : Z) : bytes := if z <? 0 then 45 :: udec (- z) else udec z.

(** ** Lemmas: strings *)
(** A string without an embedded NUL. *)
Definition no_nul (s : bytes) : Prop := Forall (fun b => b <> 0) s.

Lemma cstr_app s m : no_nul s -> cstr (s ++ 0 :: m) = Ok s.
Proof.
  induction 1 as [|b s Hb Hs IH]; [done|].
  simpl. rewrite (proj2 (Z.eqb_neq _ _) Hb). by rewrite IH.
Qed.

Lemma cstr_no_nul m s : cstr m = Ok s -> no_nul s /\ exists m', m = s ++ 0 :: m'.
Proof.
  revert s. induction m as [|b m IH]; simpl; intros s H; [done|].
  bdestruct (b =? 0).
  - injection H as <-. subst. split; [constructor | by exists m].
  - step_res H. injection H as <-. destruct (IH _ Ha) as (? & m' & ->).
    split; [by constructor | by exists m'].
Qed.

Lemma cstr_none m : no_nul m -> cstr m = Fault OutOfBounds.
Proof.
  induction 1 as [|b m Hb _ IH]; [done|]. simpl.
  rewrite (proj2 (Z.eqb_neq _ _) Hb). by rewrite IH.
Qed.

Lemma strlen_app s m : no_nul s -> strlen (s ++ 0 :: m) = Ok (zlen s).
Proof. intros. unfold strlen. by rewrite cstr_app. Qed.

Lemma strcmp_cstr a b s t :
  cstr a = Ok s -> cstr b = Ok t ->
  exists d, strcmp a b = Ok d /\ (d = 0 <-> s = t).
Proof.
  revert b s t. induction a as [|x a IH]; intros b s t Ha Hb; [done|].
  destruct b as [|y b]; [done|]. simpl in *.
  bdestruct (x =? y).
  - subst y. bdestruct (x =? 0).
    + injection Ha as <-. injection Hb as <-. by exists 0.
    + step_res Ha. injection Ha as <-. step_res Hb. injection Hb as <-.
      destruct (IH b _ _ ltac:(eassumption) ltac:(eassumption)) as (d & Hd & Heq).
      exists d. split; [done|]. rewrite Heq. split; congruence.
  - exists (x - y). split; [done|]. split; [lia|]. intros ->.
    bdestruct (x =? 0); bdestruct (y =? 0);
      try step_res Ha; try step_res Hb; simplify_eq; lia.
Qed.

Lemma strcmp_str_eq s t m m' :
  no_nul s -> no_nul t ->
  exists d, strcmp (s ++ 0 :: m) (t ++ 0 :: m') = Ok d /\ (d = 0 <-> s = t).
Proof. intros. apply strcmp_cstr; by apply cstr_app. Qed.

Lemma strncmp_word s m a :
  no_nul s -> (length s <= length a)%nat ->
  exists d, strncmp a (s ++ 0 :: m) (length s) = Ok d /\ (d = 0 <-> take (length s) a = s).
Proof.
  intros Hs. revert a. induction Hs as [|y s Hy Hs IH]; intros a Ha; [by exists 0|].
  destruct a as [|x a]; [simpl in Ha; lia|]. cbn [length strncmp take app]. bdestruct (x =? y).
  - subst y. rewrite (proj2 (Z.eqb_neq x 0) Hy). destruct (IH a) as (d & Hd & E); [simpl in Ha; lia|].
    exists d. split; [done|]. rewrite E. split; [by intros ->|]. by intros [= ?].
  - exists (x - y). split; [done|]. split; [lia|]. intros [=]. done.
Qed.

Lemma memcmp_eq a b n :
  (n <= length a)%nat -> (n <= length b)%nat ->
  exists d, memcmp a b n = Ok d /\ (d = 0 <-> take n a = take n b).
Proof.
  revert a b. induction n as [|n IH]; intros a b Ha Hb; [exists 0; split; [done|split; done]|].
  destruct a as [|x a], b as [|y b]; simpl in *; [lia..|].
  bdestruct (x =? y).
  - subst. destruct (IH a b) as (d & -> & Hd); [lia..|]. exists d. split; [done|].
    rewrite Hd. split; congruence.
  - exists (x - y). split; [done|]. split; [lia|congruence].
Qed.

Lemma strn_app s n m : no_nul s -> (length s <= n)%nat -> strn (s ++ 0 :: m) n = Ok s.
Proof.
  intros Hs. revert n. induction Hs as [|b s Hb Hs IH]; intros n Hn; [by destruct n|].
  destruct n as [|n]; simpl in *; [lia|].
  rewrite (proj2 (Z.eqb_neq b 0)) by done. by rewrite IH by lia.
Qed.

Lemma no_nul_app s t : no_nul (s ++ t) <-> no_nul s /\ no_nul t.
Proof. apply Forall_app. Qed.

(** [strncat] of a string that fits appends it in place. *)
Lemma strncat_fits d s dm sm k :
  no_nul d -> no_nul s -> (length s <= k)%nat -> (length s <= length dm)%nat ->
  strncat (d ++ 0 :: dm) (s ++ 0 :: sm) k = Ok ((d ++ s) ++ 0 :: drop (length s) dm).
Proof.
  intros Hd Hs Hk Hl. unfold strncat. rewrite cstr_app by done. simpl.
  rewrite strn_app by done. simpl.
  replace (d ++ 0 :: dm) with (d ++ (0 :: take (length s) dm) ++ drop (length s) dm)
    by (simpl; by rewrite take_drop).
  rewrite (blit_at d); [|done|].
  - by rewrite <- !app_assoc.
  - unfold zlen. simpl. rewrite length_app, length_take. simpl. lia.
Qed.

Lemma strncat_overflow d s dm sm k :
  no_nul d -> no_nul s -> (length s <= k)%nat -> (length dm < length s)%nat ->
  strncat (d ++ 0 :: dm) (s ++ 0 :: sm) k = Fault OutOfBounds.
Proof.
  intros Hd Hs Hk Hl. unfold strncat. rewrite cstr_app by done. simpl.
  rewrite strn_app by done. simpl. unfold blit.
  rewrite (proj2 (Z.leb_gt (zlen d + _) _)); [by rewrite andb_false_r|].
  unfold zlen. rewrite !length_app. simpl. lia.
Qed.

(** ** Lemmas: decimal numbers *)
Definition all_digits (s : bytes) : Prop := Forall (fun c => isdigit c = true) s.

Definition digits_val (acc : Z) (s : bytes) : Z :=
  fold_left (fun a c => 10 * a + (c - 48)) s acc.

Lemma digits_val_app acc s t : digits_val acc (s ++ t) = digits_val (digits_val acc s) t.
Proof. apply fold_left_app. Qed.

Lemma scan_digits_app s acc c m :
  all_digits s -> isdigit c = false ->
  scan_digits (s ++ c :: m) acc = Ok (digits_val acc s, c :: m).
Proof.
  intros Hs Hc. revert acc.
  induction Hs as [|d s Hd Hs IH]; intros acc; simpl; [by rewrite Hc|]. by rewrite Hd, IH.
Qed.

Lemma udec_aux_app fuel n acc acc' :
  udec_aux fuel n (acc ++ acc') = udec_aux fuel n acc ++ acc'.
Proof.
  revert n acc. induction fuel as [|fuel IH]; intros n acc; [done|]. simpl.
  destruct (n <? 10); [done|]. apply (IH _ (_ :: acc)).
Qed.

Lemma udec_aux_spec fuel n :
  0 <= n < 2 ^ Z.of_nat fuel -> (0 < fuel)%nat ->
  exists d s, udec_aux fuel n [] = d :: s /\ all_digits (d :: s) /\ digits_val 0 (d :: s) = n.
Proof.
  revert n. induction fuel as [|fuel IH]; intros n Hn Hf; [lia|]. cbn [udec_aux].
  pose proof (Z.mod_pos_bound n 10 ltac:(lia)).
  assert (isdigit (48 + n mod 10) = true) as Hd by (unfold isdigit; lia).
  bdestruct (n <? 10).
  - exists (48 + n mod 10), []. split; [done|]. split; [by repeat constructor|].
    simpl. rewrite Z.mod_small by lia. lia.
  - rewrite Nat2Z.inj_succ, Z.pow_succ_r in Hn by lia.
    destruct fuel as [|fuel]; [simpl in Hn; lia|].
    destruct (IH (n / 10)) as (d & s & Heq & Hs & Hv); [|lia|].
    { split; [apply Z.div_pos; lia|]. apply Z.div_lt_upper_bound; lia. }
    exists d, (s ++ [48 + n mod 10]).
    change [48 + n mod 10] with ([] ++ [48 + n mod 10]) at 1. rewrite udec_aux_app, Heq.
    split; [done|]. split.
    + apply (Forall_app _ (d :: s)). split; [done | by repeat constructor].
    + rewrite app_comm_cons, digits_val_app, Hv. simpl. pose proof (Z.div_mod n 10). lia.
Qed.

(** The digits printed for a number are at least one, and read back as it. *)
Lemma udec_spec n :
  0 <= n -> exists d s, udec n = d :: s /\ all_digits (d :: s) /\ digits_val 0 (d :: s) = n.
Proof.
  intros Hn. apply udec_aux_spec; [|lia]. split; [done|].
  rewrite Nat2Z.inj_succ, Z2Nat.id by apply Z.log2_nonneg.
  destruct (Z.eq_dec n 0) as [->|]; [done|]. apply Z.log2_spec. lia.
Qed.

Lemma isdigit_range c : isdigit c = true <-> 48 <= c <= 57.
Proof. unfold isdigit. lia. Qed.

Lemma isdigit_not_space c : isdigit c = true -> isspace c = false.
Proof. unfold isdigit, isspace. lia. Qed.

Lemma all_digits_no_nul s : all_digits s -> no_nul s.
Proof. intros Hs. eapply Forall_impl; [exact Hs|]. intros c. unfold isdigit. lia. Qed.

Lemma clamp_llong_id z : LLONG_MIN <= z <= LLONG_MAX -> clamp_llong z = z.
Proof. unfold clamp_llong. lia. Qed.

(** [strtoll] reads back what [dec] prints, and stops right behind it. *)
Lemma strtoll_udec n c m :
  0 <= n <= LLONG_MAX -> isdigit c = false ->
  strtoll (udec n ++ c :: m) = Ok (n, c :: m).
Proof.
  intros Hn Hc. destruct (udec_spec n) as (d & s & -> & Hs & Hv); [lia|].
  assert (isdigit d = true) as Hd by (by inversion Hs).
  pose proof (isdigit_not_space d Hd) as Hsp. apply isdigit_range in Hd as Hr.
  unfold strtoll. rewrite <- app_comm_cons. cbn [skip_space]. rewrite Hsp.
  cbn [deref res_bind]. rewrite !(proj2 (Z.eqb_neq d _)) by lia.
  cbn [deref res_bind]. rewrite Hd, app_comm_cons, scan_digits_app by done. cbn [res_bind].
  rewrite Hv, clamp_llong_id; [done|]. unfold LLONG_MIN, LLONG_MAX in *. lia.
Qed.

Lemma strtoll_dec z c m :
  LLONG_MIN <= z <= LLONG_MAX -> isdigit c = false ->
  strtoll (dec z ++ c :: m) = Ok (z, c :: m).
Proof.
  intros Hz Hc. unfold dec. bdestruct (z <? 0); [|apply strtoll_udec; [lia|done]].
  destruct (udec_spec (- z)) as (d & s & -> & Hs & Hv); [lia|].
  assert (isdigit d = true) as Hd by (by inversion Hs).
  unfold strtoll. cbn [app skip_space]. cbn -[scan_digits isdigit clamp_llong]. rewrite Hd.
  rewrite app_comm_cons, scan_digits_app by done. cbn [res_bind].
  rewrite Hv, clamp_llong_id by lia. by rewrite Z.opp_involutive.
Qed.

Lemma udec_no_nul n : 0 <= n -> no_nul (udec n).
Proof. intros H. destruct (udec_spec n H) as (d & s & -> & Hs & _). by apply all_digits_no_nul. Qed.

(** What [strtoll] reads is a suffix of its argument. *)
Lemma skip_space_suffix p : exists q, p = q ++ skip_space p.
Proof.
  induction p as [|c p [q IH]]; [by exists []|]. simpl. destruct (isspace c); [|by exists []].
  exists (c :: q). simpl. by f_equal.
Qed.

Lemma scan_digits_suffix p acc v e :
  scan_digits p acc = Ok (v, e) -> exists q, p = q ++ e.
Proof.
  revert acc. induction p as [|c p IH]; intros acc; simpl; [done|].
  destruct (isdigit c).
  - intros H. destruct (IH _ H) as [q ->]. by exists (c :: q).
  - intros [= _ <-]. by exists [].
Qed.

Lemma scan_digits_pos p acc v e c :
  scan_digits (c :: p) acc = Ok (v, e) -> isdigit c = true -> exists q, p = q ++ e.
Proof. simpl. intros H Hc. rewrite Hc in H. by apply scan_digits_suffix in H. Qed.

(** ** Lemmas: [strtoul] in base 0 *)
Lemma udec_aux_head fuel n :
  0 < n < 2 ^ Z.of_nat fuel -> exists d s, udec_aux fuel n [] = d :: s /\ d <> 48.
Proof.
  revert n. induction fuel as [|fuel IH]; intros n Hn; [simpl in Hn; lia|]. cbn [udec_aux].
  bdestruct (n <? 10).
  - exists (48 + n mod 10), []. split; [done|]. rewrite Z.mod_small by lia. lia.
  - rewrite Nat2Z.inj_succ, Z.pow_succ_r in Hn by lia.
    destruct (IH (n / 10)) as (d & s & Heq & Hd).
    { split; [apply Z.div_str_pos; lia|]. apply Z.div_lt_upper_bound; lia. }
    exists d, (s ++ [48 + n mod 10]). split; [|done].
    change [48 + n mod 10] with ([] ++ [48 + n mod 10]) at 1. by rewrite udec_aux_app, Heq.
Qed.

(** Only 0 is printed with a leading zero. *)
Lemma udec_head n : 0 < n -> exists d s, udec n = d :: s /\ d <> 48.
Proof.
  intros Hn. apply udec_aux_head. split; [done|].
  rewrite Nat2Z.inj_succ, Z2Nat.id by apply Z.log2_nonneg. apply Z.log2_spec. lia.
Qed.

Lemma udec_aux_length k : forall fuel n acc, 0 <= n < 10 ^ Z.of_nat (S k) ->
  (length (udec_aux fuel n acc) <= S k + length acc)%nat.
Proof.
  induction k as [|k IH]; intros [|fuel] n acc Hn; cbn [udec_aux]; [lia| |lia|].
  - rewrite (proj2 (Z.ltb_lt n 10)) by (simpl in Hn; lia). cbn [length]. lia.
  - destruct (n <? 10); [cbn [length]; lia|].
    specialize (IH fuel (n / 10) (48 + n mod 10 :: acc)). cbn [length] in IH.
    rewrite (Nat2Z.inj_succ (S k)), Z.pow_succ_r in Hn by lia.
    assert (0 <= n / 10 < 10 ^ Z.of_nat (S k)) as Hq
      by (split; [apply Z.div_pos; lia|apply Z.div_lt_upper_bound; lia]).
    specialize (IH Hq). lia.
Qed.

(** A number below [10 ^ k] has at most [k] digits. *)
Lemma udec_length10 k n : 0 <= n < 10 ^ Z.of_nat (S k) -> (length (udec n) <= S k)%nat.
Proof. intros Hn. pose proof (udec_aux_length k (S (Z.to_nat (Z.log2 n))) n [] Hn). unfold udec. simpl in *. lia. Qed.

Lemma scan_base_10 s acc m :
  all_digits s -> scan_base 10 (s ++ 0 :: m) acc = Ok (digits_val acc s).
Proof.
  intros Hs. revert acc. induction Hs as [|d s Hd Hs IH]; intros acc; [done|].
  cbn [app scan_base digits_val fold_left]. unfold digit_val. rewrite Hd. apply isdigit_range in Hd.
  by rewrite (proj2 (Z.ltb_lt _ _)), IH by lia.
Qed.

Lemma strtoul0_udec n m : 0 <= n <= ULONG_MAX -> strtoul0 (udec n ++ 0 :: m) = Ok n.
Proof.
  intros Hn. destruct (Z.eq_dec n 0) as [->|H0]; [done|].
  destruct (udec_head n) as (d & s & E & Hd); [lia|]. destruct (udec_spec n) as (d' & s' & E' & Hs & Hv); [lia|].
  rewrite E in E'. injection E' as <- <-. rewrite E.
  assert (isdigit d = true) as Hdd by (by inversion Hs). pose proof (isdigit_not_space d Hdd) as Hsp.
  apply isdigit_range in Hdd as Hr. unfold strtoul0. rewrite <- app_comm_cons. cbn [skip_space]. rewrite Hsp.
  cbn [deref res_bind]. rewrite (proj2 (Z.eqb_neq d 45)), (proj2 (Z.eqb_neq d 43)) by lia. cbn [deref res_bind].
  rewrite (proj2 (Z.eqb_neq d 48)) by lia. rewrite app_comm_cons, scan_base_10 by done. cbn [res_bind].
  rewrite Hv. by rewrite (proj2 (Z.ltb_ge _ _)) by lia.
Qed.

(** [strtoul] reads back what ["%d"] prints, as an [unsigned long]. *)
Lemma strtoul0_dec z m : LLONG_MIN <= z <= LLONG_MAX -> strtoul0 (dec z ++ 0 :: m) = Ok (z mod 2 ^ 64).
Proof.
  unfold LLONG_MIN, LLONG_MAX. intros Hz. unfold dec. bdestruct (z <? 0).
  - destruct (udec_head (- z)) as (d & s & E & Hd); [lia|]. destruct (udec_spec (- z)) as (d' & s' & E' & Hs & Hv); [lia|].
    rewrite E in E'. injection E' as <- <-. rewrite E. unfold strtoul0. cbn [app skip_space].
    change (isspace 45) with false. cbn [deref res_bind Z.eqb Pos.eqb tail].
    rewrite (proj2 (Z.eqb_neq d 48)) by lia. rewrite app_comm_cons, scan_base_10 by done. cbn [res_bind].
    rewrite Hv, (proj2 (Z.ltb_ge _ _)) by (unfold ULONG_MAX; lia). by rewrite Z.opp_involutive.
  - rewrite strtoul0_udec by (unfold ULONG_MAX; lia). by rewrite Z.mod_small by lia.
Qed.

(** ** Lemmas: the characters and the length of a printed number *)
Lemma dec_chars z : Forall (fun c => c <> 0 /\ c <> 58) (dec z).
Proof.
  assert (forall n, 0 <= n -> Forall (fun c => c <> 0 /\ c <> 58) (udec n)) as H.
  { intros n Hn. destruct (udec_spec n Hn) as (d & s & -> & Hs & _). eapply Forall_impl; [exact Hs|].
    intros c Hc%isdigit_range. lia. }
  unfold dec. destruct (Z.ltb_spec z 0); [constructor; [done|]|]; apply H; lia.
Qed.

Lemma dec_no_nul z : no_nul (dec z).
Proof. eapply Forall_impl; [apply dec_chars|]. by intros c [? ?]. Qed.

Lemma dec_no_colon z : Forall (fun c => c <> 58) (dec z).
Proof. eapply Forall_impl; [apply dec_chars|]. by intros c [? ?]. Qed.

Lemma dec_length10 k z : - 10 ^ Z.of_nat (S k) < z < 10 ^ Z.of_nat (S k) -> (length (dec z) <= S (S k))%nat.
Proof.
  intros Hz. unfold dec. destruct (Z.ltb_spec z 0).
  - cbn [length]. pose proof (udec_length10 k (- z)). lia.
  - pose proof (udec_length10 k z). lia.
Qed.
