(* ===== verification/Bencode.v ===== *)
(** * The bencode decoder (src/src/bencode.c, lines 35-198)

    A pointer into the encoded data is the list of the bytes from it to the
    end of the object; [++] on a pointer at or past the end leaves [[]], which
    faults as soon as it is read.  The decoding functions take the pointer and
    the count [data_len] by address: here they return the new ones.
    Allocation is assumed to succeed. *)
From Stdlib Require Import ZArith Lia Bool String.
From stdpp Require Import base numbers option list.
From S2P Require Import Prelude CStr.


(** ** Data *)
Inductive be_type := T_STR | T_INT | T_LIST | T_DICT.

(** A node.  [BE_STR None] holds a null pointer; [BE_STR (Some s)] the string
    [s] behind its 8-byte length.  The array of a list holds its non-null
    elements (the terminating null pointer is implicit), the array of a
    dictionary all entries stored before the one whose [val] was set to NULL
    at the end; an entry stored before may have a null [key] or [val]. *)
Inductive be_node :=
  | BE_STR (s : option bytes)
  | BE_INT (i : Z)
  | BE_LIST (l : list be_node)
  | BE_DICT (d : list (option bytes * option be_node)).

(** ** Operations *)
(** the value of [endp - *data] *)
Definition consumed (data endp : bytes) : Z := zlen data - zlen endp.

Definition _be_decode_int (data : bytes) (data_len : Z) : res (Z * bytes * Z) :=
  let* (ret, endp) := strtoll data in
  Ok (ret, endp, data_len - consumed data endp).

Definition be_str_len (node : be_node) : res Z :=
  match node with
  | BE_STR None => Ok 0
  | BE_STR (Some s) => Ok (zlen s)
  | _ => Fault BadUnion
  end.

Definition _be_decode_str (data : bytes) (data_len : Z) : res (option bytes * bytes * Z) :=
  let* (sllen, data, data_len) := _be_decode_int data data_len in
  if sllen <? 0 then Ok (None, data, data_len)
  else if data_len - 1 <? sllen then Ok (None, data, data_len)
  else
    let* c := deref data in
    if c =? 58 (* ':' *) then
      let* s := slice data 1 sllen in
      Ok (Some s, drop (Z.to_nat (sllen + 1)) data, data_len - (sllen + 1))
    else Ok (None, data, data_len).

(** The end of the list and dictionary cases: skip the ['e'] (or whatever
    stopped the loop) and store the terminating NULL, which goes through a null
    pointer when the array was never allocated. *)
Definition close_array (allocated : bool) (ret : be_node) (data : bytes) (data_len : Z)
  : res (option be_node * bytes * Z) :=
  if allocated then Ok (Some ret, tail data, data_len - 1) else Fault NullDeref.

(** [ret->val.l[i]] of a dictionary: word [i] of the array of (key, val)
    pairs, tested for NULL. *)
Definition dict_word (d : list (option bytes * option be_node)) (i : nat) : res bool :=
  match d !! (i / 2)%nat with
  | Some (key, val) => Ok (if Nat.even i then bool_decide (is_Some key) else bool_decide (is_Some val))
  | None => Fault Uninit
  end.

Fixpoint _be_decode (fuel : nat) (data : bytes) (data_len : Z) {struct fuel}
  : res (option be_node * bytes * Z) :=
  match fuel with
  | O => Fault NoFuel
  | S fuel =>
      if data_len =? 0 then Ok (None, data, data_len) else
      let* c := deref data in
      if c =? 108 (* 'l' *) then decode_list fuel [] false (tail data) (data_len - 1)
      else if c =? 100 (* 'd' *) then decode_dict fuel [] false (tail data) (data_len - 1)
      else if c =? 105 (* 'i' *) then
        let* (i, data, data_len) := _be_decode_int (tail data) (data_len - 1) in
        let* c := deref data in
        if c =? 101 then Ok (Some (BE_INT i), tail data, data_len - 1)
        else Ok (None, data, data_len)
      else if isdigit c then
        let* (s, data, data_len) := _be_decode_str data data_len in
        Ok (Some (BE_STR s), data, data_len)
      else Ok (None, data, data_len)
  end
(** the [while] loop of case ['l']; [l] holds the elements stored so far *)
with decode_list (fuel : nat) (l : list be_node) (allocated : bool) (data : bytes) (data_len : Z)
  {struct fuel} : res (option be_node * bytes * Z) :=
  match fuel with
  | O => Fault NoFuel
  | S fuel =>
      let* c := deref data in
      if c =? 101 (* 'e' *) then close_array allocated (BE_LIST l) data data_len else
      let* (n, data, data_len) := _be_decode fuel data data_len in
      match n with
      | None => close_array true (BE_LIST l) data data_len
      | Some n => decode_list fuel (l ++ [n]) true data data_len
      end
  end
(** the [while] loop of case ['d']; it tests [val.l[i]], not [val.d[i]] *)
with decode_dict (fuel : nat) (d : list (option bytes * option be_node)) (allocated : bool)
  (data : bytes) (data_len : Z) {struct fuel} : res (option be_node * bytes * Z) :=
  match fuel with
  | O => Fault NoFuel
  | S fuel =>
      let* c := deref data in
      if c =? 101 then close_array allocated (BE_DICT d) data data_len else
      let* (key, data, data_len) := _be_decode_str data data_len in
      let* (val, data, data_len) := _be_decode fuel data data_len in
      let* nonnull := dict_word (d ++ [(key, val)]) (length d) in
      if nonnull then decode_dict fuel (d ++ [(key, val)]) true data data_len
      else close_array true (BE_DICT d) data data_len
  end.

(** A bound on the recursion that is always enough (see [_be_decode_terminates]). *)
Definition decode_fuel (data : bytes) : nat := 2 * length data + 1.

Definition be_decoden (data : bytes) (len : Z) : res (option be_node * bytes * Z) :=
  _be_decode (decode_fuel data) data len.

Definition be_decode (data : bytes) : res (option be_node * bytes * Z) :=
  let* len := strlen data in be_decoden data len.

(** ** Reference encoder

    The bencode format itself: values, their encoding, and the tree that
    decoding it must give. *)
Inductive bval :=
  | VStr (s : bytes)
  | VInt (z : Z)
  | VList (l : list bval)
  | VDict (d : list (bytes * bval)).

Definition enc_str (s : bytes) : bytes := udec (zlen s) ++ 58 :: s.

Fixpoint bencode (v : bval) : bytes :=
  match v with
  | VStr s => enc_str s
  | VInt z => 105 :: dec z ++ [101]
  | VList l => 108 :: concat (map bencode l) ++ [101]
  | VDict d => 100 :: concat (map (fun kv => enc_str (fst kv) ++ bencode (snd kv)) d) ++ [101]
  end.

Fixpoint to_node (v : bval) : be_node :=
  match v with
  | VStr s => BE_STR (Some s)
  | VInt z => BE_INT z
  | VList l => BE_LIST (map to_node l)
  | VDict d => BE_DICT (map (fun kv => (Some (fst kv), Some (to_node (snd kv)))) d)
  end.

(** What fits the machine: integers of type [long long], string lengths too. *)
Fixpoint ranged (v : bval) : Prop :=
  match v with
  | VStr s => zlen s <= LLONG_MAX
  | VInt z => LLONG_MIN <= z <= LLONG_MAX
  | VList l => fold_right and True (map ranged l)
  | VDict d => fold_right and True (map (fun kv => zlen (fst kv) <= LLONG_MAX /\ ranged (snd kv)) d)
  end.

(** An empty list or dictionary at any depth. *)
Fixpoint has_empty (v : bval) : bool :=
  match v with
  | VStr _ | VInt _ => false
  | VList [] | VDict [] => true
  | VList l => existsb has_empty l
  | VDict d => existsb (fun kv => has_empty (snd kv)) d
  end.

Section bval_ind.
Variable P : bval -> Prop.
Hypothesis Hstr : forall s, P (VStr s).
Hypothesis Hint : forall z, P (VInt z).
Hypothesis Hlist : forall l, Forall P l -> P (VList l).
Hypothesis Hdict : forall d, Forall (fun kv => P (snd kv)) d -> P (VDict d).

Fixpoint bval_nested_ind (v : bval) : P v :=
  match v with
  | VStr s => Hstr s
  | VInt z => Hint z
  | VList l => Hlist l ((fix go l : Forall P l :=
      match l with
      | [] => List.Forall_nil P
      | v :: l => List.Forall_cons P v l (bval_nested_ind v) (go l)
      end) l)
  | VDict d => Hdict d ((fix go d : Forall (fun kv => P (snd kv)) d :=
      match d with
      | [] => List.Forall_nil _
      | kv :: d => List.Forall_cons _ kv d (bval_nested_ind (snd kv)) (go d)
      end) d)
  end.
End bval_ind.
