(* ===== verification/BencodeSpec.v ===== *)
(** * Correctness of the bencode decoder

    The round trip with the reference encoder of [Bencode], termination of the
    recursion on every input, the bounds of the string copies, and the inputs on
    which the decoder leaves the C standard. *)
From Stdlib Require Import ZArith Lia Bool String.
From stdpp Require Import base numbers option list.
From S2P Require Import Prelude CStr Bencode.

(** ** Round trip *)
Lemma enc_str_head s : exists c m, enc_str s = c :: m /\ isdigit c = true.
Proof.
  destruct (udec_spec (zlen s)) as (c & m & E & Hd & _); [apply zlen_nonneg|].
  unfold enc_str. rewrite E. exists c, (m ++ 58 :: s). split; [done|]. by inversion Hd.
Qed.

(** The first byte of an encoding selects the decoder's case. *)
Lemma bencode_head v : exists c m, bencode v = c :: m /\ c <> 101.
Proof.
  destruct v as [s|z|l|d]; simpl; [|by eexists _, _..].
  destruct (enc_str_head s) as (c & m & -> & Hc). exists c, m. split; [done|].
  apply isdigit_range in Hc. lia.
Qed.

Lemma decode_str_enc s rest k :
  zlen s <= LLONG_MAX -> 0 <= k ->
  _be_decode_str (enc_str s ++ rest) (zlen (enc_str s) + k) = Ok (Some s, rest, k).
Proof.
  intros Hs Hk. unfold _be_decode_str, _be_decode_int, enc_str. pose proof (zlen_nonneg s).
  rewrite <- app_assoc, <- app_comm_cons, strtoll_udec by (done || lia).
  unfold consumed. cbn [res_bind]. rewrite (proj2 (Z.ltb_ge _ 0)) by lia.
  rewrite (proj2 (Z.ltb_ge _ _)) by bounds. cbn [res_bind deref Z.eqb Pos.eqb].
  rewrite (slice_at [58] s rest) by done. cbn [res_bind]. do 3 f_equal.
  - replace (Z.to_nat (zlen s + 1)) with (S (length s)) by (unfold zlen; lia).
    simpl. by rewrite drop_app_length.
  - bounds.
Qed.

Lemma dict_word_Some d i :
  (i <= length d)%nat ->
  Forall (fun kv => is_Some (fst kv) /\ is_Some (snd kv)) d ->
  (i < 2 * length d)%nat -> dict_word d i = Ok true.
Proof.
  intros Hi Hd Hl. unfold dict_word.
  destruct (lookup_lt_is_Some_2 d (i / 2)) as [[key val] E].
  { apply Nat.Div0.div_lt_upper_bound. lia. }
  rewrite E. apply (Forall_lookup_1 _ _ _ _ Hd) in E as [Hk Hv].
  rewrite !bool_decide_eq_true_2 by done. by destruct (Nat.even i).
Qed.

(** What the decoder does on an encoded value: it consumes exactly it, unless
    there is an empty list or dictionary, whose terminator is stored through a
    null pointer. *)
Definition outcome (empty : bool) (node : be_node) (rest : bytes) (k : Z)
  : res (option be_node * bytes * Z) :=
  if empty then Fault NullDeref else Ok (Some node, rest, k).

Definition decodes (v : bval) : Prop := forall fuel rest k,
  (2 * length (bencode v) < fuel)%nat -> 0 <= k ->
  _be_decode fuel (bencode v ++ rest) (zlen (bencode v) + k) = outcome (has_empty v) (to_node v) rest k.

Lemma decodes_str s : zlen s <= LLONG_MAX -> decodes (VStr s).
Proof.
  intros Hs fuel rest k Hf Hk. destruct fuel as [|fuel]; [lia|].
  destruct (enc_str_head s) as (c & m & E & Hc). pose proof (proj1 (isdigit_range c) Hc).
  cbn [_be_decode bencode to_node]. rewrite (proj2 (Z.eqb_neq _ 0)) by (rewrite E; bounds).
  rewrite E at 1. cbn [app deref res_bind].
  rewrite !(proj2 (Z.eqb_neq c _)) by lia. rewrite Hc, decode_str_enc by done. done.
Qed.

Lemma decodes_int z : LLONG_MIN <= z <= LLONG_MAX -> decodes (VInt z).
Proof.
  intros Hz fuel rest k Hf Hk. destruct fuel as [|fuel]; [lia|].
  cbn [_be_decode bencode to_node]. rewrite (proj2 (Z.eqb_neq _ 0)) by bounds.
  cbn [app deref res_bind Z.eqb Pos.eqb tail]. unfold _be_decode_int.
  rewrite <- app_assoc. cbn [app]. rewrite strtoll_dec by done.
  cbn [app deref res_bind Z.eqb Pos.eqb tail]. unfold consumed, outcome. cbn [has_empty]. do 3 f_equal. bounds.
Qed.

Lemma decodes_dec v fuel rest k :
  decodes v -> has_empty v = false -> (2 * length (bencode v) < fuel)%nat -> 0 <= k ->
  _be_decode fuel (bencode v ++ rest) (zlen (bencode v) + k) = Ok (Some (to_node v), rest, k).
Proof. intros Hv He Hf Hk. rewrite Hv by done. by rewrite He. Qed.

(** Decoding the elements of a list, one after the other: the loop continues
    behind them, or faults inside the first that does not decode. *)
Lemma decode_list_elems l :
  Forall decodes l -> forall fuel acc alloc rest k,
  (2 * length (concat (map bencode l)) + 1 < fuel)%nat -> 0 <= k ->
  exists fuel', (fuel - 2 * length (concat (map bencode l)) <= fuel')%nat /\
  decode_list fuel acc alloc (concat (map bencode l) ++ rest) (zlen (concat (map bencode l)) + k) =
  if existsb has_empty l then Fault NullDeref
  else decode_list fuel' (acc ++ map to_node l) (alloc || negb (bool_decide (l = []))) rest k.
Proof.
  induction 1 as [|v l Hv Hl IH]; intros fuel acc alloc rest k Hf Hk.
  - exists fuel. split; [simpl; lia|]. simpl. by rewrite app_nil_r, orb_false_r.
  - destruct fuel as [|fuel]; [lia|].
    destruct (bencode_head v) as (c & m & E & Hc). cbn [map concat decode_list existsb] in *.
    rewrite length_app in *. set (tl := concat _) in *.
    destruct (IH fuel (acc ++ [to_node v]) true rest k) as (fuel' & Hf' & IH');
      [rewrite E in Hf; simpl in Hf; lia|done|].
    exists fuel'. split; [rewrite E in *; simpl in *; lia|].
    rewrite E at 1. cbn [app deref res_bind]. rewrite (proj2 (Z.eqb_neq c _)) by done.
    rewrite <- app_assoc, zlen_app, <- Z.add_assoc, Hv by (lia || bounds). unfold outcome.
    destruct (has_empty v); [done|]. cbn [res_bind orb]. rewrite IH', <- app_assoc, orb_true_r. done.
Qed.

Lemma decode_dict_entries d :
  Forall (fun kv => zlen (fst kv) <= LLONG_MAX /\ decodes (snd kv)) d ->
  forall fuel acc alloc rest k,
  Forall (fun kv => is_Some (fst kv) /\ is_Some (snd kv)) acc ->
  let enc := concat (map (fun kv => enc_str (fst kv) ++ bencode (snd kv)) d) in
  (2 * length enc + 1 < fuel)%nat -> 0 <= k ->
  exists fuel', (fuel - 2 * length enc <= fuel')%nat /\
  decode_dict fuel acc alloc (enc ++ rest) (zlen enc + k) =
  if existsb (fun kv => has_empty (snd kv)) d then Fault NullDeref
  else decode_dict fuel' (acc ++ map (fun kv => (Some (fst kv), Some (to_node (snd kv)))) d)
         (alloc || negb (bool_decide (d = []))) rest k.
Proof.
  induction 1 as [|[key v] d [Hkey Hv] Hd IH]; intros fuel acc alloc rest k Hacc enc Hf Hk; subst enc.
  - exists fuel. split; [simpl; lia|]. simpl. by rewrite app_nil_r, orb_false_r.
  - destruct fuel as [|fuel]; [lia|].
    destruct (enc_str_head key) as (c & m & E & Hc). apply isdigit_range in Hc.
    cbn [map concat decode_dict existsb fst snd] in *. rewrite !length_app in *. set (tl := concat _) in *.
    assert (Forall (fun kv => is_Some (fst kv) /\ is_Some (snd kv))
      (acc ++ [(Some key, Some (to_node v))])) as Hacc'.
    { apply Forall_app. split; [done|]. by repeat constructor. }
    destruct (IH fuel _ true rest k Hacc') as (fuel' & Hf' & IH');
      [rewrite E in Hf; simpl in Hf; subst tl; lia|done|].
    exists fuel'. split; [rewrite E in *; simpl in *; subst tl; lia|].
    rewrite E at 1. cbn [app deref res_bind]. rewrite (proj2 (Z.eqb_neq c _)) by lia.
    rewrite <- !app_assoc, !zlen_app, <- !Z.add_assoc, decode_str_enc by (done || bounds). cbn [res_bind].
    rewrite Hv by (lia || bounds). unfold outcome. destruct (has_empty v); [done|]. cbn [res_bind orb].
    rewrite dict_word_Some; [|rewrite length_app; simpl; lia|done|rewrite length_app; simpl; lia].
    cbn [res_bind]. rewrite IH', <- app_assoc, orb_true_r. done.
Qed.

(** The closing ['e'] behind the elements. *)
Lemma decode_list_close fuel l al rest k :
  (0 < fuel)%nat ->
  decode_list fuel l al (101 :: rest) (1 + k) = outcome (negb al) (BE_LIST l) rest k.
Proof. intros. destruct fuel; [lia|]. destruct al; simpl; [|done]. do 2 f_equal. lia. Qed.

Lemma decode_dict_close fuel d al rest k :
  (0 < fuel)%nat ->
  decode_dict fuel d al (101 :: rest) (1 + k) = outcome (negb al) (BE_DICT d) rest k.
Proof. intros. destruct fuel; [lia|]. destruct al; simpl; [|done]. do 2 f_equal. lia. Qed.

Lemma ranged_list l : fold_right and True (map ranged l) <-> Forall ranged l.
Proof. induction l; simpl; [done|]. by rewrite Forall_cons, IHl. Qed.

Lemma ranged_dict d :
  fold_right and True (map (fun kv => zlen (fst kv) <= LLONG_MAX /\ ranged (snd kv)) d) <->
  Forall (fun kv : bytes * bval => zlen (fst kv) <= LLONG_MAX /\ ranged (snd kv)) d.
Proof. induction d; simpl; [done|]. by rewrite Forall_cons, IHd. Qed.

Lemma has_empty_list l : has_empty (VList l) = bool_decide (l = []) || existsb has_empty l.
Proof. by destruct l. Qed.

Lemma has_empty_dict d :
  has_empty (VDict d) = bool_decide (d = []) || existsb (fun kv => has_empty (snd kv)) d.
Proof. by destruct d. Qed.

Lemma decodes_list l : Forall decodes l -> decodes (VList l).
Proof.
  intros IH fuel rest k Hf Hk. destruct fuel as [|fuel]; [lia|]. rewrite has_empty_list.
  cbn [_be_decode bencode to_node length] in *. rewrite length_app in Hf. simpl in Hf.
  rewrite (proj2 (Z.eqb_neq _ 0)) by bounds. cbn [app deref res_bind Z.eqb Pos.eqb tail].
  rewrite <- app_assoc.
  destruct (decode_list_elems l IH fuel [] false (101 :: rest) (1 + k)) as (fuel' & Hf' & E); [lia..|].
  replace (zlen (108 :: concat (map bencode l) ++ [101]) + k - 1)
    with (zlen (concat (map bencode l)) + (1 + k)) by bounds.
  cbn [app] in E |- *. rewrite E, decode_list_close by lia. cbn [orb]. rewrite negb_involutive.
  destruct (existsb has_empty l); [by rewrite orb_true_r|by rewrite orb_false_r].
Qed.

Lemma decodes_dict d :
  Forall (fun kv => zlen (fst kv) <= LLONG_MAX /\ decodes (snd kv)) d -> decodes (VDict d).
Proof.
  intros IH fuel rest k Hf Hk. destruct fuel as [|fuel]; [lia|]. rewrite has_empty_dict.
  cbn [_be_decode bencode to_node length] in *. rewrite length_app in Hf. simpl in Hf.
  rewrite (proj2 (Z.eqb_neq _ 0)) by bounds. cbn [app deref res_bind Z.eqb Pos.eqb tail].
  rewrite <- app_assoc. pose proof (decode_dict_entries d IH fuel [] false (101 :: rest) (1 + k)) as E.
  cbv zeta in E. set (enc := concat _) in *.
  destruct E as (fuel' & Hf' & E); [constructor|lia..|].
  replace (zlen (100 :: enc ++ [101]) + k - 1) with (zlen enc + (1 + k)) by bounds.
  cbn [app] in E |- *. rewrite E, decode_dict_close by lia. cbn [orb]. rewrite negb_involutive.
  destruct (existsb _ d); [by rewrite orb_true_r|by rewrite orb_false_r].
Qed.

Lemma ranged_decodes v : ranged v -> decodes v.
Proof.
  induction v as [s|z|l IH|d IH] using bval_nested_ind; intros Hs.
  - by apply decodes_str.
  - by apply decodes_int.
  - apply ranged_list in Hs. apply decodes_list. rewrite Forall_forall in *. auto.
  - apply ranged_dict in Hs. apply decodes_dict. rewrite Forall_forall in *. naive_solver.
Qed.

Lemma decoden_encoded v rest k :
  ranged v -> 0 <= k ->
  be_decoden (bencode v ++ rest) (zlen (bencode v) + k) = outcome (has_empty v) (to_node v) rest k.
Proof.
  intros Hv Hk. apply ranged_decodes; [done| |done].
  unfold decode_fuel. rewrite length_app. lia.
Qed.

(** A file that holds exactly one encoding. *)
Lemma decoden_exact v :
  ranged v -> has_empty v = false ->
  be_decoden (bencode v) (zlen (bencode v)) = Ok (Some (to_node v), [], 0).
Proof.
  intros Hv He. pose proof (decoden_encoded v [] 0 Hv (Z.le_refl 0)) as E.
  by rewrite app_nil_r, Z.add_0_r, He in E.
Qed.

(** C1: Decoding inverts encoding.  On the bencoding of a value without empty
    lists and dictionaries, followed by any [rest], [be_decoden] with a count
    that covers the encoding returns the tree of the value, the pointer to
    [rest] and the count of what is left. *)
Theorem be_decoden_roundtrip v rest k :
  ranged v -> has_empty v = false -> 0 <= k ->
  be_decoden (bencode v ++ rest) (zlen (bencode v) + k) = Ok (Some (to_node v), rest, k).
Proof.
  intros Hv He Hk. rewrite decoden_encoded by done. by rewrite He.
Qed.

Definition sample : bval :=
  VDict [(str "announce", VStr (str "127.0.0.1"));
         (str "info", VDict [(str "length", VInt 255); (str "l", VList [VInt (-1); VStr []])])].

Lemma be_decoden_roundtrip_witness :
  ranged sample /\ has_empty sample = false /\
  be_decoden (bencode sample ++ str "x") (zlen (bencode sample) + 1) = Ok (Some (to_node sample), str "x", 1).
Proof.
  assert (ranged sample) as H by (vm_compute; intuition discriminate).
  split; [exact H|]. split; [reflexivity|]. apply be_decoden_roundtrip; [exact H|reflexivity|lia].
Defined.

(** The same for a C string. *)
Lemma be_decode_encoded v rest m :
  ranged v -> has_empty v = false -> no_nul (bencode v ++ rest) ->
  be_decode (bencode v ++ rest ++ 0 :: m) = Ok (Some (to_node v), rest ++ 0 :: m, zlen rest).
Proof.
  intros Hv He Hn. unfold be_decode. rewrite app_assoc, strlen_app by done. cbn [res_bind].
  rewrite zlen_app, <- app_assoc. apply decodes_dec; [by apply ranged_decodes|done| |apply zlen_nonneg].
  unfold decode_fuel. rewrite !length_app. lia.
Qed.

(** The same through [be_decode], which takes the length of its argument
    with [strlen]: a C string that starts with the encoding of a value. *)
Theorem be_decode_roundtrip v rest m :
  ranged v -> has_empty v = false -> no_nul (bencode v ++ rest) ->
  be_decode (bencode v ++ rest ++ 0 :: m) = Ok (Some (to_node v), rest ++ 0 :: m, zlen rest).
Proof. apply be_decode_encoded. Qed.

Lemma be_decode_roundtrip_witness :
  ranged sample /\ has_empty sample = false /\ no_nul (bencode sample ++ str "x") /\
  be_decode (bencode sample ++ str "x" ++ 0 :: [7]) = Ok (Some (to_node sample), str "x" ++ 0 :: [7], zlen (str "x")).
Proof.
  assert (ranged sample) as H by (vm_compute; intuition discriminate).
  assert (no_nul (bencode sample ++ str "x")) as Hn by (vm_compute; repeat constructor; discriminate).
  split; [exact H|]. split; [reflexivity|]. split; [exact Hn|].
  exact (be_decode_roundtrip sample (str "x") [7] H eq_refl Hn).
Defined.

(** A value with an empty list or dictionary at any depth, which is legal
    bencode, makes the decoder store the terminator of the array through a null
    pointer. *)
Theorem be_decoden_empty_container v rest k :
  ranged v -> has_empty v = true -> 0 <= k ->
  be_decoden (bencode v ++ rest) (zlen (bencode v) + k) = Fault NullDeref.
Proof.
  intros Hv He Hk. rewrite decoden_encoded by done. by rewrite He.
Qed.

Lemma be_decoden_empty_container_witness :
  ranged (VList [VInt 1; VDict []]) /\ has_empty (VList [VInt 1; VDict []]) = true /\
  be_decoden (str "li1edee" ++ []) 7 = Fault NullDeref.
Proof.
  assert (ranged (VList [VInt 1; VDict []])) as H by (vm_compute; intuition discriminate).
  split; [exact H|]. split; [reflexivity|].
  exact (be_decoden_empty_container (VList [VInt 1; VDict []]) [] 0 H eq_refl (Z.le_refl 0)).
Defined.

(** ** Termination

    [shrinks data r]: the result [r] of reading at [data] is not an exhaustion
    of the fuel, its pointer is not behind [data], and it is strictly further
    when something was decoded. *)
Definition shrinks {A} (data : bytes) (r : res (option A * bytes * Z)) : Prop :=
  match r with
  | Ok (o, data', _) => (length data' <= length data)%nat /\ (is_Some o -> (length data' < length data)%nat)
  | Fault NoFuel => False
  | _ => True
  end.

Lemma strtoll_suffix p v e : strtoll p = Ok (v, e) -> exists q, p = q ++ e.
Proof.
  unfold strtoll. destruct (skip_space_suffix p) as [s Hs].
  destruct (skip_space p) as [|c q] eqn:E; [done|]. cbn [deref res_bind tail].
  set (sg := if c =? 45 then _ else _). intros H.
  assert (exists s', p = s' ++ snd sg) as [s' Hs'].
  { subst sg. destruct (c =? 45); [|destruct (c =? 43)]; simpl.
    - exists (s ++ [c]). by rewrite Hs, <- app_assoc.
    - exists (s ++ [c]). by rewrite Hs, <- app_assoc.
    - by exists s. }
  destruct sg as [neg q']. simpl in *. step_res H. destruct (isdigit _).
  - step_res H. destruct a0 as [v' e']. injection H as _ <-.
    apply scan_digits_suffix in Ha0 as [t ->]. exists (s' ++ t). by rewrite <- app_assoc.
  - injection H as _ <-. by exists [].
Qed.

Lemma strtoll_length p v e : strtoll p = Ok (v, e) -> (length e <= length p)%nat.
Proof. intros [q ->]%strtoll_suffix. rewrite length_app. lia. Qed.

Lemma scan_digits_fuel p acc : scan_digits p acc <> Fault NoFuel.
Proof. revert acc. induction p as [|c p IH]; intros acc; simpl; [done|]. by destruct (isdigit c). Qed.

Lemma strtoll_fuel p : strtoll p <> Fault NoFuel.
Proof.
  unfold strtoll. destruct (skip_space p) as [|c q]; [done|]. cbn [deref res_bind].
  destruct (if c =? 45 then _ else _) as [neg q']. destruct q' as [|d q']; [done|].
  cbn [deref res_bind]. destruct (isdigit d); [|done].
  pose proof (scan_digits_fuel (d :: q') 0). destruct (scan_digits _ _) as [[]|[]|]; done.
Qed.

(** A number that starts with a digit takes at least that digit. *)
Lemma strtoll_digit c p v e :
  isdigit c = true -> strtoll (c :: p) = Ok (v, e) -> (length e < length (c :: p))%nat.
Proof.
  intros Hc. pose proof (isdigit_not_space c Hc) as Hsp. apply isdigit_range in Hc as Hr.
  unfold strtoll. cbn [skip_space]. rewrite Hsp. cbn [deref res_bind].
  rewrite !(proj2 (Z.eqb_neq c _)) by lia. cbn [deref res_bind]. rewrite Hc. intros H.
  step_res H. destruct a as [v' e']. injection H as _ <-.
  apply scan_digits_pos in Ha as [q ->]; [|done]. simpl. rewrite length_app. lia.
Qed.

Lemma shrinks_weaken {A} data data' (r : res (option A * bytes * Z)) :
  shrinks data r -> (length data <= length data')%nat -> shrinks data' r.
Proof.
  destruct r as [[[o d] l]|[]|]; simpl; try done.
  intros [H1 H2] H. split; [lia|]. intros Ho. specialize (H2 Ho). lia.
Qed.

Lemma decode_str_shrinks data len : shrinks data (_be_decode_str data len).
Proof.
  unfold _be_decode_str, _be_decode_int.
  pose proof (strtoll_fuel data) as Hf. pose proof (strtoll_length data) as Hl.
  destruct (strtoll data) as [[v e]|[]|]; try done. specialize (Hl _ _ eq_refl).
  cbn [res_bind]. destruct (v <? 0) eqn:Ev; [by split; [|intros []]|].
  destruct (_ <? v) eqn:Elen; [by split; [|intros []]|].
  destruct e as [|c e]; [done|]. cbn [deref res_bind].
  destruct (c =? 58); [|by split; [|intros []]].
  destruct (slice _ _ _) as [s|f|] eqn:Es; simpl; [|by destruct f; unfold slice in Es; destruct (_ && _)|done].
  apply Z.ltb_ge in Ev. replace (Z.to_nat (v + 1)) with (S (Z.to_nat v)) by lia.
  simpl in *. rewrite length_drop. split; [lia|]. intros _. lia.
Qed.

(** A string node always takes the digits of its length. *)
Lemma decode_str_node_shrinks c data len :
  isdigit c = true ->
  shrinks (c :: data) (let* (s, data, len) := _be_decode_str (c :: data) len in Ok (Some (BE_STR s), data, len)).
Proof.
  intros Hc. pose proof (decode_str_shrinks (c :: data) len) as Hs.
  unfold _be_decode_str, _be_decode_int in *. pose proof (strtoll_digit c data) as Hdg.
  destruct (strtoll (c :: data)) as [[v e]|f|]; [|by destruct f|done].
  specialize (Hdg _ _ Hc eq_refl). cbn [res_bind] in *.
  destruct (v <? 0); [by split; [simpl in *; lia|]|]. destruct (_ <? v); [by split; [simpl in *; lia|]|].
  destruct (deref e) as [c'|f|]; [|by destruct f|done]. cbn [res_bind] in *.
  destruct (c' =? 58); [|by split; [simpl in *; lia|]].
  destruct (slice e 1 v) as [s|f|]; [|by destruct f|done]. simpl in *. destruct Hs as [Hs1 Hs2].
  specialize (Hs2 ltac:(done)). by split; [|intros _].
Qed.

Lemma decode_int_node_shrinks data len :
  shrinks (105 :: data)
    (let* (i, data, len) := _be_decode_int data len in
     let* c := deref data in
     if c =? 101 then Ok (Some (BE_INT i), tail data, len - 1) else Ok (None, data, len)).
Proof.
  unfold _be_decode_int. pose proof (strtoll_fuel data). pose proof (strtoll_length data) as Hl.
  destruct (strtoll data) as [[v e]|[]|]; try done. specialize (Hl _ _ eq_refl). simpl.
  destruct e as [|c' e]; [done|]. simpl in *. destruct (c' =? 101); simpl; split; try lia.
Qed.

Lemma shrinks_bind {A B} data (m : res (option A * bytes * Z)) (k : _ -> res (option B * bytes * Z)) :
  shrinks data m ->
  (forall o d l, (length d <= length data)%nat -> (is_Some o -> (length d < length data)%nat) ->
    shrinks data (k (o, d, l))) ->
  shrinks data (res_bind m k).
Proof. destruct m as [[[o d] l]|[]|]; simpl; [intros [H1 H2] Hk; by apply Hk|done..]. Qed.

Lemma close_array_shrinks al node data data' len :
  data <> [] -> (length data' <= length data)%nat -> shrinks data (close_array al node data' len).
Proof.
  intros Hne Hl. unfold close_array. destruct al; [|done]. simpl.
  destruct data; [done|]. destruct data'; simpl in *; split; lia.
Qed.

Lemma dict_word_total d i : (i < 2 * length d)%nat -> exists b, dict_word d i = Ok b.
Proof.
  intros Hi. unfold dict_word.
  destruct (lookup_lt_is_Some_2 d (i / 2)) as [[key val] E]; [apply Nat.Div0.div_lt_upper_bound; lia|].
  rewrite E. eauto.
Qed.

Lemma dict_word_null_key d j val : d !! j = Some (None, val) -> dict_word d (2 * j) = Ok false.
Proof.
  intros E. unfold dict_word. rewrite (Nat.mul_comm 2 j), Nat.div_mul by lia.
  rewrite E, Nat.mul_comm, Nat.even_mul. done.
Qed.

(** The dictionary loop is bounded although it may spin without consuming
    anything: once some entry [j] has a null key, word [2 * j] stops it. *)
Definition dict_measure (d : list (option bytes * option be_node)) (data : bytes) (fuel : nat) : Prop :=
  (Forall (fun kv => is_Some (fst kv)) d /\ (2 * length data + length d + 1 < fuel)%nat) \/
  (exists j val, d !! j = Some (None, val) /\ (length d <= 2 * j)%nat /\
    (2 * length data + (2 * j - length d) + 1 < fuel)%nat).

Lemma dict_measure_fuel d data fuel : dict_measure d data (S fuel) -> (2 * length data < fuel)%nat.
Proof. intros [[_ ?]|(j & val & _ & ? & ?)]; lia. Qed.

Lemma dict_measure_step d data data' fuel key val :
  dict_measure d data (S fuel) ->
  (length data' <= length data)%nat -> (is_Some key -> (length data' < length data)%nat) ->
  dict_word (d ++ [(key, val)]) (length d) = Ok true ->
  dict_measure (d ++ [(key, val)]) data' fuel.
Proof.
  intros [[Hd Hf]|(j & v & Hj & Hd & Hf)] Hl Hk Hw; unfold dict_measure; rewrite length_app; simpl.
  - destruct key as [key|].
    + left. split; [|specialize (Hk ltac:(done)); lia].
      apply Forall_app. split; [done|by repeat constructor].
    + right. exists (length d), val. rewrite lookup_app_r, Nat.sub_diag by lia.
      split; [done|]. assert (length d <> 0)%nat; [|lia].
      intros E. rewrite E in Hw. apply nil_length_inv in E. by subst d.
  - right. exists j, v. rewrite lookup_app_l by (apply lookup_lt_Some in Hj; lia).
    split; [done|]. assert (length d <> 2 * j)%nat; [|lia].
    intros E. rewrite E, (dict_word_null_key _ _ v) in Hw; [done|].
    rewrite lookup_app_l by (apply lookup_lt_Some in Hj; lia). done.
Qed.

Lemma decode_shrinks fuel :
  (forall data len, (2 * length data < fuel)%nat -> shrinks data (_be_decode fuel data len)) /\
  (forall l al data len, (2 * length data + 1 < fuel)%nat -> shrinks data (decode_list fuel l al data len)) /\
  (forall d al data len, dict_measure d data fuel -> shrinks data (decode_dict fuel d al data len)).
Proof.
  induction fuel as [|fuel (IHd & IHl & IHt)].
  { split; [lia|]. split; [lia|]. intros d ? data ? [[_ ?]|(? & ? & ? & ? & ?)]; lia. }
  split; [|split].
  - intros data len Hf. cbn [_be_decode]. destruct (len =? 0); [by split; [|intros []]|].
    destruct data as [|c data]; [done|]. cbn [deref res_bind tail] in *. simpl in Hf.
    destruct (c =? 108); [apply (shrinks_weaken data); [apply IHl; lia | simpl; lia]|].
    destruct (c =? 100).
    { apply (shrinks_weaken data); [apply IHt; left; split; [constructor | simpl; lia] | simpl; lia]. }
    destruct (c =? 105) eqn:E.
    { apply Z.eqb_eq in E. subst c. apply decode_int_node_shrinks. }
    destruct (isdigit c) eqn:Hc; [by apply decode_str_node_shrinks|by split; [|intros []]].
  - intros l al data len Hf. cbn [decode_list]. destruct data as [|c data]; [done|]. cbn [deref res_bind].
    destruct (c =? 101); [by apply close_array_shrinks|].
    apply shrinks_bind; [apply IHd; lia|]. intros [n|] d' l' H1 H2; [|by apply close_array_shrinks].
    apply (shrinks_weaken d'); [|done]. apply IHl. specialize (H2 ltac:(done)). lia.
  - intros d al data len Hf. cbn [decode_dict]. destruct data as [|c data]; [done|]. cbn [deref res_bind].
    destruct (c =? 101); [by apply close_array_shrinks|].
    pose proof (dict_measure_fuel _ _ _ Hf).
    apply shrinks_bind; [apply decode_str_shrinks|]. intros key d1 l1 H1 H2.
    eapply (shrinks_weaken (A := be_node) (c :: data)); [|done].
    assert (shrinks d1 (_be_decode fuel d1 l1)) as Hi by (apply IHd; lia).
    destruct (_be_decode fuel d1 l1) as [[[val d2] l2]|[]|]; try done. destruct Hi as [H3 H4].
    cbn [res_bind]. destruct (dict_word_total (d ++ [(key, val)]) (length d)) as [b Hb].
    { rewrite length_app. simpl. lia. }
    rewrite Hb. cbn [res_bind]. destruct b; [|apply close_array_shrinks; [done|lia]].
    apply (shrinks_weaken d2); [|lia]. apply IHt.
    eapply dict_measure_step; [done|lia| |done]. intros Hk. specialize (H2 Hk). lia.
Qed.

(** One more unit of fuel does not change a result. *)
Lemma fuel_step fuel :
  (forall data len, out_of_fuel (_be_decode fuel data len) = false ->
    _be_decode (S fuel) data len = _be_decode fuel data len) /\
  (forall l al data len, out_of_fuel (decode_list fuel l al data len) = false ->
    decode_list (S fuel) l al data len = decode_list fuel l al data len) /\
  (forall d al data len, out_of_fuel (decode_dict fuel d al data len) = false ->
    decode_dict (S fuel) d al data len = decode_dict fuel d al data len).
Proof.
  induction fuel as [|fuel (IHd & IHl & IHt)]; [done|]. split; [|split].
  - intros data len. set (F := S fuel). cbn [_be_decode]. subst F. cbn [_be_decode].
    destruct (len =? 0); [done|]. destruct data as [|c data]; [done|]. cbn [deref res_bind tail].
    destruct (c =? 108); [apply IHl|]. destruct (c =? 100); [apply IHt|]. done.
  - intros l al data len. set (F := S fuel). cbn [decode_list]. subst F. cbn [decode_list].
    destruct data as [|c data]; [done|]. cbn [deref res_bind]. destruct (c =? 101); [done|]. intros H.
    rewrite IHd by (destruct (_be_decode fuel _ len) as [?|[]|]; done).
    destruct (_be_decode fuel _ len) as [[[[n|] d'] l']|f|]; try done. by apply IHl.
  - intros d al data len. set (F := S fuel). cbn [decode_dict]. subst F. cbn [decode_dict].
    destruct data as [|c data]; [done|]. cbn [deref res_bind]. destruct (c =? 101); [done|].
    destruct (_be_decode_str _ len) as [[[key d1] l1]|f|]; [|done..]. cbn [res_bind]. intros H.
    rewrite IHd by (destruct (_be_decode fuel d1 l1) as [?|[]|]; done).
    destruct (_be_decode fuel d1 l1) as [[[val d2] l2]|f|]; [|done..]. cbn [res_bind] in *.
    destruct (dict_word _ _) as [[]|f|]; [|done..]. by apply IHt.
Qed.

Lemma be_decoden_fuel data len : out_of_fuel (be_decoden data len) = false.
Proof.
  pose proof (proj1 (decode_shrinks (decode_fuel data)) data len) as H.
  unfold be_decoden, decode_fuel in *. specialize (H ltac:(lia)).
  destruct (_be_decode _ data len) as [|[]|]; done.
Qed.

(** C2: The decoder terminates on every input: the recursion bound of
    [be_decoden] is never exhausted, and any larger bound gives the same
    result. *)
Theorem be_decoden_terminates data len fuel :
  out_of_fuel (be_decoden data len) = false /\
  _be_decode (decode_fuel data + fuel) data len = be_decoden data len.
Proof.
  split; [apply be_decoden_fuel|].
  induction fuel as [|fuel IH]; [by rewrite Nat.add_0_r|].
  rewrite Nat.add_succ_r, (proj1 (fuel_step _)); [done|]. rewrite IH. apply be_decoden_fuel.
Qed.

(** ** Memory bounds *)
Lemma skip_space_nul s m : skip_space (s ++ 0 :: m) = skip_space s ++ 0 :: m.
Proof. induction s as [|c s IH]; [done|]. simpl. by destruct (isspace c). Qed.

Lemma scan_digits_nul s m acc :
  exists v p s', scan_digits (s ++ 0 :: m) acc = Ok (v, s' ++ 0 :: m) /\ s = p ++ s'.
Proof.
  revert acc. induction s as [|c s IH]; intros acc; simpl.
  - by exists acc, [], [].
  - destruct (isdigit c); [|by exists acc, [], (c :: s)].
    destruct (IH (10 * acc + (c - 48))) as (v & p & s' & E & ->). by exists v, (c :: p), s'.
Qed.

(** In front of a NUL, [strtoll] stays in the object and stops at or before it. *)
Lemma strtoll_nul s m :
  exists v p s', strtoll (s ++ 0 :: m) = Ok (v, s' ++ 0 :: m) /\ s = p ++ s'.
Proof.
  unfold strtoll. rewrite skip_space_nul. destruct (skip_space_suffix s) as [p Hp].
  set (q := skip_space s) in *. clearbody q. subst s.
  assert (forall neg p' q', p ++ q = p' ++ q' ->
    exists v p0 s', (let* d := deref (q' ++ 0 :: m) in
      if isdigit d then let* (v, endp) := scan_digits (q' ++ 0 :: m) 0 in
        Ok (clamp_llong (if neg : bool then - v else v), endp)
      else Ok (0, (p ++ q) ++ 0 :: m)) = Ok (v, s' ++ 0 :: m) /\ p ++ q = p0 ++ s') as Hsc.
  { intros neg p' q' E. destruct (deref (q' ++ 0 :: m)) as [d|f|] eqn:Ed; [|by destruct q'..].
    cbn [res_bind]. destruct (isdigit d); [|by exists 0, [], (p ++ q)].
    destruct (scan_digits_nul q' m 0) as (v & p0 & s' & -> & ->). cbn [res_bind].
    eexists _, (p' ++ p0), s'. split; [done|]. by rewrite E, <- app_assoc. }
  destruct q as [|c q]; [by apply (Hsc false p [])|]. cbn [app deref res_bind tail].
  destruct (c =? 45); [|destruct (c =? 43)].
  - apply (Hsc true (p ++ [c]) q). by rewrite <- app_assoc.
  - apply (Hsc false (p ++ [c]) q). by rewrite <- app_assoc.
  - by apply (Hsc false p (c :: q)).
Qed.

Lemma decode_str_defined s m data_len :
  data_len <= zlen s -> defined (_be_decode_str (s ++ 0 :: m) data_len).
Proof.
  intros Hlen. unfold _be_decode_str, _be_decode_int.
  destruct (strtoll_nul s m) as (v & p & s' & -> & ->). cbn [res_bind]. unfold consumed.
  rewrite !zlen_app in *. bdestruct (v <? 0); [done|]. pose proof (zlen_nonneg m).
  match goal with |- context [?x <? v] => bdestruct (x <? v) end; [done|].
  destruct s' as [|c s']; [rewrite zlen_nil in *; lia|]. cbn [app deref res_bind].
  destruct (c =? 58); [|done]. rewrite zlen_cons in *.
  rewrite slice_in_bounds; [done|lia..|]. rewrite zlen_cons, zlen_app, zlen_cons. lia.
Qed.

(** Reading a length-prefixed string never leaves the memory of the data,
    whatever the bytes: if the count does not reach beyond some NUL of the
    object (as in [be_decode]), then neither the parse of the length nor the
    copy of the string runs off it. *)
Theorem be_decode_str_in_bounds s m data_len :
  data_len <= zlen s -> defined (_be_decode_str (s ++ 0 :: m) data_len).
Proof. apply decode_str_defined. Qed.

Lemma be_decode_str_in_bounds_witness :
  3 <= zlen (str "9:a") /\ defined (_be_decode_str (str "9:a" ++ 0 :: []) 3).
Proof. split; [vm_compute; discriminate|]. apply be_decode_str_in_bounds. vm_compute. discriminate. Defined.

(** [be_decode] never leaves the standard on a string that does not start
    with a list or a dictionary: malformed integers, strings and other bytes
    give a null result or a node, never a fault. *)
Theorem be_decode_scalar_defined s m :
  no_nul s -> head s <> Some 108 -> head s <> Some 100 -> defined (be_decode (s ++ 0 :: m)).
Proof.
  intros Hs Hl Hd. unfold be_decode. rewrite strlen_app by done. cbn [res_bind].
  unfold be_decoden, decode_fuel. rewrite Nat.add_1_r. cbn [_be_decode].
  bdestruct (zlen s =? 0); [done|]. destruct s as [|c s]; [done|]. cbn [app deref res_bind tail].
  rewrite !(proj2 (Z.eqb_neq c _)) by (intros ->; by destruct Hl || by destruct Hd).
  destruct (c =? 105) eqn:Ec.
  - unfold _be_decode_int. destruct (strtoll_nul s m) as (v & p & s' & -> & ->). cbn [res_bind].
    destruct s' as [|c' s']; [done|]. cbn [app deref res_bind]. by destruct (c' =? 101).
  - destruct (isdigit c); [|done].
    pose proof (decode_str_defined (c :: s) m (zlen (c :: s)) (Z.le_refl _)) as H1.
    cbn [app] in H1. by destruct (_be_decode_str _ _) as [[[? ?] ?]|f|].
Qed.

Lemma be_decode_scalar_defined_witness :
  no_nul (str "9:ab") /\ head (str "9:ab") <> Some 108 /\ head (str "9:ab") <> Some 100 /\
  defined (be_decode (str "9:ab" ++ 0 :: [])).
Proof.
  assert (no_nul (str "9:ab")) as H by (vm_compute; repeat constructor; discriminate).
  split; [exact H|]. do 2 (split; [vm_compute; discriminate|]).
  apply be_decode_scalar_defined; [exact H|vm_compute; discriminate..].
Defined.

(** The decoder at the terminating NUL, inside a list: the loop stops on a null
    element and steps over the NUL, with a count of -1. *)
Lemma decode_list_at_nul fuel l al :
  (1 < fuel)%nat -> decode_list fuel l al [0] 0 = Ok (Some (BE_LIST l), [], -1).
Proof. intros Hf. destruct fuel as [|[|fuel]]; [lia..|]. done. Qed.

(** A list that is never closed.  At top level [be_decode] accepts it: the
    result is the list of the elements, the pointer is behind the terminating
    NUL and the count is -1. Inside another list, the outer loop then reads the
    byte behind the NUL, outside of the string. *)
Theorem be_decode_unterminated_list l :
  Forall ranged l -> existsb has_empty l = false -> no_nul (concat (map bencode l)) ->
  be_decode (108 :: concat (map bencode l) ++ [0]) = Ok (Some (BE_LIST (map to_node l)), [], -1) /\
  be_decode (108 :: 108 :: concat (map bencode l) ++ [0]) = Fault OutOfBounds.
Proof.
  intros Hr He Hn. assert (Forall decodes l) as Hd.
  { eapply Forall_impl; [exact Hr|]. apply ranged_decodes. }
  set (enc := concat (map bencode l)) in *.
  assert (forall fuel, (2 * length enc + 3 < fuel)%nat ->
    decode_list fuel [] false (enc ++ [0]) (zlen enc) = Ok (Some (BE_LIST (map to_node l)), [], -1)) as Hin.
  { intros fuel Hf. rewrite <- (Z.add_0_r (zlen enc)).
    destruct (decode_list_elems l Hd fuel [] false [0] 0) as (fuel' & Hf' & E); [fold enc; lia|done|].
    fold enc in E, Hf'. rewrite E, He. apply decode_list_at_nul. lia. }
  split; unfold be_decode, be_decoden, decode_fuel.
  - pose proof (strlen_app (108 :: enc) []) as Hsl. cbn [app] in Hsl.
    rewrite Hsl by (by constructor). cbn [res_bind length]. rewrite length_app.
    rewrite Nat.add_1_r. cbn [_be_decode]. rewrite (proj2 (Z.eqb_neq _ 0)) by bounds.
    cbn [deref res_bind Z.eqb Pos.eqb tail]. replace (zlen (108 :: enc) - 1) with (zlen enc) by bounds.
    apply Hin. simpl. lia.
  - pose proof (strlen_app (108 :: 108 :: enc) []) as Hsl. cbn [app] in Hsl.
    rewrite Hsl by (by repeat constructor). cbn [res_bind length].
    rewrite length_app. simpl length.
    replace (2 * S (S (length enc + 1)) + 1)%nat with (S (S (S (2 * length enc + 4)))) by lia.
    cbn [_be_decode]. rewrite (proj2 (Z.eqb_neq _ 0)) by bounds. cbn [deref res_bind Z.eqb Pos.eqb tail].
    replace (zlen (108 :: 108 :: enc) - 1) with (zlen (108 :: enc)) by bounds.
    cbn [decode_list deref res_bind Z.eqb Pos.eqb tail _be_decode]. rewrite (proj2 (Z.eqb_neq _ 0)) by bounds.
    replace (zlen (108 :: enc) - 1) with (zlen enc) by bounds.
    rewrite Hin by lia. done.
Qed.

Lemma be_decode_unterminated_list_witness :
  Forall ranged [VInt 7] /\ existsb has_empty [VInt 7] = false /\ no_nul (str "i7e") /\
  be_decode (str "li7e" ++ [0]) = Ok (Some (BE_LIST [BE_INT 7]), [], -1) /\
  be_decode (str "lli7e" ++ [0]) = Fault OutOfBounds.
Proof.
  assert (Forall ranged [VInt 7]) as Hr by (repeat constructor; vm_compute; discriminate).
  assert (no_nul (str "i7e")) as Hn by (vm_compute; repeat constructor; discriminate).
  split; [exact Hr|]. split; [reflexivity|]. split; [exact Hn|].
  exact (be_decode_unterminated_list [VInt 7] Hr eq_refl Hn).
Defined.
