(* ===== verification/BencodeTree.v ===== *)
(** * Releasing and printing a decoded tree (src/src/bencode.c, lines 200-287)

    [be_dump] prints the tree of Bencode; its output is the result.  For
    [be_free] the blocks of a tree are in a heap, a finite map from the address
    [malloc] returned to the contents: a node, a string behind its length, the
    array of a list with its null pointer, the array of a dictionary with
    the entry whose [val] is null.  A string is addressed 8 bytes behind the
    start of its block. *)
From Stdlib Require Import ZArith Lia Bool String.
From stdpp Require Import base numbers option list gmap fin_maps.
From S2P Require Import Prelude CStr Bencode BencodeSpec.

Abbreviation ptr := Z.

(** ** Printing *)
Definition _be_dump_indent (indent : Z) : bytes := concat (replicate (Z.to_nat indent) (str "    ")).

(** [abs] of the [int] an [ssize_t] is converted to *)
Definition abs (indent : Z) : res Z := int_arith (Z.abs (to_int indent)).

(** the text a ["%s"] prints *)
Definition printf_s (s : option bytes) : res bytes :=
  match s with None => Fault NullDeref | Some s => cstr (s ++ [0]) end.

(** the loop of case [BE_LIST], that prints the elements with [dump] *)
Definition dump_list (dump : be_node -> res bytes) : list be_node -> res bytes :=
  fix loop l :=
    match l with
    | [] => Ok []
    | n :: l => let* a := dump n in let* b := loop l in Ok (a ++ b)
    end.

(** the loop of case [BE_DICT]; it ends at the first entry without a [val] *)
Definition dump_dict (indent : Z) (dump : be_node -> res bytes) : list (option bytes * option be_node) -> res bytes :=
  fix loop d :=
    match d with
    | (key, Some n) :: d =>
        let* k := printf_s key in
        let* a := dump n in
        let* b := loop d in
        Ok (_be_dump_indent (indent + 1) ++ k ++ str " => " ++ a ++ b)
    | _ => Ok []
    end.

Fixpoint _be_dump (node : be_node) (indent : Z) {struct node} : res bytes :=
  let pre := _be_dump_indent indent in
  let* indent := abs indent in
  let* body :=
    match node with
    | BE_STR s =>
        let* t := printf_s s in
        let* n := be_str_len node in
        Ok (str "str = " ++ t ++ str " (len = " ++ dec n ++ str ")" ++ [10])
    | BE_INT i => Ok (str "int = " ++ dec i ++ [10])
    | BE_LIST l =>
        let* b := dump_list (fun n => _be_dump n (indent + 1)) l in
        Ok (str "list [" ++ [10] ++ b ++ _be_dump_indent indent ++ str "]" ++ [10])
    | BE_DICT d =>
        let* b := dump_dict indent (fun n => _be_dump n (- (indent + 1))) d in
        Ok (str "dict {" ++ [10] ++ b ++ _be_dump_indent indent ++ str "}" ++ [10])
    end in
  Ok (pre ++ body).

Definition be_dump (node : be_node) : res bytes := _be_dump node 0.

(** ** Releasing *)
Inductive cell :=
  | StrNode (s : ptr)
  | IntNode (i : Z)
  | ListNode (l : ptr)
  | DictNode (d : ptr)
  | StrBlock (s : bytes)
  | ListBlock (l : list ptr)
  | DictBlock (d : list (ptr * ptr)).

Abbreviation blocks := (gmap ptr cell).

Definition block_at (h : blocks) (p : ptr) : res cell :=
  if p =? 0 then Fault NullDeref else match h !! p with Some c => Ok c | None => Fault UseAfterFree end.

(** [free(NULL)] does nothing *)
Definition free (h : blocks) (p : ptr) : res blocks :=
  if p =? 0 then Ok h else let* _ := block_at h p in Ok (delete p h).

Definition _be_free_str (h : blocks) (s : ptr) : res blocks := if s =? 0 then Ok h else free h (s - 8).

(** [node->val.l[i]] and [node->val.d[i]] *)
Definition list_elem (h : blocks) (node : ptr) (i : nat) : res ptr :=
  let* c := block_at h node in
  match c with
  | ListNode l =>
      let* b := block_at h l in
      match b with ListBlock ps => rd ps (Z.of_nat i) | _ => Fault BadUnion end
  | _ => Fault BadUnion
  end.

Definition dict_entry (h : blocks) (node : ptr) (i : nat) : res (ptr * ptr) :=
  let* c := block_at h node in
  match c with
  | DictNode d =>
      let* b := block_at h d in
      match b with DictBlock kvs => rd kvs (Z.of_nat i) | _ => Fault BadUnion end
  | _ => Fault BadUnion
  end.

Fixpoint free_node (fuel : nat) (h : blocks) (node : ptr) {struct fuel} : res blocks :=
  match fuel with
  | O => Fault NoFuel
  | S fuel =>
      let* c := block_at h node in
      let* h :=
        match c with
        | StrNode s => _be_free_str h s
        | IntNode _ => Ok h
        | ListNode l => let* h := free_list fuel h node 0 in free h l
        | DictNode d => let* h := free_dict fuel h node 0 in free h d
        | _ => Fault BadUnion
        end in
      free h node
  end
(** the loop of case [BE_LIST] *)
with free_list (fuel : nat) (h : blocks) (node : ptr) (i : nat) {struct fuel} : res blocks :=
  match fuel with
  | O => Fault NoFuel
  | S fuel =>
      let* p := list_elem h node i in
      if p =? 0 then Ok h
      else let* h := free_node fuel h p in free_list fuel h node (S i)
  end
(** the loop of case [BE_DICT] *)
with free_dict (fuel : nat) (h : blocks) (node : ptr) (i : nat) {struct fuel} : res blocks :=
  match fuel with
  | O => Fault NoFuel
  | S fuel =>
      let* (k, v) := dict_entry h node i in
      if v =? 0 then Ok h
      else
        let* h := _be_free_str h k in
        let* h := free_node fuel h v in
        free_dict fuel h node (S i)
  end.

(** A tree has at least half as many blocks as the recursion is deep. *)
Definition be_free (h : blocks) (node : ptr) : res blocks := free_node (2 * size h + 1) h node.

(** ** The blocks of a tree *)
(** [tree h p n]: the blocks [h] are those of the tree [n] at [p], and all are
    different *)
Inductive tree : blocks -> ptr -> be_node -> Prop :=
  | tree_null_str p : p <> 0 -> tree {[p := StrNode 0]} p (BE_STR None)
  | tree_str p s b : p <> 0 -> s <> 0 -> s - 8 <> 0 -> p <> s - 8 ->
      tree (<[p := StrNode s]> {[s - 8 := StrBlock b]}) p (BE_STR (Some b))
  | tree_int p i : p <> 0 -> tree {[p := IntNode i]} p (BE_INT i)
  | tree_list p l ps h ns : p <> 0 -> l <> 0 -> p <> l -> h !! p = None -> h !! l = None -> trees h ps ns ->
      tree (<[p := ListNode l]> (<[l := ListBlock (ps ++ [0])]> h)) p (BE_LIST ns)
  | tree_dict p d kvs k h es : p <> 0 -> d <> 0 -> p <> d -> h !! p = None -> h !! d = None -> entries h kvs es ->
      tree (<[p := DictNode d]> (<[d := DictBlock (kvs ++ [(k, 0)])]> h)) p (BE_DICT es)
(** of the elements of a list *)
with trees : blocks -> list ptr -> list be_node -> Prop :=
  | trees_nil : trees ∅ [] []
  | trees_cons p n ps ns h h' : tree h p n -> trees h' ps ns -> h ##ₘ h' -> trees (h ∪ h') (p :: ps) (n :: ns)
(** of the entries of a dictionary *)
with entries : blocks -> list (ptr * ptr) -> list (option bytes * option be_node) -> Prop :=
  | entries_nil : entries ∅ [] []
  | entries_cons k v b n kvs es h h' : tree h v n -> entries h' kvs es -> h ##ₘ h' ->
      k <> 0 -> k - 8 <> 0 -> h !! (k - 8) = None -> h' !! (k - 8) = None ->
      entries (<[k - 8 := StrBlock b]> (h ∪ h')) ((k, v) :: kvs) ((Some b, Some n) :: es).

Scheme tree_mut := Induction for tree Sort Prop
  with trees_mut := Induction for trees Sort Prop
  with entries_mut := Induction for entries Sort Prop.
Combined Scheme tree_mutind from tree_mut, trees_mut, entries_mut.

(** ** Lemmas: releasing *)
Lemma block_at_Ok (h : blocks) p c : p <> 0 -> h !! p = Some c -> block_at h p = Ok c.
Proof. intros Hp E. unfold block_at. by rewrite (proj2 (Z.eqb_neq p 0) Hp), E. Qed.

Lemma block_at_frame (h hf : blocks) p c : h ##ₘ hf -> p <> 0 -> hf !! p = Some c -> block_at (h ∪ hf) p = Ok c.
Proof. intros Hd Hp E. apply block_at_Ok; [done|]. by apply lookup_union_Some_r. Qed.

(** the block that was added last is released *)
Lemma free_insert (h : blocks) p c : p <> 0 -> h !! p = None -> free (<[p := c]> h) p = Ok h.
Proof.
  intros Hp E. unfold free. rewrite (block_at_Ok _ _ c Hp) by apply lookup_insert_eq.
  rewrite (proj2 (Z.eqb_neq p 0) Hp). cbn [res_bind]. by rewrite delete_insert_id.
Qed.

Lemma tree_root h p n : tree h p n -> p <> 0 /\ (0 < size h)%nat.
Proof.
  intros H. assert (p <> 0 /\ is_Some (h !! p)) as [Hp [c E]].
  { destruct H; (split; [done|]); first [rewrite lookup_singleton_eq | rewrite lookup_insert_eq]; by eexists. }
  split; [done|]. destruct (decide (size h = 0%nat)) as [Hs|]; [|lia]. apply map_size_empty_iff in Hs. by rewrite Hs, lookup_empty in E.
Qed.

Lemma rd_middle {A} (l1 l2 : list A) x : rd (l1 ++ x :: l2) (Z.of_nat (length l1)) = Ok x.
Proof. apply rd_Ok. split; [lia|]. by rewrite Nat2Z.id, list_lookup_middle. Qed.

Definition frees_node (h : blocks) (p : ptr) : Prop :=
  forall fuel hf, h ##ₘ hf -> (2 * size h <= fuel)%nat -> free_node fuel (h ∪ hf) p = Ok hf.

Definition frees_list (h : blocks) (ps : list ptr) : Prop :=
  forall fuel hf node l before, h ##ₘ hf -> (2 * size h + 1 <= fuel)%nat -> node <> 0 -> l <> 0 ->
  hf !! node = Some (ListNode l) -> hf !! l = Some (ListBlock (before ++ ps ++ [0])) ->
  free_list fuel (h ∪ hf) node (length before) = Ok hf.

Definition frees_dict (h : blocks) (kvs : list (ptr * ptr)) : Prop :=
  forall fuel hf node d k before, h ##ₘ hf -> (2 * size h + 1 <= fuel)%nat -> node <> 0 -> d <> 0 ->
  hf !! node = Some (DictNode d) -> hf !! d = Some (DictBlock (before ++ kvs ++ [(k, 0)])) ->
  free_dict fuel (h ∪ hf) node (length before) = Ok hf.

(** the element of a loop *)
Lemma list_elem_ok h hf node l before p ps :
  h ##ₘ hf -> node <> 0 -> l <> 0 -> hf !! node = Some (ListNode l) -> hf !! l = Some (ListBlock (before ++ p :: ps)) ->
  list_elem (h ∪ hf) node (length before) = Ok p.
Proof.
  intros Hd Hn Hl En El. unfold list_elem. rewrite (block_at_frame _ _ _ _ Hd Hn En). cbn [res_bind].
  rewrite (block_at_frame _ _ _ _ Hd Hl El). cbn [res_bind]. apply rd_middle.
Qed.

Lemma dict_entry_ok h hf node d before kv kvs :
  h ##ₘ hf -> node <> 0 -> d <> 0 -> hf !! node = Some (DictNode d) -> hf !! d = Some (DictBlock (before ++ kv :: kvs)) ->
  dict_entry (h ∪ hf) node (length before) = Ok kv.
Proof.
  intros Hd Hn Hl En El. unfold dict_entry. rewrite (block_at_frame _ _ _ _ Hd Hn En). cbn [res_bind].
  rewrite (block_at_frame _ _ _ _ Hd Hl El). cbn [res_bind]. apply rd_middle.
Qed.

Lemma frees_list_cons p n ps h h' :
  tree h p n -> h ##ₘ h' -> frees_node h p -> frees_list h' ps -> frees_list (h ∪ h') (p :: ps).
Proof.
  intros Ht Hd Hp Hps [|fuel] hf node l before Hdf Hf Hn Hl En El; [lia|]. destruct (tree_root _ _ _ Ht) as [Hp0 Hs].
  rewrite map_size_disj_union in Hf by done. cbn [free_list]. rewrite (list_elem_ok _ _ _ l before p (ps ++ [0])) by done.
  apply map_disjoint_union_l in Hdf as [Hd1 Hd2]. cbn [res_bind]. rewrite (proj2 (Z.eqb_neq p 0) Hp0), <- (assoc_L (∪)).
  rewrite Hp by (lia || by apply map_disjoint_union_r). cbn [res_bind].
  replace (S (length before)) with (length (before ++ [p])) by (rewrite length_app; cbn; lia).
  apply (Hps fuel hf node l); [done|lia|done..|]. by rewrite <- app_assoc.
Qed.

Lemma frees_dict_cons k v b n kvs h h' :
  tree h v n -> h ##ₘ h' -> k <> 0 -> k - 8 <> 0 -> h !! (k - 8) = None -> h' !! (k - 8) = None ->
  frees_node h v -> frees_dict h' kvs -> frees_dict (<[k - 8 := StrBlock b]> (h ∪ h')) ((k, v) :: kvs).
Proof.
  intros Ht Hd Hk Hk8 E1 E2 Hv Hkvs [|fuel] hf node d kl before Hdf Hf Hn Hl En El; [lia|]. destruct (tree_root _ _ _ Ht) as [Hv0 Hs].
  assert ((h ∪ h') !! (k - 8) = None) as E3 by (by apply lookup_union_None).
  rewrite map_size_insert_None, map_size_disj_union in Hf by done. cbn [free_dict].
  rewrite (dict_entry_ok _ _ _ d before (k, v) (kvs ++ [(kl, 0)])) by done. apply map_disjoint_insert_l in Hdf as [E4 Hdf].
  apply map_disjoint_union_l in Hdf as [Hd1 Hd2]. cbn [res_bind].
  rewrite (proj2 (Z.eqb_neq v 0) Hv0). unfold _be_free_str. rewrite (proj2 (Z.eqb_neq k 0) Hk), <- insert_union_l.
  rewrite free_insert by (done || by apply lookup_union_None). cbn [res_bind]. rewrite <- (assoc_L (∪)).
  rewrite Hv by (lia || by apply map_disjoint_union_r). cbn [res_bind].
  replace (S (length before)) with (length (before ++ [(k, v)])) by (rewrite length_app; cbn; lia).
  apply (Hkvs fuel hf node d kl); [done|lia|done..|]. by rewrite <- app_assoc.
Qed.

(** a node and its array are released after what they refer to *)
Lemma free_array h hf p l c b fuel :
  p <> 0 -> l <> 0 -> p <> l -> h !! p = None -> h !! l = None ->
  <[p := c]> (<[l := b]> h) ##ₘ hf ->
  (2 * size (<[p := c]> (<[l := b]> h)) <= fuel)%nat ->
  exists fuel', fuel = S fuel' /\ (2 * size h + 1 <= fuel')%nat /\ h ##ₘ <[p := c]> (<[l := b]> hf) /\
    <[p := c]> (<[l := b]> h) ∪ hf = h ∪ <[p := c]> (<[l := b]> hf) /\
    block_at (h ∪ <[p := c]> (<[l := b]> hf)) p = Ok c /\
    (let* h := free (<[p := c]> (<[l := b]> hf)) l in free h p) = Ok hf.
Proof.
  intros Hp Hl Hpl Ep El Hd Hf. assert (<[l := b]> h !! p = None) as Ep' by (by rewrite lookup_insert_ne).
  rewrite !map_size_insert_None in Hf by done. destruct fuel as [|fuel]; [lia|]. exists fuel.
  apply map_disjoint_insert_l in Hd as [Ep2 Hd]. apply map_disjoint_insert_l in Hd as [El2 Hd].
  assert (h ##ₘ <[p := c]> (<[l := b]> hf)) as Hd' by (by repeat apply map_disjoint_insert_r_2).
  split; [done|]. split; [lia|]. split; [done|]. split; [|split].
  - rewrite <- !insert_union_l. by rewrite !insert_union_r.
  - apply block_at_frame; [done|done|]. apply lookup_insert_eq.
  - rewrite insert_insert_ne by done. rewrite free_insert by (done || by rewrite lookup_insert_ne). cbn [res_bind].
    by rewrite free_insert.
Qed.

Lemma frees_tree :
  (forall h p n, tree h p n -> frees_node h p) /\ (forall h ps ns, trees h ps ns -> frees_list h ps) /\
  (forall h kvs es, entries h kvs es -> frees_dict h kvs).
Proof.
  apply tree_mutind.
  - intros p Hp [|fuel] hf Hd Hf; [rewrite map_size_singleton in Hf; lia|]. rewrite <- insert_union_singleton_l.
    apply map_disjoint_singleton_l in Hd. cbn [free_node]. rewrite (block_at_Ok _ _ (StrNode 0) Hp) by apply lookup_insert_eq.
    cbn. by apply free_insert.
  - intros p s b Hp Hs Hs8 Hps [|fuel] hf Hd Hf; [rewrite map_size_insert_None in Hf by (by rewrite lookup_singleton_ne); lia|].
    apply map_disjoint_insert_l in Hd as [Ep Hd]. apply map_disjoint_singleton_l in Hd.
    rewrite <- insert_union_l, <- insert_union_singleton_l. cbn [free_node].
    rewrite (block_at_Ok _ _ (StrNode s) Hp) by apply lookup_insert_eq. cbn [res_bind]. unfold _be_free_str.
    rewrite (proj2 (Z.eqb_neq s 0) Hs), insert_insert_ne by done.
    rewrite free_insert by (done || by rewrite lookup_insert_ne). cbn [res_bind]. by apply free_insert.
  - intros p i Hp [|fuel] hf Hd Hf; [rewrite map_size_singleton in Hf; lia|]. rewrite <- insert_union_singleton_l.
    apply map_disjoint_singleton_l in Hd. cbn [free_node]. rewrite (block_at_Ok _ _ (IntNode i) Hp) by apply lookup_insert_eq.
    cbn [res_bind]. by apply free_insert.
  - intros p l ps h ns Hp Hl Hpl Ep El _ IH fuel hf Hd Hf.
    destruct (free_array h hf p l _ _ fuel Hp Hl Hpl Ep El Hd Hf) as (fuel' & -> & Hf' & Hd' & -> & E & Ef). cbn [free_node].
    rewrite E. cbn [res_bind].
    pose proof (IH fuel' _ p l [] Hd' Hf' Hp Hl) as E'. cbn [length] in E'.
    rewrite E' by (rewrite ?lookup_insert_eq, ?lookup_insert_ne, ?lookup_insert_eq by done; done). cbn [res_bind]. exact Ef.
  - intros p d kvs k h es Hp Hl Hpl Ep El _ IH fuel hf Hd Hf.
    destruct (free_array h hf p d _ _ fuel Hp Hl Hpl Ep El Hd Hf) as (fuel' & -> & Hf' & Hd' & -> & E & Ef). cbn [free_node].
    rewrite E. cbn [res_bind].
    pose proof (IH fuel' _ p d k [] Hd' Hf' Hp Hl) as E'. cbn [length] in E'.
    rewrite E' by (rewrite ?lookup_insert_eq, ?lookup_insert_ne, ?lookup_insert_eq by done; done). cbn [res_bind]. exact Ef.
  - intros [|fuel] hf node l before Hd Hf Hn Hl En El; [lia|]. cbn [free_list].
    rewrite (list_elem_ok _ _ _ l before 0 []) by done. cbn [res_bind Z.eqb]. by rewrite (left_id_L ∅ (∪)).
  - intros. by eapply frees_list_cons.
  - intros [|fuel] hf node l k before Hd Hf Hn Hl En El; [lia|]. cbn [free_dict].
    rewrite (dict_entry_ok _ _ _ l before (k, 0) []) by done. cbn [res_bind Z.eqb]. by rewrite (left_id_L ∅ (∪)).
  - intros. by eapply frees_dict_cons.
Qed.

(** ** The printed form as lines *)
(** the text before the first NUL *)
Fixpoint until_nul (s : bytes) : bytes :=
  match s with [] => [] | b :: s => if b =? 0 then [] else b :: until_nul s end.

Definition indented (line : bytes) : bytes := str "    " ++ line.

(** the key in front of the first line of its value *)
Definition labelled (k : bytes) (ls : list bytes) : list bytes :=
  match ls with [] => [] | l :: ls => (until_nul k ++ str " => " ++ l) :: ls end.

(** the lines of a value: an element of a list or dictionary is indented by one
    level more than its brackets *)
Fixpoint lines (v : bval) : list bytes :=
  match v with
  | VStr s => [str "str = " ++ until_nul s ++ str " (len = " ++ dec (zlen s) ++ str ")"]
  | VInt z => [str "int = " ++ dec z]
  | VList l => str "list [" :: map indented (concat (map lines l)) ++ [str "]"]
  | VDict d => str "dict {" :: map indented (concat (map (fun kv => labelled kv.1 (lines kv.2)) d)) ++ [str "}"]
  end.

Fixpoint depth (v : bval) : Z :=
  match v with
  | VStr _ | VInt _ => 0
  | VList l => 1 + fold_right Z.max 0 (map depth l)
  | VDict d => 1 + fold_right Z.max 0 (map (fun kv => depth kv.2) d)
  end.

(** lines indented by [n] levels, each with its end *)
Definition unlines (n : nat) (ls : list bytes) : bytes := concat (map (fun l => concat (replicate n (str "    ")) ++ l ++ [10]) ls).

Lemma cstr_until s : cstr (s ++ [0]) = Ok (until_nul s).
Proof.
  induction s as [|b s IH]; [done|]. cbn [app cstr until_nul]. bdestruct (b =? 0); [done|]. by rewrite IH.
Qed.

Lemma abs_small n : - INT_MAX <= n <= INT_MAX -> abs n = Ok (Z.abs n).
Proof. intros H. unfold abs. rewrite to_int_id by (unfold INT_MAX in H; bounds). apply int_arith_Ok. bounds. Qed.

(** a value printed with an indentation of [n] levels, or without the first one
    when the indentation is negative *)
Definition dumps (v : bval) : Prop :=
  exists l ls, lines v = l :: ls /\
  forall (n : nat) indent, Z.abs indent = Z.of_nat n -> Z.of_nat n + depth v <= INT_MAX ->
    _be_dump (to_node v) indent = Ok (_be_dump_indent indent ++ l ++ [10] ++ unlines n ls).

Lemma unlines_app n l1 l2 : unlines n (l1 ++ l2) = unlines n l1 ++ unlines n l2.
Proof. unfold unlines. by rewrite map_app, concat_app. Qed.

Lemma unlines_indented n ls : unlines n (map indented ls) = unlines (S n) ls.
Proof.
  unfold unlines, indented. rewrite map_map. f_equal. apply map_ext. intros l. rewrite replicate_S_end, concat_app. cbn [concat].
  by rewrite app_nil_r, <- !app_assoc.
Qed.

Lemma unlines_cons n l ls : unlines n (l :: ls) = _be_dump_indent (Z.of_nat n) ++ l ++ [10] ++ unlines n ls.
Proof. unfold unlines, _be_dump_indent. cbn [map concat]. by rewrite Nat2Z.id, <- !app_assoc. Qed.

Lemma depth_nonneg v : 0 <= depth v.
Proof.
  destruct v; cbn [depth]; [lia..| |].
  - induction l; cbn [map fold_right]; lia.
  - induction d; cbn [map fold_right]; lia.
Qed.

Lemma dump_list_ok l n :
  Forall dumps l -> Z.of_nat (S n) + fold_right Z.max 0 (map depth l) <= INT_MAX ->
  dump_list (fun node => _be_dump node (Z.of_nat n + 1)) (map to_node l) = Ok (unlines (S n) (concat (map lines l))).
Proof.
  intros H. induction H as [|v l (x & xs & El & E) H IH]; intros Hn; [done|]. cbn [map fold_right] in Hn.
  cbn [map dump_list concat]. rewrite (E (S n)) by lia. cbn [res_bind]. fold (dump_list (fun node => _be_dump node (Z.of_nat n + 1))).
  rewrite IH by lia. cbn [res_bind]. rewrite El. rewrite unlines_app, unlines_cons. by replace (Z.of_nat n + 1) with (Z.of_nat (S n)) by lia.
Qed.

Lemma dump_dict_ok d n :
  Forall (fun kv => dumps kv.2) d -> Z.of_nat (S n) + fold_right Z.max 0 (map (fun kv => depth kv.2) d) <= INT_MAX ->
  dump_dict (Z.of_nat n) (fun node => _be_dump node (- (Z.of_nat n + 1)))
    (map (fun kv => (Some (fst kv), Some (to_node (snd kv)))) d) =
  Ok (unlines (S n) (concat (map (fun kv => labelled kv.1 (lines kv.2)) d))).
Proof.
  intros H. induction H as [|[k v] d (x & xs & El & E) H IH]; intros Hn; [done|]. cbn [map fold_right fst snd] in Hn, El, E |- *.
  cbn [dump_dict concat printf_s]. rewrite cstr_until. cbn [res_bind]. rewrite (E (S n)) by lia. cbn [res_bind].
  fold (dump_dict (Z.of_nat n) (fun node => _be_dump node (- (Z.of_nat n + 1)))). rewrite IH by lia. cbn [res_bind]. rewrite El.
  cbn [labelled]. rewrite unlines_app, unlines_cons. replace (Z.of_nat n + 1) with (Z.of_nat (S n)) by lia.
  replace (_be_dump_indent (- Z.of_nat (S n))) with (@nil Z) by (unfold _be_dump_indent; by replace (Z.to_nat (- Z.of_nat (S n))) with 0%nat by lia).
  cbn [app]. by rewrite <- !app_assoc.
Qed.

Lemma dumps_all v : dumps v.
Proof.
  induction v as [s|z|l IH|d IH] using bval_nested_ind; (eexists; eexists; split; [reflexivity|]); intros n indent Hi Hn;
    pose proof (depth_nonneg (VList [])); cbn [depth] in Hn; cbn [_be_dump to_node].
  - rewrite abs_small by lia. cbn [res_bind printf_s be_str_len]. rewrite cstr_until. cbn [res_bind]. by rewrite <- !app_assoc.
  - rewrite abs_small by lia. cbn [res_bind]. by rewrite <- !app_assoc.
  - assert (0 <= fold_right Z.max 0 (map depth l)) by (clear; induction l; cbn [map fold_right]; lia).
    rewrite abs_small by lia. cbn [res_bind]. rewrite Hi, dump_list_ok by (done || lia). cbn [res_bind].
    rewrite unlines_app, unlines_indented, unlines_cons. by rewrite <- ?app_assoc.
  - assert (0 <= fold_right Z.max 0 (map (fun kv => depth kv.2) d)) by (clear; induction d; cbn [map fold_right]; lia).
    rewrite abs_small by lia. cbn [res_bind]. rewrite Hi, dump_dict_ok by (done || lia). cbn [res_bind].
    rewrite unlines_app, unlines_indented, unlines_cons. by rewrite <- ?app_assoc.
Qed.

(** ** Properties *)
(** C26: [be_free] releases exactly the blocks of a tree, each once: whatever else
    is in the heap stays, nothing of the tree does, and no block is read after it
    was released. *)
Theorem be_free_releases h hf p n : tree h p n -> h ##ₘ hf -> be_free (h ∪ hf) p = Ok hf.
Proof.
  intros Ht Hd. destruct frees_tree as [H _]. apply (H _ _ _ Ht); [done|]. rewrite map_size_disj_union by done. lia.
Qed.

(** a dictionary with a list, and a block that is not part of it *)
Definition sample_tree : blocks :=
  <[100 := DictNode 200]> (<[200 := DictBlock [(308, 400); (0, 0)]]>
    (<[300 := StrBlock (str "a")]> ((<[400 := ListNode 500]> (<[500 := ListBlock [600; 0]]> ({[600 := IntNode 1]} ∪ ∅))) ∪ ∅))).

Lemma sample_is_tree : tree sample_tree 100 (BE_DICT [(Some (str "a"), Some (BE_LIST [BE_INT 1]))]).
Proof.
  apply (tree_dict 100 200 [(308, 400)] 0); [done..|vm_compute; reflexivity|vm_compute; reflexivity|].
  apply (entries_cons 308 400); [|apply entries_nil|apply map_disjoint_empty_r|done..].
  apply (tree_list 400 500 [600]); [done..|]. apply (trees_cons 600); [by apply tree_int|apply trees_nil|apply map_disjoint_empty_r].
Qed.

Lemma be_free_releases_witness :
  be_free (sample_tree ∪ {[900 := IntNode 5]}) 100 = Ok {[900 := IntNode 5]}.
Proof.
  apply (be_free_releases sample_tree {[900 := IntNode 5]} 100 (BE_DICT [(Some (str "a"), Some (BE_LIST [BE_INT 1]))])).
  - apply sample_is_tree.
  - apply map_disjoint_singleton_r. vm_compute. reflexivity.
Defined.

(** [be_dump] prints the lines of a value: every line of an element is
    indented by four spaces more than the brackets around it, and a key stands
    in front of the first line of its value, for every nesting an [int] can
    count. *)
Theorem be_dump_lines v : depth v <= INT_MAX -> be_dump (to_node v) = Ok (unlines 0 (lines v)).
Proof.
  intros Hd. destruct (dumps_all v) as (l & ls & El & E). unfold be_dump. rewrite (E 0%nat) by (reflexivity || lia).
  by rewrite El, unlines_cons.
Qed.

Lemma be_dump_lines_witness :
  be_dump (to_node (VDict [(str "a", VList [VInt (-7); VStr (str "xy")])])) =
  Ok (str "dict {" ++ [10] ++ str "    a => list [" ++ [10] ++ str "        int = -7" ++ [10] ++
      str "        str = xy (len = 2)" ++ [10] ++ str "    ]" ++ [10] ++ str "}" ++ [10]).
Proof. apply (be_dump_lines (VDict [(str "a", VList [VInt (-7); VStr (str "xy")])])). vm_compute. discriminate. Defined.
