(* ===== verification/Metainfo.v ===== *)
(** * Reading a .torrent file (src/src/bencode.c, lines 290-369)

    [_read_file], [load_be_node] and [decodeFile], which walks the tree of
    [Bencode] and fills a [bt_info_t].  The struct is addressed by the offsets
    of its members on a 64-bit machine, and the size of the object it is
    allocated in is an argument, so that the bounds of each store are checked
    against the allocation of the code. *)
From Stdlib Require Import ZArith Lia Bool String.
From stdpp Require Import base numbers option list.
From S2P Require Import Prelude CStr Bencode BencodeSpec.

(** ** Files *)
(** what [stat] and [fopen] find under a name *)
Inductive file :=
  | NoFile                      (** [stat] fails *)
  | Unreadable (size : Z)       (** [stat] succeeds, [fopen] fails *)
  | Readable (contents : bytes).

(** the returned buffer (NULL: [None]) and what is stored in [*len] (nothing: [None]) *)
Definition _read_file (f : file) : option bytes * option Z :=
  match f with
  | NoFile => (None, None)
  | Unreadable size => (None, Some size)
  | Readable c => (Some c, Some (zlen c))
  end.

(** [torf_s] is read uninitialised when [stat] failed; [be_decoden] reads the
    null buffer unless the count is 0. *)
Definition load_be_node (f : file) : res (option be_node) :=
  match _read_file f with
  | (_, None) => Fault Uninit
  | (None, Some len) => if len =? 0 then Ok None else Fault NullDeref
  | (Some data, Some len) => let* (node, _, _) := be_decoden data len in Ok node
  end.

(** ** [bt_info_t] *)
Definition FILE_NAME_MAX : Z := 1024.
Definition off_announce : Z := 0.
Definition off_name : Z := FILE_NAME_MAX.
Definition off_piece_length : Z := 2 * FILE_NAME_MAX.
Definition off_length : Z := off_piece_length + 4.
Definition off_num_pieces : Z := off_length + 4.
Definition off_piece_hashes : Z := off_num_pieces + 8.  (** aligned to 8 *)
Definition sizeof_bt_info : Z := off_piece_hashes + 8.

(** [None]: never stored to *)
Record bt_info := {
  announce : option bytes;
  name : option bytes;
  piece_length : option Z;
  length_ : option Z;
  num_pieces : option Z;
  piece_hashes : option (list bytes) }.

Definition bt_uninit : bt_info := Build_bt_info None None None None None None.

Definition set_announce v o := Build_bt_info (Some v) (name o) (piece_length o) (length_ o) (num_pieces o) (piece_hashes o).
Definition set_name v o := Build_bt_info (announce o) (Some v) (piece_length o) (length_ o) (num_pieces o) (piece_hashes o).
Definition set_piece_length v o := Build_bt_info (announce o) (name o) (Some v) (length_ o) (num_pieces o) (piece_hashes o).
Definition set_length v o := Build_bt_info (announce o) (name o) (piece_length o) (Some v) (num_pieces o) (piece_hashes o).
Definition set_num_pieces v o := Build_bt_info (announce o) (name o) (piece_length o) (length_ o) (Some v) (piece_hashes o).
Definition set_piece_hashes v o := Build_bt_info (announce o) (name o) (piece_length o) (length_ o) (num_pieces o) (Some v).

(** ** Access to a node through its union *)
Definition val_s (n : be_node) : res bytes :=
  match n with
  | BE_STR (Some s) => Ok (s ++ [0])   (** the decoder terminates the copy *)
  | BE_STR None => Fault NullDeref
  | _ => Fault BadUnion
  end.

Definition val_i (n : be_node) : res Z :=
  match n with BE_INT i => Ok i | _ => Fault BadUnion end.

Definition val_d (n : be_node) : res (list (option bytes * option be_node)) :=
  match n with BE_DICT d => Ok d | _ => Fault BadUnion end.

(** [strcmp(key, lit) == 0] *)
Definition key_is (key : option bytes) (lit : string) : res bool :=
  match key with
  | None => Fault NullDeref
  | Some k => let* d := strcmp (k ++ [0]) (str lit ++ [0]) in Ok (d =? 0)
  end.

Definition loaded {A} (o : option A) : res A :=
  match o with Some a => Ok a | None => Fault Uninit end.

Section decodeFile.
(** the size of the object [out] points to *)
Variable alloc : Z.

Definition in_alloc (off n : Z) : bool := off + n <=? alloc.

(** [strcpy(out->member, s)] into a member of [FILE_NAME_MAX] bytes *)
Definition strcpy_member (off : Z) (s : bytes) : res bytes :=
  let* s := cstr s in
  check* (zlen s + 1 <=? FILE_NAME_MAX) && in_alloc off (zlen s + 1) else OutOfBounds in Ok s.

(** case "piece length": lines 347-353 *)
Definition store_piece_length (v : Z) (out : bt_info) : res bt_info :=
  check* in_alloc off_piece_length 4 else OutOfBounds in
  let out := set_piece_length (to_int v) out in
  let* len := loaded (length_ out) in
  let* plen := loaded (piece_length out) in
  check* negb (plen =? 0) else DivByZero in
  let* q := int_arith (Z.quot len plen) in
  check* in_alloc off_num_pieces 4 else OutOfBounds in
  let out := set_num_pieces q out in
  if 0 <? Z.rem len plen then
    let* q := int_arith (q + 1) in Ok (set_num_pieces q out)
  else Ok out.

(** the loop of lines 361-364: [n] hashes from hash [k] on *)
Fixpoint copy_hashes (s : bytes) (k : Z) (n : nat) : res (list bytes) :=
  match n with
  | O => Ok []
  | S n =>
      let* h := slice s (20 * k) 20 in
      let* hs := copy_hashes s (k + 1) n in
      Ok (h :: hs)
  end.

Definition store_pieces (infonode : be_node) (out : bt_info) : res bt_info :=
  let* n := loaded (num_pieces out) in
  check* in_alloc off_piece_hashes 8 else OutOfBounds in
  if n <=? 0 then Ok (set_piece_hashes [] out)
  else
    let* s := val_s infonode in
    let* hs := copy_hashes s 0 (Z.to_nat n) in
    Ok (set_piece_hashes hs out).

(** one entry of the info dictionary: lines 340-365 *)
Definition info_entry (key : option bytes) (infonode : be_node) (out : bt_info) : res bt_info :=
  let* b := key_is key "name" in
  if b then
    let* s := val_s infonode in let* s := strcpy_member off_name s in Ok (set_name s out)
  else
  let* b := key_is key "length" in
  if b then
    let* i := val_i infonode in
    check* in_alloc off_length 4 else OutOfBounds in Ok (set_length (to_int i) out)
  else
  let* b := key_is key "piece length" in
  if b then let* i := val_i infonode in store_piece_length i out
  else
  let* b := key_is key "pieces" in
  if b then store_pieces infonode out
  else Ok out.

(** a [for] loop over the entries, up to the first null [val] *)
Fixpoint for_entries (body : option bytes -> be_node -> bt_info -> res bt_info)
  (d : list (option bytes * option be_node)) (out : bt_info) : res bt_info :=
  match d with
  | (key, Some v) :: d => let* out := body key v out in for_entries body d out
  | _ => Ok out
  end.

(** one entry of the torrent: lines 334-367 *)
Definition torrent_entry (key : option bytes) (currnode : be_node) (out : bt_info) : res bt_info :=
  let* b := key_is key "announce" in
  if b then
    let* s := val_s currnode in let* s := strcpy_member off_announce s in Ok (set_announce s out)
  else
  let* b := key_is key "info" in
  if b then let* d := val_d currnode in for_entries info_entry d out
  else Ok out.

Definition decodeFile_in (f : file) : res bt_info :=
  let* node := load_be_node f in
  match node with
  | None => Fault NullDeref
  | Some n => let* d := val_d n in for_entries torrent_entry d bt_uninit
  end.
End decodeFile.

(** [out] is allocated with [malloc(1000)]. *)
Definition decodeFile : file -> res bt_info := decodeFile_in 1000.

(** ** A well-formed metainfo file *)
Definition metainfo_with (ann nm : bytes) (len plen : Z) (pieces : bytes) : bval :=
  VDict [(str "announce", VStr ann);
         (str "info", VDict [(str "length", VInt len);
                             (str "name", VStr nm);
                             (str "piece length", VInt plen);
                             (str "pieces", VStr pieces)])].

Definition metainfo (ann nm : bytes) (len plen : Z) (hashes : list bytes) : bval :=
  metainfo_with ann nm len plen (concat hashes).

(** the number of pieces of [plen] bytes that hold [len] bytes *)
Definition pieces_of (len plen : Z) : Z := (len + plen - 1) / plen.

Record metainfo_ok (ann nm : bytes) (len plen : Z) (hashes : list bytes) : Prop := {
  mi_ann : no_nul ann /\ zlen ann < FILE_NAME_MAX;
  mi_nm : no_nul nm /\ zlen nm < FILE_NAME_MAX;
  mi_len : 0 <= len <= INT_MAX;
  mi_plen : 0 < plen <= INT_MAX;
  mi_hashes : Forall (fun h => length h = 20%nat) hashes;
  mi_count : zlen hashes = pieces_of len plen }.

(** ** Lemmas *)
Ltac keys :=
  repeat match goal with
  | |- context [key_is ?k ?l] => let v := eval vm_compute in (key_is k l) in change (key_is k l) with v
  end; cbn [res_bind].

Lemma length_hashes hashes :
  Forall (fun h : bytes => length h = 20%nat) hashes -> zlen (concat hashes) = 20 * zlen hashes.
Proof.
  induction 1 as [|h hs Hh Hhs IH]; [done|]. cbn [concat]. rewrite zlen_app, IH, zlen_cons.
  unfold zlen at 1. lia.
Qed.

Lemma copy_hashes_concat pre hashes post :
  Forall (fun h : bytes => length h = 20%nat) pre -> Forall (fun h : bytes => length h = 20%nat) hashes ->
  copy_hashes (concat (pre ++ hashes) ++ post) (zlen pre) (length hashes) = Ok hashes.
Proof.
  intros Hpre H. revert pre Hpre. induction H as [|h hs Hh Hhs IH]; intros pre Hpre; [done|]. simpl.
  rewrite concat_app. simpl. rewrite <- !app_assoc.
  rewrite (slice_at (concat pre) h) by (rewrite ?length_hashes; unfold zlen; lia || done).
  cbn [res_bind]. specialize (IH (pre ++ [h])). rewrite zlen_app, <- app_assoc, concat_app in IH.
  simpl in IH. rewrite <- !app_assoc in IH. change (zlen [h]) with 1 in IH.
  rewrite IH; [done|]. apply Forall_app. split; [done|by repeat constructor].
Qed.

Lemma strcpy_member_fits alloc off s :
  no_nul s -> zlen s < FILE_NAME_MAX -> off + FILE_NAME_MAX <= alloc ->
  strcpy_member alloc off (s ++ [0]) = Ok s.
Proof.
  intros Hs Hl Ha. unfold strcpy_member, in_alloc. rewrite cstr_app by done. cbn [res_bind].
  by rewrite !(proj2 (Z.leb_le _ _)) by lia.
Qed.

Lemma pieces_of_quot len plen :
  0 <= len -> 0 < plen ->
  pieces_of len plen = Z.quot len plen + (if 0 <? Z.rem len plen then 1 else 0).
Proof. apply ceil_div_quot. Qed.

Lemma store_piece_length_ok alloc len plen out :
  sizeof_bt_info <= alloc -> 0 <= len <= INT_MAX -> 0 < plen <= INT_MAX -> length_ out = Some len ->
  store_piece_length alloc plen out =
    Ok (set_num_pieces (pieces_of len plen) (set_piece_length plen out)).
Proof.
  intros Ha Hl Hp Ho. unfold store_piece_length, in_alloc, sizeof_bt_info, off_piece_hashes,
    off_num_pieces, off_length, off_piece_length in *.
  unfold INT_MAX in *. pose proof (Z.quot_pos len plen ltac:(lia) ltac:(lia)).
  assert (0 < Z.rem len plen -> Z.quot len plen + 1 <= len) as Hq1.
  { intros Hr. pose proof (Z.quot_rem len plen ltac:(lia)). nia. }
  assert (Z.quot len plen <= len) as Hq2.
  { rewrite Z.quot_div_nonneg by lia. apply Z.div_le_upper_bound; nia. }
  rewrite (proj2 (Z.leb_le _ _)) by lia. unfold set_piece_length at 1. cbn [length_ piece_length].
  rewrite Ho, to_int_id by (unfold is_int, INT_MIN, INT_MAX; lia). cbn [loaded res_bind length_ piece_length set_piece_length].
  rewrite (proj2 (Z.eqb_neq plen 0)) by lia. cbn [negb].
  rewrite int_arith_Ok by (unfold is_int, INT_MIN, INT_MAX; lia). cbn [res_bind].
  rewrite (proj2 (Z.leb_le _ _)) by lia. rewrite pieces_of_quot by lia.
  bdestruct (0 <? Z.rem len plen).
  - rewrite int_arith_Ok by (unfold is_int, INT_MIN, INT_MAX; lia). done.
  - by rewrite Z.add_0_r.
Qed.

(** the first [n] hashes of 20 bytes *)
Definition digests (s : bytes) (n : nat) : list bytes := map (fun k => take 20 (drop (20 * k) s)) (seq 0 n).

Lemma copy_hashes_any s n : forall k,
  copy_hashes s (Z.of_nat k) n =
  if 20 * Z.of_nat n <=? Z.max 0 (zlen s - 20 * Z.of_nat k) then Ok (map (fun k => take 20 (drop (20 * k) s)) (seq k n))
  else Fault OutOfBounds.
Proof.
  induction n as [|n IH]; intros k; cbn [copy_hashes seq map].
  - by rewrite (proj2 (Z.leb_le _ _)) by lia.
  - unfold slice. rewrite (proj2 (Z.leb_le 0 (20 * Z.of_nat k))) by lia. cbn [Z.leb Z.compare andb].
    bdestruct (20 * Z.of_nat k + 20 <=? zlen s); cbn [res_bind].
    + replace (Z.of_nat k + 1) with (Z.of_nat (S k)) by lia. rewrite IH.
      replace (Z.to_nat (20 * Z.of_nat k)) with (20 * k)%nat by lia.
      replace (20 * Z.of_nat n <=? Z.max 0 (zlen s - 20 * Z.of_nat (S k)))
        with (20 * Z.of_nat (S n) <=? Z.max 0 (zlen s - 20 * Z.of_nat k)); [|apply eq_true_iff_eq; rewrite !Z.leb_le; lia].
      by destruct (20 * Z.of_nat (S n) <=? _).
    + by rewrite (proj2 (Z.leb_gt _ _)) by lia.
Qed.

Lemma metainfo_ranged ann nm len plen p :
  zlen ann < FILE_NAME_MAX -> zlen nm < FILE_NAME_MAX -> 0 <= len <= INT_MAX -> 0 < plen <= INT_MAX -> zlen p <= LLONG_MAX ->
  ranged (metainfo_with ann nm len plen p).
Proof.
  intros H1 H2 H3 H4 H5. unfold FILE_NAME_MAX, INT_MAX in *.
  assert (forall s : bytes, (length s < 100)%nat -> zlen s <= LLONG_MAX) as Hs.
  { intros s Hs. unfold zlen, LLONG_MAX. lia. }
  cbn [ranged metainfo_with map fold_right fst snd]. unfold LLONG_MAX, LLONG_MIN in *.
  repeat split; try lia; apply Hs; vm_compute; lia.
Qed.

(** any string of hashes [p] *)
Lemma decodeFile_in_with alloc ann nm len plen p :
  sizeof_bt_info <= alloc -> no_nul ann -> zlen ann < FILE_NAME_MAX -> no_nul nm -> zlen nm < FILE_NAME_MAX ->
  0 <= len <= INT_MAX -> 0 < plen <= INT_MAX -> zlen p <= LLONG_MAX ->
  decodeFile_in alloc (Readable (bencode (metainfo_with ann nm len plen p))) =
  if 20 * pieces_of len plen <=? zlen p + 1
  then Ok (Build_bt_info (Some ann) (Some nm) (Some plen) (Some len) (Some (pieces_of len plen))
             (Some (digests (p ++ [0]) (Z.to_nat (pieces_of len plen)))))
  else Fault OutOfBounds.
Proof.
  intros Ha Hann1 Hann2 Hnm1 Hnm2 Hlen Hplen Hp. unfold decodeFile_in, load_be_node. cbn [_read_file].
  rewrite decoden_exact by (by apply metainfo_ranged || done).
  assert (FILE_NAME_MAX * 2 + 24 <= alloc) as Ha' by (exact Ha). unfold FILE_NAME_MAX in *.
  cbn [res_bind to_node metainfo_with map fst snd val_d for_entries]. unfold torrent_entry. keys.
  cbn [val_s res_bind]. rewrite strcpy_member_fits by (done || unfold off_announce, FILE_NAME_MAX; lia). cbn [res_bind].
  cbn [val_d for_entries res_bind]. unfold info_entry. keys. cbn [val_i val_s res_bind].
  unfold in_alloc. rewrite (proj2 (Z.leb_le _ _)) by (unfold off_length, off_piece_length, FILE_NAME_MAX; lia).
  cbn [res_bind]. keys. rewrite to_int_id by (unfold is_int, INT_MIN, INT_MAX in *; lia).
  rewrite strcpy_member_fits by (done || unfold off_name, FILE_NAME_MAX; lia). keys.
  rewrite (store_piece_length_ok _ len) by done. keys. unfold store_pieces.
  cbn [num_pieces set_num_pieces loaded res_bind]. unfold in_alloc.
  rewrite (proj2 (Z.leb_le _ _)) by exact Ha. pose proof (zlen_nonneg p).
  assert (0 <= pieces_of len plen) by (apply Z.div_pos; lia).
  cbn [val_s]. pose proof (copy_hashes_any (p ++ [0]) (Z.to_nat (pieces_of len plen)) 0) as E.
  rewrite zlen_app, Z2Nat.id in E by done. change (zlen [0]) with 1 in E. change (Z.of_nat 0) with 0 in E.
  replace (20 * pieces_of len plen <=? zlen p + 1) with
    (20 * pieces_of len plen <=? Z.max 0 (zlen p + 1 - 20 * 0)) by (apply eq_true_iff_eq; rewrite !Z.leb_le; lia).
  bdestruct (pieces_of len plen <=? 0).
  - replace (pieces_of len plen) with 0 by lia. by rewrite (proj2 (Z.leb_le _ _)) by lia.
  - cbn [res_bind]. rewrite E. by destruct (20 * pieces_of len plen <=? _).
Qed.

Lemma digests_concat hashes post :
  Forall (fun h : bytes => length h = 20%nat) hashes -> digests (concat hashes ++ post) (length hashes) = hashes.
Proof.
  intros H. pose proof (copy_hashes_concat [] hashes post (Forall_nil_2 _) H) as E. cbn [app] in E.
  change (zlen []) with (Z.of_nat 0) in E. rewrite copy_hashes_any in E.
  by destruct (_ <=? _); [injection E|].
Qed.

Lemma metainfo_short ann nm len plen hashes : metainfo_ok ann nm len plen hashes -> zlen (concat hashes) <= LLONG_MAX.
Proof.
  intros [_ _ Hlen Hplen Hh Hc]. rewrite length_hashes, Hc by done. unfold pieces_of, INT_MAX, LLONG_MAX in *.
  assert ((len + plen - 1) / plen <= len + plen) by (apply Z.div_le_upper_bound; nia). lia.
Qed.

Lemma load_metainfo ann nm len plen hashes :
  metainfo_ok ann nm len plen hashes ->
  load_be_node (Readable (bencode (metainfo ann nm len plen hashes))) = Ok (Some (to_node (metainfo ann nm len plen hashes))).
Proof.
  intros Hok. unfold load_be_node. cbn [_read_file]. pose proof (metainfo_short _ _ _ _ _ Hok).
  destruct Hok as [[_ Hann] [_ Hnm] Hlen Hplen _ _]. rewrite decoden_exact; [done|by apply metainfo_ranged|done].
Qed.

Lemma decodeFile_in_ok alloc ann nm len plen hashes :
  sizeof_bt_info <= alloc -> metainfo_ok ann nm len plen hashes ->
  decodeFile_in alloc (Readable (bencode (metainfo ann nm len plen hashes))) =
  Ok (Build_bt_info (Some ann) (Some nm) (Some plen) (Some len) (Some (pieces_of len plen)) (Some hashes)).
Proof.
  intros Ha [[Hann1 Hann2] [Hnm1 Hnm2] Hlen Hplen Hh Hc].
  pose proof (length_hashes hashes Hh) as El. unfold metainfo. rewrite decodeFile_in_with; try done.
  - rewrite (proj2 (Z.leb_le _ _)) by lia. rewrite <- Hc.
    replace (Z.to_nat (zlen hashes)) with (length hashes) by (unfold zlen; lia). by rewrite digests_concat.
  - by eapply metainfo_short.
Qed.

(** C22: With [out] allocated as large as [bt_info_t], a well-formed metainfo
    file is decoded to exactly its contents: the tracker, the file name, its
    length, the piece length, the number of pieces rounded up, and the 20-byte
    hash of each piece. *)
Theorem decodeFile_in_metainfo alloc ann nm len plen hashes :
  sizeof_bt_info <= alloc -> metainfo_ok ann nm len plen hashes ->
  decodeFile_in alloc (Readable (bencode (metainfo ann nm len plen hashes))) =
  Ok (Build_bt_info (Some ann) (Some nm) (Some plen) (Some len) (Some (pieces_of len plen)) (Some hashes)).
Proof. apply decodeFile_in_ok. Qed.

Definition sample_hashes : list bytes := [replicate 20 65; replicate 20 66].

Lemma sample_metainfo_ok : metainfo_ok (str "10.7.24.69") (str "moby_dick.txt") 500 256 sample_hashes.
Proof.
  split; [split; [vm_compute; repeat constructor; discriminate|reflexivity]
    |split; [vm_compute; repeat constructor; discriminate|reflexivity]
    |vm_compute; split; discriminate|vm_compute; split; [reflexivity|discriminate]
    |vm_compute; repeat constructor|reflexivity].
Qed.

Lemma decodeFile_in_metainfo_witness :
  metainfo_ok (str "10.7.24.69") (str "moby_dick.txt") 500 256 sample_hashes /\
  decodeFile_in 2072 (Readable (bencode (metainfo (str "10.7.24.69") (str "moby_dick.txt") 500 256 sample_hashes))) =
  Ok (Build_bt_info (Some (str "10.7.24.69")) (Some (str "moby_dick.txt")) (Some 256) (Some 500) (Some 2) (Some sample_hashes)).
Proof.
  split; [exact sample_metainfo_ok|].
  exact (decodeFile_in_metainfo 2072 _ _ 500 256 sample_hashes (Z.le_refl 2072) sample_metainfo_ok).
Defined.

(** ** The allocation of the code *)
(** What can be stored when only the member [announce] is inside [out]. *)
Definition only_announce (o : bt_info) : Prop :=
  name o = None /\ piece_length o = None /\ length_ o = None /\ num_pieces o = None.

Lemma info_entry_1000 key n out out' :
  only_announce out -> info_entry 1000 key n out = Ok out' -> only_announce out'.
Proof.
  intros Ho H. unfold info_entry in H. step_res H. destruct a.
  { step_res H. step_res H. unfold strcpy_member, in_alloc in Ha1. step_res Ha1.
    rewrite (proj2 (Z.leb_gt (off_name + _) _)) in Ha1; [by rewrite andb_false_r in Ha1|].
    pose proof (zlen_nonneg a1). unfold off_name, FILE_NAME_MAX. lia. }
  step_res H. destruct a; [by step_res H|]. step_res H. destruct a; [by step_res H|].
  step_res H. destruct a; [|by injection H as <-].
  destruct Ho as (_ & _ & _ & Hn). unfold store_pieces in H. by rewrite Hn in H.
Qed.

Lemma for_entries_inv (P : bt_info -> Prop) body d out out' :
  (forall key n o o', P o -> body key n o = Ok o' -> P o') ->
  P out -> for_entries body d out = Ok out' -> P out'.
Proof.
  intros Hbody. revert out. induction d as [|[key [n|]] d IH]; intros out Ho H;
    [by injection H as <-| |by injection H as <-].
  simpl in H. step_res H. eapply IH; [|done]. by eapply Hbody.
Qed.

Lemma decodeFile_only_announce f out : decodeFile f = Ok out -> only_announce out.
Proof.
  unfold decodeFile, decodeFile_in. intros H. step_res H. destruct a as [n|]; [|done]. step_res H.
  eapply (for_entries_inv only_announce); [| |exact H]; [|done].
  intros key m o o' Ho Hb. unfold torrent_entry in Hb. step_res Hb. destruct a0.
  { step_res Hb. step_res Hb. by injection Hb as <-. }
  step_res Hb. destruct a0; [|by injection Hb as <-]. step_res Hb.
  eapply (for_entries_inv only_announce); [|exact Ho|exact Hb]. intros. by eapply info_entry_1000.
Qed.

Lemma decodeFile_overflows ann nm len plen hashes :
  metainfo_ok ann nm len plen hashes -> decodeFile (Readable (bencode (metainfo ann nm len plen hashes))) = Fault OutOfBounds.
Proof.
  intros Hok. unfold decodeFile, decodeFile_in. rewrite load_metainfo by done.
  destruct Hok as [[Hann1 Hann2] _ _ _ _ _].
  cbn [res_bind to_node metainfo metainfo_with map fst snd val_d for_entries]. unfold torrent_entry. keys.
  cbn [val_s res_bind]. unfold strcpy_member. rewrite cstr_app by done. cbn [res_bind].
  rewrite (proj2 (Z.leb_le _ _)) by lia. cbn [andb]. destruct (in_alloc _ _ _); [|done].
  cbn [res_bind val_d for_entries]. unfold info_entry. by keys.
Qed.

(** [decodeFile] allocates its result with [malloc(1000)], less than the
    offset of [name]: on a well-formed metainfo file it writes outside of the
    allocation, and whatever the file, it never returns with the name, the
    length, the piece length or the number of pieces filled in. *)
Theorem decodeFile_too_small ann nm len plen hashes f out :
  metainfo_ok ann nm len plen hashes ->
  decodeFile (Readable (bencode (metainfo ann nm len plen hashes))) = Fault OutOfBounds /\
  (decodeFile f = Ok out -> only_announce out).
Proof. intros Hok. split; [by apply decodeFile_overflows|apply decodeFile_only_announce]. Qed.

Lemma decodeFile_too_small_witness :
  metainfo_ok (str "10.7.24.69") (str "moby_dick.txt") 500 256 sample_hashes /\
  decodeFile (Readable (bencode (metainfo (str "10.7.24.69") (str "moby_dick.txt") 500 256 sample_hashes))) = Fault OutOfBounds /\
  only_announce (set_announce (str "abc") bt_uninit).
Proof.
  split; [exact sample_metainfo_ok|].
  pose proof (decodeFile_too_small _ _ 500 256 sample_hashes (Readable (str "d8:announce3:abce"))
    (set_announce (str "abc") bt_uninit) sample_metainfo_ok) as [H1 H2].
  split; [exact H1|]. apply H2. vm_compute. reflexivity.
Defined.

(** What [decodeFile] needs of the order and the values of the info
    dictionary: a piece length in front of the length is divided into an
    indeterminate value, a piece length of 0 (or a multiple of 2^32) divides by
    zero, and hashes that do not cover every piece are read out of bounds. *)
Theorem store_piece_length_errors alloc v out len :
  sizeof_bt_info <= alloc ->
  (length_ out = None -> store_piece_length alloc v out = Fault Uninit) /\
  (length_ out = Some len -> to_int v = 0 -> store_piece_length alloc v out = Fault DivByZero) /\
  (forall s n, num_pieces out = Some n -> zlen s + 1 < 20 * n ->
     store_pieces alloc (BE_STR (Some s)) out = Fault OutOfBounds).
Proof.
  intros Ha. assert (off_piece_length + 4 <= alloc) as Hb by (unfold sizeof_bt_info, off_piece_hashes, off_num_pieces, off_length in Ha; lia).
  unfold store_piece_length, in_alloc. rewrite (proj2 (Z.leb_le _ _)) by done. split; [|split].
  - intros Hn. cbn. by rewrite Hn.
  - intros Hn Hz. cbn [length_ set_piece_length piece_length]. rewrite Hn. cbn [loaded res_bind]. by rewrite Hz.
  - intros s n Hn Hl. unfold store_pieces. rewrite Hn. cbn [loaded res_bind]. unfold in_alloc.
    rewrite (proj2 (Z.leb_le _ _)) by (unfold sizeof_bt_info in Ha; lia).
    pose proof (zlen_nonneg s). bdestruct (n <=? 0); [lia|]. cbn [val_s res_bind].
    assert (forall k m, 0 <= k -> (0 < m)%nat -> zlen s + 1 < 20 * (k + Z.of_nat m) ->
      copy_hashes (s ++ [0]) k m = Fault OutOfBounds) as Hc.
    { intros k m. revert k. induction m as [|m IH]; intros k Hk Hm Hlt; [lia|]. simpl.
      destruct (decide (zlen s + 1 < 20 * k + 20)).
      - rewrite slice_oob; [done|lia|]. rewrite zlen_app. unfold zlen at 2. simpl. lia.
      - rewrite slice_in_bounds; [|lia..|rewrite zlen_app; unfold zlen at 2; simpl; lia]. cbn [res_bind].
        rewrite IH; [done|lia|destruct m; lia|lia]. }
    rewrite Hc by lia. done.
Qed.

Lemma store_piece_length_errors_witness :
  store_piece_length 2072 256 bt_uninit = Fault Uninit /\
  store_piece_length 2072 (2 ^ 32) (set_length 10 bt_uninit) = Fault DivByZero /\
  store_pieces 2072 (BE_STR (Some (str "short"))) (set_num_pieces 1 bt_uninit) = Fault OutOfBounds.
Proof.
  split; [apply (store_piece_length_errors 2072 256 bt_uninit 0); [exact (Z.le_refl 2072)|reflexivity]|].
  split; [apply (store_piece_length_errors 2072 _ _ 10); [exact (Z.le_refl 2072)|reflexivity..]|].
  apply (store_piece_length_errors 2072 0 _ 0 (Z.le_refl 2072)) with (n := 1); reflexivity.
Defined.
