(* ===== verification/Util.v ===== *)
(** * Bit counting and debug output (src/src/util.c)

    A [char] is signed; a byte of a buffer is converted with [to_char] when the
    code loads it into a [char].  The two socket set-up routines take the
    results of the system calls as arguments. *)
From Stdlib Require Import ZArith Lia Bool String.
From stdpp Require Import base numbers option list.
From S2P Require Import Prelude CStr.

(** ** Counting bits *)
(** the loop of [count_char_bits]: [b &= b - 1] until [b] is 0 *)
Fixpoint count_loop (fuel : nat) (b count : Z) : res Z :=
  match fuel with
  | O => Fault NoFuel
  | S fuel => if b =? 0 then Ok count else count_loop fuel (to_char (Z.land b (b - 1))) (count + 1)
  end.

(** each round clears one of at most 8 bits *)
Definition count_char_bits (b : Z) : res Z := count_loop 9 b 0.

Fixpoint count_bitfield_loop (bitfield : bytes) (x : Z) (n : nat) (count : Z) : res Z :=
  match n with
  | O => Ok count
  | S n =>
      let* b := rd bitfield x in
      let* c := count_char_bits (to_char b) in
      let* count := int_arith (count + c) in
      count_bitfield_loop bitfield (x + 1) n count
  end.

Definition count_bitfield_bits (bitfield : bytes) (bitfieldLen : Z) : res Z :=
  count_bitfield_loop bitfield 0 (Z.to_nat bitfieldLen) 0.

(** ** Debug output: the characters written to [stdout] *)
Definition print_byte_bits (b : Z) : bytes :=
  map (fun j => 48 + Z.land (Z.shiftr (to_char b) j) 1) [7; 6; 5; 4; 3; 2; 1; 0] ++ [32].

Fixpoint print_bits_loop (buf : bytes) (i : Z) (n : nat) : res bytes :=
  match n with
  | O => Ok [10]
  | S n => let* b := rd buf i in let* out := print_bits_loop buf (i + 1) n in Ok (print_byte_bits b ++ out)
  end.

Definition print_bits (buf : bytes) (size_in_bytes : nat) : res bytes := print_bits_loop buf 0 size_in_bytes.

Definition hex_digit (d : Z) : Z := if d <? 10 then 48 + d else 87 + d.

(** ["0x%02x "] of an [unsigned char] *)
Definition print_hex_byte (b : Z) : bytes := str "0x" ++ [hex_digit (b / 16); hex_digit (b mod 16); 32].

Fixpoint print_hex_loop (mem : bytes) (i : Z) (n : nat) : res bytes :=
  match n with
  | O => Ok [10]
  | S n => let* b := rd mem i in let* out := print_hex_loop mem (i + 1) n in Ok (print_hex_byte b ++ out)
  end.

Definition print_hex_memory (mem : bytes) (size : Z) : res bytes := print_hex_loop mem 0 (Z.to_nat size).

(** ** Sockets *)
(** [socket] is not checked, the other calls exit on -1. *)
Definition configure_socket (socket setsockopt bind listen : Z) : res Z :=
  if setsockopt =? -1 then Exit 1
  else if bind =? -1 then Exit 1
  else if listen =? -1 then Exit 1
  else Ok socket.

(** The address the client socket will connect to, and the socket; [pton] is
    what [inet_pton] stores for the address string, nothing if it rejects it. *)
Record sockaddr_in := { sin_family : Z; sin_addr : Z; sin_port : Z }.
Definition AF_INET : Z := 2.
Definition htons (p : Z) : Z := (p mod 256) * 256 + (p / 256) mod 256.

Definition client_socket_wrapper (pton : bytes -> option Z) (socket : Z)
  (server_address : bytes) (port_number : Z) : res (sockaddr_in * Z) :=
  let addr := match pton server_address with Some a => a | None => 0 end in
  if socket =? -1 then Exit 1
  else Ok ({| sin_family := AF_INET; sin_addr := addr; sin_port := htons port_number |}, socket).

(** ** Specification *)
Definition popcount8 (b : Z) : Z :=
  fold_right Z.add 0 (map (fun i => Z.b2z (Z.testbit b i)) [0; 1; 2; 3; 4; 5; 6; 7]).

(** ** Lemmas *)
(** the integers from [a] on *)
Fixpoint zseq (a : Z) (n : nat) : list Z :=
  match n with O => [] | S n => a :: zseq (a + 1) n end.

Lemma elem_of_zseq a n z : a <= z < a + Z.of_nat n -> z ∈ zseq a n.
Proof.
  revert a. induction n as [|n IH]; intros a H; [lia|]. simpl.
  destruct (decide (z = a)) as [->|]; [apply list_elem_of_here|].
  apply list_elem_of_further, IH. lia.
Qed.

(** a boolean property of all bytes or all [char]s, by evaluation *)
Lemma forallb_zseq (P : Z -> bool) a n z :
  forallb P (zseq a n) = true -> a <= z < a + Z.of_nat n -> P z = true.
Proof.
  intros H Hz. rewrite forallb_forall in H. apply H, list_elem_of_In, elem_of_zseq, Hz.
Qed.

Lemma count_char_bits_popcount b : -128 <= b < 128 -> count_char_bits b = Ok (popcount8 b).
Proof.
  intros Hb. pose proof (forallb_zseq (fun b => match count_char_bits b with Ok n => n =? popcount8 b | _ => false end)
    (-128) 256 b) as H. cbv beta in H.
  destruct (count_char_bits b) as [n|f|c]; [|specialize (H ltac:(vm_compute; reflexivity) ltac:(lia)); done..].
  f_equal. apply Z.eqb_eq, H; [vm_compute; reflexivity|lia].
Qed.

Lemma popcount8_bound b : 0 <= popcount8 b <= 8.
Proof.
  unfold popcount8. cbn [map fold_right].
  repeat match goal with |- context [Z.testbit b ?i] => destruct (Z.testbit b i) end; vm_compute; split; discriminate.
Qed.

Lemma popcount8_to_char b : is_byte b -> popcount8 (to_char b) = popcount8 b.
Proof.
  intros Hb. apply Z.eqb_eq.
  exact (forallb_zseq (fun b => popcount8 (to_char b) =? popcount8 b) 0 256 b ltac:(vm_compute; reflexivity) Hb).
Qed.

Definition popcount (l : bytes) : Z := fold_right Z.add 0 (map popcount8 l).

Lemma count_bitfield_loop_ok pre l post count :
  is_bytes l -> 0 <= count -> count + 8 * zlen l <= INT_MAX ->
  count_bitfield_loop (pre ++ l ++ post) (zlen pre) (length l) count = Ok (count + popcount l).
Proof.
  intros Hl. revert pre count. induction Hl as [|b l Hb Hl IH]; intros pre count Hc Hm.
  - simpl. by rewrite Z.add_0_r.
  - rewrite zlen_cons in Hm. pose proof (zlen_nonneg l). pose proof (popcount8_bound b).
    cbn [length count_bitfield_loop app]. rewrite rd_app_mid. cbn [res_bind].
    rewrite count_char_bits_popcount by apply to_char_range. cbn [res_bind].
    rewrite popcount8_to_char by done.
    rewrite int_arith_Ok by (unfold is_int, INT_MIN, INT_MAX in *; lia). cbn [res_bind].
    specialize (IH (pre ++ [b])). rewrite <- app_assoc, zlen_app in IH. cbn [app] in IH.
    change (zlen [b]) with 1 in IH. rewrite IH by lia. f_equal. unfold popcount. simpl. lia.
Qed.

Lemma count_bitfield_loop_oob l pre m count :
  is_bytes l -> 0 <= count -> count + 8 * zlen l <= INT_MAX -> (length l < m)%nat ->
  count_bitfield_loop (pre ++ l) (zlen pre) m count = Fault OutOfBounds.
Proof.
  intros Hl. revert pre m count.
  induction Hl as [|c l Hc Hl IH]; intros pre m count H0 Hmax Hlen;
    (destruct m as [|m]; [simpl in Hlen; lia|]); cbn [count_bitfield_loop].
  - rewrite app_nil_r, rd_out_of_bounds by lia. done.
  - rewrite zlen_cons in Hmax. pose proof (zlen_nonneg l). pose proof (popcount8_bound c).
    rewrite rd_app_mid. cbn [res_bind]. rewrite count_char_bits_popcount by apply to_char_range. cbn [res_bind].
    rewrite popcount8_to_char by done.
    rewrite int_arith_Ok by (unfold is_int, INT_MIN, INT_MAX in *; lia). cbn [res_bind].
    specialize (IH (pre ++ [c]) m (count + popcount8 c)). rewrite <- app_assoc, zlen_app in IH.
    apply IH; [lia..|simpl in Hlen; lia].
Qed.

(** ** Properties *)
(** [count_char_bits] terminates on every [char] and returns its number of
    set bits; [count_bitfield_bits] sums them over the first [bitfieldLen] bytes
    of the bitfield, without overflow, and reads out of bounds when the length
    exceeds the bitfield. *)
Theorem count_bitfield_bits_popcount bitfield n b :
  is_bytes bitfield -> -128 <= b < 128 -> 8 * zlen bitfield <= INT_MAX ->
  count_char_bits b = Ok (popcount8 b) /\
  (0 <= n <= zlen bitfield -> count_bitfield_bits bitfield n = Ok (popcount (take (Z.to_nat n) bitfield))) /\
  (zlen bitfield < n -> count_bitfield_bits bitfield n = Fault OutOfBounds).
Proof.
  intros Hbf Hb Hm. split; [by apply count_char_bits_popcount|]. split.
  - intros Hn. unfold count_bitfield_bits.
    rewrite <- (take_drop (Z.to_nat n) bitfield) at 1. set (l := take _ bitfield).
    assert (length l = Z.to_nat n) as El by (subst l; rewrite length_take; unfold zlen in Hn; lia).
    pose proof (count_bitfield_loop_ok [] l (drop (Z.to_nat n) bitfield) 0) as E.
    rewrite El, Z.add_0_l in E. apply E; [by apply Forall_take|done|]. unfold zlen in *. lia.
  - intros Hn. apply (count_bitfield_loop_oob bitfield []); [done|lia|lia|unfold zlen in Hn; lia].
Qed.

Lemma count_bitfield_bits_popcount_witness :
  count_char_bits (-128) = Ok 1 /\ count_bitfield_bits [255; 3; 128] 2 = Ok 10 /\
  count_bitfield_bits [255; 3; 128] 4 = Fault OutOfBounds.
Proof.
  assert (is_bytes [255; 3; 128]) as Hb by (apply is_bytesb_spec; reflexivity).
  destruct (count_bitfield_bits_popcount [255; 3; 128] 2 (-128) Hb ltac:(split; discriminate || reflexivity) ltac:(vm_compute; discriminate)) as (H1 & H2 & _).
  destruct (count_bitfield_bits_popcount [255; 3; 128] 4 (-128) Hb ltac:(split; discriminate || reflexivity) ltac:(vm_compute; discriminate)) as (_ & _ & H3).
  split; [exact H1|]. split; [apply H2; split; vm_compute; discriminate|apply H3; reflexivity].
Defined.
