(* ===== verification/Ftp.v ===== *)
(** * The file transfer (src/examples/ftp-example/server.c and client.c)

    The results of the system calls are arguments.  The connection is a stream
    of bytes: the server appends to it, and the client takes from its front as
    much as the kernel has at the moment.  [kernel i] decides about the [i]-th
    call of a loop: a negative number is an error, another one is how many bytes
    are moved if that many are asked for and there.  A [send] whose result is
    not looked at sends everything.  Messages printed on the way are left out;
    [junk] is the byte indeterminate memory is filled with, and [pad] the memory
    behind a block of one byte. *)
From Stdlib Require Import ZArith Lia Bool String.
From stdpp Require Import base numbers option list.
From S2P Require Import Prelude CStr.

Definition BUFSIZ : Z := 8192.

(** [sendfile(_, fd, &offset, count)]: the bytes sent, or an error *)
Definition sendfile (file : bytes) (offset count k : Z) : option bytes :=
  if k <? 0 then None
  else Some (take (Z.to_nat (Z.min count (Z.max 1 k))) (drop (Z.to_nat offset) file)).

(** [recv(_, buffer, BUFSIZ, 0)]: the bytes received and the rest of the stream *)
Definition recv (stream : bytes) (k : Z) : option (bytes * bytes) :=
  if k <? 0 then None
  else let n := Z.to_nat (Z.min BUFSIZ (Z.max 1 k)) in Some (take n stream, drop n stream).

Section server.
Variable junk : Z.
Variable pad : bytes.
Variable kernel : nat -> Z.

(** the loop that sends the file; the last call of [sendfile] has sent what it
    has sent *)
Fixpoint send_loop (fuel i : nat) (file : bytes) (offset remain_data : Z) (sent : bytes) : res bytes :=
  match fuel with
  | O => Fault NoFuel
  | S fuel =>
      match sendfile file offset BUFSIZ (kernel i) with
      | None => Ok sent
      | Some d =>
          let sent_bytes := zlen d in
          if (0 <? sent_bytes) && (0 <? remain_data) then
            let* remain_data := int_arith (remain_data - sent_bytes) in
            send_loop fuel (S i) file (offset + sent_bytes) remain_data (sent ++ d)
          else Ok (sent ++ d)
      end
  end.

(** [main] of server.c up to [accept]: [file] is FILE_TO_SEND, [None] if it
    cannot be opened; the call of [error] has the arguments of another function *)
Definition server_accept (socket_ret setsockopt_ret bind_ret listen_ret : Z) (file : option bytes) (fstat_ret accept_ret : Z)
    : res bytes :=
  if socket_ret =? -1 then Exit 1
  else if setsockopt_ret =? -1 then Fault BadFormat
  else if bind_ret =? -1 then Exit 1
  else if listen_ret =? -1 then Exit 1
  else
    match file with
    | None => Exit 1
    | Some file => if fstat_ret <? 0 then Exit 1 else if accept_ret =? -1 then Exit 1 else Ok file
    end.

(** the 256 bytes of [file_size] *)
Definition file_size (file : bytes) : res bytes := blit (replicate 256 junk) 0 (dec (to_int (zlen file)) ++ [0]).

(** the rest of [main]: what is sent to the client *)
Definition server_send (len : Z) (file : bytes) : res bytes :=
  let* header := file_size file in
  if len <? 0 then Exit 1
  else
    let remain_data := to_int (zlen file) in
    let* sent := send_loop (S (length file)) 0 file 0 remain_data [] in
    let buf := 32 :: pad in
    let* n := strlen buf in
    let* space := slice buf 0 n in
    let extra := default [] (sendfile file 16 16 (kernel (S (length file)))) in
    Ok (header ++ sent ++ space ++ extra).
End server.

Section client.
Variable kernel : nat -> Z.

Definition atoi (p : bytes) : res Z := let* (v, _) := strtoll p in Ok (to_int v).

(** the loop that receives the file: the bytes written to it *)
Fixpoint receive_loop (fuel i : nat) (stream : bytes) (remain_data : Z) (written : bytes) : res bytes :=
  match fuel with
  | O => Fault NoFuel
  | S fuel =>
      match recv stream (kernel i) with
      | None => Ok written
      | Some (d, stream) =>
          let len := zlen d in
          if (0 <? len) && (0 <? remain_data) then
            receive_loop fuel (S i) stream (to_int (remain_data - len)) (written ++ d)
          else Ok written
      end
  end.

(** [main] of client.c: the contents of FILENAME at its end; [buffer] is the
    array before the first [recv] *)
Definition client_main (socket_ret connect_ret : Z) (fopen_ok : bool) (buffer stream : bytes) : res bytes :=
  if socket_ret =? -1 then Exit 1
  else if connect_ret =? -1 then Exit 1
  else
    let (got, stream) := default ([], stream) (recv stream (kernel 0)) in
    let* file_size := atoi (got ++ drop (length got) buffer) in
    if negb fopen_ok then Exit 1
    else
      let* remain_data := int_arith (file_size + 1) in
      receive_loop (S (length stream)) 1 stream remain_data [].
End client.

(** ** Lemmas *)
(** a kernel that reports no error *)
Definition working (kernel : nat -> Z) : Prop := forall i, 0 <= kernel i.

Lemma sendfile_moves file offset count k :
  0 <= k -> 0 <= offset -> 0 < count ->
  exists n, sendfile file offset count k = Some (take n (drop (Z.to_nat offset) file)) /\ (0 < n)%nat /\ Z.of_nat n <= count.
Proof.
  intros Hk Ho Hc. unfold sendfile. rewrite (proj2 (Z.ltb_ge k 0)) by done. eexists. split; [done|]. lia.
Qed.

Lemma recv_moves stream k :
  0 <= k -> exists n, recv stream k = Some (take n stream, drop n stream) /\ (0 < n)%nat /\ Z.of_nat n <= BUFSIZ.
Proof. intros Hk. unfold recv, BUFSIZ. rewrite (proj2 (Z.ltb_ge k 0)) by done. eexists. split; [done|]. lia. Qed.

(** whatever the parts, the whole file is sent *)
Lemma send_loop_all kernel file : working kernel -> zlen file <= INT_MAX -> forall fuel i off,
  (off <= length file)%nat -> (length file - off < fuel)%nat ->
  send_loop kernel fuel i file (Z.of_nat off) (zlen file - Z.of_nat off) (take off file) = Ok file.
Proof.
  intros Hk Hf. induction fuel as [|fuel IH]; intros i off Ho Hfuel; [lia|]. cbn [send_loop].
  destruct (sendfile_moves file (Z.of_nat off) BUFSIZ (kernel i)) as (n & -> & Hn & Hb); [apply Hk|lia|done|].
  rewrite Nat2Z.id. set (d := take n (drop off file)).
  assert (length d = Nat.min n (length file - off)) as Ed by (subst d; by rewrite length_take, length_drop).
  assert (take off file ++ d = take (off + length d) file) as Et.
  { rewrite Ed. subst d. rewrite take_take_drop. destruct (decide (n <= length file - off)%nat); [by rewrite Nat.min_l|].
    rewrite Nat.min_r by lia. rewrite !take_ge by lia. done. }
  rewrite Et. unfold zlen in *. destruct (decide (off = length file)) as [->|Hne].
  - rewrite (proj2 (Z.ltb_ge 0 _)) by lia. cbn [andb]. rewrite take_ge by lia. done.
  - rewrite !(proj2 (Z.ltb_lt 0 _)) by lia. cbn [andb]. rewrite int_arith_Ok by bounds. cbn [res_bind].
    rewrite <- Nat2Z.inj_add. rewrite <- (IH (S i) (off + length d)%nat) by lia. f_equal. lia.
Qed.

(** what is written is the front of the stream, up to its end or to the number
    of bytes that is expected *)
Lemma receive_loop_front kernel : working kernel -> forall fuel i stream remain written,
  (length stream < fuel)%nat -> remain <= INT_MAX ->
  exists got rest, stream = got ++ rest /\ receive_loop kernel fuel i stream remain written = Ok (written ++ got) /\
    (rest = [] \/ remain <= zlen got).
Proof.
  intros Hk. induction fuel as [|fuel IH]; intros i stream remain written Hf Hr; [lia|]. cbn [receive_loop].
  destruct (recv_moves stream (kernel i) (Hk i)) as (n & -> & Hn & Hb). unfold BUFSIZ in Hb.
  destruct (decide (stream = [])) as [->|Hne].
  { rewrite take_nil. exists [], []. split; [done|]. split; [by rewrite app_nil_r|by left]. }
  assert (0 < length stream)%nat by (destruct stream; [done|simpl; lia]).
  assert (length (take n stream) = Nat.min n (length stream)) as El by apply length_take.
  unfold zlen. rewrite (proj2 (Z.ltb_lt 0 (Z.of_nat (length (take n stream))))) by lia. cbn [andb]. bdestruct (0 <? remain).
  - rewrite to_int_id by bounds.
    destruct (IH (S i) (drop n stream) (remain - Z.of_nat (length (take n stream))) (written ++ take n stream)) as (got & rest & E & -> & Hend).
    { rewrite length_drop. lia. }
    { lia. }
    exists (take n stream ++ got), rest. rewrite <- app_assoc, <- E, take_drop, <- app_assoc. split; [done|]. split; [done|].
    destruct Hend as [->|Hend]; [by left|]. right. unfold zlen in Hend. rewrite length_app. lia.
  - exists [], stream. split; [done|]. split; [by rewrite app_nil_r|]. right. change (zlen []) with 0. simpl. lia.
Qed.

Lemma dec_short z : is_int z -> zlen (dec z) <= 11.
Proof.
  intros Hz. unfold is_int, INT_MIN, INT_MAX in Hz. pose proof (dec_length10 9 z) as H.
  change (10 ^ Z.of_nat 10) with 10000000000 in H. unfold zlen. lia.
Qed.

Lemma file_size_ok junk file : zlen file <= INT_MAX ->
  exists tl, file_size junk file = Ok (dec (zlen file) ++ 0 :: tl) /\ zlen (dec (zlen file) ++ 0 :: tl) = 256.
Proof.
  intros Hf. pose proof (zlen_nonneg file). unfold file_size. rewrite to_int_id by bounds.
  pose proof (dec_short (zlen file) ltac:(bounds)) as Hd. set (s := dec (zlen file)) in *.
  assert (zlen (s ++ [0]) <= 12) as Hs by (rewrite zlen_app; change (zlen [0]) with 1; lia).
  exists (replicate (256 - length (s ++ [0])) junk). split.
  - pose proof (blit_prefix (replicate (length (s ++ [0])) junk) (replicate (256 - length (s ++ [0])) junk) (s ++ [0])) as E.
    rewrite <- replicate_add in E. rewrite (Nat.add_comm _ (256 - _)), Nat.sub_add in E by (unfold zlen in Hs; lia).
    rewrite E by (by rewrite zlen_replicate). by rewrite <- app_assoc.
  - rewrite zlen_app. change (0 :: ?l) with ([0] ++ l). rewrite zlen_app, zlen_replicate. rewrite zlen_app in Hs.
    unfold zlen in *. rewrite length_app. lia.
Qed.

(** what the server sends, when the block of one byte is followed by a NUL *)
Lemma server_sends junk kernel len file t u :
  working kernel -> zlen file <= INT_MAX -> 0 <= len -> no_nul t ->
  exists tl n, zlen (dec (zlen file) ++ 0 :: tl) = 256 /\ (n <= 16)%nat /\
    server_send junk (t ++ 0 :: u) kernel len file = Ok ((dec (zlen file) ++ 0 :: tl) ++ file ++ (32 :: t) ++ take n (drop 16 file)).
Proof.
  intros Hk Hf Hl Ht. pose proof (zlen_nonneg file). unfold server_send. destruct (file_size_ok junk file Hf) as (tl & -> & E).
  cbn [res_bind]. rewrite (proj2 (Z.ltb_ge len 0)) by done. rewrite to_int_id by bounds.
  pose proof (send_loop_all kernel file Hk Hf (S (length file)) 0 0) as Hs. change (Z.of_nat 0) with 0 in Hs.
  rewrite Z.sub_0_r, take_0 in Hs. rewrite Hs by lia.
  cbn [res_bind]. change (32 :: t ++ 0 :: u) with ((32 :: t) ++ 0 :: u). rewrite strlen_app by (by constructor).
  cbn [res_bind]. rewrite slice_prefix by done. cbn [res_bind].
  destruct (sendfile_moves file 16 16 (kernel (S (length file)))) as (n & -> & Hn & Hb); [apply Hk|done|done|].
  exists tl, n. split; [done|]. split; [lia|]. done.
Qed.

(** without a NUL behind the block of one byte its length is not defined *)
Lemma server_unterminated junk kernel len file :
  working kernel -> zlen file <= INT_MAX -> 0 <= len -> server_send junk [] kernel len file = Fault OutOfBounds.
Proof.
  intros Hk Hf Hl. pose proof (zlen_nonneg file). unfold server_send. destruct (file_size_ok junk file Hf) as (tl & -> & _).
  cbn [res_bind]. rewrite (proj2 (Z.ltb_ge len 0)) by done. rewrite to_int_id by bounds.
  pose proof (send_loop_all kernel file Hk Hf (S (length file)) 0 0) as Hs. change (Z.of_nat 0) with 0 in Hs.
  rewrite Z.sub_0_r, take_0 in Hs. by rewrite Hs by lia.
Qed.

Lemma front_of_at_least (file : bytes) (c : Z) m got rest :
  file ++ (c :: m) = got ++ rest -> rest = [] \/ zlen file + 1 <= zlen got -> exists more, got = file ++ [c] ++ more.
Proof.
  intros E H. destruct (decide (S (length file) <= length got)%nat) as [Hle|Hlt].
  - exists (drop (S (length file)) got). rewrite <- (take_drop (S (length file)) got) at 1. rewrite app_assoc. f_equal.
    rewrite <- (take_app_le got rest (S (length file))) by done. rewrite <- E, (cons_middle c file m), app_assoc.
    rewrite take_app_length' by (rewrite length_app; cbn; lia). done.
  - destruct H as [->|H]; [|unfold zlen in H; lia]. rewrite app_nil_r in E. exfalso. apply Hlt.
    rewrite <- E, length_app. cbn [length]. lia.
Qed.

(** what the client writes of a stream that begins with the size *)
Lemma client_writes kernel buffer size tl stream :
  working kernel -> 0 <= size < INT_MAX -> zlen (dec size) < Z.min BUFSIZ (Z.max 1 (kernel O)) ->
  exists got rest,
    drop (Z.to_nat (Z.min BUFSIZ (Z.max 1 (kernel O)))) (dec size ++ 0 :: tl ++ stream) = got ++ rest /\
    client_main kernel 3 0 true buffer (dec size ++ 0 :: tl ++ stream) = Ok got /\ (rest = [] \/ size + 1 <= zlen got).
Proof.
  intros Hk Hs Hn. unfold client_main. cbn [Z.eqb Pos.eqb]. unfold recv at 1. rewrite (proj2 (Z.ltb_ge (kernel O) 0)) by apply Hk.
  set (n := Z.to_nat _). cbn [default from_option id]. set (m := dec size ++ 0 :: tl ++ stream).
  assert (exists r, take n m = dec size ++ 0 :: r) as (r & Er).
  { assert (exists n', n = length (dec size) + S n')%nat as (n' & ->).
    { exists (n - S (length (dec size)))%nat. unfold zlen in Hn. subst n. lia. }
    subst m. rewrite take_app_add. cbn [take]. by eexists. }
  unfold id. cbv beta iota. rewrite Er, <- app_assoc. change ((0 :: r) ++ ?l) with (0 :: r ++ l). unfold atoi. rewrite strtoll_dec by (done || (unfold LLONG_MIN, LLONG_MAX, INT_MAX in *; lia)).
  cbn [res_bind negb]. rewrite to_int_id by bounds. rewrite int_arith_Ok by bounds. cbn [res_bind].
  destruct (receive_loop_front kernel Hk (S (length (drop n m))) 1 (drop n m) (size + 1) []) as (got & rest & E & -> & Hend); [lia|bounds|].
  by exists got, rest.
Qed.

(** ** Properties *)
(** C34: the server sends the 256 bytes of the size, the file, a blank with what
    follows the block it is in, and a piece of the file that begins at offset
    16; when that block is not followed by a NUL it reads past its end.  The
    client, whose first [recv] takes a number of bytes that holds the size,
    writes what follows these bytes, up to the end of the stream or until it
    has more than the size of the file; so with 256 bytes in the first [recv]
    it writes the whole file and at least the blank behind it, and with any
    other number it writes something else. *)
Theorem ftp_transfer junk server client len buffer file t u :
  working server -> working client -> zlen file < INT_MAX -> 0 <= len -> no_nul t ->
  let first := Z.min BUFSIZ (Z.max 1 (client O)) in
  server_send junk [] server len file = Fault OutOfBounds /\
  exists header n, zlen header = 256 /\ (n <= 16)%nat /\
    let stream := header ++ file ++ (32 :: t) ++ take n (drop 16 file) in
    server_send junk (t ++ 0 :: u) server len file = Ok stream /\
    (11 < first ->
     exists got rest, drop (Z.to_nat first) stream = got ++ rest /\
       client_main client 3 0 true buffer stream = Ok got /\ (rest = [] \/ zlen file + 1 <= zlen got) /\
       (first = 256 -> exists more, got = file ++ [32] ++ more)).
Proof.
  intros Hks Hkc Hf Hl Ht first. pose proof (zlen_nonneg file) as H0. split; [by apply server_unterminated; [| lia |]|].
  destruct (server_sends junk server len file t u) as (tl & n & E & Hn & Es); [done|lia|done|done|].
  exists (dec (zlen file) ++ 0 :: tl), n. split; [done|]. split; [done|]. intros stream. split; [done|]. intros Hfirst.
  pose proof (dec_short (zlen file) ltac:(bounds)) as Hd.
  destruct (client_writes client buffer (zlen file) tl (file ++ (32 :: t) ++ take n (drop 16 file))) as (got & rest & Eg & Ec & Hend);
    [done|lia|fold first; lia|]. fold first in Eg.
  assert (stream = dec (zlen file) ++ 0 :: tl ++ file ++ (32 :: t) ++ take n (drop 16 file)) as Est by (subst stream; by rewrite <- app_assoc).
  rewrite <- Est in Eg, Ec. exists got, rest. split_and!; [done..|]. intros E256. rewrite E256 in Eg.
  assert (drop (Z.to_nat 256) stream = file ++ (32 :: t) ++ take n (drop 16 file)) as Edrop.
  { subst stream. rewrite <- E. unfold zlen. by rewrite Nat2Z.id, drop_app_length. }
  rewrite Edrop in Eg. eapply (front_of_at_least file 32); [exact Eg|]. done.
Qed.

(** an empty file, and kernels that move as much as they can *)
Lemma ftp_transfer_witness :
  exists header n, zlen header = 256 /\ (n <= 16)%nat /\
    server_send 0 [0] (fun _ => BUFSIZ) 256 [104; 105] = Ok (header ++ [104; 105] ++ (32 :: []) ++ take n (drop 16 [104; 105])) /\
    (11 < 256 ->
     exists got rest, drop 256 (header ++ [104; 105] ++ (32 :: []) ++ take n (drop 16 [104; 105])) = got ++ rest /\
       client_main (fun _ => 256) 3 0 true [] (header ++ [104; 105] ++ (32 :: []) ++ take n (drop 16 [104; 105])) = Ok got /\
       (rest = [] \/ 2 + 1 <= zlen got) /\ (256 = 256 -> exists more, got = [104; 105] ++ [32] ++ more)).
Proof.
  apply (ftp_transfer 0 (fun _ => BUFSIZ) (fun _ => 256) 256 [] [104; 105] [] []); [by intros i|by intros i|done|done|constructor].
Defined.
