(* ===== verification/FileConstructor.v ===== *)
(** * Pieces of a file (src/src/file_constructor.c)

    A file is its contents; a descriptor that [lseek] rejects is not modelled
    apart from the negative offset that makes it fail.  A buffer obtained from
    [malloc], or a local array, starts with indeterminate bytes, which are the
    argument [junk].  SHA-1 is OpenSSL's and a parameter. *)
From Stdlib Require Import ZArith Lia Bool String.
From stdpp Require Import base numbers option list.
From S2P Require Import Prelude CStr.

Definition SHA_DIGEST_LENGTH : Z := 20.

(** ** System calls on files *)
(** [read(fd, buffer, n)] at offset [off]: the bytes read, at most [n] *)
Definition file_read (contents : bytes) (off n : Z) : bytes :=
  take (Z.to_nat n) (drop (Z.to_nat off) contents).

(** [write(fd, data, ...)] at offset [off]: the new contents; a gap behind the
    end of the file is filled with zeros *)
Definition file_write (contents : bytes) (off : Z) (data : bytes) : bytes :=
  take (Z.to_nat off) (contents ++ replicate (Z.to_nat off - length contents) 0) ++ data ++
  drop (Z.to_nat off + length data) contents.

(** [printf] with a string that is not a literal as its format: any ['%'] that
    is not doubled asks for an argument that is not there *)
Fixpoint printf_format (fmt : bytes) : res bytes :=
  match fmt with
  | [] => Ok []
  | 37 :: 37 :: fmt => let* out := printf_format fmt in Ok (37 :: out)
  | 37 :: _ => Fault BadFormat
  | c :: fmt => let* out := printf_format fmt in Ok (c :: out)
  end.

(** ** Operations *)
Section set_initial_bitfield.
(** what [open] returns *)
Variable open_ret : Z.

(** The result is the bitfield and the descriptor the caller sees: the code
    assigns the descriptor to its own parameter [fd], not to [*fd]. *)
Definition set_initial_bitfield (caller_fd : option Z) (file_name : bytes) (num_pieces : Z)
  : res (bytes * option Z) :=
  let bitfield_len := Z.quot num_pieces 8 in
  let bitfield_len := if negb (Z.rem num_pieces 8 =? 0) then bitfield_len + 1 else bitfield_len in
  let* fmt := cstr file_name in
  let* _ := printf_format fmt in
  check* 0 <=? bitfield_len else OutOfBounds in
  let bitfield := replicate (Z.to_nat bitfield_len) 0 in
  let fd := open_ret in
  Ok (bitfield, caller_fd).
End set_initial_bitfield.

Section verify_piece.
Variable SHA1 : bytes -> bytes.

Definition verify_piece (piece expected_sha : bytes) (piece_length : Z) : res Z :=
  let* p := slice piece 0 piece_length in
  let hash := SHA1 p in
  let* d := memcmp hash expected_sha (Z.to_nat SHA_DIGEST_LENGTH) in
  Ok (if d =? 0 then 1 else 0).
End verify_piece.

(** [printf("%s\n", buffer)] needs a NUL in the array [buffer], and so does
    [strcpy], which copies up to it into [malloc(piece_len)]. *)
Definition get_piece (contents : bytes) (piece_num piece_len : Z) (junk : bytes) : res bytes :=
  check* 0 <? piece_len else OutOfBounds in
  let* off := int_arith (piece_num * piece_len) in
  if off <? 0 then Exit (-1)
  else
    let buffer := file_read contents off piece_len in
    if negb (zlen buffer =? piece_len) then Exit (-1)
    else
      let* _ := cstr buffer in
      strcpy (take (Z.to_nat piece_len) junk) buffer.

(** The buffer after [strcat(buffer, "\n")], and the new contents of the file. *)
Definition write_piece (contents : bytes) (piece_num piece_len : Z) (buffer : bytes)
  : res (bytes * bytes) :=
  let* off := int_arith (piece_num * piece_len) in
  if off <? 0 then Exit (-1)
  else
    let* s := cstr buffer in
    let* buffer := blit buffer (zlen s) [10; 0] in
    let* data := slice buffer 0 piece_len in
    Ok (buffer, file_write contents off data).

(** ** Lemmas *)
Lemma file_read_Ok contents off n :
  0 <= off -> 0 <= n -> off + n <= zlen contents -> zlen (file_read contents off n) = n.
Proof. unfold file_read, zlen. intros. rewrite length_take, length_drop. lia. Qed.

Lemma file_read_write contents off data :
  0 <= off -> file_read (file_write contents off data) off (zlen data) = data.
Proof.
  intros Ho. unfold file_read, file_write, zlen. rewrite Nat2Z.id.
  set (pre := take _ (contents ++ _)). assert (length pre = Z.to_nat off) as E.
  { subst pre. rewrite length_take, length_app, length_replicate. lia. }
  rewrite <- E, drop_app_length, take_app_length. done.
Qed.

(** the first NUL of [buffer], cut to [piece_len] bytes *)
Lemma strcat_newline s x tl :
  no_nul s -> blit (s ++ 0 :: x :: tl) (zlen s) [10; 0] = Ok (s ++ 10 :: 0 :: tl).
Proof. intros. by apply (blit_at s [0; x] tl [10; 0]). Qed.

Lemma write_piece_spec contents num len s x tl :
  no_nul s -> 0 <= num * len -> is_int (num * len) -> 0 <= len <= zlen s + 2 + zlen tl ->
  write_piece contents num len (s ++ 0 :: x :: tl) =
  Ok (s ++ 10 :: 0 :: tl, file_write contents (num * len) (take (Z.to_nat len) (s ++ 10 :: 0 :: tl))).
Proof.
  intros Hs H0 Hi Hlen. unfold write_piece. rewrite int_arith_Ok by done. cbn [res_bind].
  rewrite (proj2 (Z.ltb_ge _ _)) by lia. rewrite cstr_app by done. cbn [res_bind].
  rewrite strcat_newline by done. cbn [res_bind]. rewrite slice_in_bounds by bounds. done.
Qed.

Lemma take_zlen_app (s m : bytes) : take (Z.to_nat (zlen s)) (s ++ m) = s.
Proof. unfold zlen. by rewrite Nat2Z.id, take_app_length. Qed.

(** the three outcomes of [get_piece] *)
Lemma get_piece_cases contents num len junk :
  0 < len -> 0 <= num -> is_int (num * len) -> zlen junk = len ->
  let piece := file_read contents (num * len) len in
  (zlen contents < num * len + len -> get_piece contents num len junk = Exit (-1)) /\
  (num * len + len <= zlen contents -> no_nul piece -> get_piece contents num len junk = Fault OutOfBounds) /\
  (num * len + len <= zlen contents -> forall s m, no_nul s -> piece = s ++ 0 :: m ->
     get_piece contents num len junk = Ok (s ++ 0 :: drop (length s + 1) junk)).
Proof.
  intros Hl Hn Hi Hj piece. unfold get_piece. rewrite (proj2 (Z.ltb_lt _ _)) by done.
  rewrite int_arith_Ok by done. cbn [res_bind]. rewrite (proj2 (Z.ltb_ge _ _)) by nia. fold piece.
  split; [|split].
  - intros Hc. rewrite (proj2 (Z.eqb_neq _ _)); [done|].
    subst piece. unfold file_read, zlen in *. rewrite length_take, length_drop. nia.
  - intros Hc Hp. subst piece. rewrite file_read_Ok by nia. rewrite Z.eqb_refl. cbn [negb].
    by rewrite cstr_none.
  - intros Hc s m Hs Hp. assert (zlen piece = len) as El by (apply file_read_Ok; nia).
    rewrite El, Z.eqb_refl. cbn [negb]. rewrite Hp, cstr_app by done. cbn [res_bind].
    unfold strcpy. rewrite cstr_app by done. cbn [res_bind].
    rewrite Hp, zlen_app, zlen_cons in El. pose proof (zlen_nonneg m). pose proof (zlen_nonneg s).
    rewrite take_ge by (unfold zlen in Hj; lia).
    rewrite <- (take_drop (length s + 1) junk) at 1.
    rewrite blit_prefix; [by rewrite <- app_assoc|].
    unfold zlen in *. rewrite length_take, length_app. simpl. lia.
Qed.

(** ** Properties *)
(** [write_piece] and reading back.  A piece without a NUL byte, in a
    buffer with two more bytes the first of which is a NUL, is stored unchanged
    at [piece_num * piece_len] and can be read back from there. *)
Theorem write_piece_roundtrip contents num piece x tl :
  no_nul piece -> 0 <= num * zlen piece -> is_int (num * zlen piece) ->
  exists buffer contents',
    write_piece contents num (zlen piece) (piece ++ 0 :: x :: tl) = Ok (buffer, contents') /\
    file_read contents' (num * zlen piece) (zlen piece) = piece.
Proof.
  intros Hp H0 Hi. eexists _, _. split.
  - apply write_piece_spec; [done..|]. pose proof (zlen_nonneg piece). pose proof (zlen_nonneg tl). lia.
  - rewrite take_zlen_app. by apply file_read_write.
Qed.

Lemma write_piece_roundtrip_witness :
  no_nul (str "hello") /\ exists buffer contents',
    write_piece (str "0123456789abcde") 1 (zlen (str "hello")) (str "hello" ++ 0 :: 1 :: [2]) = Ok (buffer, contents') /\
    file_read contents' (1 * zlen (str "hello")) (zlen (str "hello")) = str "hello".
Proof.
  assert (no_nul (str "hello")) as H by (vm_compute; repeat constructor; discriminate).
  split; [exact H|]. apply write_piece_roundtrip; [exact H|vm_compute; discriminate|vm_compute; split; discriminate].
Defined.

(** A piece with a NUL byte is corrupted by [write_piece]: the first NUL
    is stored as a newline and the byte behind it as a NUL. *)
Theorem write_piece_corrupts contents num s x tl :
  no_nul s -> let piece := s ++ 0 :: x :: tl in
  0 <= num * zlen piece -> is_int (num * zlen piece) ->
  exists buffer contents',
    write_piece contents num (zlen piece) piece = Ok (buffer, contents') /\
    file_read contents' (num * zlen piece) (zlen piece) = s ++ 10 :: 0 :: tl.
Proof.
  intros Hs piece H0 Hi. subst piece. eexists _, _. split.
  - apply write_piece_spec; [done..|]. bounds.
  - set (piece := s ++ 10 :: 0 :: tl).
    replace (zlen (s ++ 0 :: x :: tl)) with (zlen piece) in * by (subst piece; bounds).
    rewrite (take_ge piece) by (unfold zlen; lia). by apply file_read_write.
Qed.

Lemma write_piece_corrupts_witness :
  no_nul [7] /\ exists buffer contents',
    write_piece (replicate 8 1) 1 4 [7; 0; 8; 9] = Ok (buffer, contents') /\
    file_read contents' 4 4 = [7; 10; 0; 9].
Proof.
  assert (no_nul [7]) as H by (repeat constructor; discriminate). split; [exact H|].
  exact (write_piece_corrupts (replicate 8 1) 1 [7] 8 [9] H ltac:(vm_compute; discriminate) ltac:(vm_compute; split; discriminate)).
Defined.

(** What [get_piece] needs of the file.  A piece that lies in the file is
    returned only if it holds a NUL byte, and then only up to it: what follows
    is whatever [malloc] left there.  Without a NUL (any piece of a text file)
    [printf] and [strcpy] run off the local array; a piece that does not lie in
    the file ends the program. *)
Theorem get_piece_needs_nul contents num len junk :
  0 < len -> 0 <= num -> is_int (num * len) -> zlen junk = len ->
  let piece := file_read contents (num * len) len in
  (zlen contents < num * len + len -> get_piece contents num len junk = Exit (-1)) /\
  (num * len + len <= zlen contents -> no_nul piece -> get_piece contents num len junk = Fault OutOfBounds) /\
  (num * len + len <= zlen contents -> forall s m, no_nul s -> piece = s ++ 0 :: m ->
     get_piece contents num len junk = Ok (s ++ 0 :: drop (length s + 1) junk)).
Proof. apply get_piece_cases. Qed.

Lemma get_piece_needs_nul_witness :
  get_piece (str "abcdef") 1 4 [9; 9; 9; 9] = Exit (-1) /\
  get_piece (str "abcdef") 1 3 [9; 9; 9] = Fault OutOfBounds /\
  get_piece (str "abcd" ++ [0; 5]) 1 3 [9; 9; 9] = Ok [100; 0; 9].
Proof.
  split; [|split].
  - apply (get_piece_needs_nul (str "abcdef") 1 4 [9; 9; 9; 9]); vm_compute; try split; discriminate || reflexivity.
  - apply (get_piece_needs_nul (str "abcdef") 1 3 [9; 9; 9]);
      [reflexivity|discriminate|vm_compute; split; discriminate|reflexivity|discriminate|].
    vm_compute. repeat constructor; discriminate.
  - apply (get_piece_needs_nul (str "abcd" ++ [0; 5]) 1 3 [9; 9; 9]) with (s := [100]) (m := [5]);
      [reflexivity|discriminate|vm_compute; split; discriminate|reflexivity|discriminate| |reflexivity].
    repeat constructor; discriminate.
Defined.

Section sha.
Variable SHA1 : bytes -> bytes.
Hypothesis SHA1_length : forall p, length (SHA1 p) = 20%nat.

Lemma verify_piece_spec piece expected len :
  0 <= len <= zlen piece -> length expected = 20%nat ->
  verify_piece SHA1 piece expected len =
  Ok (if decide (SHA1 (take (Z.to_nat len) piece) = expected) then 1 else 0).
Proof.
  intros Hl He. unfold verify_piece. rewrite slice_in_bounds by lia. cbn [res_bind].
  change (drop (Z.to_nat 0) piece) with piece. change (Z.to_nat SHA_DIGEST_LENGTH) with 20%nat.
  set (h := SHA1 _).
  destruct (memcmp_eq h expected 20) as (d & -> & Hd); [by subst h; rewrite SHA1_length|by rewrite He|].
  cbn [res_bind]. rewrite !take_ge in Hd by (rewrite ?He; subst h; rewrite ?SHA1_length; lia).
  f_equal. destruct (decide (h = expected)) as [E|E].
  - by rewrite (proj2 Hd E).
  - rewrite (proj2 (Z.eqb_neq d 0)); [done|]. intros ->. by apply E, Hd.
Qed.

(** [verify_piece] returns 1 exactly when the SHA-1 digest of the first
    [piece_length] bytes of the piece is the expected one, and 0 otherwise. *)
Theorem verify_piece_iff piece expected len :
  0 <= len <= zlen piece -> length expected = 20%nat ->
  (verify_piece SHA1 piece expected len = Ok 1 <-> SHA1 (take (Z.to_nat len) piece) = expected) /\
  (verify_piece SHA1 piece expected len = Ok 0 <-> SHA1 (take (Z.to_nat len) piece) <> expected).
Proof. intros Hl He. rewrite verify_piece_spec by done. by destruct (decide _). Qed.
End sha.

(** a stand-in for the digest, of the right length *)
Definition toy_sha (p : bytes) : bytes := take 20 (p ++ replicate 20 0).

Lemma verify_piece_iff_witness :
  (verify_piece toy_sha (str "abc") (str "ab" ++ replicate 18 0) 2 = Ok 1 <->
   toy_sha (str "ab") = str "ab" ++ replicate 18 0) /\
  (verify_piece toy_sha (str "abc") (str "ab" ++ replicate 18 0) 2 = Ok 0 <->
   toy_sha (str "ab") <> str "ab" ++ replicate 18 0).
Proof.
  apply (verify_piece_iff toy_sha).
  - intros p. unfold toy_sha. rewrite length_take, length_app, length_replicate. lia.
  - vm_compute. split; discriminate.
  - reflexivity.
Defined.

Lemma printf_format_plain s : ~ In 37 s -> printf_format s = Ok s.
Proof.
  induction s as [|c f IH]; intros Hp; [done|]. simpl in Hp.
  assert (printf_format (c :: f) = let* out := printf_format f in Ok (c :: out)) as ->.
  { assert (c <> 37) by tauto. destruct c as [|p|p]; try done. do 6 (destruct p; try done). }
  rewrite IH; [done|tauto].
Qed.

Lemma set_initial_bitfield_zero open_ret caller_fd file_name m num :
  no_nul file_name -> ~ In 37 file_name -> 0 <= num ->
  set_initial_bitfield open_ret caller_fd (file_name ++ 0 :: m) num =
    Ok (replicate (Z.to_nat ((num + 8 - 1) / 8)) 0, caller_fd).
Proof.
  intros Hn Hp Hi. unfold set_initial_bitfield. rewrite cstr_app by done. cbn [res_bind].
  rewrite printf_format_plain by done. cbn [res_bind].
  set (len := if negb _ then _ else _). assert (len = (num + 8 - 1) / 8) as ->.
  { subst len. rewrite ceil_div_quot by lia. pose proof (Z.rem_nonneg num 8 ltac:(lia) ltac:(lia)).
    bdestruct (Z.rem num 8 =? 0); bdestruct (0 <? Z.rem num 8); cbn [negb]; lia. }
  rewrite (proj2 (Z.leb_le _ _)); [done|]. apply Z.div_pos; lia.
Qed.

(** The bitfield of [set_initial_bitfield] is all zeros and has a byte for
    every piece; the descriptor of the file it opens does not reach the
    caller. (A file name with a lone ['%'] would be used as a format.) *)
Theorem set_initial_bitfield_covers open_ret caller_fd file_name m num i :
  no_nul file_name -> ~ In 37 file_name -> 0 <= i < num ->
  exists bitfield,
    set_initial_bitfield open_ret caller_fd (file_name ++ 0 :: m) num = Ok (bitfield, caller_fd) /\
    rd bitfield (i / 8) = Ok 0 /\ zlen bitfield = (num + 8 - 1) / 8.
Proof.
  intros Hn Hp Hi. rewrite set_initial_bitfield_zero by (done || lia). eexists. split; [done|].
  assert (0 <= i / 8 < (num + 8 - 1) / 8).
  { split; [apply Z.div_pos; lia|]. apply Z.div_lt_upper_bound; [lia|].
    pose proof (Z.div_mod (num + 8 - 1) 8). pose proof (Z.mod_pos_bound (num + 8 - 1) 8). lia. }
  split; [|rewrite zlen_replicate; lia]. apply rd_Ok. split; [lia|]. apply lookup_replicate_2. lia.
Qed.

Lemma set_initial_bitfield_covers_witness :
  exists bitfield,
    set_initial_bitfield 3 None (str "a.txt" ++ 0 :: []) 9 = Ok (bitfield, None) /\
    rd bitfield (8 / 8) = Ok 0 /\ zlen bitfield = (9 + 8 - 1) / 8.
Proof.
  apply set_initial_bitfield_covers.
  - vm_compute. repeat constructor; discriminate.
  - vm_compute. intros H. repeat (destruct H as [H|H]; [discriminate|]). exact H.
  - split; [discriminate|reflexivity].
Defined.
