(* ===== verification/FilePieces.v ===== *)
(** * Pieces of a file, first experiment (src/examples/file-construction/file_constructor.c)

    The ancestor of FileConstructor, with two global descriptors and a [main]
    that copies one piece.  [fd] is the contents of test.txt, [None] for the -1
    of a failed [open], which [main] lets pass; [fd_write] is the contents of
    write.txt.  What is printed is left out, but printing a string needs its
    NUL.  [junk] is the block that [malloc] returns. *)
From Stdlib Require Import ZArith Lia Bool String.
From stdpp Require Import base numbers option list.
From S2P Require Import Prelude CStr FileConstructor.

Definition get_piece (fd : option bytes) (piece_num piece_len : Z) (junk : bytes) : res bytes :=
  check* 0 <? piece_len else OutOfBounds in
  let* off := int_arith (piece_num * piece_len) in
  match fd with
  | None => Exit (-1)
  | Some contents =>
      if off <? 0 then Exit (-1)
      else
        let buffer := file_read contents off piece_len in
        if negb (zlen buffer =? piece_len) then Exit (-1)
        else
          let* _ := cstr buffer in
          strcpy (take (Z.to_nat piece_len) junk) buffer
  end.

(** the new contents of write.txt, and the buffer after [strcat] *)
Definition write_piece (fd_write : bytes) (piece_num piece_len : Z) (buffer : bytes) : res (bytes * bytes) :=
  let* off := int_arith (piece_num * piece_len) in
  if off <? 0 then Ok (fd_write, buffer)
  else
    let* s := cstr buffer in
    let* buffer := blit buffer (zlen s) [10; 0] in
    let* data := slice buffer 0 piece_len in
    Ok (file_write fd_write off data, buffer).

(** the value [main] returns and the contents of write.txt, [None] if it cannot
    be opened *)
Definition main (fd fd_write : option bytes) (junk : bytes) : res (Z * option bytes) :=
  match fd_write with
  | None => Ok (1, None)
  | Some w =>
      let* piece := get_piece fd 1 5 junk in
      let* _ := cstr piece in
      let* (w, _) := write_piece w 1 5 piece in
      Ok (0, Some w)
  end.

(** ** Lemmas *)
(** the function of src/src/file_constructor.c on a file that could be opened *)
Lemma get_piece_same contents piece_num piece_len junk :
  get_piece (Some contents) piece_num piece_len junk = FileConstructor.get_piece contents piece_num piece_len junk.
Proof. done. Qed.

Lemma write_piece_same w piece_num piece_len buffer :
  0 <= piece_num * piece_len -> is_int (piece_num * piece_len) ->
  write_piece w piece_num piece_len buffer =
  let* (buffer, w) := FileConstructor.write_piece w piece_num piece_len buffer in Ok (w, buffer).
Proof.
  intros H0 Hi. unfold write_piece, FileConstructor.write_piece. rewrite int_arith_Ok by done. cbn [res_bind].
  rewrite (proj2 (Z.ltb_ge _ 0)) by done. destruct (cstr buffer) as [s| |]; cbn [res_bind]; [|done..].
  destruct (blit buffer (zlen s) [10; 0]) as [b| |]; cbn [res_bind]; [|done..]. by destruct (slice b 0 piece_len).
Qed.

(** the piece of five bytes at offset 5 *)
Lemma piece_of_main t junk :
  10 <= zlen t -> zlen junk = 5 ->
  let piece := file_read t 5 5 in
  zlen piece = 5 /\
  (no_nul piece -> get_piece (Some t) 1 5 junk = Fault OutOfBounds) /\
  (forall s m, no_nul s -> piece = s ++ 0 :: m -> get_piece (Some t) 1 5 junk = Ok (s ++ 0 :: drop (S (length s)) junk)).
Proof.
  intros Ht Hj piece. split; [by apply file_read_Ok|]. rewrite get_piece_same.
  destruct (FileConstructor.get_piece_cases t 1 5 junk) as (_ & H1 & H2); [done|done|bounds|done|].
  split; [intros Hp; by apply H1; [lia|]|]. intros s m Hs Hp. rewrite (H2 ltac:(lia) s m Hs Hp). by rewrite Nat.add_1_r.
Qed.

(** ** Properties *)
(** What [main] does with the five bytes at offset 5 of test.txt: without ten
    bytes in that file it ends the program; without a NUL among the first four
    of the five it writes out of bounds, on text always; and otherwise what it
    writes at offset 5 is the part before the NUL with a newline, a NUL and
    indeterminate bytes. *)
Theorem pieces_main t w junk :
  zlen junk = 5 ->
  main None (Some w) junk = Exit (-1) /\
  (zlen t < 10 -> main (Some t) (Some w) junk = Exit (-1)) /\
  (10 <= zlen t -> no_nul (take 4 (file_read t 5 5)) -> main (Some t) (Some w) junk = Fault OutOfBounds) /\
  (10 <= zlen t -> forall s x m, no_nul s -> file_read t 5 5 = s ++ 0 :: x :: m ->
     main (Some t) (Some w) junk = Ok (0, Some (file_write w 5 (s ++ 10 :: 0 :: drop (length s + 2) junk)))).
Proof.
  intros Hj. split; [done|]. split; [|split].
  - intros Ht. unfold main. rewrite get_piece_same.
    destruct (FileConstructor.get_piece_cases t 1 5 junk) as (H1 & _); [done|done|bounds|done|]. by rewrite H1 by lia.
  - intros Ht Hp. destruct (piece_of_main t junk Ht Hj) as (Hl & H1 & H2). unfold main.
    destruct (file_read t 5 5) as [|a [|b [|c [|d [|e [|f l]]]]]]; try done;
      [|exfalso; unfold zlen in Hl; cbn in Hl; lia]. cbn [take] in Hp.
    destruct (decide (e = 0)) as [->|He].
    + rewrite (H2 [a; b; c; d] [] Hp eq_refl). cbn [res_bind].
      rewrite cstr_app by done. cbn [res_bind]. unfold write_piece. rewrite int_arith_Ok by bounds. cbn [res_bind].
      rewrite cstr_app by done. cbn [res_bind]. unfold zlen in Hj. cbn [length].
      rewrite drop_ge by lia. done.
    + rewrite H1; [done|]. apply (Forall_app_2 _ [a; b; c; d] [e]); [done|by constructor].
  - intros Ht s x m Hs Hp. destruct (piece_of_main t junk Ht Hj) as (Hl & _ & H2). unfold main.
    rewrite (H2 s (x :: m) Hs Hp). cbn [res_bind]. rewrite cstr_app by done. cbn [res_bind].
    rewrite write_piece_same by (done || bounds). rewrite Hp, zlen_app, !zlen_cons in Hl.
    pose proof (zlen_nonneg m). pose proof (zlen_nonneg s).
    destruct (drop (S (length s)) junk) as [|y j] eqn:Ej.
    { apply (f_equal length) in Ej. rewrite length_drop in Ej. unfold zlen in *. cbn in Ej. lia. }
    assert (j = drop (length s + 2) junk) as ->.
    { apply (f_equal (drop 1)) in Ej. rewrite drop_drop in Ej. change (drop 1 (y :: j)) with j in Ej. rewrite <- Ej. f_equal. lia. }
    assert (zlen (drop (length s + 2) junk) = 5 - zlen s - 2) as Ed by (unfold zlen in *; rewrite length_drop; lia).
    rewrite write_piece_spec by (done || bounds). cbn [res_bind]. do 4 f_equal. apply take_ge.
    rewrite length_app. cbn [length]. unfold zlen in *. lia.
Qed.

Lemma pieces_main_witness :
  main (Some (str "01234ab" ++ [0; 7; 8])) (Some (str "old file")) [9; 9; 9; 9; 9] = Ok (0, Some (str "old f" ++ str "ab" ++ [10; 0; 9])).
Proof.
  destruct (pieces_main (str "01234ab" ++ [0; 7; 8]) (str "old file") [9; 9; 9; 9; 9] eq_refl) as (_ & _ & _ & H).
  exact (H ltac:(vm_compute; discriminate) (str "ab") 7 [8] ltac:(vm_compute; repeat constructor; discriminate) eq_refl).
Defined.
