(* ===== verification/FilePieces2.v ===== *)
(** * Pieces of a file, second experiment (src/examples/file-construction/file_constructor2.c)

    The variant with [FILE]s: [fread] is asked for one byte more than the array
    holds.  [f_read] is the contents of test.txt and [f_write] those of
    write.txt, which [fopen] truncates; [None] is a file that cannot be opened.
    [junk] is the block that [malloc] returns, and what the local array held. *)
From Stdlib Require Import ZArith Lia Bool String.
From stdpp Require Import base numbers option list.
From S2P Require Import Prelude CStr FileConstructor.

Definition get_piece (f_read : bytes) (piece_num piece_len : Z) (junk : bytes) : res bytes :=
  check* 0 <? piece_len else OutOfBounds in
  let* off := int_arith (piece_num * piece_len) in
  if off <? 0 then Exit (-1)
  else
    let* n := int_arith (piece_len + 1) in
    let got := file_read f_read off n in
    let* buffer := blit (take (Z.to_nat piece_len) junk) 0 got in
    if negb (zlen got =? n) then Exit (-1)
    else
      let* _ := cstr buffer in
      strcpy (take (Z.to_nat piece_len) junk) buffer.

(** the new contents of write.txt *)
Definition write_piece (f_write : bytes) (piece_num piece_len : Z) (buffer : bytes) : res bytes :=
  let* off := int_arith (piece_num * piece_len) in
  if off <? 0 then Ok f_write
  else let* data := slice buffer 0 piece_len in Ok (file_write f_write off data).

Definition main (f_read : option bytes) (f_write_ok : bool) (junk : bytes) : res (Z * option bytes) :=
  match f_read with
  | None => Ok (1, None)
  | Some t =>
      if negb f_write_ok then Ok (1, None)
      else
        let* piece := get_piece t 1 5 junk in
        let* _ := cstr piece in
        let* w := write_piece [] 1 5 piece in
        Ok (0, Some w)
  end.

(** ** Properties *)
(** [get_piece] never returns: a file that has another byte behind the piece
    makes [fread] write behind the array, and one that has not is an error.  So
    [main] never gets to the end either, and leaves write.txt truncated. *)
Theorem get_piece_never_returns f_read num len junk :
  0 < len < INT_MAX -> 0 <= num -> is_int (num * len) -> zlen junk = len ->
  get_piece f_read num len junk = (if num * len + len <? zlen f_read then Fault OutOfBounds else Exit (-1)) /\
  forall junk5, zlen junk5 = 5 -> main (Some f_read) true junk5 = if 10 <? zlen f_read then Fault OutOfBounds else Exit (-1).
Proof.
  assert (forall num len junk, 0 < len < INT_MAX -> 0 <= num -> is_int (num * len) -> zlen junk = len ->
    get_piece f_read num len junk = if num * len + len <? zlen f_read then Fault OutOfBounds else Exit (-1)) as G.
  { clear. intros num len junk Hl Hn Hi Hj. unfold get_piece. rewrite (proj2 (Z.ltb_lt 0 _)) by lia.
    rewrite int_arith_Ok by done. cbn [res_bind]. assert (0 <= num * len) by nia. rewrite (proj2 (Z.ltb_ge _ 0)) by done.
    rewrite int_arith_Ok by bounds. cbn [res_bind]. rewrite (take_ge junk) by (unfold zlen in Hj; lia).
    assert (zlen (file_read f_read (num * len) (len + 1)) = Z.max 0 (Z.min (len + 1) (zlen f_read - num * len))) as E.
    { unfold file_read, zlen. rewrite length_take, length_drop. lia. }
    bdestruct (num * len + len <? zlen f_read).
    - unfold blit. rewrite (proj2 (Z.leb_gt (0 + _) _)) by lia. by rewrite andb_false_r.
    - unfold blit. rewrite (proj2 (Z.leb_le (0 + _) _)) by lia. cbn [Z.leb Z.compare andb res_bind].
      by rewrite (proj2 (Z.eqb_neq (zlen _) _)) by lia. }
  intros Hl Hn Hi Hj. split; [by apply G|]. intros junk5 Hj5. unfold main. cbn [negb].
  rewrite G by (done || bounds). by destruct (_ <? _).
Qed.

Lemma get_piece_never_returns_witness :
  get_piece (str "0123456789") 1 5 [0; 0; 0; 0; 0] = Exit (-1) /\
  main (Some (str "0123456789a")) true [0; 0; 0; 0; 0] = Fault OutOfBounds.
Proof.
  split; [apply (get_piece_never_returns (str "0123456789") 1 5 [0; 0; 0; 0; 0])
         |apply (get_piece_never_returns (str "0123456789a") 1 5 [0; 0; 0; 0; 0])];
    done || vm_compute; split; discriminate.
Defined.
