(* ===== verification/Btp.v ===== *)
(** * Handshake and messages of the peer wire protocol (src/src/btp.c, lines 1-286, 312-331
    and 366-378)

    A message is the list of the bytes the constructor stores in the object it
    allocates.  [int]s are copied with [memcpy], so they are little-endian. *)
From Stdlib Require Import ZArith Lia Bool String.
From stdpp Require Import base numbers option list.
From S2P Require Import Prelude CStr Util.

(** ** Constants of btp.h *)
Definition CHOKE : Z := 0.
Definition UNCHOKE : Z := 1.
Definition INTERESTED : Z := 2.
Definition UNINTERESTED : Z := 3.
Definition HAVE : Z := 4.
Definition BITFIELD : Z := 5.
Definition REQUEST : Z := 6.
Definition PIECE : Z := 7.
Definition CANCEL : Z := 8.

Definition STATEMSGSIZE : Z := 5.
Definition HAVEMSGSIZE : Z := 9.
Definition REQUESTMSGSIZE : Z := 17.
Definition CANCELMSGSIZE : Z := 17.

Definition BTPROTOCOL : bytes := str "BitTorrent protocol".
Definition PROTOCOLNAMELENGTH : Z := 19.
Definition FULLHANDSHAKELENGTH : Z := 68.

(** ** Handshake *)
Definition construct_handshake (hash id : bytes) : res bytes :=
  let* h := slice hash 0 20 in
  let* i := slice id 0 20 in
  Ok (PROTOCOLNAMELENGTH :: BTPROTOCOL ++ replicate 8 0 ++ h ++ i).

(** [junk] is the last byte of the 20 allocated for [peerProtocolName]: 19 are
    copied, 20 are compared, the last with the NUL of [BTPROTOCOL]. *)
Definition verify_handshake (junk : Z) (handshakeToVerify clientFileSHA1 : bytes) : res Z :=
  let* peerProtocolNameLength := rd handshakeToVerify 0 in
  if negb (peerProtocolNameLength - PROTOCOLNAMELENGTH =? 0) then Ok (-1)
  else
    let* copied := slice handshakeToVerify 1 PROTOCOLNAMELENGTH in
    let peerProtocolName := copied ++ [junk] in
    let* d := memcmp peerProtocolName (BTPROTOCOL ++ [0]) 20 in
    if negb (d =? 0) then Ok (-2)
    else
      let* peerSHA1 := slice handshakeToVerify (1 + PROTOCOLNAMELENGTH + 8) 20 in
      let* d := memcmp peerSHA1 clientFileSHA1 20 in
      if negb (d =? 0) then Ok (-3) else Ok 0.

(** [sizeof(buffer)] is the size of a pointer: the first 8 bytes are cleared. *)
Definition Verify_handshake (junk : Z) (buffer file_sha : bytes) : res bytes :=
  let* peer_handshake := slice buffer 0 FULLHANDSHAKELENGTH in
  let* test := verify_handshake junk peer_handshake file_sha in
  if negb (test =? 0) then Exit 1 else blit buffer 0 (replicate 8 0).

(** ** Message constructors *)
Definition construct_bitfield_message (bitfield : bytes) (bitfieldLen : Z) : res bytes :=
  let* msgLen := int_arith (bitfieldLen + 1) in
  let* b := slice bitfield 0 bitfieldLen in
  Ok (le 4 msgLen ++ BITFIELD :: b).

Definition construct_state_message (msgID : Z) : bytes := le 4 1 ++ [msgID].

Definition construct_have_message (piece_index : Z) : bytes := le 4 5 ++ HAVE :: le 4 piece_index.

Definition construct_request_message (piece_index blockoffset blocklength : Z) : bytes :=
  le 4 13 ++ REQUEST :: le 4 piece_index ++ le 4 blockoffset ++ le 4 blocklength.

Definition construct_piece_message (piece_index blockoffset piece_len : Z) (piece : bytes) : res bytes :=
  let* size := int_arith (13 + piece_len) in
  let* msgLen := int_arith (9 + piece_len) in
  let* p := slice piece 0 piece_len in
  Ok (le 4 msgLen ++ PIECE :: le 4 piece_index ++ le 4 blockoffset ++ p).

Definition construct_cancel_message (piece_index blockoffset blocklength : Z) : bytes :=
  le 4 13 ++ CANCEL :: le 4 piece_index ++ le 4 blockoffset ++ le 4 blocklength.

(** ** Message reception *)
(** [int] loaded from 4 bytes at [off] *)
Definition load_int (m : bytes) (off : Z) : res Z :=
  let* b := slice m off 4 in Ok (to_int (le_val b)).

(** the message, its id and its size with the length prefix; the caller's
    [bufPtr] is not advanced *)
Definition get_next_msg (bufPtr : bytes) : res (bytes * Z * Z) :=
  let* msgSize := load_int bufPtr 0 in
  let* n := int_arith (msgSize + 4) in
  let* message := slice bufPtr 0 n in
  let* msgID := rd bufPtr 4 in
  Ok (message, to_char msgID, n).

(** the bitfield kept for a peer: the bytes behind the handshake, which are the
    BITFIELD message with its length and its id *)
Definition Set_peerBitfield (buffer : bytes) (bitfieldMsgLength total_pieces : Z) : res bytes :=
  slice buffer FULLHANDSHAKELENGTH bitfieldMsgLength.

(** ** Piece availability *)
Fixpoint peer_loop (peer_buffer own_buffer : bytes) (x : Z) (n : nat) : res Z :=
  match n with
  | O => Ok 0
  | S n =>
      let* p := rd peer_buffer x in
      let* o := rd own_buffer x in
      let common_bits := to_char (Z.land (to_char p) (to_char o)) in
      if negb (to_char p - common_bits =? 0) then Ok 1
      else peer_loop peer_buffer own_buffer (x + 1) n
  end.

(** compares [bit_pieces] bytes *)
Definition peerContainsUndownloadedPieces (peer_buffer own_buffer : bytes) (bit_pieces : Z) : res Z :=
  peer_loop peer_buffer own_buffer 0 (Z.to_nat bit_pieces).

(** ** Specification of the messages *)
Inductive message :=
  | Choke | Unchoke | Interested | Uninterested
  | Have (piece_index : Z)
  | Bitfield (bits : bytes)
  | Request (piece_index blockoffset blocklength : Z)
  | Piece (piece_index blockoffset : Z) (data : bytes)
  | Cancel (piece_index blockoffset blocklength : Z).

Definition msg_id (m : message) : Z :=
  match m with
  | Choke => CHOKE | Unchoke => UNCHOKE | Interested => INTERESTED | Uninterested => UNINTERESTED
  | Have _ => HAVE | Bitfield _ => BITFIELD | Request _ _ _ => REQUEST
  | Piece _ _ _ => PIECE | Cancel _ _ _ => CANCEL
  end.

(** the message built by the constructors of the code *)
Definition construct (m : message) : res bytes :=
  match m with
  | Choke | Unchoke | Interested | Uninterested => Ok (construct_state_message (msg_id m))
  | Have i => Ok (construct_have_message i)
  | Bitfield b => construct_bitfield_message b (zlen b)
  | Request i o l => Ok (construct_request_message i o l)
  | Piece i o d => construct_piece_message i o (zlen d) d
  | Cancel i o l => Ok (construct_cancel_message i o l)
  end.

(** the payload: [int]s at offsets 5, 9 and 13, or the bytes behind them *)
Definition parse_payload (msg : bytes) (id size : Z) : option message :=
  let int off := match load_int msg off with Ok v => v | _ => 0 end in
  if id =? CHOKE then Some Choke
  else if id =? UNCHOKE then Some Unchoke
  else if id =? INTERESTED then Some Interested
  else if id =? UNINTERESTED then Some Uninterested
  else if id =? HAVE then Some (Have (int 5))
  else if id =? BITFIELD then Some (Bitfield (drop 5 msg))
  else if id =? REQUEST then Some (Request (int 5) (int 9) (int 13))
  else if id =? PIECE then Some (Piece (int 5) (int 9) (drop 13 msg))
  else if id =? CANCEL then Some (Cancel (int 5) (int 9) (int 13))
  else None.

Definition message_ok (m : message) : Prop :=
  match m with
  | Choke | Unchoke | Interested | Uninterested => True
  | Have i => is_int i
  | Bitfield b => zlen b + 5 <= INT_MAX
  | Request i o l | Cancel i o l => is_int i /\ is_int o /\ is_int l
  | Piece i o d => is_int i /\ is_int o /\ zlen d + 13 <= INT_MAX
  end.

(** ** Lemmas *)
Lemma load_int_le pre z post off :
  off = zlen pre -> is_int z -> load_int (pre ++ le 4 z ++ post) off = Ok z.
Proof.
  intros -> Hz. unfold load_int. rewrite (slice_at pre (le 4 z) post) by (done || by rewrite zlen_le).
  cbn [res_bind]. by rewrite int_of_le_id.
Qed.

(** The shape all constructors share: length, id, payload. *)
Definition frame (id : Z) (payload : bytes) : bytes := le 4 (zlen payload + 1) ++ id :: payload.

Lemma zlen_frame id payload : zlen (frame id payload) = zlen payload + 5.
Proof. unfold frame. bounds. Qed.

Lemma get_next_msg_frame id payload rest :
  0 <= id < 128 -> zlen payload + 5 <= INT_MAX ->
  get_next_msg (frame id payload ++ rest) = Ok (frame id payload, id, zlen payload + 5).
Proof.
  intros Hid Hp. unfold get_next_msg. pose proof (zlen_nonneg payload).
  assert (is_int (zlen payload + 1)) as Hi by bounds.
  assert (is_int (zlen payload + 1 + 4)) as Hi4 by bounds.
  assert (load_int (frame id payload ++ rest) 0 = Ok (zlen payload + 1)) as ->.
  { unfold frame. rewrite <- app_assoc. by apply (load_int_le [] _ _ 0). }
  cbn [res_bind]. rewrite int_arith_Ok by done. cbn [res_bind].
  rewrite slice_prefix by (rewrite zlen_frame; lia). cbn [res_bind].
  assert (rd (frame id payload ++ rest) 4 = Ok id) as ->.
  { unfold frame. rewrite <- app_assoc. apply (rd_app_mid (le 4 (zlen payload + 1))). }
  cbn [res_bind]. rewrite to_char_id by lia. do 2 f_equal. lia.
Qed.

(** The [int] behind [k] others in the payload. *)
Lemma frame_int id pre z post off :
  off = zlen pre + 5 -> is_int z -> load_int (frame id (pre ++ le 4 z ++ post)) off = Ok z.
Proof.
  intros -> Hz. unfold frame. rewrite app_comm_cons, app_assoc.
  apply load_int_le; [|done]. bounds.
Qed.

Lemma frame_drop id payload n : drop (5 + n) (frame id payload) = drop n payload.
Proof. unfold frame. rewrite <- drop_drop. f_equal. Qed.

Lemma frame_ints id i o l :
  is_int i -> is_int o -> is_int l ->
  let f := frame id (le 4 i ++ le 4 o ++ le 4 l) in
  load_int f 5 = Ok i /\ load_int f 9 = Ok o /\ load_int f 13 = Ok l.
Proof.
  intros Hi Ho Hl f. subst f. split; [by apply (frame_int id [] i)|]. split.
  - by apply (frame_int id (le 4 i) o).
  - rewrite app_assoc, <- (app_nil_r (le 4 l)). by apply (frame_int id (le 4 i ++ le 4 o) l []).
Qed.

Lemma construct_frame m :
  message_ok m -> exists payload,
    construct m = Ok (frame (msg_id m) payload) /\ zlen payload + 5 <= INT_MAX /\
    parse_payload (frame (msg_id m) payload) (msg_id m) (zlen payload + 5) = Some m.
Proof.
  destruct m as [ | | | |i|b|i o l|i o d|i o l]; simpl message_ok; intros Hm.
  1-4: by exists [].
  - exists (le 4 i). split; [done|]. split; [by vm_compute|].
    unfold parse_payload. cbn [msg_id]. pose proof (frame_int HAVE [] i [] 5 eq_refl Hm) as E.
    rewrite app_nil_r in E. cbn [app] in E. by rewrite E.
  - exists b. unfold construct, construct_bitfield_message. rewrite int_arith_Ok by bounds. cbn [res_bind].
    by rewrite slice_all.
  - exists (le 4 i ++ le 4 o ++ le 4 l). destruct Hm as (Hi & Ho & Hl). split; [done|]. split; [by vm_compute|].
    unfold parse_payload. destruct (frame_ints REQUEST i o l Hi Ho Hl) as (E1 & E2 & E3).
    cbn [msg_id]. by rewrite E1, E2, E3.
  - exists (le 4 i ++ le 4 o ++ d). destruct Hm as (Hi & Ho & Hd).
    unfold construct, construct_piece_message. rewrite !int_arith_Ok by bounds. cbn [res_bind].
    rewrite slice_all. cbn [res_bind].
    split; [unfold frame; do 3 f_equal; bounds|]. split; [bounds|].
    unfold parse_payload. cbn [msg_id]. rewrite (frame_int PIECE [] i (le 4 o ++ d)) by done.
    rewrite (frame_int PIECE (le 4 i) o d) by done. by rewrite (frame_drop _ _ 8).
  - exists (le 4 i ++ le 4 o ++ le 4 l). destruct Hm as (Hi & Ho & Hl). split; [done|]. split; [by vm_compute|].
    unfold parse_payload. destruct (frame_ints CANCEL i o l Hi Ho Hl) as (E1 & E2 & E3).
    cbn [msg_id]. by rewrite E1, E2, E3.
Qed.

Lemma rd_byte l x b : is_bytes l -> rd l x = Ok b -> is_byte b.
Proof. intros Hl [_ E]%rd_Ok. by apply (Forall_lookup_1 _ _ _ _ Hl E). Qed.

(** On two [char]s, the test of the code is "some bit of [p] is not in [o]". *)
Definition has_new_bit (p o : Z) : bool := negb (Z.land p o =? p).

Lemma peer_test p o :
  is_byte p -> is_byte o ->
  negb (to_char p - to_char (Z.land (to_char p) (to_char o)) =? 0) = has_new_bit p o.
Proof.
  intros Hp Ho.
  pose proof (forallb_zseq (fun p => forallb (fun o => eqb (negb (to_char p - to_char (Z.land (to_char p) (to_char o)) =? 0))
    (has_new_bit p o)) (zseq 0 256)) 0 256 p ltac:(vm_compute; reflexivity) Hp) as H.
  apply eqb_prop. exact (forallb_zseq _ 0 256 o H Ho).
Qed.

Lemma has_new_bit_spec p o :
  0 <= p -> has_new_bit p o = true <-> exists i, 0 <= i /\ Z.testbit p i = true /\ Z.testbit o i = false.
Proof.
  intros Hp. unfold has_new_bit. rewrite negb_true_iff, Z.eqb_neq. split.
  - intros Hne. assert (Z.ldiff p o <> 0) as Hd.
    { intros E. apply Hne. apply Z.bits_inj'. intros n Hn. rewrite Z.land_spec.
      pose proof (Z.ldiff_spec p o n) as Hs. rewrite E, Z.bits_0 in Hs.
      by destruct (Z.testbit p n), (Z.testbit o n). }
    set (i := Z.log2 (Z.ldiff p o)). assert (0 <= i) as Hi by apply Z.log2_nonneg.
    assert (Z.testbit (Z.ldiff p o) i = true) as Hb.
    { apply Z.bit_log2. pose proof (proj2 (Z.ldiff_nonneg p o) (or_introl Hp)). lia. }
    exists i. rewrite Z.ldiff_spec in Hb. apply andb_true_iff in Hb as [H1 H2].
    apply negb_true_iff in H2. done.
  - intros (i & Hi & H1 & H2) E. rewrite <- E, Z.land_spec, H2, andb_false_r in H1. done.
Qed.

Lemma peer_loop_spec peer own :
  is_bytes peer -> is_bytes own -> forall n x,
  0 <= x -> x + Z.of_nat n <= zlen peer -> x + Z.of_nat n <= zlen own ->
  exists r, peer_loop peer own x n = Ok r /\
    (r = 1 /\ (exists j p o, x <= j < x + Z.of_nat n /\ rd peer j = Ok p /\ rd own j = Ok o /\ has_new_bit p o = true) \/
     r = 0 /\ (forall j p o, x <= j < x + Z.of_nat n -> rd peer j = Ok p -> rd own j = Ok o -> has_new_bit p o = false)).
Proof.
  intros Hp Ho n. induction n as [|n IH]; intros x Hx H1 H2.
  - exists 0. split; [done|]. right. split; [done|]. lia.
  - cbn [peer_loop]. destruct (rd_in_bounds peer x) as [p Ep]; [lia|]. destruct (rd_in_bounds own x) as [o Eo]; [lia|].
    rewrite Ep, Eo. cbn [res_bind]. rewrite peer_test by (eapply rd_byte; [|eassumption]; assumption).
    destruct (has_new_bit p o) eqn:Eb.
    + exists 1. split; [done|]. left. split; [done|]. exists x, p, o. split; [lia|done].
    + destruct (IH (x + 1)) as (r & Er & Hr); [lia..|]. exists r. split; [done|].
      destruct Hr as [[-> (j & p' & o' & Hj & ?)]|[-> Hall]].
      * left. split; [done|]. exists j, p', o'. split; [lia|done].
      * right. split; [done|]. intros j p' o' Hj Hp' Ho'.
        destruct (decide (j = x)) as [->|]; [congruence|]. eapply Hall; [|done..]. lia.
Qed.

(** ** Properties *)
(** C3: The constructors and the reception agree on every message: what is
    built for a message within the range of [int] is recognised by
    [get_next_msg] in front of any further bytes, with its id and size, and its
    payload holds the fields it was built from. *)
Theorem message_roundtrip m rest :
  message_ok m -> exists msg size,
    construct m = Ok msg /\ get_next_msg (msg ++ rest) = Ok (msg, msg_id m, size) /\
    size = zlen msg /\ parse_payload msg (msg_id m) size = Some m.
Proof.
  intros Hm. destruct (construct_frame m Hm) as (payload & Hc & Hl & Hp).
  exists (frame (msg_id m) payload), (zlen payload + 5). split; [done|].
  split; [apply get_next_msg_frame; [by destruct m|done]|]. by rewrite zlen_frame.
Qed.

Lemma message_roundtrip_witness :
  message_ok (Piece 3 0 (str "data")) /\ exists msg size,
    construct (Piece 3 0 (str "data")) = Ok msg /\ get_next_msg (msg ++ [1; 2]) = Ok (msg, 7, size) /\
    size = zlen msg /\ parse_payload msg 7 size = Some (Piece 3 0 (str "data")).
Proof.
  assert (message_ok (Piece 3 0 (str "data"))) as H by (vm_compute; intuition discriminate).
  split; [exact H|]. exact (message_roundtrip _ [1; 2] H).
Defined.

(** The integers of a message are little-endian (protocol.md: big-endian),
    and the length prefix counts what follows it. *)
Theorem have_message_bytes i :
  0 <= i < 256 -> construct_have_message i = [5; 0; 0; 0; HAVE; i; 0; 0; 0] /\ zlen (construct_have_message i) = HAVEMSGSIZE.
Proof.
  intros Hi. split; [|done]. unfold construct_have_message. cbn [le].
  rewrite (Z.mod_small i), (Z.div_small i) by lia. done.
Qed.

Lemma have_message_bytes_witness :
  construct_have_message 9 = [5; 0; 0; 0; 4; 9; 0; 0; 0] /\ zlen (construct_have_message 9) = 9.
Proof. apply (have_message_bytes 9). lia. Defined.

(** [verify_handshake] on a handshake of this program.  With the hash of
    the same file it is accepted, and with another hash rejected with -3, only
    if the byte that [malloc] left behind the protocol name happens to be 0;
    otherwise the handshake is rejected with -2. *)
Theorem verify_handshake_own junk hash id sha :
  length hash = 20%nat -> length id = 20%nat -> length sha = 20%nat -> is_byte junk ->
  exists hs, construct_handshake hash id = Ok hs /\ zlen hs = FULLHANDSHAKELENGTH /\
    verify_handshake junk hs sha =
    Ok (if decide (junk = 0) then (if decide (hash = sha) then 0 else -3) else -2).
Proof.
  intros Hh Hi Hs Hj. assert (zlen hash = 20) as Zh by (unfold zlen; lia). assert (zlen id = 20) as Zi by (unfold zlen; lia).
  exists (PROTOCOLNAMELENGTH :: BTPROTOCOL ++ replicate 8 0 ++ hash ++ id).
  split; [|split].
  - unfold construct_handshake. pose proof (slice_all hash) as Eh. pose proof (slice_all id) as Ei.
    rewrite Zh in Eh. rewrite Zi in Ei. by rewrite Eh, Ei.
  - unfold FULLHANDSHAKELENGTH. rewrite zlen_cons, !zlen_app, Zh, Zi. done.
  - unfold verify_handshake.
    change (rd (PROTOCOLNAMELENGTH :: ?l) 0) with (Ok PROTOCOLNAMELENGTH). cbn [res_bind].
    rewrite Z.sub_diag. cbn [Z.eqb negb].
    pose proof (slice_at [PROTOCOLNAMELENGTH] BTPROTOCOL (replicate 8 0 ++ hash ++ id) 1 PROTOCOLNAMELENGTH
      eq_refl eq_refl) as Ep. cbn [app] in Ep. rewrite Ep. clear Ep. cbn [res_bind].
    destruct (memcmp_eq (BTPROTOCOL ++ [junk]) (BTPROTOCOL ++ [0]) 20) as (d & -> & Hd); [simpl; lia..|].
    cbn [res_bind]. rewrite !take_ge in Hd by (simpl; lia).
    destruct (decide (junk = 0)) as [->|Hne].
    + rewrite (proj2 Hd eq_refl). cbn [Z.eqb negb].
      rewrite app_comm_cons, app_assoc, (slice_at _ hash id) by (done || by rewrite Zh). cbn [res_bind].
      destruct (memcmp_eq hash sha 20) as (d' & -> & Hd'); [lia..|]. cbn [res_bind].
      rewrite !take_ge in Hd' by lia. destruct (decide (hash = sha)) as [E|E].
      * by rewrite (proj2 Hd' E).
      * rewrite (proj2 (Z.eqb_neq d' 0)); [done|]. intros E0. by apply E, Hd'.
    + rewrite (proj2 (Z.eqb_neq d 0)); [done|]. intros Hd0. apply Hd in Hd0. by simplify_eq.
Qed.

Lemma verify_handshake_own_witness :
  exists hs, construct_handshake (str "AAAAAAAAAAAAAAAAAAA1") (str "00000000000000000001") = Ok hs /\ zlen hs = 68 /\
    verify_handshake 205 hs (str "AAAAAAAAAAAAAAAAAAA1") = Ok (-2).
Proof.
  apply (verify_handshake_own 205 (str "AAAAAAAAAAAAAAAAAAA1") (str "00000000000000000001") (str "AAAAAAAAAAAAAAAAAAA1"));
    [reflexivity..|split; [discriminate|reflexivity]].
Defined.

(** [peerContainsUndownloadedPieces] on two buffers of at least [n] bytes
    decides whether, in the first [n] bytes, the peer has some bit that is not
    set in the own buffer. *)
Theorem peerContains_spec peer own n :
  is_bytes peer -> is_bytes own -> 0 <= n <= zlen peer -> n <= zlen own ->
  exists r, peerContainsUndownloadedPieces peer own n = Ok r /\ (r = 0 \/ r = 1) /\
    (r = 1 <-> exists j i p o, 0 <= j < n /\ 0 <= i /\ rd peer j = Ok p /\ rd own j = Ok o /\
                 Z.testbit p i = true /\ Z.testbit o i = false).
Proof.
  intros Hp Ho Hn1 Hn2. unfold peerContainsUndownloadedPieces.
  destruct (peer_loop_spec peer own Hp Ho (Z.to_nat n) 0) as (r & Er & Hr); [lia..|].
  rewrite Z2Nat.id, Z.add_0_l in Hr by lia. exists r. split; [done|].
  destruct Hr as [[-> (j & p & o & Hj & Ep & Eo & Hb)]|[-> Hall]].
  - split; [by right|]. split; [|done]. intros _. apply has_new_bit_spec in Hb as (i & Hi & H1 & H2); [|apply (rd_byte peer j p Hp Ep)].
    by exists j, i, p, o.
  - split; [by left|]. split; [done|]. intros (j & i & p & o & Hj & Hi & Ep & Eo & H1 & H2).
    assert (has_new_bit p o = true) as Hb by (apply has_new_bit_spec; [apply (rd_byte peer j p Hp Ep)|by exists i]).
    by rewrite (Hall j p o) in Hb.
Qed.

Lemma peerContains_spec_witness :
  exists r, peerContainsUndownloadedPieces [3; 128] [3; 0] 2 = Ok r /\ (r = 0 \/ r = 1) /\
    (r = 1 <-> exists j i p o, 0 <= j < 2 /\ 0 <= i /\ rd [3; 128] j = Ok p /\ rd [3; 0] j = Ok o /\
                 Z.testbit p i = true /\ Z.testbit o i = false).
Proof.
  apply peerContains_spec; [apply is_bytesb_spec; reflexivity..|split; vm_compute; discriminate|vm_compute; discriminate].
Defined.
