(* ===== verification/Connection.v ===== *)
(** * Connection state of a peer (src/src/btp.c, lines 286-310 and 371-486)

    A [Connections] is a record; [status_flags] is a signed [char].  An
    operation returns the new record and the bytes it gave to [send]; [sent] is
    false when [send] returns -1. *)
From Stdlib Require Import ZArith Lia Bool String.
From stdpp Require Import base numbers option list.
From S2P Require Import Prelude CStr Util FileConstructor Btp.

(** ** Data *)
Definition CONNECTIONSTATUS : Z := 7.
Definition OWNINTERESTED : Z := 6.
Definition OWNCHOKE : Z := 5.
Definition PEERINTERESTED : Z := 4.
Definition PEERCHOKE : Z := 3.
Definition PENDINGREQUEST : Z := 2.

Record Connections := mk_connections {
  status_flags : Z;
  requested_piece : Z;
  piece_to_send : Z;
  peerBitfield : bytes;
}.

Definition set_status_flags (c : Connections) (f : Z) : Connections :=
  mk_connections f (requested_piece c) (piece_to_send c) (peerBitfield c).
Definition set_requested_piece (c : Connections) (i : Z) : Connections :=
  mk_connections (status_flags c) i (piece_to_send c) (peerBitfield c).

(** [a << n] on [int] *)
Definition int_shl (a n : Z) : res Z :=
  check* (0 <=? n) && (n <? 32) else Overflow in int_arith (a * 2 ^ n).

(** [flags |= v] and [flags &= v] on a [char] *)
Definition or_flags (c : Connections) (v : Z) : Connections :=
  set_status_flags c (to_char (Z.lor (status_flags c) v)).
Definition and_flags (c : Connections) (v : Z) : Connections :=
  set_status_flags c (to_char (Z.land (status_flags c) v)).

(** ** Operations *)
(** [old] is the object as [malloc] left it: its flags are not cleared first *)
Definition initialize_connection (old : Connections) (total_pieces_in_file : Z) : res Connections :=
  let initial := to_char (Z.lor (1 * 2 ^ OWNCHOKE) (1 * 2 ^ PEERCHOKE)) in
  let flags := status_flags (or_flags old initial) in
  let n := Z.quot total_pieces_in_file 8 in
  check* 0 <=? n else NullDeref in
  Ok (mk_connections flags (-1) (-1) (replicate (Z.to_nat n) 0)).

Definition send (sent : bool) (msg : bytes) (len : Z) : res bytes :=
  let* data := slice msg 0 len in
  if sent then Ok data else Exit 1.

Definition Send_interested (sent : bool) (c : Connections) : res (Connections * bytes) :=
  let interested := construct_state_message INTERESTED in
  let* v := int_shl 1 OWNINTERESTED in
  let c := or_flags c v in
  let* out := send sent interested STATEMSGSIZE in
  Ok (c, out).

Definition Send_uninterested (sent : bool) (c : Connections) : res (Connections * bytes) :=
  let* v := int_shl 0 OWNINTERESTED in
  let c := or_flags c v in
  let uninterested := construct_state_message UNINTERESTED in
  let* out := send sent uninterested STATEMSGSIZE in
  Ok (c, out).

Definition Send_unchoked (sent : bool) (c : Connections) : res (Connections * bytes) :=
  let* v := int_shl 0 PEERCHOKE in
  let c := or_flags c v in
  let unchoke := construct_state_message UNCHOKE in
  let* out := send sent unchoke STATEMSGSIZE in
  Ok (c, out).

Definition Send_request (sent : bool) (c : Connections) (piece_index : Z) : res (Connections * bytes) :=
  let request := construct_request_message piece_index 0 0 in
  let* out := send sent request REQUESTMSGSIZE in
  let* v := int_shl 1 PENDINGREQUEST in
  Ok (set_requested_piece (or_flags c v) piece_index, out).

(** the same body as [get_piece] of file_constructor.c *)
Definition get_piece_from_file (contents : bytes) (piece_num piece_len : Z) (junk : bytes) : res bytes :=
  get_piece contents piece_num piece_len junk.

Definition Send_piece (sent : bool) (c : Connections) (piece_index : Z) (contents : bytes) (piece_len : Z)
    (junk : bytes) : res (Connections * bytes) :=
  let* piece := get_piece_from_file contents piece_index piece_len junk in
  let* piece_msg := construct_piece_message piece_index 0 piece_len piece in
  let* n := int_arith (13 + piece_len) in
  let* out := send sent piece_msg n in
  let* v := int_shl 1 PENDINGREQUEST in
  Ok (set_requested_piece (or_flags c v) piece_index, out).

Definition Set_Flag (c : Connections) (flag state : Z) : res Connections :=
  if state =? 1 then let* v := int_shl 1 flag in Ok (or_flags c v)
  else if state =? 0 then let* v := int_shl 0 flag in Ok (and_flags c v)
  else Ok c.

(** ** Sequences of operations *)
Inductive conn_op :=
  | OpInterested | OpUninterested | OpUnchoked
  | OpRequest (piece_index : Z)
  | OpPiece (piece_index : Z) (contents : bytes) (piece_len : Z) (junk : bytes).

Definition conn_step (c : Connections) (op : conn_op) : res (Connections * bytes) :=
  match op with
  | OpInterested => Send_interested true c
  | OpUninterested => Send_uninterested true c
  | OpUnchoked => Send_unchoked true c
  | OpRequest i => Send_request true c i
  | OpPiece i contents len junk => Send_piece true c i contents len junk
  end.

Fixpoint conn_run (c : Connections) (ops : list conn_op) : res (Connections * bytes) :=
  match ops with
  | [] => Ok (c, [])
  | op :: ops =>
      let* (c, out) := conn_step c op in
      let* (c, outs) := conn_run c ops in
      Ok (c, out ++ outs)
  end.

(** ** Lemmas *)
Definition flag (c : Connections) (i : Z) : bool := Z.testbit (status_flags c) i.

Definition is_char (z : Z) : Prop := -128 <= z < 128.

Lemma forallb_zseq3 (P : Z -> Z -> Z -> bool) a b i :
  forallb (fun a => forallb (fun b => forallb (P a b) (zseq 0 8)) (zseq 0 8)) (zseq (-128) 256) = true ->
  is_char a -> 0 <= b < 8 -> 0 <= i < 8 -> P a b i = true.
Proof.
  intros H Ha Hb Hi. pose proof (forallb_zseq _ (-128) 256 a H Ha) as H1.
  pose proof (forallb_zseq _ 0 8 b H1 Hb) as H2. exact (forallb_zseq _ 0 8 i H2 Hi).
Qed.

(** Setting bit [f] of a [char], bit 7 (the sign) included. *)
Lemma or_bit a f i :
  is_char a -> 0 <= f < 8 -> 0 <= i < 8 ->
  Z.testbit (to_char (Z.lor a (2 ^ f))) i = (i =? f) || Z.testbit a i.
Proof.
  intros Ha Hf Hi. apply eqb_prop.
  apply (forallb_zseq3 (fun a f i => eqb (Z.testbit (to_char (Z.lor a (2 ^ f))) i) ((i =? f) || Z.testbit a i))
           a f i); [vm_compute; reflexivity|done..].
Qed.

Lemma or_flags_0 c : is_char (status_flags c) -> or_flags c 0 = c.
Proof.
  intros H. unfold or_flags, set_status_flags. rewrite Z.lor_0_r, to_char_id by exact H. by destruct c.
Qed.

Lemma or_flags_char c v : is_char (status_flags (or_flags c v)).
Proof. apply to_char_range. Qed.

Lemma int_shl_1 f : 0 <= f < 31 -> int_shl 1 f = Ok (2 ^ f).
Proof.
  intros Hf. unfold int_shl. rewrite (proj2 (Z.leb_le 0 f)), (proj2 (Z.ltb_lt f 32)) by lia.
  cbn [andb]. rewrite Z.mul_1_l. apply int_arith_Ok. unfold is_int, INT_MIN, INT_MAX.
  pose proof (Z.pow_lt_mono_r 2 f 31 ltac:(lia) ltac:(lia) ltac:(lia)). pose proof (Z.pow_nonneg 2 f). lia.
Qed.

Lemma int_shl_0 f : 0 <= f < 32 -> int_shl 0 f = Ok 0.
Proof.
  intros Hf. unfold int_shl. rewrite (proj2 (Z.leb_le 0 f)), (proj2 (Z.ltb_lt f 32)) by lia. done.
Qed.

(** the flag an operation sets, the request it records, what it sends *)
Definition op_flag (op : conn_op) (i : Z) : bool :=
  match op with
  | OpInterested => i =? OWNINTERESTED
  | OpUninterested | OpUnchoked => false
  | OpRequest _ | OpPiece _ _ _ _ => i =? PENDINGREQUEST
  end.

Definition op_request (op : conn_op) (old : Z) : Z :=
  match op with OpRequest i | OpPiece i _ _ _ => i | _ => old end.

Definition op_message (op : conn_op) : message :=
  match op with
  | OpInterested => Interested
  | OpUninterested => Uninterested
  | OpUnchoked => Unchoke
  | OpRequest i => Request i 0 0
  | OpPiece i contents len junk =>
      match get_piece contents i len junk with Ok p => Piece i 0 (take (Z.to_nat len) p) | _ => Choke end
  end.

Lemma send_all msg n out : zlen msg = n -> send true msg n = Ok out -> out = msg.
Proof. intros <-. unfold send. rewrite slice_all. by intros [= <-]. Qed.

(** a PIECE message carries the first [len] bytes of the buffer *)
Lemma construct_piece_take i o len p msg :
  construct_piece_message i o len p = Ok msg ->
  construct (Piece i o (take (Z.to_nat len) p)) = Ok msg /\ zlen msg = 13 + len.
Proof.
  unfold construct, construct_piece_message. intros H. step_res H. step_res H. step_res H.
  injection H as <-. pose proof (slice_Ok_len _ _ _ _ Ha1) as El.
  assert (a1 = take (Z.to_nat len) p) as ->.
  { unfold slice in Ha1. destruct (_ && _) in Ha1; [|done]. by injection Ha1 as <-. }
  rewrite El, Ha. cbn [res_bind]. rewrite Ha0. cbn [res_bind].
  pose proof (slice_all (take (Z.to_nat len) p)) as Es. rewrite El in Es. rewrite Es. cbn [res_bind].
  split; [done|]. autorewrite with cmem. lia.
Qed.

Lemma conn_step_spec c op c' out :
  is_char (status_flags c) -> conn_step c op = Ok (c', out) ->
  is_char (status_flags c') /\ construct (op_message op) = Ok out /\
  (forall i, 0 <= i < 8 -> flag c' i = op_flag op i || flag c i) /\
  requested_piece c' = op_request op (requested_piece c) /\
  piece_to_send c' = piece_to_send c /\ peerBitfield c' = peerBitfield c.
Proof.
  intros Hc H.
  assert (forall f i, 0 <= f < 8 -> 0 <= i < 8 -> flag (or_flags c (2 ^ f)) i = (i =? f) || flag c i) as Hor
    by (intros; by apply or_bit).
  destruct op as [ | | |i|i contents len junk]; cbn [conn_step] in H.
  - unfold Send_interested in H. rewrite int_shl_1 in H by done. cbn [res_bind] in H. step_res H.
    apply send_all in Ha as ->; [|done]. injection H as <- <-.
    split; [apply or_flags_char|]. split; [done|]. split; [|done]. intros i Hi. by apply Hor.
  - unfold Send_uninterested in H. rewrite int_shl_0 in H by done. cbn [res_bind] in H.
    rewrite or_flags_0 in H by done. step_res H. apply send_all in Ha as ->; [|done]. by injection H as <- <-.
  - unfold Send_unchoked in H. rewrite int_shl_0 in H by done. cbn [res_bind] in H.
    rewrite or_flags_0 in H by done. step_res H. apply send_all in Ha as ->; [|done]. by injection H as <- <-.
  - unfold Send_request in H. step_res H. apply send_all in Ha as ->; [|done].
    rewrite int_shl_1 in H by done. cbn [res_bind] in H. injection H as <- <-.
    split; [apply or_flags_char|]. split; [done|]. split; [|done]. intros j Hj. by apply Hor.
  - unfold Send_piece in H. step_res H. step_res H. step_res H. step_res H.
    rewrite int_shl_1 in H by done. cbn [res_bind] in H. injection H as <- <-.
    split; [apply or_flags_char|]. split; [|split; [|done]].
    + destruct (construct_piece_take _ _ _ _ _ Ha0) as [Hm Hl].
      unfold int_arith in Ha1. destruct (is_intb _); [|done]. injection Ha1 as <-.
      apply send_all in Ha2 as ->; [|done]. unfold get_piece_from_file in Ha. cbn [op_message]. by rewrite Ha.
    + intros j Hj. by apply Hor.
Qed.

(** what a sequence of operations sends *)
Fixpoint construct_all (ms : list message) : res bytes :=
  match ms with
  | [] => Ok []
  | m :: ms => let* b := construct m in let* bs := construct_all ms in Ok (b ++ bs)
  end.

Definition asks (op : conn_op) : bool := match op with OpRequest _ | OpPiece _ _ _ _ => true | _ => false end.
Definition declares (op : conn_op) : bool := match op with OpInterested => true | _ => false end.

Lemma conn_run_spec ops c c' out :
  is_char (status_flags c) -> conn_run c ops = Ok (c', out) ->
  is_char (status_flags c') /\ construct_all (map op_message ops) = Ok out /\
  (forall i, 0 <= i < 8 -> flag c' i = existsb (fun op => op_flag op i) ops || flag c i) /\
  requested_piece c' = fold_left (fun r op => op_request op r) ops (requested_piece c) /\
  piece_to_send c' = piece_to_send c /\ peerBitfield c' = peerBitfield c.
Proof.
  revert c c' out. induction ops as [|op ops IH]; intros c c' out Hc H.
  - injection H as <- <-. done.
  - cbn [conn_run] in H. step_res H. destruct a as [c1 o1]. step_res H. destruct a as [c2 o2].
    injection H as <- <-. destruct (conn_step_spec c op c1 o1 Hc Ha) as (Hc1 & Hm1 & Hf1 & Hr1 & Hp1 & Hb1).
    destruct (IH _ _ _ Hc1 Ha0) as (Hc2 & Hm2 & Hf2 & Hr2 & Hp2 & Hb2).
    split; [done|]. cbn [map construct_all existsb fold_left]. rewrite Hm1. cbn [res_bind]. rewrite Hm2.
    split; [done|]. split; [|by rewrite <- Hr1, Hp2, Hb2].
    intros i Hi. rewrite Hf2, Hf1 by done.
    by destruct (op_flag op i), (existsb _ ops), (flag c i).
Qed.

Lemma initialize_connection_ok old n :
  0 <= n -> initialize_connection old n =
  Ok (mk_connections (to_char (Z.lor (status_flags old) 40)) (-1) (-1) (replicate (Z.to_nat (Z.quot n 8)) 0)).
Proof.
  intros Hn. unfold initialize_connection. pose proof (Z.quot_pos n 8 Hn ltac:(lia)).
  by rewrite (proj2 (Z.leb_le 0 (Z.quot n 8))) by lia.
Qed.

Lemma existsb_const_false {A} (l : list A) : existsb (fun _ => false) l = false.
Proof. by induction l. Qed.

Lemma Set_Flag_bits c f state :
  is_char (status_flags c) -> 0 <= f < 8 ->
  exists c', Set_Flag c f state = Ok c' /\ is_char (status_flags c') /\
    (forall i, 0 <= i < 8 -> flag c' i =
       if state =? 1 then (i =? f) || flag c i else if state =? 0 then false else flag c i) /\
    requested_piece c' = requested_piece c /\ piece_to_send c' = piece_to_send c /\ peerBitfield c' = peerBitfield c.
Proof.
  intros Hc Hf. unfold Set_Flag. destruct (state =? 1).
  - rewrite int_shl_1 by lia. cbn [res_bind]. eexists. split; [done|]. split; [apply or_flags_char|].
    split; [|done]. intros i Hi. by apply or_bit.
  - destruct (state =? 0); [|by exists c].
    rewrite int_shl_0 by lia. cbn [res_bind]. eexists. split; [done|]. unfold and_flags. rewrite Z.land_0_r.
    split; [split; [discriminate|reflexivity]|]. split; [|done]. intros i Hi. apply Z.bits_0.
Qed.

(** ** Properties *)
(** C27: The state of a connection after [initialize_connection] on a cleared
    object and any sequence of the [Send_] operations that sends everything: the
    bytes sent are the messages of the operations, the interested flag says that
    INTERESTED was sent at some time and no UNINTERESTED takes it back, the
    pending flag that a REQUEST or a PIECE was sent, and both choke flags are
    still set, whatever was sent: [Send_unchoked] unchokes the peer but not the
    record of it. *)
Theorem connection_state total ops c0 c out :
  0 <= total ->
  initialize_connection (mk_connections 0 0 0 []) total = Ok c0 -> conn_run c0 ops = Ok (c, out) ->
  construct_all (map op_message ops) = Ok out /\
  flag c OWNINTERESTED = existsb declares ops /\ flag c PENDINGREQUEST = existsb asks ops /\
  flag c PEERCHOKE = true /\ flag c OWNCHOKE = true /\ flag c PEERINTERESTED = false /\
  requested_piece c = fold_left (fun r op => op_request op r) ops (-1) /\ piece_to_send c = -1 /\
  zlen (peerBitfield c) = Z.quot total 8.
Proof.
  intros Ht Hi Hr. rewrite initialize_connection_ok in Hi by done. injection Hi as <-.
  destruct (fun H => conn_run_spec ops _ c out H Hr) as (_ & Hm & Hf & Hq & Hp & Hb);
    [apply to_char_range|].
  split; [done|]. rewrite !Hf by done. rewrite Hq, Hp, Hb. cbn [requested_piece piece_to_send peerBitfield].
  assert (forall i b g, flag (mk_connections 40 (-1) (-1) b) i = g ->
    forall P, (forall op, op_flag op i = P op) ->
    existsb (fun op => op_flag op i) ops || flag (mk_connections 40 (-1) (-1) b) i = existsb P ops || g) as E.
  { intros i b g -> P HP. f_equal. clear -HP. induction ops as [|op ops IH]; [done|]. simpl. by rewrite HP, IH. }
  change (to_char (Z.lor (status_flags (mk_connections 0 0 0 [])) 40)) with 40.
  split; [rewrite (E _ _ false) with (P := declares); [apply orb_false_r|done|by intros []]|].
  split; [rewrite (E _ _ false) with (P := asks); [apply orb_false_r|done|by intros []]|].
  split; [by apply orb_true_r|]. split; [by apply orb_true_r|].
  split; [rewrite (E _ _ false) with (P := fun _ => false); [by rewrite existsb_const_false|done|by intros []]|].
  split; [done|]. split; [done|]. rewrite zlen_replicate. pose proof (Z.quot_pos total 8 Ht). lia.
Qed.

Lemma connection_state_witness :
  exists c out, conn_run (mk_connections 40 (-1) (-1) [0; 0]) [OpInterested; OpUnchoked; OpRequest 5] = Ok (c, out) /\
    status_flags c = 108 /\ flag c PEERCHOKE = true /\ requested_piece c = 5 /\ zlen out = 27.
Proof.
  eexists. eexists. split; [reflexivity|]. split; [reflexivity|].
  pose proof (connection_state 16 [OpInterested; OpUnchoked; OpRequest 5] _ _ _ ltac:(lia) eq_refl eq_refl)
    as (_ & _ & _ & H & _ & _ & Hr & _).
  split; [exact H|]. split; [exact Hr|reflexivity].
Defined.

(** [Set_Flag] with state 1 sets its flag and no other; with state 0 it
    clears all of the flags, not only the one it is given; any other state
    changes nothing.  The other fields are left alone. *)
Theorem Set_Flag_spec c f state :
  is_char (status_flags c) -> 0 <= f < 8 ->
  exists c', Set_Flag c f state = Ok c' /\ is_char (status_flags c') /\
    (forall i, 0 <= i < 8 -> flag c' i =
       if state =? 1 then (i =? f) || flag c i else if state =? 0 then false else flag c i) /\
    requested_piece c' = requested_piece c /\ piece_to_send c' = piece_to_send c /\ peerBitfield c' = peerBitfield c.
Proof. apply Set_Flag_bits. Qed.

Lemma Set_Flag_spec_witness :
  exists c', Set_Flag (mk_connections 44 (-1) (-1) []) OWNCHOKE 0 = Ok c' /\ flag c' PENDINGREQUEST = false.
Proof.
  destruct (Set_Flag_spec (mk_connections 44 (-1) (-1) []) OWNCHOKE 0) as (c' & H & _ & Hf & _);
    [split; [discriminate|reflexivity]|split; [discriminate|reflexivity]|].
  exists c'. split; [exact H|]. exact (Hf PENDINGREQUEST ltac:(split; [discriminate|reflexivity])).
Defined.
