(* ===== verification/Tracker.v ===== *)
(** * Tracker protocol, client side and shared functions (src/src/tracker.c, tracker.h)

    The linked list of clients lives in a heap, a finite map from addresses to
    nodes; 0 is the null pointer.  What [malloc] returns is the parameter
    [alloc], an address that is not in use.  [strdup] allocates exactly the
    string and its NUL; [pad] is the memory behind it in the allocator's block:
    the C standard gives access to none of it ([pad = []]), and an allocator
    that rounds its blocks up makes some of it readable. *)
From Stdlib Require Import ZArith Lia Bool String.
From stdpp Require Import base numbers option list gmap fin_maps.
From S2P Require Import Prelude CStr Util.

(** ** Constants and data of tracker.h *)
Definition MAXCLIENTS : Z := 255.
Definition TRACKER_PORT : Z := 30001.
Definition IP_SIZE : Z := 16.
Definition BUFSIZ : Z := 8192.

Record Client := mk_client { ip : bytes; next : Z }.

Abbreviation heap := (gmap Z Client).

Definition load (h : heap) (p : Z) : res Client :=
  if p =? 0 then Fault NullDeref
  else match h !! p with Some c => Ok c | None => Fault UseAfterFree end.

Definition hfree (h : heap) (p : Z) : res heap :=
  let* _ := load h p in Ok (delete p h).

(** What the operations rely on of [malloc]: the address of a new node is not
    null and not in use. *)
Class Allocator (alloc : heap -> Z) : Prop :=
  alloc_fresh : forall h, alloc h <> 0 /\ h !! alloc h = None.

(** ** Messages *)
(** the low byte of the length, then the string without its NUL *)
Definition buildMsg (msg : bytes) : res bytes :=
  let* s := cstr msg in
  let len := zlen s in
  let* data := slice msg 0 len in
  Ok (take 1 (le 4 len) ++ data).

(** what is sent and the value returned; [sent] is false when [send] fails *)
Definition sendMsg (sent : bool) (msg : bytes) : res (bytes * Z) :=
  let* data := buildMsg msg in
  let* len := strlen msg in
  let* out := slice data 0 (len + 1) in
  Ok (if sent then (out, 0) else ([], -1)).

Definition sendData (sent : bool) (data : bytes) (len : Z) : res (bytes * Z) :=
  let* out := slice data 0 len in
  Ok (if sent then (out, 0) else ([], -1)).

(** [buffer] is what [malloc(BUFSIZ)] returned; the bytes received replace its
    beginning, and there are none after an error or a shutdown *)
Definition recvMsg (buffer received : bytes) : bytes :=
  let got := take (Z.to_nat BUFSIZ) received in
  got ++ drop (length got) buffer.

(** The caller's [peers] and [*numPeers] after the call. *)
Definition requestPeers (sent : bool) (buffer received peers : bytes) (numPeers : Z) : res (bytes * Z) :=
  let* (_, r) := sendMsg sent (str "list" ++ [0]) in
  if r =? 0 then
    let recv_msg := recvMsg buffer received in
    let* b := slice recv_msg 0 1 in
    let* num := blit (le 4 numPeers) 0 b in
    let numPeers := to_int (le_val num) in
    let* n := int_arith (numPeers * 16) in
    let* l := slice recv_msg 1 n in
    let* peers := blit peers 0 l in
    Ok (peers, numPeers)
  else Ok (peers, numPeers).

(** [Some] whether the confirmation was received, [None] if nothing was sent.
    The error message passes each character as the string of a ["%s"]. *)
Definition joinTracker (sent : bool) (buffer received : bytes) : res (option bool) :=
  let* (_, r) := sendMsg sent (str "join" ++ [0]) in
  if r =? 0 then
    let recv_msg := recvMsg buffer received in
    let* b := rd recv_msg 0 in
    let* d := strncmp (drop 1 recv_msg) (str "joined" ++ [0]) 6 in
    if d =? 0 then Ok (Some true)
    else
      let msg_len := to_char b mod 2 ^ 32 in
      if 0 <? msg_len then Fault BadFormat else Ok (Some false)
  else Ok None.

Definition configureSocket (socket_ret setsockopt_ret bind_ret listen_ret : Z) : res Z :=
  if setsockopt_ret =? -1 then Exit 1
  else if bind_ret =? -1 then Exit 1
  else if socket_ret <? 0 then Exit 1
  else if listen_ret =? -1 then Exit 1
  else Ok socket_ret.

(** ** The list of clients *)
Section clients.
Variable alloc : heap -> Z.
Variable pad : bytes.
(** the byte a block from [malloc] is filled with *)
Variable junk : Z.

Definition strdup (s : bytes) : res bytes := let* s := cstr s in Ok (s ++ 0 :: pad).

(** the loop of [addIfAbsent]: the last node, or [None] for a duplicate *)
Fixpoint find_tail (fuel : nat) (h : heap) (curr_node : Z) (ip_ : bytes) : res (option Z) :=
  match fuel with
  | O => Fault NoFuel
  | S fuel =>
      let* c := load h curr_node in
      let* d := strcmp (ip c) ip_ in
      if d =? 0 then Ok None
      else if next c =? 0 then Ok (Some curr_node)
      else find_tail fuel h (next c) ip_
  end.

Definition addIfAbsent (h : heap) (head : Z) (ip_ : bytes) (numClients : Z) : res (heap * Z) :=
  let* r := find_tail (size h) h head ip_ in
  match r with
  | None => Ok (h, numClients)
  | Some curr_node =>
      let new_node := alloc h in
      let* s := strdup ip_ in
      let h := <[new_node := mk_client s 0]> h in
      let* c := load h curr_node in
      let h := <[curr_node := mk_client (ip c) new_node]> h in
      let* numClients := int_arith (numClients + 1) in
      Ok (h, numClients)
  end.

Fixpoint destroy_loop (fuel : nat) (h : heap) (curr_node : Z) : res heap :=
  match fuel with
  | O => Fault NoFuel
  | S fuel =>
      let* c := load h curr_node in
      if next c =? 0 then hfree h curr_node
      else
        let placeholder := next c in
        let* h := hfree h curr_node in
        destroy_loop fuel h placeholder
  end.

Definition destroyClientList (h : heap) (head : Z) : res heap := destroy_loop (size h) h head.

(** the number of nodes from [curr_node] on *)
Fixpoint count_nodes (fuel : nat) (h : heap) (curr_node : Z) (counted_nodes : Z) : res Z :=
  match fuel with
  | O => Fault NoFuel
  | S fuel =>
      let* c := load h curr_node in
      if next c =? 0 then Ok counted_nodes
      else let* n := int_arith (counted_nodes + 1) in count_nodes fuel h (next c) n
  end.

Fixpoint copy_ips (n : nat) (h : heap) (curr_node : Z) (ignore_ip data : bytes) (numIpsCopied : Z) : res bytes :=
  match n with
  | O => Ok data
  | S n =>
      let* c := load h curr_node in
      let* d := strcmp (ip c) ignore_ip in
      if negb (d =? 0) then
        let* field := slice (ip c) 0 IP_SIZE in
        let* data := blit data (1 + IP_SIZE * numIpsCopied) field in
        copy_ips n h (next c) ignore_ip data (numIpsCopied + 1)
      else copy_ips n h (next c) ignore_ip data numIpsCopied
  end.

(** the bytes given to [send], or [None] when the function returns before *)
Definition sendClients (h : heap) (head numClients : Z) (ignore_ip : bytes) : res (option bytes) :=
  let* numClientsToSend := int_arith (numClients - 1) in
  if numClients <=? 0 then Ok None
  else
    let* size_ := int_arith (1 + IP_SIZE * numClientsToSend) in
    let data := replicate (Z.to_nat size_) junk in
    let* data := blit data 0 (take 1 (le 4 numClientsToSend)) in
    let* counted_nodes := count_nodes (size h) h head 1 in
    if negb (counted_nodes =? numClients) then Ok None
    else
      let* data := copy_ips (Z.to_nat numClients) h head ignore_ip data 0 in
      let* (out, _) := sendData true data size_ in
      Ok (Some out).
End clients.

(** ** Representation of the list *)
Section representation.
Variable pad : bytes.

(** The nodes from [p] on are at the addresses of [l] and hold its strings. *)
Fixpoint is_list (h : heap) (p : Z) (l : list (Z * bytes)) : Prop :=
  match l with
  | [] => p = 0
  | (a, s) :: l =>
      p = a /\ a <> 0 /\ no_nul s /\
      exists nx, h !! a = Some (mk_client (s ++ 0 :: pad) nx) /\ is_list h nx l
  end.

Definition clients (h : heap) (p : Z) (l : list (Z * bytes)) : Prop := is_list h p l /\ NoDup l.*1.

Lemma load_Some h p c : p <> 0 -> h !! p = Some c -> load h p = Ok c.
Proof. intros Hp E. unfold load. by rewrite (proj2 (Z.eqb_neq p 0) Hp), E. Qed.

Lemma is_list_dom h p l : is_list h p l -> forall a, a ∈ l.*1 -> a <> 0 /\ is_Some (h !! a).
Proof.
  revert p. induction l as [|[a s] l IH]; intros p; simpl; [by intros _ ? ?%not_elem_of_nil|].
  intros (-> & Ha & _ & nx & Hl & Hr) b [->|Hb]%elem_of_cons; [by split|]. by apply (IH nx).
Qed.

Lemma is_list_size h p l : clients h p l -> (length l <= size h)%nat.
Proof.
  intros [Hl Hn]. rewrite <- (length_fmap fst), <- (size_list_to_set (C := gset Z)) by done.
  rewrite <- size_dom. apply subseteq_size. intros a Ha%elem_of_list_to_set.
  apply elem_of_dom. by apply (is_list_dom h p l).
Qed.

(** nodes outside of the list do not matter *)
Lemma is_list_frame h h' p l :
  (forall a, a ∈ l.*1 -> h' !! a = h !! a) -> is_list h p l -> is_list h' p l.
Proof.
  revert p. induction l as [|[a s] l IH]; intros p Hf; [done|]. simpl.
  intros (-> & Ha & Hs & nx & Hl & Hr). split; [done|]. split; [done|]. split; [done|].
  exists nx. rewrite Hf by (left; done). split; [done|]. apply IH; [|done]. intros b Hb. apply Hf. by right.
Qed.

Lemma is_list_append h p l a s new s' :
  clients h p (l ++ [(a, s)]) -> h !! new = None -> new <> 0 -> no_nul s' ->
  clients (<[a := mk_client (s ++ 0 :: pad) new]> (<[new := mk_client (s' ++ 0 :: pad) 0]> h)) p
    ((l ++ [(a, s)]) ++ [(new, s')]).
Proof.
  intros [Hl Hn] Hnew H0 Hs'.
  assert (new ∉ (l ++ [(a, s)]).*1) as Hni.
  { intros Hin. destruct (is_list_dom _ _ _ Hl new Hin) as [_ [c Hc]]. by rewrite Hnew in Hc. }
  split.
  - rewrite fmap_app in Hn, Hni. apply NoDup_app in Hn as (_ & Hd & _). apply not_elem_of_app in Hni as [Hni Han].
    assert (forall b, b ∈ l.*1 -> a <> b /\ new <> b) as Hne.
    { intros b Hb. split; intros ->; [|done]. by apply (Hd b Hb), list_elem_of_singleton. }
    assert (a <> new) as Han' by (intros ->; by apply Han, list_elem_of_singleton).
    clear Hni Han Hd Hnew. rewrite <- app_assoc. cbn [app].
    revert p Hl Hne. induction l as [|[b t] l IH]; intros p; simpl.
    + intros (-> & Ha & Hs & nx & E & ->) _. split; [done|]. split; [done|]. split; [done|].
      exists new. rewrite lookup_insert_eq. split; [done|]. split; [done|]. split; [done|]. split; [done|].
      exists 0. by rewrite lookup_insert_ne, lookup_insert_eq by done.
    + intros (-> & Hb & Ht & nx & E & Hr) Hne. split; [done|]. split; [done|]. split; [done|].
      exists nx. destruct (Hne b) as [H1 H2]; [by left|]. rewrite !lookup_insert_ne by done. split; [done|].
      apply IH; [done|]. intros c Hc. apply Hne. by right.
  - rewrite fmap_app. apply NoDup_app. split; [done|]. split; [|apply NoDup_singleton].
    intros b Hb Hb'%list_elem_of_singleton. by simplify_eq/=.
Qed.

(** ** The operations on a represented list *)
(** the list of addresses with [s] in it, at the end if it is new *)
Definition add_absent (s : bytes) (ips : list bytes) : list bytes :=
  if decide (s ∈ ips) then ips else ips ++ [s].

Lemma strcmp_strings t m s m' :
  no_nul t -> no_nul s -> exists d, strcmp (t ++ 0 :: m) (s ++ 0 :: m') = Ok d /\ (d = 0 <-> t = s).
Proof. intros Ht Hs. by apply strcmp_cstr; apply cstr_app. Qed.

Lemma find_tail_spec h s m l : no_nul s -> l <> [] -> forall p fuel,
  is_list h p l -> (length l <= fuel)%nat ->
  find_tail fuel h p (s ++ 0 :: m) = Ok (if decide (s ∈ l.*2) then None else fst <$> last l).
Proof.
  intros Hs. induction l as [|[a t] l IH]; [done|]. intros _ p [|fuel]; [simpl; lia|].
  simpl is_list. intros (-> & Ha & Ht & nx & E & Hr) Hf. cbn [find_tail].
  rewrite (load_Some _ _ _ Ha E). cbn [res_bind ip next].
  destruct (strcmp_strings t pad s m Ht Hs) as (d & -> & Hd). cbn [res_bind].
  bdestruct (d =? 0).
  - assert (t = s) as -> by tauto. by rewrite decide_True by (simpl; left).
  - assert (s <> t) as Hne by (intros ->; tauto).
    destruct l as [|[b u] l].
    + simpl in Hr. subst nx. rewrite decide_False; [done|]. simpl.
      intros [?|[]%not_elem_of_nil]%elem_of_cons; done.
    + pose proof Hr as (-> & Hb0 & _). rewrite (proj2 (Z.eqb_neq b 0) Hb0).
      rewrite IH by (done || simpl in *; lia). f_equal.
      destruct (decide (s ∈ ((b, u) :: l).*2)) as [Hin|Hout].
      * by rewrite decide_True by (right; done).
      * rewrite decide_False; [done|]. by intros [?|?]%elem_of_cons.
Qed.

Lemma addIfAbsent_list alloc h p l s m n :
  Allocator alloc ->
  clients h p l -> l <> [] -> no_nul s -> is_int (n + 1) ->
  exists h' l', addIfAbsent alloc pad h p (s ++ 0 :: m) n = Ok (h', n + (zlen l' - zlen l)) /\
    clients h' p l' /\ l'.*2 = add_absent s l.*2.
Proof.
  intros Halloc Hc Hl Hs Hn. unfold addIfAbsent.
  rewrite (find_tail_spec h s m l) by (done || apply Hc || by apply (is_list_size h p)). cbn [res_bind].
  unfold add_absent. destruct (decide (s ∈ l.*2)) as [Hin|Hout].
  - exists h, l. split; [|done]. do 2 f_equal. lia.
  - destruct (exists_last Hl) as (l0 & [a t] & ->). rewrite last_snoc. cbn [fmap option_fmap option_map fst].
    destruct (alloc_fresh h) as [H0 Hnew]. set (new := alloc h) in *.
    unfold strdup. rewrite cstr_app by done. cbn [res_bind].
    assert (a <> 0 /\ exists nx, h !! a = Some (mk_client (t ++ 0 :: pad) nx)) as [Ha [nx Ea]].
    { clear -Hc. destruct Hc as [Hc _]. revert p Hc. induction l0 as [|[b u] l0 IH]; intros p; simpl.
      - intros (-> & ? & _ & nx & ? & _). eauto.
      - intros (_ & _ & _ & nx & _ & Hr). by apply (IH nx). }
    assert (a <> new) as Han by (intros ->; by rewrite Ea in Hnew).
    rewrite (load_Some _ a (mk_client (t ++ 0 :: pad) nx)) by (done || by rewrite lookup_insert_ne).
    cbn [res_bind ip]. rewrite int_arith_Ok by done. cbn [res_bind].
    eexists. exists ((l0 ++ [(a, t)]) ++ [(new, s)]). split; [|split].
    + do 2 f_equal. rewrite (zlen_app (l0 ++ [(a, t)])). change (zlen [(new, s)]) with 1. lia.
    + by apply is_list_append.
    + by rewrite fmap_app.
Qed.

Lemma destroy_loop_list l : l <> [] -> forall h p fuel,
  clients h p l -> (length l <= fuel)%nat ->
  exists h', destroy_loop fuel h p = Ok h' /\
    (forall a, h' !! a = if decide (a ∈ l.*1) then None else h !! a).
Proof.
  induction l as [|[a s] l IH]; [done|]. intros _ h p [|fuel]; [simpl; lia|].
  intros [(-> & Ha & Hs & nx & E & Hr) Hn] Hf. cbn [destroy_loop]. rewrite (load_Some _ _ _ Ha E).
  cbn [res_bind next]. unfold hfree. rewrite (load_Some _ _ _ Ha E). cbn [res_bind].
  cbn [fmap list_fmap fst] in Hn. apply NoDup_cons in Hn as [Hna Hn].
  destruct l as [|[b t] l].
  - simpl in Hr. subst nx. exists (delete a h). split; [done|]. intros b.
    destruct (decide (b ∈ [(a, s)].*1)) as [->%list_elem_of_singleton|Hb]; [by rewrite lookup_delete_eq|].
    rewrite lookup_delete_ne; [done|]. intros <-. apply Hb. by left.
  - pose proof Hr as (-> & Hb & _). rewrite (proj2 (Z.eqb_neq b 0) Hb).
    destruct (IH ltac:(done) (delete a h) b fuel) as (h' & -> & Hh').
    + split; [|done]. eapply is_list_frame; [|done]. intros c Hc.
      rewrite lookup_delete_ne; [done|]. by intros ->.
    + simpl in *. lia.
    + exists h'. split; [done|]. intros c. rewrite Hh'.
      destruct (decide (c ∈ ((b, t) :: l).*1)) as [Hin|Hout].
      * by rewrite decide_True by (right; done).
      * destruct (decide (c = a)) as [->|Hca].
        -- rewrite decide_True by (left; done). by rewrite lookup_delete_eq.
        -- rewrite lookup_delete_ne by done. rewrite decide_False; [done|].
           by intros [?|?]%elem_of_cons.
Qed.

Lemma count_nodes_list h l : l <> [] -> forall p k fuel,
  is_list h p l -> (length l <= fuel)%nat -> is_int (k + zlen l) -> 0 <= k ->
  count_nodes fuel h p k = Ok (k + (zlen l - 1)).
Proof.
  induction l as [|[a s] l IH]; [done|]. intros _ p k [|fuel]; [simpl; lia|].
  intros (-> & Ha & Hs & nx & E & Hr) Hf Hi Hk. cbn [count_nodes]. rewrite (load_Some _ _ _ Ha E).
  cbn [res_bind next]. rewrite zlen_cons in *. destruct l as [|[b t] l].
  - simpl in Hr. subst nx. cbn [Z.eqb]. f_equal. unfold zlen. simpl. lia.
  - pose proof Hr as (-> & Hb & _). rewrite (proj2 (Z.eqb_neq b 0) Hb). rewrite zlen_cons in *.
    pose proof (zlen_nonneg l). rewrite int_arith_Ok by bounds. cbn [res_bind].
    rewrite IH; [f_equal; lia|done|done|simpl in *; lia| |lia].
    bounds.
Qed.

(** *** The reply of the tracker *)
Definition field (s : bytes) : bytes := take 16 (s ++ 0 :: pad).
Definition others (s : bytes) (ips : list bytes) : list bytes := filter (fun t => t <> s) ips.
(** 16 bytes of the string are in its object *)
Definition readable (s : bytes) : bool := IP_SIZE <=? zlen s + 1 + zlen pad.

Lemma zlen_field s : readable s = true -> zlen (field s) = 16.
Proof.
  unfold readable, IP_SIZE, field, zlen. rewrite Z.leb_le. intros H.
  rewrite length_take, length_app. cbn [length]. lia.
Qed.

Lemma slice_field s :
  slice (s ++ 0 :: pad) 0 IP_SIZE = if readable s then Ok (field s) else Fault OutOfBounds.
Proof.
  unfold slice, readable, IP_SIZE. rewrite zlen_app, zlen_cons.
  replace (0 + 16 <=? zlen s + (1 + zlen pad)) with (16 <=? zlen s + 1 + zlen pad) by (f_equal; lia). done.
Qed.

Lemma copy_ips_list h s m : no_nul s -> forall l p pre rest k,
  is_list h p l -> 0 <= k -> zlen pre = 1 + 16 * k -> zlen rest = 16 * zlen (others s l.*2) ->
  copy_ips (length l) h p (s ++ 0 :: m) (pre ++ rest) k =
  if forallb readable (others s l.*2) then Ok (pre ++ concat (map field (others s l.*2))) else Fault OutOfBounds.
Proof.
  intros Hs l. induction l as [|[a t] l IH]; intros p pre rest k.
  - intros _ _ _ Hrest. cbn [fmap list_fmap others filter list_filter] in *. destruct rest; [done|].
    rewrite zlen_cons in Hrest. change (zlen (@nil bytes)) with 0 in Hrest. pose proof (zlen_nonneg rest). lia.
  - intros (-> & Ha & Ht & nx & E & Hr) Hk Hpre Hrest. cbn [length copy_ips].
    rewrite (load_Some _ _ _ Ha E). cbn [res_bind ip next].
    destruct (strcmp_strings t pad s m Ht Hs) as (d & -> & Hd). cbn [res_bind].
    cbn [fmap list_fmap snd] in *. unfold others in *. bdestruct (d =? 0); cbn [negb].
    + rewrite filter_cons_False in * by (intros []; tauto). by apply IH.
    + rewrite filter_cons_True in * by (intros ->; tauto). rewrite slice_field. cbn [forallb].
      destruct (readable t) eqn:Er; [|done]. cbn [res_bind andb map concat].
      rewrite zlen_cons in Hrest. set (n := zlen _) in Hrest.
      assert (0 <= n) by apply zlen_nonneg.
      rewrite <- (take_drop 16 rest). assert (zlen (take 16 rest) = 16) as El.
      { unfold zlen in *. rewrite length_take. lia. }
      rewrite blit_at; [|unfold IP_SIZE; lia|by rewrite zlen_field, El]. cbn [res_bind].
      rewrite app_assoc, IH with (rest := drop 16 rest); [by rewrite <- app_assoc|done|lia| |].
      * rewrite zlen_app, zlen_field by done. lia.
      * subst n. unfold zlen in *. rewrite length_drop. lia.
Qed.

Definition reply (s : bytes) (ips : list bytes) : bytes :=
  (zlen ips - 1) mod 256 :: concat (map field (others s ips)).

Lemma zlen_fields ips : forallb readable ips = true -> zlen (concat (map field ips)) = 16 * zlen ips.
Proof.
  induction ips as [|t ips IH]; [done|]. cbn [forallb map concat]. intros [Ht Hi]%andb_true_iff.
  rewrite zlen_app, zlen_cons, zlen_field, IH by done. lia.
Qed.

Lemma others_absent s ips : s ∉ ips -> others s ips = ips.
Proof.
  unfold others. induction ips as [|t ips IH]; [done|]. intros [Hne Hni]%not_elem_of_cons.
  rewrite filter_cons_True by done. by rewrite IH.
Qed.

(** the list without its member [s] *)
Lemma zlen_others s ips : NoDup ips -> s ∈ ips -> zlen (others s ips) = zlen ips - 1.
Proof.
  unfold others. induction 1 as [|t ips Ht Hn IH]; [by intros ?%not_elem_of_nil|].
  intros Hs. rewrite zlen_cons. destruct (decide (t = s)) as [->|Hne].
  - rewrite filter_cons_False by tauto. fold (others s ips). rewrite others_absent by done. lia.
  - rewrite filter_cons_True, zlen_cons by done. apply elem_of_cons in Hs as [->|Hs]; [done|]. rewrite IH by done. lia.
Qed.

Lemma sendClients_list junk h p l s m :
  clients h p l -> NoDup l.*2 -> no_nul s -> s ∈ l.*2 -> 1 + 16 * zlen l <= INT_MAX ->
  sendClients junk h p (zlen l) (s ++ 0 :: m) =
  if forallb readable (others s l.*2) then Ok (Some (reply s l.*2)) else Fault OutOfBounds.
Proof.
  intros Hc Hn Hs Hin Hmax. unfold sendClients, IP_SIZE.
  assert (l <> []) as Hl by (intros ->; by apply not_elem_of_nil in Hin).
  assert (0 < zlen l) as Hpos by (destruct l; [done|rewrite zlen_cons; pose proof (zlen_nonneg l); lia]).
  assert (zlen (others s l.*2) = zlen l - 1) as Ho.
  { rewrite zlen_others by done. unfold zlen. by rewrite length_fmap. }
  rewrite int_arith_Ok by bounds. cbn [res_bind]. rewrite (proj2 (Z.leb_gt _ 0)) by lia.
  rewrite int_arith_Ok by bounds. cbn [res_bind].
  replace (Z.to_nat (1 + 16 * (zlen l - 1))) with (S (Z.to_nat (16 * (zlen l - 1)))) by lia.
  cbn [replicate]. pose proof (blit_prefix [junk] (replicate (Z.to_nat (16 * (zlen l - 1))) junk)
    (take 1 (le 4 (zlen l - 1))) eq_refl) as Eb. cbn [app] in Eb. rewrite Eb. clear Eb. cbn [res_bind].
  rewrite (count_nodes_list h l) by (done || apply Hc || by apply (is_list_size h p) || bounds). cbn [res_bind].
  replace (1 + (zlen l - 1)) with (zlen l) by lia. rewrite Z.eqb_refl. cbn [negb].
  replace (Z.to_nat (zlen l)) with (length l) by (unfold zlen; lia).
  rewrite (copy_ips_list h s m Hs l p);
    [|apply Hc|done|done|rewrite zlen_replicate, Ho; lia].
  destruct (forallb readable _) eqn:Ef; [|done]. cbn [res_bind le take app]. unfold sendData.
  assert (zlen (reply s l.*2) = 1 + 16 * (zlen l - 1)) as Er.
  { unfold reply. rewrite zlen_cons, zlen_fields, Ho by done. lia. }
  unfold reply in Er |- *. replace (zlen l.*2) with (zlen l) in * by (unfold zlen; by rewrite length_fmap).
  rewrite <- Er, slice_all. done.
Qed.
End representation.

(** an allocator *)
Definition fresh_addr (h : heap) : Z := fresh (({[0]} : gset Z) ∪ dom h).

#[export] Instance fresh_addr_ok : Allocator fresh_addr.
Proof.
  intros h.  pose proof (is_fresh (({[0]} : gset Z) ∪ dom h)) as [H1 H2]%not_elem_of_union. fold (fresh_addr h) in *.
  split; [by intros E; apply H1, elem_of_singleton|by apply not_elem_of_dom].
Qed.

(** ** The client side *)
Lemma buildMsg_string s m : no_nul s -> buildMsg (s ++ 0 :: m) = Ok (zlen s mod 256 :: s).
Proof. intros Hs. unfold buildMsg. rewrite cstr_app by done. cbn [res_bind]. by rewrite slice_prefix. Qed.

Lemma sendMsg_string s m :
  no_nul s -> sendMsg true (s ++ 0 :: m) = Ok (zlen s mod 256 :: s, 0).
Proof.
  intros Hs. unfold sendMsg. rewrite buildMsg_string by done. rewrite strlen_app by done. cbn [res_bind].
  pose proof (slice_all (zlen s mod 256 :: s)) as E. rewrite zlen_cons, Z.add_comm in E. by rewrite E.
Qed.

Lemma recvMsg_short buffer received :
  zlen buffer = BUFSIZ -> zlen received <= BUFSIZ ->
  recvMsg buffer received = received ++ drop (length received) buffer /\ zlen (recvMsg buffer received) = BUFSIZ.
Proof.
  unfold BUFSIZ, recvMsg, zlen. intros Hb Hr. rewrite take_ge by (unfold BUFSIZ; lia). split; [done|].
  rewrite length_app, length_drop. lia.
Qed.

Lemma requestPeers_data buffer n data more peers old :
  zlen buffer = BUFSIZ -> is_byte n -> zlen data = 16 * n -> 1 + zlen (data ++ more) <= BUFSIZ -> 0 <= old < 256 ->
  requestPeers true buffer (n :: data ++ more) peers old =
  if zlen data <=? zlen peers then Ok (data ++ drop (length data) peers, n) else Fault OutOfBounds.
Proof.
  intros Hb Hn Hd Hm Ho. unfold is_byte in Hn. unfold requestPeers.
  rewrite (sendMsg_string (str "list") []) by (vm_compute; repeat constructor; discriminate).
  cbn [res_bind Z.eqb].
  destruct (recvMsg_short buffer (n :: data ++ more)) as [-> _]; [done|by rewrite zlen_cons|].
  cbn [app]. rewrite <- app_assoc. set (rest := more ++ _).
  pose proof (slice_prefix [n] (data ++ rest) 1 eq_refl) as E1. cbn [app] in E1. rewrite E1. cbn [res_bind].
  assert (blit (le 4 old) 0 [n] = Ok (le 4 n)) as ->.
  { cbn [le]. rewrite !(Z.mod_small old), !(Z.mod_small n), !(Z.div_small old), !(Z.div_small n) by lia. done. }
  cbn [res_bind]. rewrite int_of_le_id by bounds. rewrite int_arith_Ok by bounds. cbn [res_bind].
  pose proof (slice_at [n] data rest 1 (n * 16) eq_refl) as E2. cbn [app] in E2.
  rewrite E2 by lia. cbn [res_bind]. unfold blit. cbn [Z.leb Z.compare andb].
  rewrite Z.add_0_l. by destruct (zlen data <=? zlen peers).
Qed.

(** ** Properties *)
(** C6: [addIfAbsent] on the heap refines the list operation: given the nodes of
    a non-empty list of strings and an [ip], it leaves the nodes of the list
    with [ip] appended if no node had it, and of the same list otherwise, and
    counts the nodes; the loop ends and no null or freed pointer is followed,
    whatever fresh addresses [malloc] returns. *)
Theorem addIfAbsent_refines pad alloc h p l s m n :
  Allocator alloc ->
  clients pad h p l -> l <> [] -> no_nul s -> n = zlen l -> n < INT_MAX ->
  exists h' l', addIfAbsent alloc pad h p (s ++ 0 :: m) n = Ok (h', zlen l') /\
    clients pad h' p l' /\ l'.*2 = add_absent s l.*2.
Proof.
  intros Ha Hc Hl Hs -> Hn. pose proof (zlen_nonneg l).
  destruct (addIfAbsent_list pad alloc h p l s m (zlen l)) as (h' & l' & E & Hc' & Hl'); [done..|bounds|].
  exists h', l'. split; [|done]. rewrite E. do 2 f_equal. lia.
Qed.

Lemma addIfAbsent_refines_witness :
  exists h' l', addIfAbsent fresh_addr [] {[ 1 := mk_client (str "1234" ++ [0]) 0 ]} 1 (str "1111" ++ [0]) 1 = Ok (h', zlen l') /\
    clients [] h' 1 l' /\ l'.*2 = [str "1234"; str "1111"].
Proof.
  apply (addIfAbsent_refines [] fresh_addr {[ 1 := mk_client (str "1234" ++ [0]) 0 ]} 1 [(1, str "1234")] (str "1111") [] 1).
  - apply _.
  - split; [|apply NoDup_singleton]. split; [reflexivity|]. split; [discriminate|].
    split; [vm_compute; repeat constructor; discriminate|]. exists 0. split; reflexivity.
  - discriminate.
  - vm_compute; repeat constructor; discriminate.
  - reflexivity.
  - reflexivity.
Defined.

(** [destroyClientList] frees every node of the list, once, and nothing
    else. *)
Theorem destroyClientList_frees pad h p l :
  clients pad h p l -> l <> [] ->
  exists h', destroyClientList h p = Ok h' /\
    forall a, h' !! a = if decide (a ∈ l.*1) then None else h !! a.
Proof. intros Hc Hl. eapply destroy_loop_list; [done|done|by eapply is_list_size]. Qed.

Lemma destroyClientList_frees_witness :
  exists h', destroyClientList {[ 1 := mk_client (str "a" ++ [0]) 7; 7 := mk_client (str "b" ++ [0]) 0 ]} 1 = Ok h' /\
    forall a, h' !! a = if decide (a ∈ [1; 7]) then None
                        else ({[ 1 := mk_client (str "a" ++ [0]) 7; 7 := mk_client (str "b" ++ [0]) 0 ]} : heap) !! a.
Proof.
  apply (destroyClientList_frees [] _ 1 [(1, str "a"); (7, str "b")]); [|discriminate].
  split.
  - split; [reflexivity|]. split; [discriminate|]. split; [vm_compute; repeat constructor; discriminate|].
    exists 7. split; [reflexivity|]. split; [reflexivity|]. split; [discriminate|].
    split; [vm_compute; repeat constructor; discriminate|]. exists 0. split; reflexivity.
  - apply NoDup_cons. split; [intros [=]%list_elem_of_singleton|apply NoDup_singleton].
Defined.

(** [sendClients] for a member [s] of a list without duplicates sends one
    message: the number of the other members modulo 256, and 16 bytes for each
    of them in their order, the string, its NUL and what lies behind; the
    buffer it allocates is filled to its end.  If the object of one of them
    holds less than 16 bytes, the copy reads out of its bounds. *)
Theorem sendClients_reply pad junk h p l s m :
  clients pad h p l -> NoDup l.*2 -> no_nul s -> s ∈ l.*2 -> 1 + 16 * zlen l <= INT_MAX ->
  sendClients junk h p (zlen l) (s ++ 0 :: m) =
  if forallb (readable pad) (others s l.*2) then Ok (Some (reply pad s l.*2)) else Fault OutOfBounds.
Proof. intros. by apply sendClients_list. Qed.

Lemma sendClients_reply_witness :
  let h : heap := {[ 1 := mk_client (str "1.2.3.4" ++ [0]) 7; 7 := mk_client (str "5.6.7.8" ++ [0]) 0 ]} in
  sendClients 204 h 1 2 (str "5.6.7.8" ++ [0]) = Fault OutOfBounds.
Proof.
  intros h. apply (sendClients_reply [] 204 h 1 [(1, str "1.2.3.4"); (7, str "5.6.7.8")] (str "5.6.7.8") []).
  - split.
    + split; [reflexivity|]. split; [discriminate|]. split; [vm_compute; repeat constructor; discriminate|].
      exists 7. split; [reflexivity|]. split; [reflexivity|]. split; [discriminate|].
      split; [vm_compute; repeat constructor; discriminate|]. exists 0. split; reflexivity.
    + apply NoDup_cons. split; [intros [=]%list_elem_of_singleton|apply NoDup_singleton].
  - apply NoDup_cons. split; [intros [=]%list_elem_of_singleton|apply NoDup_singleton].
  - vm_compute; repeat constructor; discriminate.
  - right. left.
  - vm_compute. discriminate.
Defined.

(** [sendMsg] sends the string behind one byte that is its length modulo
    256; as a [char], this byte is the length of the string exactly if there are
    fewer than 128 bytes. *)
Theorem sendMsg_length s m :
  no_nul s ->
  sendMsg true (s ++ 0 :: m) = Ok (zlen s mod 256 :: s, 0) /\
  (to_char (zlen s mod 256) = zlen s <-> zlen s < 128).
Proof.
  intros Hs. split; [by apply sendMsg_string|]. pose proof (zlen_nonneg s).
  pose proof (to_char_range (zlen s mod 256)). split; [lia|]. intros. rewrite Z.mod_small by lia. apply to_char_id. lia.
Qed.

Lemma sendMsg_length_witness :
  sendMsg true (str "test message please ignore" ++ [0]) = Ok (26 :: str "test message please ignore", 0) /\
  (to_char 26 = 26 <-> 26 < 128).
Proof. apply (sendMsg_length (str "test message please ignore") []). vm_compute; repeat constructor; discriminate. Defined.

(** [requestPeers] on a reply with [n] fields of 16 bytes stores them at the
    beginning of [peers] and their number in [*numPeers], if [peers] has room
    for them; otherwise it writes out of its bounds.  [main] of torrent.c
    provides room for 10, and the tracker sends up to 254. *)
Theorem requestPeers_fields buffer n data peers :
  zlen buffer = BUFSIZ -> is_byte n -> zlen data = 16 * n ->
  requestPeers true buffer (n :: data) peers 0 =
  if 16 * n <=? zlen peers then Ok (data ++ drop (length data) peers, n) else Fault OutOfBounds.
Proof.
  intros Hb Hn Hd. pose proof (requestPeers_data buffer n data [] peers 0 Hb Hn Hd) as E.
  rewrite app_nil_r in E. rewrite <- Hd. apply E; [unfold is_byte, BUFSIZ in *; lia|lia].
Qed.

Lemma requestPeers_fields_witness :
  requestPeers true (replicate (Z.to_nat 8192) 0) (11 :: replicate 176 65) (replicate 160 0) 0 = Fault OutOfBounds.
Proof.
  apply (requestPeers_fields (replicate (Z.to_nat 8192) 0) 11 (replicate 176 65) (replicate 160 0));
    [reflexivity|split; [discriminate|reflexivity]|reflexivity].
Defined.
