(* ===== verification/TrackerTests.v ===== *)
(** * The unit tests of the tracker (src/src/tracker_tests.c)

    The assertions are steps of the tests: one that fails aborts the program.
    [alloc] and [pad] are [malloc] and what [strdup] leaves, as in Tracker. *)
From Stdlib Require Import ZArith Lia Bool String.
From stdpp Require Import base numbers option list gmap.
From S2P Require Import Prelude CStr Tracker.

(** [assert(b)] ends the program with SIGABRT *)
Definition assert_ (b : bool) : res unit := if b then Ok tt else Exit 134.

(** [strcmp(a, b) == 0] *)
Definition same_string (a b : bytes) : res bool := let* d := strcmp a b in Ok (d =? 0).

Definition testBuildMsg : res unit :=
  let message := str "test message please ignore" ++ [0] in
  let* built_msg := buildMsg message in
  let* c := rd built_msg 0 in
  let* n := strlen message in
  let* _ := assert_ (to_char c =? n) in
  let* d := strncmp (drop 1 built_msg) message (Z.to_nat n) in
  assert_ (d =? 0).

Section tests.
Variable alloc : heap -> Z.
Variable pad : bytes.

(** the four assertions after each call *)
Definition check_list (h : heap) (head numClients : Z) : res unit :=
  let* _ := assert_ (numClients =? 2) in
  let* c := load h head in
  let* b := same_string (ip c) (str "1234" ++ [0]) in
  let* _ := assert_ b in
  let* d := load h (next c) in
  let* b := same_string (ip d) (str "1111" ++ [0]) in
  let* _ := assert_ b in
  assert_ (next d =? 0).

Definition testAddIfAbsent (h : heap) : res heap :=
  let head := alloc h in
  let h := <[head := mk_client (str "1234" ++ [0]) 0]> h in
  let numClients := 1 in
  let* (h, numClients) := addIfAbsent alloc pad h head (str "1111" ++ [0]) numClients in
  let* _ := check_list h head numClients in
  let* (h, numClients) := addIfAbsent alloc pad h head (str "1234" ++ [0]) numClients in
  let* _ := check_list h head numClients in
  Ok h.

(** [main]: what it prints *)
Definition tests_main : res bytes :=
  let* _ := testBuildMsg in
  let* _ := testAddIfAbsent ∅ in
  Ok (str "All tests ran successfully." ++ [10]).
End tests.

(** ** Lemmas *)
Lemma size_not_empty (h : heap) p c : h !! p = Some c -> exists n, size h = S n.
Proof.
  intros Hc. destruct (size h) as [|n] eqn:E; [|by exists n]. apply map_size_empty_inv in E as ->. by rewrite lookup_empty in Hc.
Qed.

(** the list of the tests *)
Definition list_of_tests (pad : bytes) (a b : Z) (h : heap) : Prop :=
  a <> 0 /\ b <> 0 /\ h !! a = Some (mk_client (str "1234" ++ [0]) b) /\ h !! b = Some (mk_client (str "1111" ++ 0 :: pad) 0).

Lemma check_list_ok pad a b h : list_of_tests pad a b h -> check_list h a 2 = Ok tt.
Proof.
  intros (Ha & Hb & H1 & H2). unfold check_list. cbn [Z.eqb Pos.eqb assert_ res_bind].
  rewrite (load_Some h a _ Ha H1). cbn [res_bind ip Tracker.next]. rewrite (load_Some h b _ Hb H2). cbn [res_bind ip Tracker.next].
  reflexivity.
Qed.

Lemma first_add alloc pad : Allocator alloc ->
  let a := alloc ∅ in
  exists b h, addIfAbsent alloc pad {[ a := mk_client (str "1234" ++ [0]) 0 ]} a (str "1111" ++ [0]) 1 = Ok (h, 2) /\ list_of_tests pad a b h.
Proof.
  intros Hal a. destruct (alloc_fresh (∅ : heap)) as [H0 _]. fold a in H0.
  set (c1 := mk_client (str "1234" ++ [0]) 0). set (h1 := {[ a := c1 ]} : heap).
  destruct (alloc_fresh h1) as [H1 H1']. set (b := alloc h1) in *.
  assert (a <> b) as Hab by (intros E; rewrite <- E in H1'; subst h1; by rewrite lookup_singleton_eq in H1').
  unfold addIfAbsent. assert (h1 !! a = Some c1) as L by apply lookup_singleton_eq.
  destruct (size_not_empty h1 a c1 L) as (n & ->). cbn [find_tail]. rewrite (load_Some h1 a c1 H0 L). cbn [res_bind c1 ip Tracker.next].
  change (strcmp (str "1234" ++ [0]) (str "1111" ++ [0])) with (Ok 1). cbn [res_bind Z.eqb].
  unfold strdup. change (cstr (str "1111" ++ [0])) with (Ok (str "1111")). cbn [res_bind]. fold b.
  rewrite (load_Some _ a c1 H0) by (by rewrite lookup_insert_ne by done). cbn [res_bind].
  eexists b, _. split; [done|]. split; [done|]. split; [done|]. split; [by rewrite lookup_insert_eq|].
  rewrite lookup_insert_ne by done. by rewrite lookup_insert_eq.
Qed.

Lemma second_add alloc pad a b h n :
  list_of_tests pad a b h -> addIfAbsent alloc pad h a (str "1234" ++ [0]) n = Ok (h, n).
Proof.
  intros (Ha & _ & H1 & _). unfold addIfAbsent. destruct (size_not_empty h a _ H1) as (k & ->). cbn [find_tail].
  rewrite (load_Some h a _ Ha H1). done.
Qed.

(** ** Properties *)
(** The tests pass, wherever [malloc] puts the nodes. *)
Theorem tests_pass alloc pad : Allocator alloc -> tests_main alloc pad = Ok (str "All tests ran successfully." ++ [10]).
Proof.
  intros Hal. unfold tests_main. change testBuildMsg with (Ok tt : res unit). cbn [res_bind]. unfold testAddIfAbsent.
  rewrite insert_empty. destruct (first_add alloc pad Hal) as (b & h & E & Hl). rewrite E. cbn [res_bind].
  rewrite (check_list_ok _ _ _ _ Hl). cbn [res_bind]. rewrite (second_add alloc pad _ b h 2 Hl). cbn [res_bind].
  by rewrite (check_list_ok _ _ _ _ Hl).
Qed.

Lemma tests_pass_witness : tests_main fresh_addr [7] = Ok (str "All tests ran successfully." ++ [10]).
Proof. apply (tests_pass fresh_addr [7]). apply _. Defined.
