(* ===== verification/TrackerServ.v ===== *)
(** * The tracker server (src/src/tracker_serv.c)

    The server handles one connection after the other; an event is the address
    [inet_ntoa] gives for the client and the buffer [recvMsg] returns.  The
    answer to it is what [sendClients] sends, or nothing. *)
From Stdlib Require Import ZArith Lia Bool String.
From stdpp Require Import base numbers option list gmap fin_maps.
From S2P Require Import Prelude CStr Tracker.

(** ** State *)
(** the variables of [main] and the heap; [c_head] and [c_tail] start
    uninitialised *)
Record server := mk_server {
  sheap : heap;
  c_head : option Z;
  c_tail : option Z;
  numClients : Z;
}.

Definition init_server : server := mk_server ∅ None None 0.

(** the command line switches the debugging output on *)
Fixpoint debugging (argv : list bytes) : res bool :=
  match argv with
  | [] => Ok false
  | arg :: argv =>
      let* d := strncmp arg (str "debug" ++ [0]) 5 in
      let* rest := debugging argv in
      Ok ((d =? 0) || rest)
  end.

(** ** The body of the loop of [main] *)
Section server.
Variable alloc : heap -> Z.
Variable pad : bytes.
Variable junk : Z.

Definition add_client (st : server) (ip_ : bytes) : res server :=
  if numClients st =? 0 then
    let new := alloc (sheap st) in
    let* s := strdup pad ip_ in
    Ok (mk_server (<[new := mk_client s 0]> (sheap st)) (Some new) (Some new) 1)
  else
    match c_head st with
    | None => Fault Uninit
    | Some head =>
        let* (h, n) := addIfAbsent alloc pad (sheap st) head ip_ (numClients st) in
        Ok (mk_server h (c_head st) (c_tail st) n)
    end.

Definition handle (st : server) (ip_ recv_msg : bytes) : res (server * option bytes) :=
  let* b := rd recv_msg 0 in
  if b =? 0 then Ok (st, None)
  else
    let* d := strncmp (drop 1 recv_msg) (str "list" ++ [0]) 4 in
    if d =? 0 then
      let* st := add_client st ip_ in
      match c_head st with
      | None => Fault Uninit
      | Some head =>
          let* out := sendClients junk (sheap st) head (numClients st) ip_ in
          Ok (st, out)
      end
    else Ok (st, None).

(** the loop, and the answers to its connections *)
Fixpoint serve (st : server) (evs : list (bytes * bytes)) : res (server * list (option bytes)) :=
  match evs with
  | [] => Ok (st, [])
  | (ip_, recv_msg) :: evs =>
      let* (st, out) := handle st ip_ recv_msg in
      let* (st, outs) := serve st evs in
      Ok (st, out :: outs)
  end.

(** [main], with the connections up to the first [accept] that fails *)
Definition serv_main (evs : list (bytes * bytes)) : res (heap * list (option bytes)) :=
  let* (st, outs) := serve init_server evs in
  match c_head st with
  | None => Fault Uninit
  | Some head => let* h := destroyClientList (sheap st) head in Ok (h, outs)
  end.

(** ** Specification: the addresses in the order of their first request *)
Definition is_list_request (recv_msg : bytes) : bool :=
  match recv_msg with
  | b :: m => negb (b =? 0) && bool_decide (take 4 m = str "list")
  | [] => false
  end.

Definition spec_step (ips : list bytes) (ev : bytes * bytes) : list bytes * option bytes :=
  if is_list_request ev.2 then
    let ips := add_absent ev.1 ips in (ips, Some (reply pad ev.1 ips))
  else (ips, None).

Fixpoint spec_run (ips : list bytes) (evs : list (bytes * bytes)) : list bytes * list (option bytes) :=
  match evs with
  | [] => (ips, [])
  | ev :: evs =>
      let '(ips, out) := spec_step ips ev in
      let '(ips, outs) := spec_run ips evs in
      (ips, out :: outs)
  end.

(** The state represents the addresses. *)
Definition represents (st : server) (ips : list bytes) : Prop :=
  numClients st = zlen ips /\ NoDup ips /\
  match c_head st with
  | None => ips = []
  | Some p => ips <> [] /\ exists l, l.*2 = ips /\ clients pad (sheap st) p l
  end.

(** an address as [inet_ntoa] stores it, readable for 16 bytes once copied *)
Definition address (s ip_ : bytes) : Prop := no_nul s /\ readable pad s = true /\ exists m, ip_ = s ++ 0 :: m.
End server.

(** ** Lemmas *)
Lemma add_absent_NoDup s ips : NoDup ips -> NoDup (add_absent s ips).
Proof.
  intros Hn. unfold add_absent. destruct (decide (s ∈ ips)) as [|Hs]; [done|].
  apply NoDup_app. split; [done|]. split; [|apply NoDup_singleton].
  intros x Hx Hx'%list_elem_of_singleton. by subst.
Qed.

Lemma add_absent_elem s ips : s ∈ add_absent s ips.
Proof.
  unfold add_absent. destruct (decide (s ∈ ips)) as [|Hs]; [done|]. apply elem_of_app. right. by left.
Qed.

Lemma add_absent_zlen s ips : zlen ips <= zlen (add_absent s ips) <= zlen ips + 1.
Proof.
  unfold add_absent. destruct (decide (s ∈ ips)); [lia|]. rewrite zlen_app. change (zlen [s]) with 1. lia.
Qed.

Lemma add_absent_in s t ips : t ∈ add_absent s ips -> t = s \/ t ∈ ips.
Proof.
  unfold add_absent. destruct (decide (s ∈ ips)); [by right|].
  intros [?|?%list_elem_of_singleton]%elem_of_app; [by right|by left].
Qed.

Section refinement.
Context (alloc : heap -> Z) (pad : bytes) (junk : Z) `{!Allocator alloc}.

Lemma add_client_represents st ips s ip_ :
  represents pad st ips -> address pad s ip_ -> zlen ips < INT_MAX ->
  exists st', add_client alloc pad st ip_ = Ok st' /\ represents pad st' (add_absent s ips).
Proof.
  intros (Hn & Hd & Hr) (Hs & _ & m & ->) Hm. unfold add_client. rewrite Hn.
  destruct (c_head st) as [p|] eqn:Eh.
  - destruct Hr as (Hne & l & <- & Hc).
    assert (l <> []) as Hl by (by intros ->). assert (zlen l.*2 = zlen l) as El by (unfold zlen; by rewrite length_fmap).
    rewrite El in *. assert (zlen l <> 0) as H0 by (destruct l; [done|]; rewrite zlen_cons; pose proof (zlen_nonneg l); lia).
    rewrite (proj2 (Z.eqb_neq _ 0) H0). pose proof (zlen_nonneg l).
    destruct (addIfAbsent_list pad alloc (sheap st) p l s m (zlen l)) as (h' & l' & -> & Hc' & Hl'); [done..|bounds|].
    cbn [res_bind]. eexists. split; [done|]. unfold represents. cbn [numClients c_head sheap].
    rewrite <- Hl'. split; [|split; [|split]].
    + unfold zlen. rewrite length_fmap. fold (zlen l') (zlen l). lia.
    + rewrite Hl'. by apply add_absent_NoDup.
    + intros E. pose proof (add_absent_elem s l.*2) as Hin. rewrite <- Hl', E in Hin. by apply not_elem_of_nil in Hin.
    + by exists l'.
  - subst ips. cbn [Z.eqb zlen length Z.of_nat]. unfold strdup. rewrite cstr_app by done. cbn [res_bind].
    destruct (alloc_fresh (sheap st)) as [H0 Hf]. eexists. split; [done|].
    unfold represents, add_absent. cbn [numClients c_head sheap].
    rewrite decide_False by (apply not_elem_of_nil). cbn [app].
    split; [done|]. split; [apply NoDup_singleton|]. split; [done|]. exists [(alloc (sheap st), s)].
    split; [done|]. split; [|apply NoDup_singleton]. split; [done|]. split; [done|]. split; [done|].
    exists 0. by rewrite lookup_insert_eq.
Qed.

Lemma handle_represents st ips s ip_ recv_msg :
  represents pad st ips -> address pad s ip_ -> 5 <= zlen recv_msg ->
  1 + 16 * (zlen ips + 1) <= INT_MAX -> Forall (fun t => readable pad t = true) ips ->
  exists st', handle alloc pad junk st ip_ recv_msg = Ok (st', (spec_step pad ips (s, recv_msg)).2) /\
    represents pad st' (spec_step pad ips (s, recv_msg)).1.
Proof.
  intros Hr Ha Hlen Hm Hread. unfold handle, spec_step, is_list_request. cbn [snd fst].
  destruct recv_msg as [|b msg]; [done|]. change (rd (b :: msg) 0) with (Ok b). cbn [res_bind].
  destruct (b =? 0) eqn:Eb; cbn [negb andb]; [by exists st|]. change (drop 1 (b :: msg)) with msg.
  destruct (strncmp_word (str "list") [] msg) as (d & Hd & Hz);
    [vm_compute; repeat constructor; discriminate|rewrite zlen_cons in Hlen; unfold zlen in Hlen; simpl; lia|].
  change (length (str "list")) with 4%nat in *. rewrite Hd. cbn [res_bind].
  destruct (d =? 0) eqn:Ed; rewrite ?Z.eqb_eq, ?Z.eqb_neq in Ed.
  2:{ rewrite bool_decide_false by tauto. by exists st. }
  rewrite bool_decide_true by tauto. cbn [fst snd].
  destruct (add_client_represents st ips s ip_ Hr Ha) as (st' & -> & Hr'); [unfold INT_MAX in *; lia|].
  cbn [res_bind]. pose proof Hr' as (Hn' & Hd' & Hc'). pose proof Ha as (Hs & Hrs & m & ->).
  pose proof (add_absent_zlen s ips). pose proof (add_absent_elem s ips) as Hin.
  destruct (c_head st') as [p|]; [|by rewrite Hc' in Hin; apply not_elem_of_nil in Hin].
  destruct Hc' as (_ & l & El & Hl). rewrite Hn', <- El in *.
  assert (zlen l.*2 = zlen l) as Ez by (unfold zlen; by rewrite length_fmap). rewrite Ez in *.
  rewrite (sendClients_list pad junk (sheap st') p l s m) by (done || lia).
  replace (forallb (readable pad) (others s l.*2)) with true; [by exists st'|].
  symmetry. apply forallb_forall. intros t Ht%list_elem_of_In. apply list_elem_of_filter in Ht as [_ Ht].
  rewrite El in Ht. apply add_absent_in in Ht as [->|Ht]; [done|]. by rewrite Forall_forall in Hread; apply Hread.
Qed.
End refinement.

Section runs.
Context (alloc : heap -> Z) (pad : bytes) (junk : Z) `{!Allocator alloc}.

(** an event of the server and the event of the specification *)
Definition same_event (ev sev : bytes * bytes) : Prop :=
  address pad sev.1 ev.1 /\ ev.2 = sev.2 /\ 5 <= zlen ev.2.

Lemma add_absent_readable s ips :
  readable pad s = true -> Forall (fun t => readable pad t = true) ips ->
  Forall (fun t => readable pad t = true) (add_absent s ips).
Proof.
  intros Hs Hi. apply Forall_forall. intros t [->|Ht]%add_absent_in; [done|].
  by rewrite Forall_forall in Hi; apply Hi.
Qed.

Lemma serve_represents evs sevs : Forall2 same_event evs sevs -> forall st ips,
  represents pad st ips -> Forall (fun t => readable pad t = true) ips ->
  1 + 16 * (zlen ips + zlen evs) <= INT_MAX ->
  exists st', serve alloc pad junk st evs = Ok (st', (spec_run pad ips sevs).2) /\
    represents pad st' (spec_run pad ips sevs).1.
Proof.
  induction 1 as [|[ip_ recv] [s recv'] evs sevs (Ha & E & Hl) Hevs IH]; intros st ips Hr Hf Hm; [by exists st|].
  cbn [fst snd] in *. subst recv'. rewrite zlen_cons in Hm. pose proof (zlen_nonneg evs). cbn [serve].
  destruct (handle_represents alloc pad junk st ips s ip_ recv Hr Ha Hl) as (st' & -> & Hr'); [lia|done|].
  cbn [res_bind]. cbn [spec_run].
  assert (zlen (spec_step pad ips (s, recv)).1 <= zlen ips + 1 /\
    Forall (fun t => readable pad t = true) (spec_step pad ips (s, recv)).1) as [Hz Hf'].
  { unfold spec_step. cbn [fst snd]. destruct (is_list_request recv); cbn [fst]; [|split; [lia|done]].
    split; [apply add_absent_zlen|]. apply add_absent_readable; [apply Ha|done]. }
  destruct (spec_step pad ips (s, recv)) as [ips' out]. cbn [fst snd] in *.
  destruct (IH st' ips' Hr' Hf') as (st'' & -> & Hr''); [lia|].
  destruct (spec_run pad ips' sevs) as [ips'' outs]. by exists st''.
Qed.
End runs.

(** the slots of a reply *)
Lemma fields_slot pad out j t :
  forallb (readable pad) out = true -> out !! j = Some t ->
  exists tl, drop (16 * j) (concat (map (field pad) out)) = field pad t ++ tl.
Proof.
  revert j. induction out as [|u out IH]; intros j; [done|]. cbn [forallb map concat].
  intros [Hu Ho]%andb_true_iff. destruct j as [|j].
  - intros [= ->]. by exists (concat (map (field pad) out)).
  - intros Hj. destruct (IH j Ho Hj) as [tl Htl]. exists tl. rewrite <- Htl.
    pose proof (zlen_field pad u Hu) as Hz. unfold zlen in Hz.
    replace (16 * S j)%nat with (length (field pad u) + 16 * j)%nat by lia.
    by rewrite drop_app_add.
Qed.

Lemma cstr_field pad t tl : no_nul t -> zlen t <= 15 -> cstr (field pad t ++ tl) = Ok t.
Proof.
  intros Ht Hl. unfold field. rewrite take_app_ge by (unfold zlen in Hl; lia).
  destruct (16 - length t)%nat eqn:E; [unfold zlen in Hl; lia|]. cbn [firstn take].
  rewrite <- app_assoc. cbn [app]. by apply cstr_app.
Qed.

Lemma reply_split pad s ips n :
  NoDup ips -> s ∈ ips -> n = zlen (others s ips) mod 256 ->
  reply pad s ips = n :: concat (map (field pad) (take (Z.to_nat n) (others s ips))) ++
                         concat (map (field pad) (drop (Z.to_nat n) (others s ips))).
Proof.
  intros Hn Hs ->. unfold reply. rewrite zlen_others by done. f_equal.
  by rewrite <- concat_app, <- map_app, take_drop.
Qed.

(** what [requestPeers] makes of a reply *)
Lemma requestPeers_reply pad cbuf s ips peers :
  zlen cbuf = BUFSIZ -> NoDup ips -> s ∈ ips ->
  Forall (fun t => no_nul t /\ readable pad t = true /\ zlen t <= 15) (others s ips) -> zlen ips <= 512 ->
  let out := others s ips in
  let n := zlen out mod 256 in
  (zlen peers < 16 * n -> requestPeers true cbuf (reply pad s ips) peers 0 = Fault OutOfBounds) /\
  (16 * n <= zlen peers -> exists peers', requestPeers true cbuf (reply pad s ips) peers 0 = Ok (peers', n) /\
     forall j t, Z.of_nat j < n -> out !! j = Some t -> cstr (drop (16 * j) peers') = Ok t).
Proof.
  intros Hcb Hd Hin Hout Hlen out n. fold out in Hout.
  assert (forallb (readable pad) out = true) as Hro.
  { apply forallb_forall. intros t Ht%list_elem_of_In. rewrite Forall_forall in Hout. by apply Hout. }
  assert (zlen out <= 511) as Ho.
  { subst out. rewrite zlen_others by done. lia. }
  rewrite (reply_split pad s _ n Hd Hin eq_refl). fold out. pose proof (zlen_nonneg out).
  set (data := concat (map (field pad) (take (Z.to_nat n) out))).
  assert (0 <= n < 256) as Hn by (apply Z.mod_pos_bound; lia).
  assert (n <= zlen out) as Hno by (apply Z.mod_le; lia).
  assert (zlen data = 16 * n) as Hdata.
  { subst data. rewrite <- (take_drop (Z.to_nat n) out), forallb_app, andb_true_iff in Hro. destruct Hro as [Hro _].
    rewrite zlen_fields by done. unfold zlen in *. rewrite length_take. lia. }
  rewrite requestPeers_data; [|done|done|done| |lia].
  2:{ unfold BUFSIZ. subst data. rewrite <- concat_app, <- map_app, take_drop, zlen_fields by done. lia. }
  rewrite Hdata. split; intros Hp.
  - by rewrite (proj2 (Z.leb_gt _ _)) by lia.
  - rewrite (proj2 (Z.leb_le _ _)) by lia. eexists. split; [done|]. intros j t Hj Hjt.
    destruct (fields_slot pad (take (Z.to_nat n) out) j t) as [tl Htl].
    { rewrite <- (take_drop (Z.to_nat n) out), forallb_app, andb_true_iff in Hro. apply Hro. }
    { rewrite lookup_take_lt by lia. done. }
    fold data in Htl. rewrite drop_app_le by (unfold zlen in *; lia). rewrite Htl, <- app_assoc.
    rewrite Forall_forall in Hout. destruct (Hout t) as (Ht & _ & Hlt); [by eapply list_elem_of_lookup_2|].
    by apply cstr_field.
Qed.

Lemma exchange alloc pad junk st ips s m sbuf cbuf peers :
  Allocator alloc -> represents pad st ips ->
  Forall (fun t => no_nul t /\ readable pad t = true /\ zlen t <= 15) (s :: ips) ->
  zlen sbuf = BUFSIZ -> zlen cbuf = BUFSIZ -> zlen ips <= 511 ->
  let out := others s (add_absent s ips) in
  let n := zlen out mod 256 in
  exists st' msg rep, sendMsg true (str "list" ++ [0]) = Ok (msg, 0) /\
    handle alloc pad junk st (s ++ 0 :: m) (recvMsg sbuf msg) = Ok (st', Some rep) /\
    represents pad st' (add_absent s ips) /\
    (zlen peers < 16 * n -> requestPeers true cbuf rep peers 0 = Fault OutOfBounds) /\
    (16 * n <= zlen peers -> exists peers', requestPeers true cbuf rep peers 0 = Ok (peers', n) /\
       forall j t, Z.of_nat j < n -> out !! j = Some t -> cstr (drop (16 * j) peers') = Ok t).
Proof.
  intros Ha Hr Hall Hsb Hcb Hmax out n. apply Forall_cons in Hall as [(Hs & Hrs & Hls) Hall].
  pose proof (sendMsg_string (str "list") [] ltac:(vm_compute; repeat constructor; discriminate)) as Es.
  destruct (recvMsg_short sbuf (4 :: str "list") Hsb) as [Erecv Hrecv]; [vm_compute; discriminate|].
  destruct (handle_represents alloc pad junk st ips s (s ++ 0 :: m) (recvMsg sbuf (4 :: str "list")) Hr)
    as (st' & Eh & Hr').
  { split; [done|]. split; [done|]. by exists m. }
  { by rewrite Hrecv. }
  { unfold INT_MAX. lia. }
  { eapply Forall_impl; [exact Hall|]. by intros t (_ & ? & _). }
  rewrite Erecv in Eh, Hr'. unfold spec_step in Eh, Hr'. cbn [fst snd] in Eh, Hr'.
  change (is_list_request ((4 :: str "list") ++ drop (length (4 :: str "list")) sbuf)) with true in Eh, Hr'.
  cbn [fst snd] in Eh, Hr'. exists st', (4 :: str "list"), (reply pad s (add_absent s ips)).
  split; [exact Es|]. rewrite Erecv. split; [exact Eh|]. split; [exact Hr'|].
  apply requestPeers_reply; [done|apply Hr'|apply add_absent_elem| |].
  - apply Forall_forall. intros t [_ [->|Ht]%add_absent_in]%list_elem_of_filter; [done|].
    by rewrite Forall_forall in Hall; apply Hall.
  - pose proof (add_absent_zlen s ips). lia.
Qed.

(** ** Properties *)
(** C4: The server refines its specification: over any sequence of connections
    it keeps the addresses of the clients that sent a "list" request, without
    duplicates and in the order of their first request, answers these requests
    and no others, each with the addresses it has then, and follows no invalid
    pointer.  The addresses are strings readable for 16 bytes once copied. *)
Theorem server_refines alloc pad junk evs sevs :
  Allocator alloc -> Forall2 (same_event pad) evs sevs -> 1 + 16 * zlen evs <= INT_MAX ->
  exists st, serve alloc pad junk init_server evs = Ok (st, (spec_run pad [] sevs).2) /\
    represents pad st (spec_run pad [] sevs).1.
Proof.
  intros Ha He Hm. destruct (serve_represents alloc pad junk evs sevs He init_server []) as (st & E & Hr).
  - split; [done|]. split; [apply NoDup_nil_2|done].
  - done.
  - change (zlen (@nil bytes)) with 0. lia.
  - by exists st.
Qed.

Lemma server_refines_witness :
  let pad := replicate 9 205 in
  let evs := [(str "10.0.0.1" ++ [0; 7], 4 :: str "list"); (str "10.0.0.2" ++ [0], 4 :: str "list")] in
  exists st, serve fresh_addr pad 0 init_server evs = Ok (st,
      [Some [0]; Some (1 :: str "10.0.0.1" ++ 0 :: replicate 7 205)]) /\
    represents pad st [str "10.0.0.1"; str "10.0.0.2"].
Proof.
  intros pad evs.
  apply (server_refines fresh_addr pad 0 evs [(str "10.0.0.1", 4 :: str "list"); (str "10.0.0.2", 4 :: str "list")]).
  - apply _.
  - apply Forall2_cons. split; [|apply Forall2_cons; split; [|apply Forall2_nil; exact I]].
    + split; [|split; [reflexivity|vm_compute; discriminate]]. split; [vm_compute; repeat constructor; discriminate|].
      split; [reflexivity|]. exists [7]. reflexivity.
    + split; [|split; [reflexivity|vm_compute; discriminate]]. split; [vm_compute; repeat constructor; discriminate|].
      split; [reflexivity|]. exists []. reflexivity.
  - vm_compute. discriminate.
Defined.



(** A "join" message, the one [joinTracker] sends, changes nothing and gets
    no answer, in every state of the server: the confirmation [joinTracker]
    waits for never comes.  And a server that has seen no "list" request when
    [accept] fails passes an uninitialised pointer to [destroyClientList]. *)
Theorem join_unanswered alloc pad junk evs :
  Forall (fun ev => exists tl, ev.2 = 4 :: str "join" ++ tl) evs ->
  (forall st, serve alloc pad junk st evs = Ok (st, map (fun _ => None) evs)) /\
  serv_main alloc pad junk evs = Fault Uninit.
Proof.
  intros He. assert (forall st, serve alloc pad junk st evs = Ok (st, map (fun _ => None) evs)) as Hs.
  { intros st. induction He as [|[ip_ recv] evs [tl E] _ IH]; [done|]. cbn [snd] in E. subst recv.
    cbn [serve map]. assert (handle alloc pad junk st ip_ (4 :: str "join" ++ tl) = Ok (st, None)) as ->; [done|].
    cbn [res_bind]. by rewrite IH. }
  split; [done|]. unfold serv_main. by rewrite Hs.
Qed.

Lemma join_unanswered_witness :
  sendMsg true (str "join" ++ [0]) = Ok (4 :: str "join", 0) /\
  serv_main fresh_addr [] 0 [(str "1.2.3.4" ++ [0], recvMsg (replicate (Z.to_nat 8192) 0) (4 :: str "join"))] = Fault Uninit.
Proof.
  split; [reflexivity|]. apply join_unanswered. apply Forall_cons. split; [|apply Forall_nil; exact I].
  exists (replicate (Z.to_nat 8187) 0). reflexivity.
Defined.
