(* ===== verification/TrackerFirst.v ===== *)
(** * The first revision of the tracker (src/examples/tracker/tracker.c)

    The file does not compile as a whole: PORT is defined with a semicolon, which
    is a syntax error in [main], [read_in] uses names that are not declared, and
    neither is [bool].  The other functions are modelled one by one,
    [client_exists] with the [bool] of <stdbool.h>; [read_in] is a parameter of
    [handler]: what it returns from the bytes that are left to read.  The
    addresses in [clients] are pointers to strings in a memory, and compared as
    pointers.  [sizeof] a pointer is 8. *)
From Stdlib Require Import ZArith Lia Bool String.
From stdpp Require Import base numbers option list gmap.
From S2P Require Import Prelude CStr.

(** ** Sockets *)
(** all callers pass a message, which is printed *)
Definition error {A : Type} : res A := Exit 1.

Definition catch_signal (sigaction_ret : Z) : Z := sigaction_ret.

(** the descriptor that is closed is that of the listener, if there is one *)
Definition handle_shutdown (listener_d : Z) : list Z * res unit :=
  ((if negb (listener_d =? 0) then [listener_d] else []), Exit 0).

Definition open_listener_socket (socket_ret : Z) : res Z := if socket_ret =? -1 then error else Ok socket_ret.

Definition bind_to_port (setsockopt_ret bind_ret : Z) : res unit :=
  if setsockopt_ret =? -1 then error else if bind_ret =? -1 then error else Ok tt.

(** the result of [send] and what was sent *)
Definition say (send_ok : bool) (s : bytes) : res (Z * bytes) :=
  let* n := strlen s in
  let* out := slice s 0 n in
  Ok (if send_ok then (n, out) else (-1, [])).

(** ** The handler of a connection *)
Section handler.
Variable junk : Z.
Variable read_in : bytes -> res bytes.

(** [stream] is what the client has sent, [None] if [read] fails; also what is
    left of it.  [sizeof(buf)] is the size of the pointer. *)
Definition is_connected (stream : option bytes) : res (Z * bytes) :=
  match stream with
  | None => Ok (1, [])
  | Some s =>
      let got := take (Z.to_nat (8 - 1)) s in
      let* _ := blit (replicate 2 junk) 0 got in
      Ok (if zlen got =? 0 then 0 else 1, drop (Z.to_nat (8 - 1)) s)
  end.

(** the lines it prints, what it sends, and whether it closes the connection *)
Record handled := mk_handled { printed : list bytes; sent : bytes; closed : bool }.

Definition handler (send_ok : bool) (ip : bytes) (stream : option bytes) : res handled :=
  let* name := cstr ip in
  let connected := str "Client " ++ name ++ str " connected" in
  let* (r, out) := say send_ok (str "Torrent Tracker" ++ [10; 0]) in
  if r =? -1 then Ok (mk_handled [connected] out true)
  else
    let* (c, rest) := is_connected stream in
    if negb (c =? 0) then
      let* buf := read_in rest in
      let* b := deref buf in
      Ok (mk_handled ([connected; [b]; str "Data length: 1"] ++ (if b =? 106 then [str "First char: " ++ [b]] else []))
            out false)
    else Ok (mk_handled [connected; str "Client " ++ name ++ str " disconnected"] out true).
End handler.

(** ** The clients *)
Record tracker1 := mk_tracker1 { clients : list Z; num_clients : Z }.

Definition init : tracker1 := mk_tracker1 (replicate 10 0) 0.

(** the loop of [client_exists] from [i] on, [n] rounds before its end *)
Fixpoint exists_loop (n : nat) (st : tracker1) (ip i : Z) : res bool :=
  match n with
  | O => Ok false
  | S n =>
      let* p := rd (clients st) i in
      if p =? ip then Ok true else exists_loop n st ip (i + 1)
  end.

Definition client_exists (st : tracker1) (ip : Z) : res bool := exists_loop (Z.to_nat (num_clients st)) st ip 0.

Definition add_client (st : tracker1) (ip : Z) : res tracker1 :=
  let* b := client_exists st ip in
  if negb b then
    let* l := wr (clients st) (num_clients st) ip in
    let* n := int_arith (num_clients st + 1) in
    Ok (mk_tracker1 l n)
  else Ok st.

Section send_clients.
Variable junk : Z.
Variable memory : gmap Z bytes.

(** the loop of [send_clients]; if [send] fails, an error is printed and the
    loop goes on *)
Fixpoint send_clients_loop (n : nat) (send_ok : bool) (st : tracker1) (i : Z) : res bytes :=
  match n with
  | O => Ok []
  | S n =>
      let* p := rd (clients st) i in
      match memory !! p with
      | None => Fault NullDeref
      | Some ip =>
          let* s := cstr ip in
          let* buf := blit (replicate 256 junk) 0 (s ++ [10; 0]) in
          let* (_, out) := say send_ok buf in
          let* outs := send_clients_loop n send_ok st (i + 1) in
          Ok (out ++ outs)
      end
  end.

Definition send_clients (send_ok : bool) (st : tracker1) : res bytes :=
  send_clients_loop (Z.to_nat (num_clients st)) send_ok st 0.
End send_clients.

(** the threads of the connections with the addresses [ps] add them one after
    the other *)
Fixpoint add_clients (st : tracker1) (ps : list Z) : res tracker1 :=
  match ps with
  | [] => Ok st
  | p :: ps => let* st := add_client st p in add_clients st ps
  end.

(** ** Specification: the pointers in the order of their first occurrence *)
Definition add_new (l : list Z) (p : Z) : list Z := if decide (p ∈ l) then l else l ++ [p].

Definition line (s : bytes) : bytes := s ++ [10].

(** ** Lemmas *)
(** the array holds the pointers [l] *)
Definition holds (st : tracker1) (l : list Z) : Prop :=
  num_clients st = zlen l /\ clients st = l ++ replicate (10 - length l) 0 /\ (length l <= 10)%nat.

Lemma holds_init : holds init [].
Proof. split; [done|]. split; [done|]. cbn. lia. Qed.

Lemma exists_loop_spec st ip rest : forall before l,
  clients st = before ++ l ++ rest ->
  exists_loop (length l) st ip (zlen before) = Ok (bool_decide (ip ∈ l)).
Proof.
  intros before l. revert before. induction l as [|p l IH]; intros before E; [by rewrite bool_decide_false by by apply not_elem_of_nil|].
  cbn [length exists_loop]. rewrite E. rewrite <- app_comm_cons, rd_app_mid. cbn [res_bind]. bdestruct (p =? ip).
  - by rewrite bool_decide_true by (subst; left).
  - replace (zlen before + 1) with (zlen (before ++ [p])) by (rewrite zlen_app; done).
    rewrite IH by by rewrite E, <- !app_assoc. f_equal. apply bool_decide_ext. rewrite elem_of_cons. naive_solver.
Qed.

Lemma add_client_spec st l p :
  holds st l ->
  if decide (length (add_new l p) <= 10)%nat then exists st', add_client st p = Ok st' /\ holds st' (add_new l p)
  else add_client st p = Fault OutOfBounds.
Proof.
  intros (En & Ec & Hl). unfold add_client, client_exists. rewrite En.
  replace (Z.to_nat (zlen l)) with (length l) by (unfold zlen; lia).
  pose proof (exists_loop_spec st p (replicate (10 - length l) 0) [] l Ec) as E. change (zlen []) with 0 in E.
  rewrite E. cbn [res_bind]. unfold add_new.
  destruct (decide (p ∈ l)) as [Hp|Hp].
  - rewrite bool_decide_true by done. rewrite decide_True by done. by exists st.
  - rewrite bool_decide_false by done. cbn [negb]. rewrite Ec. rewrite length_app. cbn [length].
    destruct (decide (length l + 1 <= 10)%nat) as [Hlt|Hge].
    + replace (10 - length l)%nat with (S (10 - (length l + 1)))%nat by lia. cbn [replicate].
      unfold wr. rewrite zlen_app, zlen_cons. pose proof (zlen_nonneg l). pose proof (zlen_nonneg (replicate (10 - (length l + 1)) 0)).
      rewrite (proj2 (Z.leb_le _ _)), (proj2 (Z.ltb_lt _ _)) by lia. cbn [andb res_bind].
      rewrite int_arith_Ok by (unfold zlen in *; bounds). cbn [res_bind]. eexists. split; [done|].
      unfold holds. cbn [num_clients clients]. unfold zlen. rewrite Nat2Z.id, !length_app. cbn [length].
      split; [lia|]. split; [|lia]. rewrite insert_app_r_alt by lia. rewrite Nat.sub_diag. cbn. by rewrite <- app_assoc.
    + replace (10 - length l)%nat with 0%nat by lia. cbn [replicate]. rewrite app_nil_r. unfold wr.
      by rewrite (proj2 (Z.ltb_ge (zlen l) (zlen l))), andb_false_r by lia.
Qed.

Lemma add_new_length l p : (length l <= length (add_new l p))%nat.
Proof. unfold add_new. destruct (decide _); [done|]. rewrite length_app. lia. Qed.

Lemma fold_add_new_length ps : forall l, (length l <= length (fold_left add_new ps l))%nat.
Proof. induction ps as [|p ps IH]; intros l; [done|]. cbn. etrans; [apply (add_new_length l p)|]. apply IH. Qed.

Lemma add_clients_spec ps : forall st l,
  holds st l ->
  let l' := fold_left add_new ps l in
  if decide (length l' <= 10)%nat then exists st', add_clients st ps = Ok st' /\ holds st' l'
  else add_clients st ps = Fault OutOfBounds.
Proof.
  induction ps as [|p ps IH]; intros st l Hh; cbn [fold_left add_clients].
  - rewrite decide_True by apply Hh. by exists st.
  - pose proof (add_client_spec st l p Hh) as H. pose proof (fold_add_new_length ps (add_new l p)).
    destruct (decide (length (add_new l p) <= 10)%nat) as [H1|H1].
    + destruct H as (st' & -> & Hh'). by apply IH.
    + rewrite H, decide_False by lia. done.
Qed.

Lemma say_line junk s : no_nul s -> zlen s <= 254 ->
  (let* buf := blit (replicate 256 junk) 0 (s ++ [10; 0]) in say true buf) = Ok (zlen (line s), line s).
Proof.
  intros Hs Hl. pose proof (zlen_nonneg s). unfold blit.
  rewrite zlen_app, zlen_replicate. change (zlen [10; 0]) with 2. rewrite !(proj2 (Z.leb_le _ _)) by lia. cbn [andb res_bind].
  change (take (Z.to_nat 0) _) with (@nil Z). cbn [app]. set (rest := drop _ _).
  assert (no_nul (line s)) as Hn by (apply Forall_app; split; [done|by repeat constructor]).
  change (s ++ [10; 0]) with (s ++ [10] ++ [0]). rewrite !app_assoc, <- app_assoc. fold (line s). cbn [app].
  unfold say. rewrite strlen_app by done. cbn [res_bind]. by rewrite slice_prefix by done.
Qed.

Lemma send_clients_loop_spec junk m st rest : forall l before ss,
  clients st = before ++ l ++ rest ->
  Forall2 (fun p s => no_nul s /\ zlen s <= 254 /\ exists r, m !! p = Some (s ++ 0 :: r)) l ss ->
  send_clients_loop junk m (length l) true st (zlen before) = Ok (concat (map line ss)).
Proof.
  induction l as [|p l IH]; intros before ss E Hs; [by apply Forall2_nil_inv_l in Hs as ->|].
  apply Forall2_cons_inv_l in Hs as (s & ss' & (Hn & Hl & r & Hm) & Hs & ->).
  cbn [length send_clients_loop]. rewrite E. rewrite <- app_comm_cons, rd_app_mid. cbn [res_bind]. rewrite Hm, cstr_app by done. cbn [res_bind].
  pose proof (say_line junk s Hn Hl) as Hsay. destruct (blit _ _ _) as [buf| |]; [|done..]. cbn [res_bind] in Hsay |- *. rewrite Hsay.
  cbn [res_bind]. replace (zlen before + 1) with (zlen (before ++ [p])) by (rewrite zlen_app; done).
  by rewrite (IH (before ++ [p]) ss') by (done || by rewrite E, <- !app_assoc).
Qed.

(** ** Properties *)
(** C32: Addresses are told apart by their pointers.  For the first ten different
    pointers the array holds each once, in order, and [send_clients] sends
    the string behind each as a line; the eleventh is written behind the array.
    In particular, when all the pointers are the one that [inet_ntoa] returns,
    one line is sent however many clients there are: what that buffer holds
    now. *)
Theorem listed_once_per_pointer junk m ps ss :
  let l := fold_left add_new ps [] in
  Forall2 (fun p s => no_nul s /\ zlen s <= 254 /\ exists r, m !! p = Some (s ++ 0 :: r)) l ss ->
  (if decide (length l <= 10)%nat
   then exists st, add_clients init ps = Ok st /\ num_clients st = zlen l /\ send_clients junk m true st = Ok (concat (map line ss))
   else add_clients init ps = Fault OutOfBounds) /\
  forall ntoa n, ps = replicate (S n) ntoa -> l = [ntoa].
Proof.
  intros l Hs. split.
  - pose proof (add_clients_spec ps init []) as H. cbn zeta in H. fold l in H.
    destruct (decide (length l <= 10)%nat) as [Hl|Hl].
    + destruct H as (st & E & Hh); [apply holds_init|]. exists st. destruct Hh as (En & Ec & _). split; [done|]. split; [done|].
      unfold send_clients. rewrite En. unfold zlen at 1. rewrite Nat2Z.id. by apply (send_clients_loop_spec junk m st (replicate (10 - length l) 0) l [] ss).
    + apply H, holds_init.
  - intros ntoa n ->. subst l. cbn [replicate fold_left]. change (add_new [] ntoa) with [ntoa]. clear Hs.
    induction n as [|n IH]; [done|]. cbn [replicate fold_left]. unfold add_new at 2. by rewrite decide_True by left.
Qed.

Lemma listed_once_per_pointer_witness :
  exists st, add_clients init [5; 5; 5] = Ok st /\
    send_clients 0 {[5 := str "10.0.0.3" ++ [0]]} true st = Ok (str "10.0.0.3" ++ [10]).
Proof.
  destruct (listed_once_per_pointer 0 {[5 := str "10.0.0.3" ++ [0]]} [5; 5; 5] [str "10.0.0.3"]) as [(st & E & _ & Es) _].
  - constructor; [|constructor]. split; [repeat constructor; discriminate|]. split; [discriminate|]. by exists [].
  - exists st. split; [exact E|]. exact Es.
Defined.

(** Whether a client is connected is tested by reading from it.  A closed
    connection is recognised; of one or two bytes nothing is left, so that
    [handler] goes on as if [read] had failed; more bytes than two, up to the
    size of a pointer less one, are written behind a block of two. *)
Theorem handler_swallows junk read_in ip m :
  no_nul ip ->
  let h := handler junk read_in true (ip ++ 0 :: m) in
  h (Some []) = Ok (mk_handled [str "Client " ++ ip ++ str " connected"; str "Client " ++ ip ++ str " disconnected"]
                     (str "Torrent Tracker" ++ [10]) true) /\
  (forall s, 0 < zlen s <= 2 -> h (Some s) = h None) /\
  (forall s, 2 < zlen s -> h (Some s) = Fault OutOfBounds).
Proof.
  intros Hip h. subst h. unfold handler. rewrite cstr_app by done. cbn [res_bind].
  change (say true (str "Torrent Tracker" ++ [10; 0])) with (Ok (16, str "Torrent Tracker" ++ [10])). cbn [res_bind].
  change (16 =? -1) with false. split; [done|]. split; intros s Hs.
  - destruct s as [|a [|b [|c s]]]; [by destruct Hs| | |exfalso; rewrite !zlen_cons in Hs; pose proof (zlen_nonneg s); lia]; reflexivity.
  - cbn [is_connected]. assert (blit (replicate 2 junk) 0 (take (Z.to_nat (8 - 1)) s) = Fault OutOfBounds) as ->; [|done].
    unfold blit. rewrite zlen_replicate. unfold zlen in *. rewrite length_take.
    rewrite (proj2 (Z.leb_gt (0 + _) 2)) by lia. by rewrite andb_false_r.
Qed.

Lemma handler_swallows_witness :
  handler 0 (fun s => Ok (s ++ [0])) true (str "10.0.0.3" ++ [0]) (Some (str "j")) =
  handler 0 (fun s => Ok (s ++ [0])) true (str "10.0.0.3" ++ [0]) None /\
  handler 0 (fun s => Ok (s ++ [0])) true (str "10.0.0.3" ++ [0]) (Some (str "join")) = Fault OutOfBounds.
Proof.
  destruct (handler_swallows 0 (fun s => Ok (s ++ [0])) (str "10.0.0.3") []) as (_ & H1 & H2); [repeat constructor; discriminate|].
  split; [apply (H1 (str "j")); split; [reflexivity|discriminate]|apply (H2 (str "join")); reflexivity].
Defined.
