(* ===== verification/TrackerProto.v ===== *)
(** * The prototype of the tracker (src/examples/tracker/tracker2.c and client.c)

    The second revision of the tracker: a thread per connection, and an array of
    addresses.  buildMsg, sendMsg, sendData and recvMsg of util.c, and the
    client's joinTracker, are those of Tracker.  Strings are objects in a memory
    with addresses, because all the pointers of the array come from [inet_ntoa],
    which returns the same static buffer, at [ntoa], each time.  A connection is
    the descriptor [accept] returns and the text of its address.  [args] lives on
    the stack for one round of the loop of [main]: [reuse] says whether an access
    by a thread after that finds what is in its place then, as each round puts
    its [args] there, or counts as undefined, as the standard has it.  A round of
    the loop of [main] or of a thread is one step; the unsynchronised accesses of
    the threads to [clients] within a round do not interleave. *)
From Stdlib Require Import ZArith Lia Bool String.
From stdpp Require Import base numbers option list gmap fin_maps.
From S2P Require Import Prelude CStr Tracker.

(** ** State *)
Definition MAXCLIENTS : Z := 30.

Record handler_args := mk_args { socket_filedef : Z; arg_ip : Z }.

(** the thread of a connection: before it reads its [args], in its loop, ended *)
Inductive handler_pc := Created | Serving (client_socket ip : Z) | Closed.

(** [args] and whether the round of the loop that made them still runs; the
    threads in the order of their connections *)
Record tracker2 := mk_tracker2 {
  memory : gmap Z bytes;
  args : option handler_args;
  args_live : bool;
  clients : list Z;
  numClients : Z;
  handlers : list handler_pc;
}.

(** A connection is accepted and its thread created, the round ends, a thread
    reads its arguments, [recvMsg] returns in a thread. *)
Inductive proto_event :=
  | Accept (client_socket : Z) (text : bytes)
  | EndRound
  | Start (t : nat)
  | Receive (t : nat) (recv_msg : bytes).

Definition string_at (m : gmap Z bytes) (p : Z) : res bytes :=
  match m !! p with Some s => Ok s | None => Fault NullDeref end.

(** ** The tracker *)
Section tracker2.
(** the address of the buffer of [inet_ntoa] *)
Variable ntoa : Z.
Variable reuse : bool.
Variable junk : Z.

Definition inet_ntoa (m : gmap Z bytes) (text : bytes) : res (gmap Z bytes * Z) :=
  let* b := string_at m ntoa in
  let* b := blit b 0 (text ++ [0]) in
  Ok (<[ntoa := b]> m, ntoa).

Definition init (buffer : bytes) : tracker2 := mk_tracker2 {[ntoa := buffer]} None false (replicate 30 0) 0 [].

(** [main] before its loop; [socket] is checked behind the calls that use it *)
Definition listen_start (buffer : bytes) (socket_ret setsockopt_ret bind_ret listen_ret : Z) : res tracker2 :=
  if setsockopt_ret =? -1 then Exit 1
  else if bind_ret =? -1 then Exit 1
  else if socket_ret <? 0 then Exit 1
  else if listen_ret =? -1 then Exit 1
  else Ok (init buffer).

(** the body of the loop of [main] *)
Definition accept_client (st : tracker2) (client_socket : Z) (text : bytes) : res tracker2 :=
  let* (m, ip) := inet_ntoa (memory st) text in
  Ok (mk_tracker2 m (Some (mk_args client_socket ip)) true (clients st) (numClients st) (handlers st ++ [Created])).

Definition addClient (st : tracker2) (ip : Z) : res (tracker2 * Z) :=
  if numClients st <? MAXCLIENTS then
    let* l := wr (clients st) (numClients st) ip in
    let* n := int_arith (numClients st + 1) in
    Ok (mk_tracker2 (memory st) (args st) (args_live st) l n (handlers st), 0)
  else Ok (st, -1).

(** the loop of [sendClients] from [i] on, [n] rounds before its end *)
Fixpoint copy_clients (n : nat) (st : tracker2) (i : Z) (data : bytes) : res bytes :=
  match n with
  | O => Ok data
  | S n =>
      let* p := rd (clients st) i in
      let* s := string_at (memory st) p in
      let* _ := cstr s in
      let* field := slice s 0 16 in
      let* data := blit data (1 + 16 * i) field in
      copy_clients n st (i + 1) data
  end.

Definition sendClients (st : tracker2) : res bytes :=
  let* size_ := int_arith (1 + 16 * numClients st) in
  let data := replicate (Z.to_nat size_) junk in
  let* data := blit data 0 (take 1 (le 4 (numClients st))) in
  let* dl := int_arith (16 * numClients st) in
  let* data := copy_clients (Z.to_nat (numClients st)) st 0 data in
  let* (out, _) := sendData true data dl in
  Ok out.

Definition set_handler (st : tracker2) (t : nat) (pc : handler_pc) : tracker2 :=
  mk_tracker2 (memory st) (args st) (args_live st) (clients st) (numClients st) (<[t := pc]> (handlers st)).

(** the beginning of [handler], in the thread [t] *)
Definition handler_start (st : tracker2) (t : nat) : res tracker2 :=
  if negb (args_live st && (S t =? length (handlers st))%nat) && negb reuse then Fault UseAfterFree
  else
    match args st with
    | None => Fault Uninit
    | Some a =>
        let* s := string_at (memory st) (arg_ip a) in
        let* _ := cstr s in
        Ok (set_handler st t (Serving (socket_filedef a) (arg_ip a)))
    end.

(** a round of the loop of [handler], and what is sent *)
Definition handler_round (st : tracker2) (t : nat) (client_socket ip : Z) (recv_msg : bytes)
    : res (tracker2 * option (Z * bytes)) :=
  let* b := rd recv_msg 0 in
  if b =? 0 then Ok (set_handler st t Closed, None)
  else
    let* d := strncmp (drop 1 recv_msg) (str "join" ++ [0]) 4 in
    if d =? 0 then
      let* (st, r) := addClient st ip in
      let* (out, _) := sendMsg true ((if r =? 0 then str "joined" else str "failed to join") ++ [0]) in
      Ok (st, Some (client_socket, out))
    else
      let* d := strncmp (drop 1 recv_msg) (str "list" ++ [0]) 4 in
      if d =? 0 then
        let* (st, _) := addClient st ip in
        let* out := sendClients st in
        Ok (st, Some (client_socket, out))
      else Ok (st, None).

(** An event of a thread that is not there for it changes nothing. *)
Definition proto_step (st : tracker2) (e : proto_event) : res (tracker2 * option (Z * bytes)) :=
  match e with
  | Accept s text => let* st := accept_client st s text in Ok (st, None)
  | EndRound => Ok (mk_tracker2 (memory st) (args st) false (clients st) (numClients st) (handlers st), None)
  | Start t =>
      match handlers st !! t with
      | Some Created => let* st := handler_start st t in Ok (st, None)
      | _ => Ok (st, None)
      end
  | Receive t recv_msg =>
      match handlers st !! t with
      | Some (Serving s ip) => handler_round st t s ip recv_msg
      | _ => Ok (st, None)
      end
  end.

Fixpoint run (st : tracker2) (es : list proto_event) : res (tracker2 * list (Z * bytes)) :=
  match es with
  | [] => Ok (st, [])
  | e :: es =>
      let* (st, out) := proto_step st e in
      let* (st, outs) := run st es in
      Ok (st, option_list out ++ outs)
  end.
End tracker2.

(** ** The client *)
(** the globals: [None] is a null pointer, a peer is a block of 16 bytes *)
Record proto_client := mk_client { peers : list (option bytes); numPeers : Z }.

Definition init_client : proto_client := mk_client (replicate 255 None) 0.

Fixpoint receive_peers (n : nat) (recv_msg : bytes) (i : Z) (c : proto_client) : res proto_client :=
  match n with
  | O => Ok c
  | S n =>
      let* peer := slice recv_msg (1 + 16 * i) 16 in
      let* l := wr (peers c) i (Some peer) in
      let* k := int_arith (numPeers c + 1) in
      receive_peers n recv_msg (i + 1) (mk_client l k)
  end.

(** the strings of [peers] from [i] on, as they are printed *)
Fixpoint list_peers (n : nat) (c : proto_client) (i : Z) : res (list bytes) :=
  match n with
  | O => Ok []
  | S n =>
      let* p := rd (peers c) i in
      match p with
      | None => Fault NullDeref
      | Some m =>
          let* s := cstr m in
          let* l := list_peers n c (i + 1) in
          Ok (s :: l)
      end
  end.

(** with the peers it prints *)
Definition requestPeers (sent : bool) (buffer received : bytes) (c : proto_client) : res (proto_client * list bytes) :=
  let* (_, r) := sendMsg sent (str "list" ++ [0]) in
  let* c :=
    (if r =? 0 then
      let recv_msg := recvMsg buffer received in
      let* b := rd recv_msg 0 in
      let n := to_char b in
      receive_peers (Z.to_nat n) recv_msg 0 (mk_client (peers c) 0)
    else Ok c) in
  let* l := list_peers (Z.to_nat (numPeers c)) c 0 in
  Ok (c, l).

Definition execTorrent (sent : bool) (buffer received : bytes) (c : proto_client) : res proto_client :=
  let* (c, _) := requestPeers sent buffer received c in Ok c.

(** the commands the user types, each with what the tracker answers to it; the
    first byte of a line decides, and [getline] ends a line with a NUL *)
Fixpoint command_loop (sent : bool) (buffer : bytes) (input : list (bytes * bytes)) (c : proto_client) : res proto_client :=
  match input with
  | [] => Ok c
  | (line, received) :: input =>
      let* e := strncmp line (str "e" ++ [0]) 1 in
      if e =? 0 then Ok c
      else
        let* j := strncmp line (str "j" ++ [0]) 1 in
        if j =? 0 then let* _ := joinTracker sent buffer received in command_loop sent buffer input c
        else
          let* l := strncmp line (str "l" ++ [0]) 1 in
          if l =? 0 then let* (c, _) := requestPeers sent buffer received c in command_loop sent buffer input c
          else
            let* r := strncmp line (str "r" ++ [0]) 1 in
            if r =? 0 then let* c := execTorrent sent buffer received c in command_loop sent buffer input c
            else command_loop sent buffer input c
  end.

(** [main]: [tracker_ip] is the memory the pointer of this name points to,
    [None] for the uninitialised pointer the code has there; [line] is what
    [getline] reads, [None] at the end of the input *)
Definition client_main (tracker_ip : option bytes) (line : option bytes) (socket_ret connect_ret : Z)
    (sent : bool) (buffer : bytes) (input : list (bytes * bytes)) : res proto_client :=
  match tracker_ip with
  | None => Fault Uninit
  | Some m =>
      let* m := match line with Some l => blit m 0 l | None => Ok m end in
      let* _ := cstr m in
      if socket_ret <? 0 then Exit 1
      else if connect_ret =? -1 then Exit 1
      else command_loop sent buffer input init_client
  end.

(** ** Lemmas *)
Section proofs.
Variable ntoa junk : Z.

(** The reply: the last of the [1 + 16 * n] bytes is not sent. *)
Definition listing (n : Z) (buf : bytes) : bytes :=
  take (Z.to_nat (16 * n)) (n :: concat (replicate (Z.to_nat n) (take 16 buf))).

(** Every pointer is the one of the static buffer, which holds the string [s]. *)
Record aliased (st : tracker2) (s : bytes) : Prop := {
  al_string : no_nul s;
  al_buffer : exists rest, memory st !! ntoa = Some (s ++ 0 :: rest) /\ 16 <= zlen (s ++ 0 :: rest);
  al_count : 0 <= numClients st <= MAXCLIENTS;
  al_length : zlen (clients st) = MAXCLIENTS;
  al_clients : forall i, 0 <= i < numClients st -> rd (clients st) i = Ok ntoa;
  al_serving : forall t sock ip, handlers st !! t = Some (Serving sock ip) -> ip = ntoa;
  al_args : forall a, args st = Some a -> arg_ip a = ntoa;
  al_created : Created ∈ handlers st -> args st <> None;
}.

Lemma aliased_init buffer : 16 <= zlen buffer -> (exists rest, buffer = 0 :: rest) -> aliased (init ntoa buffer) [].
Proof.
  intros Hb [rest ->]. split; cbn; try done.
  - apply Forall_nil_2.
  - exists rest. by rewrite lookup_singleton_eq.
  - lia.
  - by intros ?%not_elem_of_nil.
Qed.

Lemma set_handler_aliased st s t pc :
  aliased st s -> (forall sock ip, pc = Serving sock ip -> ip = ntoa) -> pc <> Created -> aliased (set_handler st t pc) s.
Proof.
  intros [H1 H2 H3 H4 H5 H6 H7 H8] Hpc Hc. split; cbn; try done.
  - intros u sock ip. destruct (decide (t = u)) as [->|].
    + destruct (decide (u < length (handlers st))%nat) as [Hu|Hu].
      * rewrite list_lookup_insert_eq by done. intros [= ->]. by eapply Hpc.
      * rewrite list_insert_ge by lia. apply H6.
    + rewrite list_lookup_insert_ne by done. apply H6.
  - intros (u & Hu)%list_elem_of_lookup. apply H8. destruct (decide (t = u)) as [->|].
    + destruct (decide (u < length (handlers st))%nat) as [Hl|Hl].
      * rewrite list_lookup_insert_eq in Hu by done. congruence.
      * rewrite list_insert_ge in Hu by lia. by eapply list_elem_of_lookup_2.
    + rewrite list_lookup_insert_ne in Hu by done. by eapply list_elem_of_lookup_2.
Qed.

Lemma addClient_aliased st s :
  aliased st s ->
  exists st', addClient st ntoa = Ok (st', if numClients st <? MAXCLIENTS then 0 else -1) /\ aliased st' s /\
    numClients st' = Z.min MAXCLIENTS (numClients st + 1) /\ handlers st' = handlers st /\ memory st' = memory st /\ args st' = args st.
Proof.
  intros [H1 H2 H3 H4 H5 H6 H7 H8]. unfold addClient. unfold MAXCLIENTS in *. bdestruct (numClients st <? 30).
  - destruct (wr (clients st) (numClients st) ntoa) as [l| |] eqn:Ew; unfold wr in Ew;
      rewrite H4, (proj2 (Z.leb_le 0 _)), (proj2 (Z.ltb_lt _ 30)) in Ew by lia; cbn in Ew; [|done|done].
    cbn [res_bind]. rewrite int_arith_Ok by bounds. cbn [res_bind]. eexists. split; [done|].
    split; [|cbn; split; [lia|done]]. split; cbn; try done; [unfold MAXCLIENTS; lia| |].
    + injection Ew as <-. unfold zlen. by rewrite length_insert.
    + intros i Hi. injection Ew as <-. rewrite rd_insert by lia.
      destruct (decide (i = numClients st)); [done|]. apply H5. lia.
  - exists st. split; [done|]. split; [by split|]. split; [lia|done].
Qed.

Lemma copy_clients_spec st s buf n : forall i pre rest,
  memory st !! ntoa = Some buf -> cstr buf = Ok s -> 16 <= zlen buf ->
  (forall j, i <= j < i + Z.of_nat n -> rd (clients st) j = Ok ntoa) ->
  0 <= i -> zlen pre = 1 + 16 * i -> zlen rest = 16 * Z.of_nat n ->
  copy_clients n st i (pre ++ rest) = Ok (pre ++ concat (replicate n (take 16 buf))).
Proof.
  induction n as [|n IH]; intros i pre rest Hm Hc Hz Hr Hi Hp Hrest.
  - destruct rest; [done|]. rewrite zlen_cons in Hrest. pose proof (zlen_nonneg rest). lia.
  - cbn [copy_clients replicate concat]. rewrite Hr by lia. cbn [res_bind]. unfold string_at. rewrite Hm. cbn [res_bind].
    rewrite Hc. cbn [res_bind]. assert (zlen (take 16 buf) = 16) as E16.
    { unfold zlen in *. rewrite length_take. lia. }
    rewrite <- (take_drop 16 buf) at 1. rewrite slice_prefix by lia. cbn [res_bind].
    rewrite <- (take_drop 16 rest). assert (zlen (take 16 rest) = 16) as Er.
    { unfold zlen in *. rewrite length_take. lia. }
    rewrite blit_at by lia. cbn [res_bind]. rewrite (app_assoc pre), (IH (i + 1)); try done.
    + by rewrite app_assoc.
    + intros j Hj. apply Hr. lia.
    + lia.
    + rewrite zlen_app. lia.
    + unfold zlen in *. rewrite length_drop. lia.
Qed.

Lemma zlen_concat_replicate n (m : bytes) : zlen (concat (replicate n m)) = Z.of_nat n * zlen m.
Proof. induction n as [|n IH]; [done|]. cbn [replicate concat]. rewrite zlen_app, IH. lia. Qed.

Lemma sendClients_aliased st s buf :
  aliased st s -> memory st !! ntoa = Some buf -> sendClients junk st = Ok (listing (numClients st) buf).
Proof.
  intros [H1 (tl & H2 & Hz) H3 H4 H5 _ _ _] Hm. rewrite Hm in H2. injection H2 as ->. unfold sendClients, MAXCLIENTS in *.
  set (n := numClients st) in *. rewrite int_arith_Ok by bounds. cbn [res_bind].
  replace (Z.to_nat (1 + 16 * n)) with (S (Z.to_nat (16 * n))) by lia. cbn [replicate].
  pose proof (blit_prefix [junk] (replicate (Z.to_nat (16 * n)) junk) (take 1 (le 4 n)) eq_refl) as Eb.
  cbn [app] in Eb. rewrite Eb. clear Eb. cbn [res_bind le take app]. rewrite Z.mod_small by lia.
  rewrite int_arith_Ok by bounds. cbn [res_bind].
  pose proof (copy_clients_spec st s _ (Z.to_nat n) 0 [n] (replicate (Z.to_nat (16 * n)) junk) Hm) as Ec.
  cbn [app] in Ec. rewrite Ec; [|by apply cstr_app|done| |lia|done|rewrite zlen_replicate; lia].
  2:{ intros j Hj. apply H5. lia. }
  cbn [res_bind app]. unfold sendData, listing. set (data := n :: _).
  assert (16 * n <= zlen data) as Hd.
  { subst data. rewrite zlen_cons, zlen_concat_replicate.
    assert (zlen (take 16 (s ++ 0 :: tl)) = 16) as -> by (unfold zlen in *; rewrite length_take; lia). lia. }
  rewrite <- (take_drop (Z.to_nat (16 * n)) data) at 1. rewrite slice_prefix; [done|].
  unfold zlen in *. rewrite length_take. lia.
Qed.
(** the text of the last connection *)
Definition last_text (s : bytes) (e : proto_event) : bytes := match e with Accept _ text => text | _ => s end.

(** [inet_ntoa] writes at most 15 characters *)
Definition dotted (e : proto_event) : Prop :=
  match e with Accept _ text => no_nul text /\ zlen text <= 15 | Receive _ recv_msg => 5 <= zlen recv_msg | _ => True end.

Lemma last_text_short es : forall s, Forall dotted es -> zlen s <= 15 -> zlen (foldl last_text s es) <= 15.
Proof.
  induction es as [|e es IH]; intros s He Hs; [done|]. apply Forall_cons in He as [He Hes]. apply IH; [done|].
  destruct e; [by destruct He|done..].
Qed.

Lemma accept_aliased st s sock text :
  aliased st s -> no_nul text -> zlen text <= 15 ->
  exists st', accept_client ntoa st sock text = Ok st' /\ aliased st' text /\ numClients st' = numClients st.
Proof.
  intros [H1 (tl & H2 & Hz) H3 H4 H5 H6 H7 H8] Ht Hl. unfold accept_client, inet_ntoa, string_at. rewrite H2. cbn [res_bind].
  set (buf := s ++ 0 :: tl) in *.
  pose proof (blit_prefix (take (S (length text)) buf) (drop (S (length text)) buf) (text ++ [0])) as Eb.
  rewrite take_drop in Eb. rewrite Eb by (unfold zlen in *; rewrite length_app, length_take; cbn [length]; lia).
  cbn [res_bind]. eexists. split; [done|]. split; [|done]. split; cbn; try done.
  - exists (drop (S (length text)) buf). rewrite lookup_insert_eq, <- app_assoc. split; [done|].
    rewrite zlen_app, zlen_cons. unfold zlen in *. rewrite length_drop. lia.
  - intros t sock' ip Hp. destruct (decide (t < length (handlers st))%nat).
    + rewrite lookup_app_l in Hp by done. by eapply H6.
    + rewrite lookup_app_r in Hp by lia. by apply list_lookup_singleton_Some in Hp as [_ ?].
  - by intros a [= <-].
Qed.

Lemma start_aliased st s t :
  aliased st s -> handlers st !! t = Some Created ->
  exists st', handler_start true st t = Ok st' /\ aliased st' s /\ numClients st' = numClients st.
Proof.
  intros Ha Ht. pose proof Ha as [H1 (tl & H2 & Hz) H3 H4 H5 H6 H7 H8]. unfold handler_start. rewrite andb_false_r.
  destruct (args st) as [a|]; [|by destruct H8; [by eapply list_elem_of_lookup_2|]].
  rewrite (H7 a eq_refl). unfold string_at. rewrite H2. cbn [res_bind]. rewrite cstr_app by done. cbn [res_bind].
  eexists. split; [done|]. split; [|done]. apply set_handler_aliased; [done| |done]. by intros sock ip [= _ <-].
Qed.

Lemma round_aliased st s t sock buf recv_msg :
  aliased st s -> memory st !! ntoa = Some buf -> 5 <= zlen recv_msg ->
  exists st' out, handler_round junk st t sock ntoa recv_msg = Ok (st', out) /\ aliased st' s /\
    numClients st' = Z.min MAXCLIENTS (numClients st + Z.of_nat (length (option_list out))) /\
    (forall o, out = Some o -> o.1 = sock) /\
    (forall m, recv_msg = 4 :: str "list" ++ m -> out = Some (sock, listing (numClients st') buf)).
Proof.
  intros Ha Hm Hl. pose proof (al_count _ _ Ha). destruct recv_msg as [|b msg]; [done|]. rewrite zlen_cons in Hl.
  assert (forall w, length w = 4%nat -> no_nul w -> exists d, strncmp msg (w ++ [0]) 4 = Ok d /\ (d = 0 <-> take 4 msg = w)) as Hw.
  { intros w Hw Hn. rewrite <- Hw. apply strncmp_word; [done|]. unfold zlen in Hl. lia. }
  assert (no_nul (str "join") /\ no_nul (str "list")) as [Hj Hi] by (split; vm_compute; repeat constructor; discriminate).
  unfold handler_round. change (rd (b :: msg) 0) with (Ok b). change (drop 1 (b :: msg)) with msg. cbn [res_bind].
  bdestruct (b =? 0).
  { eexists _, None. split; [done|]. split; [by apply set_handler_aliased|]. cbn. split; [lia|]. split; [done|]. by intros m [=]; lia. }
  destruct (Hw (str "join") eq_refl Hj) as (d & -> & Hd). cbn [res_bind]. bdestruct (d =? 0).
  - destruct (addClient_aliased st s Ha) as (st' & -> & Ha' & Hn & _). cbn [res_bind].
    destruct (numClients st <? MAXCLIENTS); cbn [Z.eqb res_bind];
      (rewrite sendMsg_string by (vm_compute; repeat constructor; discriminate); cbn [res_bind]; eexists _, (Some _);
       split; [done|]; split; [done|]; split; [cbn; lia|]; split; [by intros o [= <-]|]; intros m [= -> ->];
       by assert (take 4 (str "list" ++ m) = str "join") as E by tauto).
  - destruct (Hw (str "list") eq_refl Hi) as (d' & -> & Hd'). cbn [res_bind]. bdestruct (d' =? 0).
    + destruct (addClient_aliased st s Ha) as (st' & -> & Ha' & Hn & _ & Hm' & _). cbn [res_bind].
      rewrite (sendClients_aliased st' s buf) by (done || by rewrite Hm'). cbn [res_bind]. eexists _, (Some _).
      split; [done|]. split; [done|]. split; [cbn; lia|]. split; [by intros o [= <-]|]. done.
    + eexists _, None. split; [done|]. split; [done|]. split; [cbn; lia|]. split; [done|]. intros m [= -> ->].
      by assert (d' = 0) by (apply Hd'; done).
Qed.

Lemma step_aliased st s e :
  aliased st s -> dotted e ->
  exists st' out, proto_step ntoa true junk st e = Ok (st', out) /\ aliased st' (last_text s e) /\
    numClients st' = Z.min MAXCLIENTS (numClients st + Z.of_nat (length (option_list out))).
Proof.
  intros Ha Hd. pose proof Ha as [H1 H2 H3 H4 H5 H6 H7 H8]. pose proof (Z.min_r MAXCLIENTS (numClients st)).
  destruct e as [sock text| |t|t recv_msg]; cbn [proto_step last_text].
  - destruct Hd as [Hd1 Hd2]. destruct (accept_aliased st s sock text Ha Hd1 Hd2) as (st' & -> & Ha' & En). cbn.
    exists st', None. split; [done|]. split; [done|]. cbn. lia.
  - eexists _, None. split; [done|]. split; [by split|]. cbn. lia.
  - destruct (handlers st !! t) as [[]|] eqn:Et; try (exists st, None; split; [done|]; split; [done|]; cbn; lia).
    destruct (start_aliased st s t Ha Et) as (st' & -> & Ha' & En). exists st', None. split; [done|]. split; [done|]. cbn. lia.
  - destruct (handlers st !! t) as [[|sock ip|]|] eqn:Et; try (exists st, None; split; [done|]; split; [done|]; cbn; lia).
    rewrite (H6 _ _ _ Et). destruct H2 as (tl & H2 & _).
    destruct (round_aliased st s t sock _ recv_msg Ha H2 Hd) as (st' & out & -> & Ha' & En & _). by exists st', out.
Qed.

Lemma run_aliased es : Forall dotted es -> forall st s, aliased st s ->
  exists st' outs, run ntoa true junk st es = Ok (st', outs) /\ aliased st' (foldl last_text s es) /\
    numClients st' = Z.min MAXCLIENTS (numClients st + zlen outs).
Proof.
  induction 1 as [|e es He _ IH]; intros st s Ha; pose proof (al_count _ _ Ha).
  - exists st, []. split; [done|]. split; [done|]. change (zlen []) with 0. lia.
  - cbn [run]. destruct (step_aliased st s e Ha He) as (st' & out & -> & Ha' & En). cbn [res_bind].
    destruct (IH st' _ Ha') as (st'' & outs & -> & Ha'' & En'). cbn [res_bind]. eexists _, _. split; [done|]. split; [done|].
    rewrite zlen_app, En', En. unfold zlen. lia.
Qed.
End proofs.

(** *** What the client makes of a reply *)
Fixpoint all_cstr (fs : list bytes) : res (list bytes) :=
  match fs with
  | [] => Ok []
  | m :: fs => let* s := cstr m in let* l := all_cstr fs in Ok (s :: l)
  end.

Lemma receive_peers_spec fs : forall pre rest old tl,
  Forall (fun m => zlen m = 16) fs -> zlen pre = 1 + 16 * zlen old -> zlen old + zlen fs <= 255 ->
  zlen (old ++ tl) = 255 ->
  receive_peers (length fs) (pre ++ concat fs ++ rest) (zlen old) (mk_client (old ++ tl) (zlen old)) =
  Ok (mk_client (old ++ map Some fs ++ drop (length fs) tl) (zlen old + zlen fs)).
Proof.
  induction fs as [|m fs IH]; intros pre rest old tl Hfs Hp Hl Ht.
  - cbn [length receive_peers concat map app drop]. change (zlen (@nil bytes)) with 0. by rewrite Z.add_0_r.
  - apply Forall_cons in Hfs as [Hm Hfs]. rewrite zlen_cons in Hl. pose proof (zlen_nonneg fs). pose proof (zlen_nonneg old).
    destruct tl as [|x tl]; [rewrite app_nil_r in Ht; lia|].
    cbn [length receive_peers concat map drop peers numPeers]. rewrite <- app_assoc, slice_at by lia. cbn [res_bind].
    unfold wr. rewrite Ht, (proj2 (Z.leb_le 0 _)), (proj2 (Z.ltb_lt _ 255)) by lia. cbn [andb res_bind].
    rewrite int_arith_Ok by bounds. cbn [res_bind].
    replace (Z.to_nat (zlen old)) with (length old + 0)%nat by (unfold zlen; lia). rewrite insert_app_r.
    change (<[0%nat:=Some m]> (x :: tl)) with (Some m :: tl). rewrite (cons_middle _ _ tl), (app_assoc old), (app_assoc pre).
    assert (zlen (old ++ [Some m]) = zlen old + 1) as E by (by rewrite zlen_app).
    rewrite <- E, IH; [|done|rewrite zlen_app; lia|lia|].
    + rewrite E, <- app_assoc, zlen_cons. do 2 f_equal. lia.
    + rewrite <- Ht, !zlen_app, !zlen_cons, zlen_nil. lia.
Qed.

Lemma list_peers_spec fs : forall old tl k,
  list_peers (length fs) (mk_client (old ++ map Some fs ++ tl) k) (zlen old) = all_cstr fs.
Proof.
  induction fs as [|m fs IH]; intros old tl k; [done|].
  cbn [length list_peers map all_cstr peers app]. rewrite rd_app_mid. cbn [res_bind].
  destruct (cstr m) as [s| |]; cbn [res_bind]; [|done..].
  specialize (IH (old ++ [Some m]) tl k). rewrite zlen_app, <- app_assoc in IH. cbn [app] in IH.
  change (zlen [Some m]) with 1 in IH. by rewrite IH.
Qed.

Lemma requestPeers_prints cbuf fs rest c :
  Forall (fun m => zlen m = 16) fs -> zlen fs <= 127 -> zlen (peers c) = 255 ->
  forall rep, recvMsg cbuf rep = zlen fs :: concat fs ++ rest ->
  requestPeers true cbuf rep c =
  let* l := all_cstr fs in Ok (mk_client (map Some fs ++ drop (length fs) (peers c)) (zlen fs), l).
Proof.
  intros Hfs Hl Hc rep Er. unfold requestPeers.
  rewrite sendMsg_string by (vm_compute; repeat constructor; discriminate). cbn [res_bind Z.eqb]. rewrite Er.
  pose proof (zlen_nonneg fs). change (rd (zlen fs :: concat fs ++ rest) 0) with (Ok (zlen fs)). cbn [res_bind].
  rewrite to_char_id by lia. replace (Z.to_nat (zlen fs)) with (length fs) by (unfold zlen; lia).
  pose proof (receive_peers_spec fs [zlen fs] rest [] (peers c) Hfs eq_refl) as E. change (zlen (@nil (option bytes))) with 0 in E.
  cbn [app] in E. rewrite E by lia. cbn [res_bind numPeers].
  replace (Z.to_nat (0 + zlen fs)) with (length fs) by (unfold zlen; lia).
  pose proof (list_peers_spec fs [] (drop (length fs) (peers c)) (0 + zlen fs)) as E'. cbn [app] in E'.
  change (zlen (@nil (option bytes))) with 0 in E'. by rewrite E'.
Qed.

(** The [n] fields the client finds behind the count, the last byte being its
    own. *)
Definition received_fields (n : nat) (f : bytes) (own : Z) : list bytes := replicate (n - 1) f ++ [take 15 f ++ [own]].

Lemma received_fields_zlen n f own :
  (1 <= n)%nat -> zlen f = 16 ->
  zlen (received_fields n f own) = Z.of_nat n /\ Forall (fun m => zlen m = 16) (received_fields n f own).
Proof.
  intros Hn Hf. unfold received_fields. rewrite zlen_app. unfold zlen in *. rewrite length_replicate. split; [cbn [length]; lia|].
  apply Forall_app. split; [by apply Forall_replicate|]. apply Forall_singleton. rewrite length_app, length_take. cbn [length]. lia.
Qed.

Lemma listing_received n buf cbuf own :
  1 <= n <= MAXCLIENTS -> 16 <= zlen buf -> zlen cbuf = BUFSIZ -> rd cbuf (16 * n) = Ok own ->
  recvMsg cbuf (listing n buf) =
  n :: concat (received_fields (Z.to_nat n) (take 16 buf) own) ++ drop (S (Z.to_nat (16 * n))) cbuf.
Proof.
  unfold MAXCLIENTS. intros Hn Hb Hc Ho. set (f := take 16 buf).
  assert (length f = 16%nat) as Hf by (subst f; unfold zlen in *; rewrite length_take; lia).
  assert (listing n buf = n :: concat (replicate (Z.to_nat n - 1) f) ++ take 15 f) as El.
  { unfold listing. fold f. replace (Z.to_nat n) with (S (Z.to_nat n - 1)) at 1 by lia.
    rewrite replicate_S_end, concat_app. cbn [concat]. rewrite app_nil_r.
    rewrite <- (take_drop 15 f) at 2. rewrite app_assoc, app_comm_cons. apply take_app_length'.
    pose proof (zlen_concat_replicate (Z.to_nat n - 1) f) as Ez. unfold zlen in Ez. rewrite Hf in Ez.
    cbn [length]. rewrite length_app, length_take. lia. }
  assert (length (listing n buf) = Z.to_nat (16 * n)) as Ell.
  { rewrite El. pose proof (zlen_concat_replicate (Z.to_nat n - 1) f) as Ez. unfold zlen in Ez. rewrite Hf in Ez.
    cbn [length]. rewrite length_app, length_take. lia. }
  destruct (recvMsg_short cbuf (listing n buf) Hc) as [-> _]; [unfold zlen, BUFSIZ; lia|].
  apply rd_Ok in Ho as [_ Ho]. rewrite Ell, (drop_S _ _ _ Ho), El. unfold received_fields.
  rewrite concat_app. cbn [concat app]. by rewrite app_nil_r, <- !app_assoc.
Qed.

Lemma all_cstr_fields k f own s tl :
  f = take 16 (s ++ 0 :: tl) -> no_nul s -> zlen s <= 15 -> 16 <= zlen (s ++ 0 :: tl) ->
  all_cstr (replicate k f ++ [take 15 f ++ [own]]) =
  if (zlen s <? 15) || (own =? 0) then Ok (replicate (S k) s) else Fault OutOfBounds.
Proof.
  intros Ef Hs Hl Hz. assert (exists r, f = s ++ 0 :: r) as [r Er].
  { rewrite Ef, take_app_ge by (unfold zlen in Hl; lia). exists (take (15 - length s) tl).
    replace (16 - length s)%nat with (S (15 - length s)) by (unfold zlen in Hl; lia). done. }
  assert (length f = 16%nat) as Elen by (rewrite Ef; unfold zlen in *; rewrite length_take; lia).
  assert (all_cstr [take 15 f ++ [own]] = if (zlen s <? 15) || (own =? 0) then Ok [s] else Fault OutOfBounds) as Elast.
  { cbn [all_cstr]. rewrite Er. bdestruct (zlen s <? 15); cbn [orb].
    - rewrite take_app_ge by (unfold zlen in *; lia).
      replace (15 - length s)%nat with (S (14 - length s)) by (unfold zlen in *; lia).
      cbn [take]. rewrite <- app_assoc. cbn [app]. by rewrite cstr_app.
    - rewrite take_app_length' by (unfold zlen in *; lia). bdestruct (own =? 0).
      + subst own. by rewrite cstr_app.
      + rewrite cstr_none; [done|]. apply no_nul_app. split; [done|]. by apply Forall_singleton. }
  clear Ef Hz. induction k as [|k IH]; [done|].
  cbn [replicate app all_cstr]. rewrite IH. rewrite Er at 1. rewrite cstr_app by done. cbn [res_bind].
  by destruct ((zlen s <? 15) || (own =? 0)).
Qed.

Lemma requestPeers_listing n s tl cbuf own c :
  1 <= n <= MAXCLIENTS -> no_nul s -> zlen s <= 15 -> 16 <= zlen (s ++ 0 :: tl) ->
  zlen cbuf = BUFSIZ -> rd cbuf (16 * n) = Ok own -> zlen (peers c) = 255 ->
  if (zlen s <? 15) || (own =? 0)
  then exists c', requestPeers true cbuf (listing n (s ++ 0 :: tl)) c = Ok (c', replicate (Z.to_nat n) s)
  else requestPeers true cbuf (listing n (s ++ 0 :: tl)) c = Fault OutOfBounds.
Proof.
  intros Hn Hs Hl Hz Hc Ho Hp. set (f := take 16 (s ++ 0 :: tl)).
  assert (zlen f = 16) as Hf by (subst f; unfold zlen in *; rewrite length_take; lia).
  destruct (received_fields_zlen (Z.to_nat n) f own) as [Ez Hfs]; [lia|done|].
  pose proof (listing_received n _ cbuf own Hn Hz Hc Ho) as Er. fold f in Er. rewrite Z2Nat.id in Ez by lia.
  rewrite <- Ez in Er at 2. unfold MAXCLIENTS in Hn.
  rewrite (requestPeers_prints cbuf _ _ c Hfs ltac:(lia) Hp _ Er). unfold received_fields.
  rewrite (all_cstr_fields _ f own s tl) by done. replace (S (Z.to_nat n - 1)) with (Z.to_nat n) by lia.
  destruct ((zlen s <? 15) || (own =? 0)); cbn [res_bind]; eauto.
Qed.

(** *** Threads that start late *)
Section late.
Variable ntoa junk : Z.

(** no thread has the socket, nor is one about to read it *)
Definition unserved (sock : Z) (st : tracker2) : Prop :=
  (forall t ip, handlers st !! t <> Some (Serving sock ip)) /\ forall a, args st = Some a -> socket_filedef a <> sock.

Definition accepts (sock : Z) (e : proto_event) : Prop := match e with Accept s _ => s = sock | _ => False end.

Lemma addClient_frame st ip st' r :
  addClient st ip = Ok (st', r) -> handlers st' = handlers st /\ args st' = args st.
Proof.
  unfold addClient. destruct (numClients st <? MAXCLIENTS); [|by intros [= <- _]].
  intros (l & _ & (n & _ & [= <- _])%res_bind_inv_Ok)%res_bind_inv_Ok. done.
Qed.

Lemma round_frame st t sock ip m st' out :
  handler_round junk st t sock ip m = Ok (st', out) ->
  (handlers st' = handlers st \/ handlers st' = <[t := Closed]> (handlers st)) /\ args st' = args st /\
  forall o, out = Some o -> o.1 = sock.
Proof.
  unfold handler_round. intros (b & _ & E)%res_bind_inv_Ok. destruct (b =? 0).
  { injection E as <- <-. split; [by right|]. by split. }
  apply res_bind_inv_Ok in E as (d & _ & E). destruct (d =? 0).
  { apply res_bind_inv_Ok in E as ([st1 r] & [Hh Hg]%addClient_frame & ([o r'] & _ & [= <- <-])%res_bind_inv_Ok).
    split; [by left|]. split; [done|]. by intros o' [= <-]. }
  apply res_bind_inv_Ok in E as (d' & _ & E). destruct (d' =? 0).
  { apply res_bind_inv_Ok in E as ([st1 r] & [Hh Hg]%addClient_frame & (o & _ & [= <- <-])%res_bind_inv_Ok).
    split; [by left|]. split; [done|]. by intros o' [= <-]. }
  injection E as <- <-. split; [by left|]. by split.
Qed.

Lemma unserved_insert sock st t pc :
  (forall t ip, handlers st !! t <> Some (Serving sock ip)) -> (forall ip, pc <> Serving sock ip) ->
  forall u ip, <[t := pc]> (handlers st) !! u <> Some (Serving sock ip).
Proof.
  intros H Hpc u ip. destruct (decide (t = u)) as [->|]; [|by rewrite list_lookup_insert_ne].
  intros E. apply list_lookup_insert_Some in E as [(_ & E & _)|[]]; [|done]. by apply (Hpc ip).
Qed.

Lemma step_unserved sock st e st' out :
  proto_step ntoa true junk st e = Ok (st', out) -> unserved sock st -> ~ accepts sock e ->
  unserved sock st' /\ forall o, out = Some o -> o.1 <> sock.
Proof.
  intros E [Hs Hg] Ha. destruct e as [s text| |t|t m]; cbn [proto_step] in E.
  - apply res_bind_inv_Ok in E as (st1 & ([mm ip] & _ & [= <-])%res_bind_inv_Ok & [= <- <-]). split; [|done]. split; cbn.
    + intros t ip' [Hl|[_ Hl]]%lookup_app_Some; [by apply Hs in Hl|]. by apply list_lookup_singleton_Some in Hl as [_ ?].
    + by intros a [= <-].
  - injection E as <- <-. by split.
  - destruct (handlers st !! t) as [[]|]; try (injection E as <- <-; by split).
    apply res_bind_inv_Ok in E as (st1 & E & [= <- <-]). split; [|done]. unfold handler_start in E. rewrite andb_false_r in E.
    destruct (args st) as [a|] eqn:Ea; [|done]. apply res_bind_inv_Ok in E as (b & _ & (b' & _ & [= <-])%res_bind_inv_Ok).
    split; cbn; [|by rewrite Ea]. apply unserved_insert; [done|]. intros ip [= E' _]. by apply (Hg a).
  - destruct (handlers st !! t) as [[|s ip|]|] eqn:Et; try (injection E as <- <-; by split).
    apply round_frame in E as (Hh & Hg' & Ho). assert (s <> sock) as Hne by (intros ->; by apply Hs in Et).
    split; [|intros o Eo; by rewrite (Ho o Eo)]. split; [|by rewrite Hg'].
    destruct Hh as [->| ->]; [done|]. by apply unserved_insert.
Qed.

Lemma run_unserved sock es : forall st st' outs,
  run ntoa true junk st es = Ok (st', outs) -> unserved sock st -> Forall (fun e => ~ accepts sock e) es ->
  Forall (fun o => o.1 <> sock) outs.
Proof.
  induction es as [|e es IH]; intros st st' outs E Hu Ha; [by injection E as <- <-|]. cbn [run] in E.
  apply res_bind_inv_Ok in E as ([st1 out] & E & ([st2 outs'] & E' & [= <- <-])%res_bind_inv_Ok).
  apply Forall_cons in Ha as [Ha Hes]. destruct (step_unserved sock st e st1 out E Hu Ha) as [Hu' Ho].
  apply Forall_app. split; [|by eapply IH]. destruct out as [o|]; [|done]. apply Forall_singleton. by apply Ho.
Qed.
End late.

(** ** Properties *)
(** C36: In every run of the prototype of the tracker all requests are counted up
    to 30, and the answer to "list" is the address of the connection accepted
    last, once for each client that is counted: the client that asked prints it
    that many times, whoever the clients are.  The last byte of the answer is
    not sent; if the address has 15 characters, the client prints a string that
    ends where its block does unless the byte its own buffer has there is a
    NUL. *)
Theorem listed_is_last_accepted ntoa junk buffer es t sock ip m cbuf own c :
  16 <= zlen buffer -> (exists rest, buffer = 0 :: rest) -> Forall dotted es ->
  zlen cbuf = BUFSIZ -> zlen (peers c) = 255 ->
  exists st outs, run ntoa true junk (init ntoa buffer) es = Ok (st, outs) /\ numClients st = Z.min MAXCLIENTS (zlen outs) /\
  (handlers st !! t = Some (Serving sock ip) ->
   let n := Z.min MAXCLIENTS (zlen outs + 1) in
   let s := foldl last_text [] es in
   rd cbuf (16 * n) = Ok own ->
   exists st' reply, proto_step ntoa true junk st (Receive t (4 :: str "list" ++ m)) = Ok (st', Some (sock, reply)) /\
   if (zlen s <? 15) || (own =? 0)
   then exists c', requestPeers true cbuf reply c = Ok (c', replicate (Z.to_nat n) s)
   else requestPeers true cbuf reply c = Fault OutOfBounds).
Proof.
  intros Hb Hz He Hc Hp. destruct (run_aliased ntoa junk es He _ [] (aliased_init ntoa buffer Hb Hz)) as (st & outs & -> & Ha & Hn).
  exists st, outs. split; [done|]. split; [done|]. cbn [numClients init] in Hn. intros Ht n s Ho. pose proof Ha as [Hs (tl & Hm & Htl) _ _ _ Hsv _ _].
  fold s in Hs, Hm, Htl, Ha. rewrite (Hsv _ _ _ Ht) in Ht. cbn [proto_step]. rewrite Ht.
  destruct (round_aliased ntoa junk st s t sock _ (4 :: str "list" ++ m) Ha Hm) as (st' & out & -> & _ & Hn' & _ & Hout).
  { rewrite zlen_cons, zlen_app. pose proof (zlen_nonneg m). change (zlen (str "list")) with 4. lia. }
  rewrite (Hout m eq_refl) in *. cbn in Hn'. pose proof (zlen_nonneg outs).
  assert (numClients st' = n) as En by (unfold n, MAXCLIENTS in *; lia). rewrite En. exists st', (listing n (s ++ 0 :: tl)). split; [done|].
  apply requestPeers_listing; try done; [unfold n, MAXCLIENTS in *; lia|]. by apply last_text_short.
Qed.

(** two clients, the first of which prints the address of the second twice *)
Lemma listed_is_last_accepted_witness :
  let es := [Accept 7 (str "10.0.0.1"); EndRound; Start 0; Receive 0 (4 :: str "join"); Accept 8 (str "10.0.0.25"); EndRound] in
  let cbuf := replicate (Z.to_nat BUFSIZ) 205 in
  exists st, run 1 true 0 (init 1 (replicate 18 0)) es = Ok (st, [(7, 6 :: str "joined")]) /\
  exists st' reply c', proto_step 1 true 0 st (Receive 0 (4 :: str "list")) = Ok (st', Some (7, reply)) /\
    requestPeers true cbuf reply init_client = Ok (c', [str "10.0.0.25"; str "10.0.0.25"]).
Proof.
  intros es cbuf.
  destruct (listed_is_last_accepted 1 0 (replicate 18 0) es 0 7 1 [] cbuf 205 init_client) as (st & outs & E & _ & H).
  - vm_compute. discriminate.
  - by exists (replicate 17 0).
  - repeat (apply Forall_cons; split; [first [exact I | vm_compute; discriminate |
      split; [vm_compute; repeat constructor; discriminate|vm_compute; discriminate]]|]). apply Forall_nil. exact I.
  - reflexivity.
  - reflexivity.
  - vm_compute in E. injection E as <- <-. eexists. split; [reflexivity|].
    destruct H as (st' & reply & Hs & c' & Hc); [reflexivity|reflexivity|]. exists st', reply, c'. split; [exact Hs|exact Hc].
Defined.

(** C37: Starting the threads is a race.  If a thread has not read its [args] when
    the round that made them ends, its access is undefined; and if the next
    connection is accepted before and the new [args] are found in the place of
    the old ones, the client of the first connection is never sent anything, in
    whatever order the threads run from then on, as long as the number of its
    socket, which stays open, is not returned by [accept]. *)
Theorem late_handler ntoa junk st s t sock other text es :
  aliased ntoa st s -> handlers st !! t = Some Created ->
  (forall u ip, handlers st !! u <> Some (Serving sock ip)) -> other <> sock ->
  no_nul text -> zlen text <= 15 -> Forall dotted es -> Forall (fun e => ~ accepts sock e) es ->
  run ntoa false junk st [EndRound; Start t] = Fault UseAfterFree /\
  exists st' outs, run ntoa true junk st (Accept other text :: es) = Ok (st', outs) /\ Forall (fun o => o.1 <> sock) outs.
Proof.
  intros Ha Ht Hs Hne Hx Hl He Hacc. split; [cbn; by rewrite Ht|].
  destruct (accept_aliased ntoa st s other text Ha Hx Hl) as (st1 & E1 & Ha1 & _).
  destruct (run_aliased ntoa junk es He st1 text Ha1) as (st' & outs & E & _). exists st', outs.
  split; [cbn [run proto_step]; rewrite E1; cbn [res_bind]; by rewrite E|]. eapply run_unserved; [exact E| |done].
  unfold accept_client in E1. apply res_bind_inv_Ok in E1 as ([m ip] & _ & [= <-]). split; cbn; [|by intros a [= <-]].
  intros u ip' [Hu|[_ Hu]]%lookup_app_Some; [by apply Hs in Hu|]. by apply list_lookup_singleton_Some in Hu as [_ ?].
Qed.

Lemma late_handler_witness :
  exists st, run 1 true 0 (init 1 (replicate 18 0)) [Accept 7 (str "10.0.0.1"); EndRound] = Ok (st, []) /\
  exists st' outs, run 1 true 0 st [Accept 8 (str "10.0.0.2"); Start 0; Start 1; Receive 0 (4 :: str "join"); Receive 1 (4 :: str "join")] =
      Ok (st', outs) /\ Forall (fun o => o.1 <> 7) outs.
Proof.
  eexists. split; [reflexivity|]. eapply (late_handler 1 0 _ (str "10.0.0.1") 0 7 8 (str "10.0.0.2")).
  - split.
    + vm_compute; repeat constructor; discriminate.
    + exists (replicate 9 0). split; [reflexivity|vm_compute; discriminate].
    + vm_compute. split; discriminate.
    + reflexivity.
    + cbn. lia.
    + intros [|u] sock ip; discriminate.
    + intros a [= <-]. reflexivity.
    + discriminate.
  - reflexivity.
  - intros [|u] ip; discriminate.
  - discriminate.
  - vm_compute; repeat constructor; discriminate.
  - vm_compute. discriminate.
  - repeat (apply Forall_cons; split; [first [exact I | vm_compute; discriminate]|]). apply Forall_nil. exact I.
  - repeat (apply Forall_cons; split; [intros []|]). apply Forall_nil. exact I.
Defined.
