(* ===== verification/Encode.v ===== *)
(** * The torrent file encoder (src/src/encode.c)

    Several functions return the address of a local array.  What is found
    through such a pointer after the return is the parameter [dead], applied to
    the contents the array had: for the C standard it is a fault whatever the
    contents are, and [dead = Ok] is a machine on which the frame stays intact
    until it is read.  [junk] is the byte indeterminate memory is filled with.
    [PIECELENGTH] is 256, and 262144 in the copy of the file under
    torrent_encoding_decoding. *)
From Stdlib Require Import ZArith Lia Bool String.
From stdpp Require Import base numbers option list.
From S2P Require Import Prelude CStr Bencode BencodeSpec.

Definition BUFFSIZE : Z := 10000.

(** [char a[n] = "s"]: the rest of the array is zero *)
Definition local_array (n : Z) (s : bytes) : bytes := s ++ replicate (Z.to_nat n - length s) 0.

(** [strncat(ans, s, BUFFSIZE)] *)
Definition cat (ans s : bytes) : res bytes := strncat ans s (Z.to_nat BUFFSIZE).

Section encode.
Variable SHA1 : bytes -> bytes.
Variable dead : bytes -> res bytes.
Variable junk : Z.
Variable PIECELENGTH : Z.

(** the object [malloc(80)] returned, with the result *)
Definition encodeString (input : bytes) : res bytes :=
  let ans := replicate 80 junk in
  let* n := strlen input in
  let* ans := blit ans 0 (take 99 (udec n) ++ [0]) in
  let* ans := cat ans (str ":" ++ [0]) in
  cat ans input.

(** The argument is an integer passed as a pointer and printed with ["%d"]. *)
Definition encodeInt (input : Z) : res bytes :=
  let ans := local_array 80 (str "i") in
  let num := dec (to_int input) ++ [0] in
  let* ans := cat ans num in
  let* ans := cat ans (str "e" ++ [0]) in
  dead ans.

(** Each character of [input] is passed as a string. *)
Definition encodeDict (input : bytes) (size : Z) : res bytes :=
  let ans := local_array BUFFSIZE (str "d") in
  if 0 <? size then let* _ := rd input 0 in Fault BadFormat
  else let* ans := cat ans (str "e" ++ [0]) in dead ans.

(** The loop over the pieces and the hash behind it.  [fread] leaves the end
    of [buffer] as it is when less than a piece is left; the hash is taken of
    the text in [buffer] and appended as a string. *)
Fixpoint hash_pieces (fuel : nat) (file buffer pieceSHAs : bytes) : res bytes :=
  match fuel with
  | O => Fault NoFuel
  | S fuel =>
      let got := take (Z.to_nat PIECELENGTH) file in
      let buffer := got ++ drop (length got) buffer in
      let* text := cstr buffer in
      let sha := SHA1 text in
      let* pieceSHAs := cat pieceSHAs sha in
      if zlen got =? PIECELENGTH then hash_pieces fuel (drop (Z.to_nat PIECELENGTH) file) buffer pieceSHAs
      else Ok pieceSHAs
  end.

(** [file] is the file found under [filename] *)
Definition infoDict (filename : bytes) (file : option bytes) : res bytes :=
  let ans := local_array BUFFSIZE (str "d") in
  let* s := encodeString (str "length" ++ [0]) in
  let* ans := cat ans s in
  match file with
  | None => Fault NullDeref
  | Some file =>
      let* s := encodeInt (zlen file) in
      let* ans := cat ans s in
      let* s := encodeString (str "name" ++ [0]) in
      let* ans := cat ans s in
      let* s := encodeString filename in
      let* ans := cat ans s in
      let* s := encodeString (str "piece length" ++ [0]) in
      let* ans := cat ans s in
      let* s := encodeInt PIECELENGTH in
      let* ans := cat ans s in
      let* s := encodeString (str "pieces" ++ [0]) in
      let* ans := cat ans s in
      let buffer := replicate (Z.to_nat PIECELENGTH) junk in
      let* pieceSHAs := hash_pieces (S (length file)) file buffer (local_array BUFFSIZE []) in
      let* s := encodeString pieceSHAs in
      let* ans := cat ans s in
      let* ans := cat ans (str "e" ++ [0]) in
      dead ans
  end.

(** What is printed to the .torrent file, and the returned pointer.
    [created] tells whether that file could be opened for writing. *)
Definition encodeFile (target address : bytes) (file : option bytes) (created : bool)
  : res (bytes * res bytes) :=
  let* output := strcpy (local_array 100 []) target in
  let* output := cat output (str ".torrent" ++ [0]) in
  let row := replicate 80 junk in
  let* s := encodeString (str "announce" ++ [0]) in
  let* dict0 := strcpy row s in
  let* s := encodeString address in
  let* dict1 := strcpy row s in
  let* s := encodeString (str "info" ++ [0]) in
  let* dict2 := strcpy row s in
  let* s := infoDict target file in
  let* dict3 := strcpy row s in
  let finalAns := local_array BUFFSIZE (str "d") in
  let* finalAns := cat finalAns dict0 in
  let* finalAns := cat finalAns dict1 in
  let* finalAns := cat finalAns dict2 in
  let* finalAns := cat finalAns dict3 in
  let* finalAns := cat finalAns (str "e" ++ [0]) in
  let* text := cstr finalAns in
  check* created else NullDeref in
  Ok (text, dead finalAns).

(** The first [fread] copies the whole file into [buffer] of [BUFFSIZE] bytes. *)
Definition fileSHA (file : option bytes) : res bytes :=
  match file with
  | None => Fault NullDeref
  | Some file =>
      let* buffer := blit (local_array BUFFSIZE []) 0 file in
      let* text := slice buffer 0 (zlen file) in
      dead (SHA1 text)
  end.
End encode.

(** ** Buffers that hold a string *)
(** [buf] has [cap] bytes and holds the string [s] *)
Definition holds (cap : Z) (buf s : bytes) : Prop :=
  zlen buf = cap /\ no_nul s /\ exists m, buf = s ++ 0 :: m.

Lemma holds_cstr cap buf s : holds cap buf s -> cstr buf = Ok s.
Proof. intros (_ & Hs & m & ->). by apply cstr_app. Qed.

Lemma holds_local_array n s : no_nul s -> zlen s < n -> holds n (local_array n s) s.
Proof.
  intros Hs Hn. unfold local_array. split; [|split; [done|]].
  - rewrite zlen_app, zlen_replicate. unfold zlen in *. lia.
  - exists (replicate (Z.to_nat n - length s - 1) 0). unfold zlen in Hn.
    assert (Z.to_nat n - length s = S (Z.to_nat n - length s - 1))%nat as E by lia. by rewrite E at 1.
Qed.

Lemma cat_holds cap buf s t tcap tbuf :
  holds cap buf s -> holds tcap tbuf t -> zlen s + zlen t < cap -> cap <= BUFFSIZE + 1 ->
  exists buf', cat buf tbuf = Ok buf' /\ holds cap buf' (s ++ t).
Proof.
  intros (Hc & Hs & m & ->) (_ & Ht & tm & ->) Hfit Hcap. unfold cat.
  rewrite zlen_app, zlen_cons in Hc. unfold zlen, BUFFSIZE in *.
  rewrite strncat_fits by (done || lia). eexists. split; [done|].
  split; [|split; [by apply no_nul_app|by eexists]].
  unfold zlen. rewrite !length_app. cbn [length]. rewrite length_drop. lia.
Qed.

Lemma cat_overflow cap buf s t tcap tbuf :
  holds cap buf s -> holds tcap tbuf t -> cap <= zlen s + zlen t -> zlen t <= BUFFSIZE ->
  cat buf tbuf = Fault OutOfBounds.
Proof.
  intros (Hc & Hs & m & ->) (_ & Ht & tm & ->) Hfit Hl. unfold cat.
  rewrite zlen_app, zlen_cons in Hc. unfold zlen, BUFFSIZE in *.
  apply strncat_overflow; [done|done|..]; lia.
Qed.

Lemma strcpy_holds cap dst tcap tbuf t :
  zlen dst = cap -> holds tcap tbuf t -> zlen t < cap ->
  exists buf, strcpy dst tbuf = Ok buf /\ holds cap buf t.
Proof.
  intros Hd (_ & Ht & m & ->) Hl. unfold strcpy. rewrite cstr_app by done. cbn [res_bind].
  unfold zlen in *. rewrite <- (take_drop (S (length t)) dst).
  rewrite blit_prefix by (unfold zlen; rewrite length_app, length_take; cbn [length]; lia).
  eexists. split; [done|]. split; [|split; [done|]].
  - unfold zlen. rewrite !length_app, length_drop. cbn [length]. lia.
  - exists (drop (S (length t)) dst). by rewrite <- app_assoc.
Qed.

Lemma holds_lit s : no_nul s -> holds (zlen s + 1) (s ++ [0]) s.
Proof. intros Hs. split; [by rewrite zlen_app|]. split; [done|]. by exists []. Qed.

(** ** Lemmas: the strings *)
Lemma udec_length n : 0 <= n -> zlen (udec n) <= Z.log2 n + 1.
Proof.
  intros Hn. assert (forall fuel n acc, (length (udec_aux fuel n acc) <= fuel + length acc)%nat) as H.
  { induction fuel as [|fuel IH]; intros k acc; [done|]. cbn [udec_aux]. destruct (k <? 10); [simpl; lia|].
    specialize (IH (k / 10) (48 + k mod 10 :: acc)). cbn [length] in IH. lia. }
  specialize (H (S (Z.to_nat (Z.log2 n))) n []). pose proof (Z.log2_nonneg n). unfold udec, zlen. simpl in *. lia.
Qed.

Lemma encodeString_holds junk cap input s :
  holds cap input s -> zlen s <= BUFFSIZE ->
  if zlen (enc_str s) <? 80
  then exists buf, encodeString junk input = Ok buf /\ holds 80 buf (enc_str s)
  else encodeString junk input = Fault OutOfBounds.
Proof.
  intros Hi Hl. pose proof Hi as (_ & Hs & m & E). pose proof (zlen_nonneg s).
  assert (no_nul (udec (zlen s))) as Hu by (by apply udec_no_nul).
  assert (zlen (udec (zlen s)) <= 20) as Hu20.
  { pose proof (udec_length (zlen s)). pose proof (Z.log2_le_mono (zlen s) BUFFSIZE Hl).
    change (Z.log2 BUFFSIZE) with 13 in *. lia. }
  unfold encodeString. assert (strlen input = Ok (zlen s)) as -> by (rewrite E; by apply strlen_app). cbn [res_bind].
  rewrite (take_ge (udec (zlen s))) by (unfold zlen in Hu20 at 1; lia).
  set (u := udec (zlen s)) in *. change (enc_str s) with (u ++ 58 :: s).
  assert (exists buf, blit (replicate 80 junk) 0 (u ++ [0]) = Ok buf /\ holds 80 buf u) as (b1 & -> & H1).
  { destruct (strcpy_holds 80 (replicate 80 junk) _ _ u eq_refl (holds_lit u Hu)) as (b & Hb & Hh); [lia|].
    exists b. split; [|done]. unfold strcpy in Hb. by rewrite cstr_app in Hb. }
  cbn [res_bind].
  destruct (cat_holds 80 b1 u (str ":") _ _ H1 (holds_lit (str ":") ltac:(repeat constructor; discriminate)))
    as (b2 & -> & H2); [change (zlen (str ":")) with 1; lia|done|].
  cbn [res_bind]. rewrite zlen_app, zlen_cons.
  assert (zlen (u ++ str ":") = zlen u + 1) as Ez by (by rewrite zlen_app).
  bdestruct (zlen u + (1 + zlen s) <? 80).
  - destruct (cat_holds 80 b2 _ s _ _ H2 Hi) as (b3 & Eb & H3); [lia|done|].
    exists b3. split; [done|]. by rewrite <- app_assoc in H3.
  - by apply (cat_overflow 80 b2 (u ++ str ":") s cap input); [done|done|lia|].
Qed.

Lemma dec_length z : is_int z -> zlen (dec z) <= 33.
Proof.
  unfold is_int, INT_MIN, INT_MAX, dec. intros Hz. destruct (Z.ltb_spec z 0).
  - rewrite zlen_cons. pose proof (udec_length (- z)). pose proof (Z.log2_le_mono (- z) (2 ^ 31)).
    change (Z.log2 (2 ^ 31)) with 31 in *. lia.
  - pose proof (udec_length z). pose proof (Z.log2_le_mono z (2 ^ 31)). change (Z.log2 (2 ^ 31)) with 31 in *. lia.
Qed.

Lemma to_int_is_int z : is_int (to_int z).
Proof. pose proof (wrap_s_range 32 z). unfold is_int, INT_MIN, INT_MAX, to_int. simpl in *. lia. Qed.

Definition enc_int (z : Z) : bytes := 105 :: dec z ++ [101].

Lemma encodeInt_holds z :
  exists buf, encodeInt Ok z = Ok buf /\ holds 80 buf (enc_int (to_int z)).
Proof.
  pose proof (dec_length _ (to_int_is_int z)) as Hl. unfold encodeInt.
  destruct (cat_holds 80 (local_array 80 (str "i")) (str "i") _ _ _
    (holds_local_array 80 (str "i") ltac:(repeat constructor; discriminate) eq_refl)
    (holds_lit _ (dec_no_nul (to_int z)))) as (b1 & -> & H1); [change (zlen (str "i")) with 1; lia|done|].
  cbn [res_bind].
  destruct (cat_holds 80 b1 _ (str "e") _ _ H1 (holds_lit (str "e") ltac:(repeat constructor; discriminate)))
    as (b2 & -> & H2); [rewrite zlen_app; change (zlen (str "i")) with 1; change (zlen (str "e")) with 1; lia|done|].
  cbn [res_bind]. exists b2. split; [done|]. by rewrite <- app_assoc in H2.
Qed.

(** the metainfo dictionaries that the encoder intends *)
Definition info_value (name : bytes) (len piece_len : Z) (pieces : bytes) : bval :=
  VDict [(str "length", VInt len); (str "name", VStr name);
         (str "piece length", VInt piece_len); (str "pieces", VStr pieces)].

Definition torrent_value (address : bytes) (info : bval) : bval :=
  VDict [(str "announce", VStr address); (str "info", info)].

Lemma bencode_info name len pl pieces :
  bencode (info_value name len pl pieces) =
  str "d" ++ enc_str (str "length") ++ enc_int len ++ enc_str (str "name") ++ enc_str name ++
  enc_str (str "piece length") ++ enc_int pl ++ enc_str (str "pieces") ++ enc_str pieces ++ str "e".
Proof. cbn [bencode info_value map concat fst snd]. unfold enc_int. by rewrite <- !app_assoc, app_nil_l. Qed.

Lemma encodeString_fits junk cap input s :
  holds cap input s -> zlen (enc_str s) < 80 ->
  exists buf, encodeString junk input = Ok buf /\ holds 80 buf (enc_str s).
Proof.
  intros Hi Hl. pose proof (encodeString_holds junk cap input s Hi) as H.
  rewrite (proj2 (Z.ltb_lt _ _) Hl) in H. apply H. unfold BUFFSIZE.
  unfold enc_str in Hl. rewrite zlen_app, zlen_cons in Hl. pose proof (zlen_nonneg (udec (zlen s))). lia.
Qed.

(** Steps of the functions below: [cat_only H Hb] appends the string of [Hb] to
    the buffer of [H], [cat_step H e] what the lemma [e] says the next call
    returns; the sizes are in the context. *)
Ltac cat_only H Hb :=
  let E := fresh "E" in let H' := fresh "H'" in
  destruct (cat_holds _ _ _ _ _ _ H Hb) as (? & E & H');
  [rewrite ?zlen_app in *; lia|done|rewrite E; clear E; cbn [res_bind]; clear H; rename H' into H].

Ltac cat_step H e :=
  let b := fresh "b" in let E := fresh "E" in let Hb := fresh "Hb" in
  destruct e as (b & E & Hb); [..|rewrite E; clear E; cbn [res_bind]; cat_only H Hb; clear Hb].

Ltac lit := first [done | apply holds_lit; repeat constructor; discriminate].

Section infoDict.
Variable SHA1 : bytes -> bytes.
Variable junk PIECELENGTH : Z.

Lemma infoDict_holds cap filename name file pcap pbuf pieces :
  holds cap filename name ->
  hash_pieces SHA1 PIECELENGTH (S (length file)) file (replicate (Z.to_nat PIECELENGTH) junk) (local_array BUFFSIZE []) = Ok pbuf ->
  holds pcap pbuf pieces ->
  let info := bencode (info_value name (to_int (zlen file)) (to_int PIECELENGTH) pieces) in
  zlen info < 80 ->
  exists buf, infoDict SHA1 Ok junk PIECELENGTH filename (Some file) = Ok buf /\ holds BUFFSIZE buf info.
Proof.
  intros Hn Hp Hpb info Hlen. subst info. rewrite bencode_info in *.
  set (i1 := enc_int (to_int (zlen file))) in *. set (i2 := enc_int (to_int PIECELENGTH)) in *.
  unfold infoDict. assert (holds BUFFSIZE (local_array BUFFSIZE (str "d")) (str "d")) as H
    by (apply holds_local_array; [repeat constructor; discriminate|done]).
  assert (80 < BUFFSIZE) as HB by done.
  rewrite !zlen_app in Hlen. pose proof (zlen_nonneg i1). pose proof (zlen_nonneg i2).
  pose proof (zlen_nonneg (enc_str name)). pose proof (zlen_nonneg (enc_str pieces)).
  pose proof (zlen_nonneg (enc_str (str "length"))). pose proof (zlen_nonneg (enc_str (str "name"))).
  pose proof (zlen_nonneg (enc_str (str "piece length"))). pose proof (zlen_nonneg (enc_str (str "pieces"))).
  pose proof (zlen_nonneg (str "e")). pose proof (zlen_nonneg (str "d")).
  assert (zlen (enc_str name) < 80 /\ zlen (enc_str pieces) < 80) as [Hl1 Hl2] by lia.
  cat_step H (encodeString_fits junk _ _ (str "length") ltac:(lit) ltac:(lit)).
  pose proof (encodeInt_holds (zlen file)) as Hi1. fold i1 in Hi1. cat_step H Hi1.
  cat_step H (encodeString_fits junk _ _ (str "name") ltac:(lit) ltac:(lit)).
  cat_step H (encodeString_fits junk _ _ name Hn Hl1).
  cat_step H (encodeString_fits junk _ _ (str "piece length") ltac:(lit) ltac:(lit)).
  pose proof (encodeInt_holds PIECELENGTH) as Hi2. fold i2 in Hi2. cat_step H Hi2.
  cat_step H (encodeString_fits junk _ _ (str "pieces") ltac:(lit) ltac:(lit)).
  rewrite Hp. cbn [res_bind].
  cat_step H (encodeString_fits junk _ _ pieces Hpb Hl2).
  destruct (cat_holds _ _ _ _ _ _ H (holds_lit (str "e") ltac:(repeat constructor; discriminate))) as (ans & -> & Hans);
    [rewrite !zlen_app; lia|done|].
  exists ans. split; [done|]. by rewrite <- !app_assoc in Hans.
Qed.

Lemma bencode_torrent address info :
  bencode (torrent_value address info) =
  str "d" ++ enc_str (str "announce") ++ enc_str address ++ enc_str (str "info") ++ bencode info ++ str "e".
Proof. cbn [bencode torrent_value map concat fst snd]. by rewrite <- !app_assoc, app_nil_l. Qed.

(** a row of the table of [encodeFile] *)
Lemma row_holds cap buf s :
  holds cap buf s -> zlen s < 80 -> exists row, strcpy (replicate 80 junk) buf = Ok row /\ holds 80 row s.
Proof. by apply strcpy_holds. Qed.

Lemma encodeFile_holds tcap target name acap address addr file pcap pbuf pieces :
  holds tcap target name -> zlen name < 90 -> holds acap address addr -> zlen (enc_str addr) < 80 ->
  hash_pieces SHA1 PIECELENGTH (S (length file)) file (replicate (Z.to_nat PIECELENGTH) junk) (local_array BUFFSIZE []) = Ok pbuf ->
  holds pcap pbuf pieces ->
  let info := info_value name (to_int (zlen file)) (to_int PIECELENGTH) pieces in
  zlen (bencode info) < 80 ->
  exists fin, encodeFile SHA1 Ok junk PIECELENGTH target address (Some file) true =
    Ok (bencode (torrent_value addr info), Ok fin).
Proof.
  intros Ht Hn Ha Hla Hp Hpb info Hlen. unfold encodeFile.
  assert (holds 100 (local_array 100 []) []) as Ho by (apply holds_local_array; [constructor|done]).
  destruct (strcpy_holds 100 (local_array 100 []) _ _ _ ltac:(apply Ho) Ht) as (o1 & -> & Ho1); [lia|]. cbn [res_bind].
  destruct (cat_holds _ _ _ _ _ _ Ho1 (holds_lit (str ".torrent") ltac:(repeat constructor; discriminate))) as (o2 & -> & _);
    [change (zlen (str ".torrent")) with 8; lia|done|]. cbn [res_bind].
  destruct (encodeString_fits junk _ _ (str "announce") ltac:(lit) ltac:(lit)) as (s0 & -> & H0). cbn [res_bind].
  destruct (row_holds _ _ _ H0 ltac:(done)) as (d0 & -> & Hd0). cbn [res_bind].
  destruct (encodeString_fits junk _ _ addr Ha Hla) as (s1 & -> & H1). cbn [res_bind].
  destruct (row_holds _ _ _ H1 Hla) as (d1 & -> & Hd1). cbn [res_bind].
  destruct (encodeString_fits junk _ _ (str "info") ltac:(lit) ltac:(lit)) as (s2 & -> & H2). cbn [res_bind].
  destruct (row_holds _ _ _ H2 ltac:(done)) as (d2 & -> & Hd2). cbn [res_bind].
  destruct (infoDict_holds _ _ _ file _ _ _ Ht Hp Hpb Hlen) as (s3 & -> & H3). cbn [res_bind].
  destruct (row_holds _ _ _ H3 Hlen) as (d3 & -> & Hd3). cbn [res_bind].
  assert (holds BUFFSIZE (local_array BUFFSIZE (str "d")) (str "d")) as H
    by (apply holds_local_array; [repeat constructor; discriminate|done]).
  assert (80 < BUFFSIZE /\ BUFFSIZE = 10000) as [HB HB'] by done. fold info in Hd3.
  assert (zlen (str "d") = 1 /\ zlen (str "e") = 1 /\ zlen (enc_str (str "announce")) = 10 /\ zlen (enc_str (str "info")) = 6)
    as (E1 & E2 & E3 & E4) by done.
  cat_only H Hd0. cat_only H Hd1. cat_only H Hd2. cat_only H Hd3.
  cat_only H (holds_lit (str "e") ltac:(repeat constructor; discriminate)).
  rewrite (holds_cstr _ _ _ H). cbn [res_bind]. eexists. rewrite bencode_torrent, <- !app_assoc. done.
Qed.

(** *** Failures *)
Lemma hash_pieces_no_nul fuel file buffer shas capt t r :
  (forall x, no_nul (SHA1 x) /\ zlen (SHA1 x) < BUFFSIZE) -> holds capt shas t ->
  hash_pieces SHA1 PIECELENGTH fuel file buffer shas <> Ok r.
Proof.
  intros Hsha (_ & Ht & m & ->). destruct fuel as [|fuel]; [done|]. cbn [hash_pieces].
  destruct (cstr _) as [text|f|n]; [|done..]. cbn [res_bind].
  destruct (Hsha text) as [Hn Hl]. assert (cat (t ++ 0 :: m) (SHA1 text) = Fault OutOfBounds) as ->; [|done].
  unfold cat, strncat. rewrite cstr_app by done. cbn [res_bind].
  assert (forall k s, no_nul s -> (length s < k)%nat -> strn s k = Fault OutOfBounds) as ->; [|done|done|unfold zlen in Hl; lia].
  clear. intros k s Hs. revert k. induction Hs as [|b s Hb _ IH]; intros [|k] Hk; simpl in *; [lia|done|lia|].
  rewrite (proj2 (Z.eqb_neq b 0) Hb). by rewrite IH by lia.
Qed.
End infoDict.

(** Either frames cannot be read after the return, or no hash has a NUL. *)
Definition unusable (SHA1 : bytes -> bytes) (dead : bytes -> res bytes) : Prop :=
  (forall b r, dead b <> Ok r) \/ (forall x, no_nul (SHA1 x) /\ zlen (SHA1 x) < BUFFSIZE).

Lemma infoDict_fails SHA1 dead junk PIECELENGTH filename file r :
  unusable SHA1 dead -> infoDict SHA1 dead junk PIECELENGTH filename file <> Ok r.
Proof.
  intros Hu H. unfold infoDict in H. do 2 step_res H. destruct file as [file|]; [|done].
  step_res H. destruct Hu as [Hd|Hs].
  - unfold encodeInt in Ha1. do 2 step_res Ha1. by apply Hd in Ha1.
  - do 12 step_res H. by eapply hash_pieces_no_nul in Ha13; [|done|apply holds_local_array; [constructor|done]].
Qed.

(** ** Properties *)
(** [encodeString] produces the bencoding of a string of up to [BUFFSIZE]
    bytes exactly if it fits the 80 bytes it allocates, and then [be_decode]
    gives the string back; otherwise it writes out of bounds. *)
Theorem encodeString_roundtrip junk s m :
  no_nul s -> zlen s <= BUFFSIZE ->
  (zlen (enc_str s) < 80 -> exists buf, encodeString junk (s ++ 0 :: m) = Ok buf /\ zlen buf = 80 /\
     exists rest, be_decode buf = Ok (Some (BE_STR (Some s)), 0 :: rest, 0)) /\
  (80 <= zlen (enc_str s) -> encodeString junk (s ++ 0 :: m) = Fault OutOfBounds).
Proof.
  intros Hs Hl. pose proof (encodeString_holds junk _ (s ++ 0 :: m) s (conj eq_refl (conj Hs (ex_intro _ m eq_refl))) Hl) as H.
  split; intros Hc.
  - rewrite (proj2 (Z.ltb_lt _ _) Hc) in H. destruct H as (buf & -> & Hb & _ & rest & ->).
    eexists. split; [done|]. split; [done|]. exists rest.
    pose proof (be_decode_encoded (VStr s) [] rest) as E. cbn [bencode] in E. rewrite app_nil_r in E. apply E.
    + unfold ranged, LLONG_MAX, BUFFSIZE in *. lia.
    + done.
    + unfold enc_str. apply no_nul_app. split; [apply udec_no_nul, zlen_nonneg|by constructor].
  - by rewrite (proj2 (Z.ltb_ge _ _) Hc) in H.
Qed.

Lemma encodeString_roundtrip_witness :
  (exists buf, encodeString 170 (str "Hello world" ++ [0]) = Ok buf /\ zlen buf = 80 /\
     exists rest, be_decode buf = Ok (Some (BE_STR (Some (str "Hello world"))), 0 :: rest, 0)) /\
  encodeString 170 (replicate 77 65 ++ [0]) = Fault OutOfBounds.
Proof.
  split.
  - apply (encodeString_roundtrip 170 (str "Hello world") []);
      [vm_compute; repeat constructor; discriminate|vm_compute; discriminate|reflexivity].
  - apply (encodeString_roundtrip 170 (replicate 77 65) []);
      [vm_compute; repeat constructor; discriminate|vm_compute; discriminate|vm_compute; discriminate].
Defined.

(** What [encodeFile] writes, on a machine that leaves a returned frame
    intact: for a target, an address and piece hashes (as far as they are text)
    short enough for the fixed buffers, the file is the bencoding of the
    metainfo dictionaries, with the length and the piece length as [int]s. *)
Theorem encodeFile_metainfo SHA1 junk PIECELENGTH name addr file p pm tm am :
  no_nul name -> zlen name < 90 -> no_nul addr -> zlen (enc_str addr) < 80 -> no_nul p ->
  hash_pieces SHA1 PIECELENGTH (S (length file)) file (replicate (Z.to_nat PIECELENGTH) junk) (local_array BUFFSIZE [])
    = Ok (p ++ 0 :: pm) ->
  let info := info_value name (to_int (zlen file)) (to_int PIECELENGTH) p in
  zlen (bencode info) < 80 ->
  exists fin, encodeFile SHA1 Ok junk PIECELENGTH (name ++ 0 :: tm) (addr ++ 0 :: am) (Some file) true =
    Ok (bencode (torrent_value addr info), Ok fin).
Proof.
  intros Hn Hln Ha Hla Hp Hh info Hl.
  eapply encodeFile_holds; [|done| |done|done| |done].
  - split; [reflexivity|]. split; [done|]. by exists tm.
  - split; [reflexivity|]. split; [done|]. by exists am.
  - split; [reflexivity|]. split; [done|]. by exists pm.
Qed.

Definition text_sha (m : bytes) : bytes := str "ab" ++ replicate 18 0.

Lemma encodeFile_metainfo_witness :
  exists fin, encodeFile text_sha Ok 0 256 (str "f" ++ [0]) (str "10.0.0.1" ++ [0]) (Some (str "hello")) true =
    Ok (str "d8:announce8:10.0.0.14:infod6:lengthi5e4:name1:f12:piece lengthi256e6:pieces2:abee", Ok fin).
Proof.
  apply (encodeFile_metainfo text_sha 0 256 (str "f") (str "10.0.0.1") (str "hello") (str "ab")
           (replicate (Z.to_nat 9997) 0) [] []);
    [vm_compute; repeat constructor; discriminate|reflexivity|vm_compute; repeat constructor; discriminate|reflexivity
    |vm_compute; repeat constructor; discriminate|vm_compute; reflexivity|reflexivity].
Defined.

(** Under the C standard, where the arrays of a function that has returned
    cannot be read, [encodeFile] never completes, for any arguments; nor does it
    on any machine for a hash function whose digests have no NUL, since they are
    appended as strings. *)
Theorem encodeFile_fails SHA1 dead junk PIECELENGTH target address file created r :
  unusable SHA1 dead -> encodeFile SHA1 dead junk PIECELENGTH target address file created <> Ok r.
Proof.
  intros Hu H. unfold encodeFile in H. do 8 step_res H. step_res H. by eapply infoDict_fails in Ha7.
Qed.

Lemma encodeFile_fails_witness :
  ~ exists r, encodeFile text_sha (fun _ => Fault UseAfterFree) 0 4 (str "f" ++ [0]) (str "10.0.0.1" ++ [0])
                (Some (str "hello")) true = Ok r.
Proof. intros [r H]. apply (encodeFile_fails text_sha (fun _ => Fault UseAfterFree) _ _ _ _ _ _ r) in H; [exact H|]. left. discriminate. Defined.
