(* ===== verification/TorrentFile.v ===== *)
(** * From encode.c to bencode.c: the way of a .torrent file

    [encodeFile] of Encode writes the file that [decodeFile] of Metainfo reads.
    Both are composed here, with an object large enough for the result of the
    reader and a machine that keeps the frames the writer returns. *)
From Stdlib Require Import ZArith Lia Bool String.
From stdpp Require Import base numbers option list.
From S2P Require Import Prelude CStr Bencode BencodeSpec Metainfo Encode.

(** the program that encodes [target], then the one that reads the result: the
    text that was written, and what is read back *)
Definition write_and_read (SHA1 : bytes -> bytes) (junk PIECELENGTH alloc : Z) (target address file : bytes)
    : res (bytes * res bt_info) :=
  let* (text, _) := encodeFile SHA1 Ok junk PIECELENGTH target address (Some file) true in
  Ok (text, decodeFile_in alloc (Readable text)).

(** ** Lemmas *)
(** a digest is appended up to its first NUL *)
Lemma cat_digest t m d r :
  no_nul t -> zlen d = 20 -> cat (t ++ 0 :: m) d = Ok r ->
  exists s m', r = (t ++ s) ++ 0 :: m' /\ no_nul s /\ zlen s <= 19.
Proof.
  intros Ht Hd H. unfold cat, strncat in H. rewrite cstr_app in H by done. cbn [res_bind] in H.
  apply res_bind_inv_Ok in H as (s & Hs & H).
  assert (no_nul s /\ exists e, d = s ++ 0 :: e) as [Hn [e ->]].
  { assert (forall k (d s : bytes), strn d k = Ok s -> (length d < k)%nat -> no_nul s /\ exists e, d = s ++ 0 :: e) as G.
    { clear. induction k as [|k IH]; intros d s H Hk; [lia|]. destruct d as [|b d]; [done|]. cbn [strn] in H.
      destruct (Z.eqb_spec b 0) as [->|Hb]; [injection H as <-; split; [constructor|by exists d]|].
      apply res_bind_inv_Ok in H as (s' & Hs & [= <-]). destruct (IH d s' Hs) as [Hn [e ->]]; [cbn in Hk; lia|].
      split; [by constructor|by exists e]. }
    eapply G; [exact Hs|]. unfold zlen in Hd. unfold BUFFSIZE. lia. }
  rewrite zlen_app, zlen_cons in Hd. pose proof (zlen_nonneg e).
  unfold blit in H. destruct (_ && _) eqn:Eb; [|done]. injection H as <-.
  exists s. eexists. split; [|split; [done|lia]].
  rewrite take_app_length' by (unfold zlen; lia). rewrite <- !app_assoc. cbn [app]. done.
Qed.

(** The hashes that are written: less than 20 bytes for each piece. *)
Lemma hash_pieces_length SHA1 PIECELENGTH : (forall m, zlen (SHA1 m) = 20) -> 0 < PIECELENGTH ->
  forall fuel file buffer t m r, no_nul t -> hash_pieces SHA1 PIECELENGTH fuel file buffer (t ++ 0 :: m) = Ok r ->
  exists p m', r = p ++ 0 :: m' /\ no_nul p /\ zlen p <= zlen t + 19 * (zlen file / PIECELENGTH + 1).
Proof.
  intros Hsha HP. induction fuel as [|fuel IH]; intros file buffer t m r Ht H; [done|]. cbn [hash_pieces] in H.
  apply res_bind_inv_Ok in H as (text & _ & H). apply res_bind_inv_Ok in H as (shas & Hc & H).
  destruct (cat_digest t m (SHA1 text) shas Ht (Hsha text) Hc) as (s & m' & -> & Hs & Hl).
  assert (no_nul (t ++ s)) as Hts by (by apply no_nul_app). pose proof (zlen_nonneg file).
  destruct (_ =? PIECELENGTH) eqn:E.
  - apply Z.eqb_eq in E. apply IH in H as (p & m'' & -> & Hp & Hpl); [|done]. exists p, m''. split; [done|]. split; [done|].
    assert (zlen (drop (Z.to_nat PIECELENGTH) file) = zlen file - PIECELENGTH) as Ed.
    { unfold zlen in *. rewrite length_take in E. rewrite length_drop. lia. }
    rewrite Ed in Hpl. replace (zlen file - PIECELENGTH) with (zlen file + (-1) * PIECELENGTH) in Hpl by lia.
    rewrite Z.div_add, zlen_app in Hpl by lia. lia.
  - injection H as <-. exists (t ++ s), m'. split; [done|]. split; [done|]. rewrite zlen_app.
    pose proof (Z.div_pos (zlen file) PIECELENGTH). lia.
Qed.

Lemma pieces_two len plen : 0 < plen -> plen < len -> len mod plen <> 0 -> 2 <= pieces_of len plen /\ pieces_of len plen = len / plen + 1.
Proof.
  intros Hp Hl Hm. pose proof (Z.div_mod len plen ltac:(lia)) as E. pose proof (Z.mod_pos_bound len plen Hp) as Hb.
  assert (pieces_of len plen = len / plen + 1) as ->.
  { unfold pieces_of. symmetry. apply (Z.div_unique _ _ _ (len mod plen - 1)); lia. }
  split; [|done]. assert (1 <= len / plen); [|lia]. apply Z.div_le_lower_bound; lia.
Qed.

Lemma enc_str_longer s : zlen s < zlen (enc_str s).
Proof. unfold enc_str. rewrite zlen_app, zlen_cons. pose proof (zlen_nonneg (udec (zlen s))). lia. Qed.

Lemma info_pieces_short name len plen p : zlen p < zlen (bencode (info_value name len plen p)).
Proof.
  rewrite bencode_info, !zlen_app. pose proof (enc_str_longer p).
  repeat match goal with |- context [zlen ?x] => lazymatch goal with H : 0 <= zlen x |- _ => fail | _ => pose proof (zlen_nonneg x) end end. lia.
Qed.

(** for every buffer size that suffices *)
Lemma write_and_read_cases SHA1 junk PIECELENGTH alloc name addr file p pm tm am :
  no_nul name -> zlen name < 90 -> no_nul addr -> zlen (enc_str addr) < 80 -> no_nul p ->
  hash_pieces SHA1 PIECELENGTH (S (length file)) file (replicate (Z.to_nat PIECELENGTH) junk) (local_array BUFFSIZE [])
    = Ok (p ++ 0 :: pm) ->
  zlen file <= INT_MAX -> 0 < PIECELENGTH <= INT_MAX -> sizeof_bt_info <= alloc ->
  zlen (bencode (info_value name (zlen file) PIECELENGTH p)) < 80 ->
  let n := pieces_of (zlen file) PIECELENGTH in
  exists text, write_and_read SHA1 junk PIECELENGTH alloc (name ++ 0 :: tm) (addr ++ 0 :: am) file =
    Ok (text, if 20 * n <=? zlen p + 1
              then Ok (Build_bt_info (Some addr) (Some name) (Some PIECELENGTH) (Some (zlen file)) (Some n)
                         (Some (digests (p ++ [0]) (Z.to_nat n))))
              else Fault OutOfBounds) /\
  ((forall m, zlen (SHA1 m) = 20) -> PIECELENGTH < zlen file -> zlen file mod PIECELENGTH <> 0 -> zlen p + 1 < 20 * n).
Proof.
  intros Hn Hln Ha Hla Hp Hh Hf HP Hal Hl n. pose proof (zlen_nonneg file).
  assert (to_int (zlen file) = zlen file /\ to_int PIECELENGTH = PIECELENGTH) as [E1 E2] by (split; apply to_int_id; bounds).
  pose proof (info_pieces_short name (zlen file) PIECELENGTH p). pose proof (enc_str_longer addr).
  destruct (encodeFile_holds SHA1 junk PIECELENGTH (zlen (name ++ 0 :: tm)) (name ++ 0 :: tm) name (zlen (addr ++ 0 :: am)) (addr ++ 0 :: am) addr
    file (zlen (p ++ 0 :: pm)) (p ++ 0 :: pm) p)
    as (fin & E); [by split; [|split; [|exists tm]]|done|by split; [|split; [|exists am]]|done|done|by split; [|split; [|exists pm]]
      |by rewrite E1, E2|].
  rewrite E1, E2 in E. eexists. split.
  - unfold write_and_read. rewrite E. cbn [res_bind]. do 2 f_equal.
    apply decodeFile_in_with; done || unfold FILE_NAME_MAX, LLONG_MAX; lia.
  - intros Hsha Hlong Hmod.
    destruct (hash_pieces_length SHA1 PIECELENGTH Hsha ltac:(lia) _ _ _ [] (replicate (Z.to_nat BUFFSIZE - 1) 0) _ (Forall_nil_2 _) Hh)
      as (p' & m' & Ep & Hp' & Hpl).
    pose proof (f_equal cstr Ep) as Ec. rewrite !cstr_app in Ec by done. injection Ec as <-.
    destruct (pieces_two (zlen file) PIECELENGTH ltac:(lia) Hlong Hmod) as [H2 En]. fold n in H2, En.
    change (zlen (@nil Z)) with 0 in Hpl. lia.
Qed.


Definition digest_19 (m : bytes) : bytes := take 19 (m ++ replicate 19 65) ++ [0].

