(* ===== verification/Programs.v ===== *)
(** * The programs around encode.c and bencode.c

    [encode_main] is [main] of src/src/encode.c, [encode_main2] that of the copy
    under torrent_encoding_decoding with its own [PIECELENGTH], and [decode_main]
    the program torrent_encoding_decoding/decode.c.  [shatest_main] is
    src/examples/sha1-example/shatest.c.  A command line is the list of its
    strings; SHA-1, dead frames and indeterminate memory are as in Encode. *)
From Stdlib Require Import ZArith Lia Bool String.
From stdpp Require Import base numbers option list.
From S2P Require Import Prelude CStr Bencode BencodeSpec Metainfo Util FileConstructor Encode TorrentFile.

Definition newline : bytes := [10].

(** ** encode.c *)
Section encode_main.
Variable SHA1 : bytes -> bytes.
Variable dead : bytes -> res bytes.
Variable junk : Z.

(** the four lines about a string and an integer *)
Definition print_examples : res bytes :=
  let* s := encodeString junk (str "Hello world" ++ [0]) in
  let* s := cstr s in
  let* n := encodeInt dead 12345 in
  let* n := cstr n in
  Ok (str "Original: Hello world" ++ newline ++ str "Bencoded String: " ++ s ++ newline ++ newline ++
      str "Original: 12345" ++ newline ++ str "Bencoded Int: " ++ n ++ newline ++ newline).

(** the contents of the torrent file, and the string printed of it *)
Definition encode_argv (PIECELENGTH : Z) (argv : list bytes) (file : option bytes) (created : bool) : res (bytes * bytes) :=
  match argv with
  | _ :: target :: address :: _ =>
      let* (text, ans) := encodeFile SHA1 dead junk PIECELENGTH target address file created in
      let* ans := ans in
      let* ans := cstr ans in
      Ok (text, ans)
  | _ => Fault NullDeref
  end.

(** [main] of src/src/encode.c: the torrent file and what is printed; [file] is
    the file named [argv[1]], of which the digest is taken as well *)
Definition encode_main (argv : list bytes) (file : option bytes) (created : bool) : res (bytes * bytes) :=
  let* out := print_examples in
  let* (text, ans) := encode_argv 256 argv file created in
  let* sha := fileSHA SHA1 dead file in
  let* sha := cstr sha in
  Ok (text, out ++ str "Torrent file of your input file: " ++ newline ++ ans ++ newline ++ newline ++
            str "SHA1 of torrent file: " ++ newline ++ sha ++ newline).

(** *** The copy *)
Definition PIECELENGTH2 : Z := 262144.

Definition infoDict2 (filename : bytes) (file : option bytes) : res bytes := infoDict SHA1 dead junk PIECELENGTH2 filename file.

Definition encodeFile2 (target address : bytes) (file : option bytes) (created : bool) : res (bytes * res bytes) :=
  encodeFile SHA1 dead junk PIECELENGTH2 target address file created.

Definition encode_main2 (argv : list bytes) (file : option bytes) (created : bool) : res (bytes * bytes) :=
  let* out := print_examples in
  let* (text, ans) := encode_argv PIECELENGTH2 argv file created in
  Ok (text, out ++ str "Torrent file of your input file: " ++ newline ++ ans ++ newline).
End encode_main.

(** ** decode.c *)
Definition target : bytes := str "moby_dick.txt.torrent".

(** an integer printed into an array of 80 bytes, which is then the format *)
Definition print_int (junk v : Z) : res bytes :=
  let* buf := blit (replicate 80 junk) 0 (dec v ++ [0]) in
  let* fmt := cstr buf in
  printf_format fmt.

(** [f] is the file named [target], [alloc] the size of the object of its
    contents (see Metainfo): what is printed *)
Definition decode_main (junk alloc : Z) (f : file) : res bytes :=
  let* ans := decodeFile_in alloc f in
  let* s := loaded (announce ans) in
  let* announce := printf_format s in
  let* s := loaded (name ans) in
  let* name := printf_format s in
  let* v := loaded (piece_length ans) in
  let* piecelength := print_int junk v in
  let* v := loaded (length_ ans) in
  let* length := print_int junk v in
  let* v := loaded (num_pieces ans) in
  let* pieces := print_int junk v in
  Ok (str "Original file: " ++ target ++ newline ++ str "Announce: " ++ announce ++ newline ++ str "Name: " ++ name ++ newline ++
      str "Piece Length: " ++ piecelength ++ newline ++ str "Length: " ++ length ++ newline ++
      str "Number of Pieces: " ++ pieces ++ newline).

(** ** shatest.c *)
Definition hex2 (b : Z) : bytes := [hex_digit (b / 16); hex_digit (b mod 16)].

(** the loop that prints the digest into [buf] *)
Fixpoint sha_hex (buf temp : bytes) (i : Z) (n : nat) {struct n} : res bytes :=
  match n with
  | O => Ok buf
  | S n =>
      let* t := rd temp i in
      let* buf := blit buf (i * 2) (hex2 t ++ [0]) in
      sha_hex buf temp (i + 1) n
  end.

(** the value [main] returns and what it prints *)
Definition shatest_main (SHA1 : bytes -> bytes) (argv : list bytes) : res (Z * bytes) :=
  match argv with
  | [] => Fault NullDeref
  | [_; arg] =>
      let buf := replicate (Z.to_nat (SHA_DIGEST_LENGTH * 2)) 0 in
      let* n := strlen arg in
      let* text := slice arg 0 n in
      let* temp := blit (replicate (Z.to_nat SHA_DIGEST_LENGTH) 0) 0 (SHA1 text) in
      let* buf := sha_hex buf temp 0 (Z.to_nat SHA_DIGEST_LENGTH) in
      let* hex := cstr buf in
      Ok (0, str "SHA1 of " ++ text ++ str " is " ++ hex ++ newline)
  | prog :: _ =>
      let* s := cstr prog in
      Ok (-1, str "Usage: " ++ s ++ str " string" ++ newline)
  end.

(** ** Lemmas: decode.c *)
Lemma dec_plain z : ~ In 37 (dec z).
Proof.
  assert (Forall (fun c => c <> 37) (dec z)) as H37; [|rewrite Forall_forall in H37; intros Hi; exact (H37 37 (proj2 (list_elem_of_In _ _) Hi) eq_refl)].
  assert (forall n, 0 <= n -> Forall (fun c => c <> 37) (udec n)) as H.
  { intros n Hn. destruct (udec_spec n Hn) as (d & s & -> & Hs & _). eapply Forall_impl; [exact Hs|].
    intros c Hc%isdigit_range. lia. }
  unfold dec. destruct (Z.ltb_spec z 0); [constructor; [done|]|]; apply H; lia.
Qed.

Lemma print_int_ok junk v : is_int v -> print_int junk v = Ok (dec v).
Proof.
  intros Hv. unfold print_int. pose proof (dec_length v Hv). pose proof (zlen_nonneg (dec v)).
  destruct (strcpy_holds 80 (replicate 80 junk) _ _ (dec v) eq_refl (holds_lit _ (dec_no_nul v))) as (b & Hb & Hh); [lia|].
  unfold strcpy in Hb. rewrite cstr_app in Hb by apply dec_no_nul. cbn [res_bind] in Hb.
  rewrite Hb. cbn [res_bind]. rewrite (holds_cstr _ _ _ Hh). apply printf_format_plain, dec_plain.
Qed.

(** ** Lemmas: decode.c on a result *)
Definition decode_lines (ann nm : bytes) (plen len n : Z) : bytes :=
  str "Original file: " ++ target ++ newline ++ str "Announce: " ++ ann ++ newline ++ str "Name: " ++ nm ++ newline ++
  str "Piece Length: " ++ dec plen ++ newline ++ str "Length: " ++ dec len ++ newline ++
  str "Number of Pieces: " ++ dec n ++ newline.

Lemma decode_main_fields junk alloc f ann nm plen len n hashes :
  decodeFile_in alloc f = Ok (Build_bt_info (Some ann) (Some nm) (Some plen) (Some len) (Some n) hashes) ->
  is_int plen -> is_int len -> is_int n ->
  decode_main junk alloc f = let* a := printf_format ann in let* b := printf_format nm in Ok (decode_lines a b plen len n).
Proof.
  intros E Hp Hl Hn. unfold decode_main. rewrite E. cbn [res_bind loaded announce name piece_length length_ num_pieces].
  destruct (printf_format ann) as [a| |]; cbn [res_bind]; [|done..]. destruct (printf_format nm) as [b| |]; cbn [res_bind]; [|done..].
  by rewrite !print_int_ok by done.
Qed.

Lemma pieces_of_int len plen : 0 <= len <= INT_MAX -> 0 < plen <= INT_MAX -> is_int (pieces_of len plen).
Proof.
  intros Hl Hp. unfold pieces_of. assert (0 <= (len + plen - 1) / plen) by (apply Z.div_pos; lia).
  assert ((len + plen - 1) / plen < len + 1) by (apply Z.div_lt_upper_bound; nia). bounds.
Qed.

(** ** Lemmas: what the encoder has done when it ends *)
Lemma cat_Ok_holds cap buf s tcap tbuf t r :
  holds cap buf s -> holds tcap tbuf t -> cap <= BUFFSIZE + 1 -> zlen t <= BUFFSIZE -> cat buf tbuf = Ok r ->
  holds cap r (s ++ t).
Proof.
  intros Hs Ht Hc Hl E. destruct (Z.lt_ge_cases (zlen s + zlen t) cap) as [H|H].
  - destruct (cat_holds _ _ _ _ _ _ Hs Ht H Hc) as (b & E' & Hb). congruence.
  - rewrite (cat_overflow _ _ _ _ _ _ Hs Ht H Hl) in E. discriminate.
Qed.

Lemma encodeString_Ok_holds junk cap input s r :
  holds cap input s -> zlen s <= BUFFSIZE -> encodeString junk input = Ok r -> holds 80 r (enc_str s).
Proof.
  intros Hi Hl E. pose proof (encodeString_holds junk cap input s Hi Hl) as H.
  destruct (zlen (enc_str s) <? 80); [destruct H as (b & E' & Hb)|]; congruence.
Qed.

Lemma holds_short cap buf s : holds cap buf s -> zlen s < cap.
Proof. intros (Hc & _ & m & ->). rewrite zlen_app, zlen_cons in Hc. pose proof (zlen_nonneg m). lia. Qed.

Lemma strcpy_Ok_holds cap dst tcap tbuf t r :
  zlen dst = cap -> holds tcap tbuf t -> strcpy dst tbuf = Ok r -> zlen t < cap.
Proof.
  intros Hd (_ & Ht & m & ->) E. unfold strcpy in E. rewrite cstr_app in E by done. cbn [res_bind] in E.
  unfold blit in E. destruct (_ && _) eqn:Eb; [|done]. apply andb_true_iff in Eb as [_ Eb%Z.leb_le].
  rewrite zlen_app in Eb. change (zlen [0]) with 1 in Eb. lia.
Qed.

(** the steps of [infoDict] backwards: [H] is what holds of the buffer so far *)
Ltac cat_back H Ht E :=
  let H' := fresh "H'" in
  pose proof (cat_Ok_holds _ _ _ _ _ _ _ H Ht ltac:(done) ltac:(pose proof (holds_short _ _ _ Ht); lia) E) as H';
  clear H E; rename H' into H.

Ltac lit_back H Es E lit :=
  let Hl := fresh "Hl" in
  assert (holds (zlen lit + 1) (lit ++ [0]) lit) as Hl by (apply holds_lit; repeat constructor; discriminate);
  apply (encodeString_Ok_holds _ _ _ _ _ Hl ltac:(vm_compute; discriminate)) in Es; cat_back H Es E; clear Hl Es.

Lemma hash_pieces_zlen SHA1 PIECELENGTH : forall fuel file buffer shas r,
  hash_pieces SHA1 PIECELENGTH fuel file buffer shas = Ok r -> zlen r = zlen shas.
Proof.
  induction fuel as [|fuel IH]; intros file buffer shas r H; [done|]. cbn [hash_pieces] in H. step_res H. step_res H.
  assert (zlen a0 = zlen shas) as <-.
  { unfold cat, strncat in Ha0. step_res Ha0. step_res Ha0. unfold blit in Ha0. destruct (_ && _) eqn:Eb; [|done].
    injection Ha0 as <-. apply andb_true_iff in Eb as [E0%Z.leb_le Eb%Z.leb_le]. unfold zlen in *.
    rewrite !length_app, length_take, length_drop. rewrite !length_app in *. cbn [length] in *. lia. }
  destruct (_ =? PIECELENGTH); [by eapply IH|by injection H as <-].
Qed.

Lemma infoDict_back SHA1 junk PIECELENGTH cap filename nm file r :
  (forall m, zlen (SHA1 m) = 20) -> 0 < PIECELENGTH -> holds cap filename nm -> zlen nm <= BUFFSIZE ->
  infoDict SHA1 Ok junk PIECELENGTH filename (Some file) = Ok r ->
  exists p pm, no_nul p /\
    hash_pieces SHA1 PIECELENGTH (S (length file)) file (replicate (Z.to_nat PIECELENGTH) junk) (local_array BUFFSIZE []) = Ok (p ++ 0 :: pm) /\
    holds BUFFSIZE r (bencode (info_value nm (to_int (zlen file)) (to_int PIECELENGTH) p)).
Proof.
  intros Hsha HP Hn Hl E. unfold infoDict in E.
  assert (holds BUFFSIZE (local_array BUFFSIZE (str "d")) (str "d")) as H
    by (apply holds_local_array; [repeat constructor; discriminate|done]).
  assert (80 < BUFFSIZE) as HB by done.
  do 2 step_res E. lit_back H Ha Ha0 (str "length").
  do 2 step_res E. destruct (encodeInt_holds (zlen file)) as (b & Eb & Hb). rewrite Eb in Ha. injection Ha as <-. cat_back H Hb Ha0. clear Eb Hb b.
  do 2 step_res E. lit_back H Ha Ha0 (str "name").
  do 2 step_res E. apply (encodeString_Ok_holds _ _ _ _ _ Hn Hl) in Ha. cat_back H Ha Ha0. clear Ha.
  do 2 step_res E. lit_back H Ha Ha0 (str "piece length").
  do 2 step_res E. destruct (encodeInt_holds PIECELENGTH) as (b' & Eb & Hb'). rewrite Eb in Ha. injection Ha as <-. cat_back H Hb' Ha0. clear Eb.
  do 2 step_res E. lit_back H Ha Ha0 (str "pieces").
  step_res E. pose proof (hash_pieces_zlen _ _ _ _ _ _ _ Ha) as Ez.
  destruct (hash_pieces_length SHA1 PIECELENGTH Hsha HP _ _ _ [] (replicate (Z.to_nat BUFFSIZE - 1) 0) _ (Forall_nil_2 _) Ha)
    as (p & pm & -> & Hp & _). exists p, pm. split; [done|]. split; [done|].
  assert (holds BUFFSIZE (p ++ 0 :: pm) p) as Hpb by (split; [by rewrite Ez|split; [done|by exists pm]]).
  do 2 step_res E. apply (encodeString_Ok_holds _ _ _ _ _ Hpb) in Ha0; [|apply Z.lt_le_incl, (holds_short _ _ _ Hpb)].
  cat_back H Ha0 Ha1. step_res E. injection E as <-.
  assert (holds 2 (str "e" ++ [0]) (str "e")) as He by (apply (holds_lit (str "e")); repeat constructor; discriminate).
  cat_back H He Ha1. rewrite bencode_info. by rewrite <- !app_assoc in H.
Qed.

Lemma fileSHA_text SHA1 file :
  fileSHA SHA1 Ok (Some file) = if zlen file <=? BUFFSIZE then Ok (SHA1 file) else Fault OutOfBounds.
Proof.
  unfold fileSHA. assert (zlen (local_array BUFFSIZE []) = BUFFSIZE) as E by done. pose proof (zlen_nonneg file).
  bdestruct (zlen file <=? BUFFSIZE).
  - unfold blit. rewrite E, (proj2 (Z.leb_le (0 + _) _)) by lia. cbn [Z.leb Z.compare andb res_bind]. rewrite take_0. cbn [app].
    by rewrite slice_prefix.
  - unfold blit. rewrite E, (proj2 (Z.leb_gt (0 + _) _)) by lia. by rewrite andb_false_r.
Qed.

Definition example_lines : bytes :=
  str "Original: Hello world" ++ newline ++ str "Bencoded String: 11:Hello world" ++ newline ++ newline ++
  str "Original: 12345" ++ newline ++ str "Bencoded Int: i12345e" ++ newline ++ newline.

Lemma print_examples_ok junk : print_examples Ok junk = Ok example_lines.
Proof. reflexivity. Qed.

(** what is printed of the torrent file is its contents *)
Lemma encode_argv_ok SHA1 junk PIECELENGTH prog target address rest file created text fin :
  encodeFile SHA1 Ok junk PIECELENGTH target address file created = Ok (text, fin) ->
  encode_argv SHA1 Ok junk PIECELENGTH (prog :: target :: address :: rest) file created = Ok (text, text).
Proof.
  intros E. unfold encode_argv. rewrite E. cbn [res_bind]. unfold encodeFile in E. do 16 step_res E.
  destruct created; [|done]. cbn [res_bind] in E. injection E as <- <-. cbn [res_bind]. rewrite Ha14. done.
Qed.

(** the row of the table that holds the info dictionary bounds it *)
Lemma encodeFile_back SHA1 junk PIECELENGTH cap target nm address file r :
  (forall m, zlen (SHA1 m) = 20) -> 0 < PIECELENGTH -> holds cap target nm -> zlen nm <= BUFFSIZE ->
  encodeFile SHA1 Ok junk PIECELENGTH target address (Some file) true = Ok r ->
  exists p pm, no_nul p /\
    hash_pieces SHA1 PIECELENGTH (S (length file)) file (replicate (Z.to_nat PIECELENGTH) junk) (local_array BUFFSIZE []) = Ok (p ++ 0 :: pm) /\
    zlen (bencode (info_value nm (to_int (zlen file)) (to_int PIECELENGTH) p)) < 80.
Proof.
  intros Hsha HP Ht Hl E. unfold encodeFile in E. do 8 step_res E. step_res E. step_res E.
  destruct (infoDict_back SHA1 junk PIECELENGTH cap target nm file a7 Hsha HP Ht Hl Ha7) as (p & pm & Hp & Hh & Hi).
  exists p, pm. split; [done|]. split; [done|]. by eapply strcpy_Ok_holds; [|exact Hi|exact Ha8].
Qed.

(** with the name of the file that decode.c reads there is no room for a digest *)
Lemma moby_dick_info len p :
  zlen (bencode (info_value (str "moby_dick.txt") len PIECELENGTH2 p)) < 80 -> zlen p < 19.
Proof.
  rewrite bencode_info, !zlen_app. intros H. pose proof (enc_str_longer p). pose proof (zlen_nonneg (enc_int len)).
  change (zlen (str "d")) with 1 in H. change (zlen (enc_str (str "length"))) with 8 in H.
  change (zlen (enc_str (str "name"))) with 6 in H. change (zlen (enc_str (str "moby_dick.txt"))) with 16 in H.
  change (zlen (enc_str (str "piece length"))) with 15 in H. change (zlen (enc_int PIECELENGTH2)) with 8 in H.
  change (zlen (enc_str (str "pieces"))) with 8 in H. change (zlen (str "e")) with 1 in H.
  assert (3 <= zlen (enc_int len)); [|lia]. unfold enc_int. rewrite zlen_cons, zlen_app. change (zlen [101]) with 1.
  assert (1 <= zlen (dec len)); [|lia]. unfold dec. destruct (len <? 0) eqn:El.
  - rewrite zlen_cons. pose proof (zlen_nonneg (udec (- len))). lia.
  - destruct (udec_spec len) as (d & s & -> & _); [apply Z.ltb_ge in El; lia|]. rewrite zlen_cons. pose proof (zlen_nonneg s). lia.
Qed.

(** ** Lemmas: shatest.c *)
Lemma zlen_hex t : zlen (concat (map hex2 t)) = zlen t * 2.
Proof. induction t as [|c t IH]; [done|]. cbn [map concat]. rewrite zlen_app, IH, zlen_cons. change (zlen (hex2 c)) with 2. lia. Qed.

(** the array with the digits of [t1] printed *)
Lemma sha_hex_step t1 b t2 x y z rest n :
  sha_hex (concat (map hex2 t1) ++ x :: y :: z :: rest) (t1 ++ b :: t2) (zlen t1) (S n) =
  sha_hex (concat (map hex2 (t1 ++ [b])) ++ 0 :: rest) ((t1 ++ [b]) ++ t2) (zlen (t1 ++ [b])) n.
Proof.
  cbn [sha_hex]. rewrite rd_app_mid. cbn [res_bind].
  rewrite (blit_at (concat (map hex2 t1)) [x; y; z] rest) by (done || by rewrite zlen_hex). cbn [res_bind].
  rewrite map_app, concat_app, <- !app_assoc, zlen_app. done.
Qed.

(** the rest of the array behind the digits: the last call has put a NUL there *)
Definition hex_rest (t2 rest : bytes) : bytes :=
  match t2 with [] => rest | _ => 0 :: drop (S (2 * length t2)) rest end.

Lemma sha_hex_fits t2 : forall t1 rest, 2 * zlen t2 < zlen rest ->
  sha_hex (concat (map hex2 t1) ++ rest) (t1 ++ t2) (zlen t1) (length t2) = Ok (concat (map hex2 (t1 ++ t2)) ++ hex_rest t2 rest).
Proof.
  induction t2 as [|b t2 IH]; intros t1 rest Hr; cbn [length]; [by rewrite app_nil_r|].
  destruct rest as [|x [|y [|z rest]]]; [exfalso; unfold zlen in *; cbn in Hr; lia..|]. rewrite sha_hex_step.
  rewrite IH by (rewrite !zlen_cons in *; lia). rewrite <- app_assoc. do 2 f_equal. destruct t2 as [|c t2]; [done|].
  cbn [hex_rest length]. f_equal. change (drop (S (S ?n)) (x :: y :: z :: rest)) with (drop n (z :: rest)).
  replace (2 * S (S (length t2)))%nat with (S (S (2 * S (length t2)))) by lia. done.
Qed.

(** without room for that NUL the last call writes behind the array *)
Lemma sha_hex_overflows t2 : forall t1 rest, t2 <> [] -> zlen rest = 2 * zlen t2 ->
  sha_hex (concat (map hex2 t1) ++ rest) (t1 ++ t2) (zlen t1) (length t2) = Fault OutOfBounds.
Proof.
  induction t2 as [|b t2 IH]; intros t1 rest H0 Hr; [done|]. cbn [length]. destruct t2 as [|c t2].
  - destruct rest as [|x [|y [|z rest]]]; [exfalso; unfold zlen in *; cbn in Hr; lia..| |exfalso; unfold zlen in *; cbn in Hr; lia].
    cbn [sha_hex length]. rewrite rd_app_mid. cbn [res_bind]. unfold blit.
    rewrite (proj2 (Z.leb_gt (_ + _) _)); [by rewrite andb_false_r|]. rewrite zlen_app, zlen_hex. unfold zlen. cbn. lia.
  - destruct rest as [|x [|y [|z rest]]]; [exfalso; unfold zlen in *; cbn in Hr; lia..|]. rewrite sha_hex_step.
    apply IH; [done|]. rewrite !zlen_cons in *. lia.
Qed.

(** ** Properties *)
(** The digest of a command line is never printed: the array for its 40 digits
    has no room for the NUL behind them.  With one byte more it would hold them. *)
Theorem shatest_overflows SHA1 prog arg m extra :
  no_nul arg -> zlen (SHA1 arg) = 20 ->
  shatest_main SHA1 [prog; arg ++ 0 :: m] = Fault OutOfBounds /\
  sha_hex (replicate 40 0 ++ extra :: []) (SHA1 arg) 0 20 = Ok (concat (map hex2 (SHA1 arg)) ++ [0]).
Proof.
  intros Ha Hs. assert (length (SHA1 arg) = 20%nat) as El by (unfold zlen in Hs; lia). split.
  - unfold shatest_main. rewrite strlen_app by done. cbn [res_bind]. rewrite slice_prefix by done. cbn [res_bind].
    pose proof (blit_prefix (replicate 20 0) [] (SHA1 arg)) as E. rewrite !app_nil_r in E.
    change (Z.to_nat SHA_DIGEST_LENGTH) with 20%nat. rewrite E by (by rewrite zlen_replicate). cbn [res_bind].
    pose proof (sha_hex_overflows (SHA1 arg) [] (replicate 40 0)) as H. rewrite El in H. cbn [map concat app] in H.
    change (Z.to_nat (SHA_DIGEST_LENGTH * 2)) with 40%nat. change (zlen []) with 0 in H. rewrite H; [done|by intros E0; rewrite E0 in El|].
    rewrite Hs. done.
  - pose proof (sha_hex_fits (SHA1 arg) [] (replicate 40 0 ++ [extra])) as H. rewrite El in H. cbn [map concat app] in H.
    change (zlen []) with 0 in H. rewrite H by (by rewrite Hs). do 2 f_equal. destruct (SHA1 arg) as [|c l]; [done|].
    cbn [hex_rest length] in *. rewrite El. done.
Qed.

Lemma shatest_overflows_witness :
  shatest_main (fun _ => replicate 20 171) [str "shatest" ++ [0]; str "hello" ++ [0]] = Fault OutOfBounds /\
  sha_hex (replicate 40 0 ++ [7]) (replicate 20 171) 0 20 = Ok (concat (map hex2 (replicate 20 171)) ++ [0]).
Proof.
  apply (shatest_overflows (fun _ => replicate 20 171) (str "shatest" ++ [0]) (str "hello") [] 7);
    [vm_compute; repeat constructor; discriminate|reflexivity].
Defined.

(** What the encoder prints: the two examples, the torrent file as it was
    written, and the digest of the file that was encoded (not of the torrent
    file, as the text says) up to its first NUL; a file of more than 10000 bytes
    is read behind the buffer of [fileSHA]. *)
Theorem encode_main_prints SHA1 junk prog name addr file p pm tm am :
  no_nul name -> zlen name < 90 -> no_nul addr -> zlen (enc_str addr) < 80 -> no_nul p ->
  hash_pieces SHA1 256 (S (length file)) file (replicate (Z.to_nat 256) junk) (local_array BUFFSIZE []) = Ok (p ++ 0 :: pm) ->
  let info := info_value name (to_int (zlen file)) 256 p in
  zlen (bencode info) < 80 ->
  let text := bencode (torrent_value addr info) in
  encode_main SHA1 Ok junk [prog; name ++ 0 :: tm; addr ++ 0 :: am] (Some file) true =
  if zlen file <=? BUFFSIZE then
    let* sha := cstr (SHA1 file) in
    Ok (text, example_lines ++ str "Torrent file of your input file: " ++ newline ++ text ++ newline ++ newline ++
              str "SHA1 of torrent file: " ++ newline ++ sha ++ newline)
  else Fault OutOfBounds.
Proof.
  intros Hn Hln Ha Hla Hp Hh info Hl text. unfold encode_main. rewrite print_examples_ok. cbn [res_bind].
  destruct (encodeFile_holds SHA1 junk 256 (zlen (name ++ 0 :: tm)) (name ++ 0 :: tm) name (zlen (addr ++ 0 :: am)) (addr ++ 0 :: am) addr
    file (zlen (p ++ 0 :: pm)) (p ++ 0 :: pm) p)
    as (fin & E); [by split; [|split; [|exists tm]]|done|by split; [|split; [|exists am]]|done|done|by split; [|split; [|exists pm]]|done|].
  rewrite (encode_argv_ok SHA1 junk 256 prog _ _ [] (Some file) true _ _ E). cbn [res_bind].
  rewrite fileSHA_text. by destruct (zlen file <=? BUFFSIZE).
Qed.

Lemma encode_main_prints_witness :
  encode_main text_sha Ok 0 [str "encode" ++ [0]; str "f" ++ [0]; str "10.0.0.1" ++ [0]] (Some (str "hello")) true =
  Ok (str "d8:announce8:10.0.0.14:infod6:lengthi5e4:name1:f12:piece lengthi256e6:pieces2:abee",
      example_lines ++ str "Torrent file of your input file: " ++ newline ++
      str "d8:announce8:10.0.0.14:infod6:lengthi5e4:name1:f12:piece lengthi256e6:pieces2:abee" ++ newline ++ newline ++
      str "SHA1 of torrent file: " ++ newline ++ str "ab" ++ newline).
Proof.
  apply (encode_main_prints text_sha 0 (str "encode" ++ [0]) (str "f") (str "10.0.0.1") (str "hello") (str "ab")
           (replicate (Z.to_nat 9997) 0) [] []);
    [vm_compute; repeat constructor; discriminate|reflexivity|vm_compute; repeat constructor; discriminate|reflexivity
    |vm_compute; repeat constructor; discriminate|vm_compute; reflexivity|reflexivity].
Defined.

(** What the decoder prints of a well-formed metainfo file, in an object large
    enough: the two strings as formats, which is undefined when they have a
    conversion, and the three numbers. *)
Theorem decode_main_prints junk alloc ann nm len plen hashes :
  sizeof_bt_info <= alloc -> metainfo_ok ann nm len plen hashes ->
  decode_main junk alloc (Readable (bencode (metainfo ann nm len plen hashes))) =
  let* a := printf_format ann in let* n := printf_format nm in Ok (decode_lines a n plen len (pieces_of len plen)).
Proof.
  intros Ha Hok. eapply decode_main_fields; [by apply decodeFile_in_ok|..];
    destruct Hok as [_ _ Hlen Hplen _ _]; [bounds|bounds|by apply pieces_of_int].
Qed.

Lemma decode_main_prints_witness :
  decode_main 0 2072 (Readable (bencode (metainfo (str "10.7.24.69") (str "moby_dick.txt") 500 256 sample_hashes))) =
  Ok (decode_lines (str "10.7.24.69") (str "moby_dick.txt") 256 500 2).
Proof. exact (decode_main_prints 0 2072 _ _ 500 256 sample_hashes (Z.le_refl 2072) sample_metainfo_ok). Defined.


Definition zero_sha (m : bytes) : bytes := replicate 20 0.

