(* ===== verification/Torrent.v ===== *)
(** * The peer client (src/src/torrent.c)

    [main] as operations on its variables: the loop that connects to the peers
    of the tracker, the count at the head of the endless loop, the listener,
    what is done with the bytes received from a peer, and what is sent to a peer
    that is ready.  The results of [accept], [recv] and [poll] are arguments;
    the bytes sent are returned with the descriptor they go to.  An element of
    [connections] that was never initialised has an arbitrary content and a
    bitfield without any bytes.  All calls of [send] succeed (a failure exits). *)
From Stdlib Require Import ZArith Lia Bool String.
From stdpp Require Import base numbers option list.
From S2P Require Import Prelude CStr Util FileConstructor Btp Connection.

Definition MAX_PEERS : Z := 10.
Definition MAX_CONNECTIONS : Z := 500.
Definition LISTENER_PORT_NUMBER : Z := 30000.
Definition BUFSIZ : Z := 8192.

Definition file_sha : bytes := str "AAAAAAAAAAAAAAAAAAA1" ++ [0].
Definition own_id : bytes := str "00000000000000000001" ++ [0].

(** what [main] has read before its loops *)
Record config := mk_config {
  total_pieces_in_file : Z;
  piece_size_bytes : Z;
  own_handshake : bytes;
  junk_byte : Z;   (** the indeterminate byte of [verify_handshake] *)
  junk_mem : bytes;   (** the memory [get_piece_from_file] allocates *)
  remote_addr_room : Z (** what can be written from the address of the pointer [remote_addr] on *)
}.

Record client := mk_client {
  connections : list Connections;
  fds : list Z;
  bitfield_of_current_pieces : bytes;
  file_destination : option bytes;   (** [None]: the descriptor was never assigned *)
  max_peer_index : Z;
  peers_to_connect_to : Z;
  test_freed : bool;   (** the object [test] points to *)
  buffer : bytes
}.

Definition set_connections st v := mk_client v (fds st) (bitfield_of_current_pieces st) (file_destination st)
  (max_peer_index st) (peers_to_connect_to st) (test_freed st) (buffer st).
Definition set_fds st v := mk_client (connections st) v (bitfield_of_current_pieces st) (file_destination st)
  (max_peer_index st) (peers_to_connect_to st) (test_freed st) (buffer st).
Definition set_buffer st v := mk_client (connections st) (fds st) (bitfield_of_current_pieces st) (file_destination st)
  (max_peer_index st) (peers_to_connect_to st) (test_freed st) v.
Definition set_test_freed st v := mk_client (connections st) (fds st) (bitfield_of_current_pieces st) (file_destination st)
  (max_peer_index st) (peers_to_connect_to st) v (buffer st).
Definition set_peers st m p := mk_client (connections st) (fds st) (bitfield_of_current_pieces st) (file_destination st)
  m p (test_freed st) (buffer st).

(** [connections[i] = f(connections[i])] *)
Definition on_connection (st : client) (i : Z) (f : Connections -> res Connections) : res client :=
  let* c := rd (connections st) i in
  let* c := f c in
  let* cs := wr (connections st) i c in
  Ok (set_connections st cs).

(** the same for an operation that sends to [fds[k].fd] *)
Definition on_connection_send (st : client) (k i : Z) (f : Connections -> res (Connections * bytes))
  : res (client * list (Z * bytes)) :=
  let* fd := rd (fds st) k in
  let* c := rd (connections st) i in
  let* (c, out) := f c in
  let* cs := wr (connections st) i c in
  Ok (set_connections st cs, [(fd, out)]).

Definition set_piece_to_send (c : Connections) (n : Z) : Connections :=
  mk_connections (status_flags c) (requested_piece c) n (peerBitfield c).
Definition set_peerBitfield (c : Connections) (b : bytes) : Connections :=
  mk_connections (status_flags c) (requested_piece c) (piece_to_send c) b.

Section main.
Variable cfg : config.

Definition bitfieldLen : Z :=
  let total := total_pieces_in_file cfg in
  let len := Z.quot total 1 in
  if Z.quot total 8 * 8 =? total then len + 1 else len.
Definition bitfieldMsgLength : Z := 4 + 1 + bitfieldLen.

(** ** Handshakes *)
(** a peer that sent its bitfield behind the handshake: lines 155-168 and
    278-292; [k] is its place in [fds], [i] the one in [connections] *)
Definition handshake_with_bitfield (st : client) (k i : Z) : res (client * list (Z * bytes)) :=
  let* buf := Verify_handshake (junk_byte cfg) (buffer st) file_sha in
  let st := set_buffer st buf in
  let* b := Set_peerBitfield (buffer st) bitfieldMsgLength (total_pieces_in_file cfg) in
  let* st := on_connection st i (fun c => Ok (set_peerBitfield c b)) in
  let* c := rd (connections st) i in
  let* r := peerContainsUndownloadedPieces (peerBitfield c) (bitfield_of_current_pieces st) bitfieldLen in
  let* (st, out) := on_connection_send st k i (if 0 <? r then Send_interested true else Send_uninterested true) in
  Ok (set_buffer st (replicate (Z.to_nat BUFSIZ) 0), out).

(** a peer that sent only a handshake: lines 259-275 *)
Definition handshake_only (st : client) (i : Z) : res (client * list (Z * bytes)) :=
  let* buf := Verify_handshake (junk_byte cfg) (buffer st) file_sha in
  let st := set_buffer st (replicate (Z.to_nat BUFSIZ) 0) in
  let* bf_message := construct_bitfield_message (bitfield_of_current_pieces st)
                       (Z.quot (total_pieces_in_file cfg) 8) in
  let* hs := slice (own_handshake cfg) 0 FULLHANDSHAKELENGTH in
  let* bf := slice bf_message 0 bitfieldMsgLength in
  let* fd := rd (fds st) i in
  Ok (st, [(fd, hs ++ bf)]).

(** ** The peers of the tracker: the body of the loop of lines 116-171.
    [received] is what [recv] gives, [None] for -1.  [client_socket_wrapper]
    fills a [struct sockaddr_in] of 16 bytes at the address of a pointer. *)
Definition connect_peer (st : client) (i client_socket : Z) (connected : bool) (received : option bytes)
  : res (client * list (Z * bytes)) :=
  check* 16 <=? remote_addr_room cfg else OutOfBounds in
  let* f := wr (fds st) (i + 1) client_socket in
  let st := set_fds st f in
  let* st := on_connection st i (fun c => initialize_connection c (total_pieces_in_file cfg)) in
  if negb connected then Exit 1
  else
    let* hs := slice (own_handshake cfg) 0 FULLHANDSHAKELENGTH in
    match received with
    | None | Some [] => Exit 1
    | Some data =>
        let* buf := blit (buffer st) 0 data in
        let st := set_buffer st buf in
        let n := zlen data in
        if n =? FULLHANDSHAKELENGTH then
          let* _ := Verify_handshake (junk_byte cfg) (buffer st) file_sha in
          Ok (set_buffer st (replicate (Z.to_nat BUFSIZ) 0), [(client_socket, hs)])
        else if n =? FULLHANDSHAKELENGTH + bitfieldMsgLength then
          let* (st, out) := handshake_with_bitfield st (i + 1) i in
          Ok (st, (client_socket, hs) :: out)
        else Ok (st, [(client_socket, hs)])
    end.

Fixpoint connect_peers (st : client) (i : Z) (peers : list (Z * bool * option bytes))
  : res (client * list (Z * bytes)) :=
  match peers with
  | [] => Ok (st, [])
  | (s, connected, received) :: peers =>
      let* (st, out) := connect_peer st i s connected received in
      let* (st, outs) := connect_peers st (i + 1) peers in
      Ok (st, out ++ outs)
  end.

(** ** The head of the loop: lines 180-188 *)
(** [b & 255 == 1] is [b & (255 == 1)] *)
Fixpoint count_have (bitfield : bytes) (i : Z) (n : nat) (num_have_pieces : Z) : res Z :=
  match n with
  | O => Ok num_have_pieces
  | S n =>
      let* b := rd bitfield i in
      let cond := Z.land (to_char b) (Z.b2z (255 =? 1)) in
      count_have bitfield (i + 1) n (if negb (cond =? 0) then num_have_pieces + 1 else num_have_pieces)
  end.

(** whether "You have the entire file!" is printed *)
Definition have_entire_file (st : client) : res bool :=
  let total := total_pieces_in_file cfg in
  let* n := count_have (bitfield_of_current_pieces st) 0 (Z.to_nat total) 0 in
  Ok (n =? total).

(** ** The listener: lines 200-237; [accepted] is the result of [accept] *)
Definition on_listener (st : client) (accepted : Z) : res client :=
  if accepted =? -1 then Ok st
  else
    let* f := wr (fds st) 1 accepted in
    let* p := int_arith (peers_to_connect_to st + 1) in
    let* m := int_arith (max_peer_index st + 1) in
    Ok (set_peers (set_fds st f) m p).

(** ** A message: lines 296-366 *)
(** case HAVE: [test] is freed here, but not allocated again *)
Definition on_have (st : client) (i : Z) (msg : bytes) : res client :=
  if test_freed st then Fault UseAfterFree
  else
    let* test := load_int msg 5 in
    let byte_of_piece := Z.quot test 8 in
    let bit_of_piece := Z.rem test 8 in
    let* st := on_connection st i (fun c =>
      let* b := rd (peerBitfield c) byte_of_piece in
      let* v := int_shl 1 (7 - bit_of_piece) in
      let* bf := wr (peerBitfield c) byte_of_piece (to_uchar (Z.lor (to_char b) v)) in
      Ok (set_peerBitfield c bf)) in
    Ok (set_test_freed st true).

(** case PIECE: [verify_piece] is called without its third argument *)
Definition on_piece (st : client) (msg : bytes) : res client :=
  let* _ := load_int msg 5 in
  let* p := slice msg (5 + 5) (piece_size_bytes cfg) in
  let* buf := blit (buffer st) 0 p in
  Fault Uninit.

Definition on_message (st : client) (i : Z) : res client :=
  let* (msg, msgID, _) := get_next_msg (buffer st) in
  if msgID =? CHOKE then on_connection st i (fun c => Set_Flag c OWNCHOKE 1)
  else if msgID =? UNCHOKE then on_connection st i (fun c => Set_Flag c OWNCHOKE 0)
  else if msgID =? INTERESTED then on_connection st i (fun c => Set_Flag c PEERINTERESTED 1)
  else if msgID =? UNINTERESTED then on_connection st i (fun c => Set_Flag c PEERINTERESTED 0)
  else if msgID =? HAVE then on_have st i msg
  else if msgID =? BITFIELD then
    on_connection st i (fun c =>
      let* b := slice msg 5 (total_pieces_in_file cfg) in
      let* bf := blit (peerBitfield c) 0 b in
      Ok (set_peerBitfield c bf))
  else if msgID =? REQUEST then
    let* piece_index := load_int msg 5 in
    on_connection st i (fun c => Ok (set_piece_to_send c piece_index))
  else if msgID =? PIECE then on_piece st msg
  else if msgID =? CANCEL then on_connection st i (fun c => Ok (set_piece_to_send c (-1)))
  else Ok st.

(** ** Reception: lines 249-367; [None] is the result -1 *)
Definition on_receive (st : client) (i : Z) (received : option bytes) : res (client * list (Z * bytes)) :=
  match received with
  | None => Ok (st, [])
  | Some data =>
      let* buf := blit (buffer st) 0 data in
      let st := set_buffer st buf in
      let n := zlen data in
      if n =? 0 then
        let* f := wr (fds st) i (-1) in
        let* st := on_connection (set_fds st f) i (fun c => Set_Flag c CONNECTIONSTATUS 0) in
        Ok (st, [])
      else if n =? FULLHANDSHAKELENGTH then handshake_only st i
      else if n =? FULLHANDSHAKELENGTH + bitfieldMsgLength then handshake_with_bitfield st i i
      else let* st := on_message st i in Ok (st, [])
  end.

(** ** Sending: lines 369-437 *)
(** the loop of lines 417-424, which looks at the first byte of both
    bitfields; the result is [i] and [piece_index], if it was assigned *)
Fixpoint choose_piece (own peer : bytes) (i : Z) (n : nat) : res (Z * option Z) :=
  match n with
  | O => Ok (i, None)
  | S n =>
      let* o := deref own in
      let* p := deref peer in
      check* i <? 32 else Overflow in
      let own_have := Z.land (Z.shiftr (to_char o) i) 1 in
      let peer_have := Z.land (Z.shiftr (to_char p) i) 1 in
      if (own_have =? 0) && negb (peer_have =? 0) then Ok (i, Some i)
      else choose_piece own peer (i + 1) n
  end.

(** The second result is the value of the loop variable [i] afterwards. *)
Definition on_writable (st : client) (i : Z) : res (client * Z * list (Z * bytes)) :=
  let* c := rd (connections st) i in
  let bit k := negb (Z.land (Z.shiftr (status_flags c) k) 1 =? 0) in
  let pending_request := bit PENDINGREQUEST in
  let own_interested := bit OWNINTERESTED in
  let own_choke := bit OWNCHOKE in
  if bit PEERINTERESTED && (negb own_interested || pending_request) then
    if negb (bit PEERCHOKE) then
      let piece_num := piece_to_send c in
      if 0 <=? piece_num then
        let* (st, out) := on_connection_send st i i (fun c =>
          match file_destination st with
          | None => Fault Uninit
          | Some contents => Send_piece true c piece_num contents (piece_size_bytes cfg) (junk_mem cfg)
          end) in
        Ok (st, i, out)
      else Ok (st, i, [])
    else
      let* (st, out) := on_connection_send st i i (Send_unchoked true) in Ok (st, i, out)
  else if negb pending_request then
    let* r := peerContainsUndownloadedPieces (peerBitfield c) (bitfield_of_current_pieces st) bitfieldLen in
    if 0 <? r then
      if own_interested then
        if negb own_choke then
          let* (i, piece_index) := choose_piece (bitfield_of_current_pieces st) (peerBitfield c) 0
                                     (Z.to_nat (total_pieces_in_file cfg)) in
          match piece_index with
          | None => Fault Uninit
          | Some piece_index =>
              let* (st, out) := on_connection_send st i i (fun c => Send_request true c piece_index) in
              Ok (st, i, out)
          end
        else Ok (st, i, [])
      else
        let* (st, out) := on_connection_send st i i (Send_interested true) in Ok (st, i, out)
    else
      let* (st, out) := on_connection_send st i i (Send_uninterested true) in Ok (st, i, out)
  else Ok (st, i, []).

(** ** The loop over the peers: lines 239-439

    An event is what [recv] gives and whether [revents] has [POLLOUT], for one
    round of the loop (it is not used if the descriptor is closed); the run
    ends with the events, or when the condition of the loop fails. *)
Fixpoint peers_loop (st : client) (i : Z) (evs : list (option bytes * bool))
  : res (client * list (Z * bytes)) :=
  match evs with
  | [] => Ok (st, [])
  | (received, writable) :: evs' =>
      if i <? max_peer_index st + 1 then
        let* fd := rd (fds st) i in
        if fd <? 0 then peers_loop st (i + 1) evs'
        else
          let* (st, out1) := on_receive st i received in
          let* (st, i, out2) := (if writable then on_writable st i else Ok (st, i, [])) in
          let* (st, outs) := peers_loop st (i + 1) evs' in
          Ok (st, out1 ++ out2 ++ outs)
      else Ok (st, [])
  end.

(** One iteration of [while (1)] after a [poll] that returned [n_ready]; the
    listener is served if [accepted] is there. *)
Definition main_iteration (st : client) (n_ready : Z) (accepted : option Z) (evs : list (option bytes * bool))
  : res (client * list (Z * bytes)) :=
  let st := set_buffer st (replicate (Z.to_nat BUFSIZ) 0) in
  let* _ := have_entire_file st in
  if (n_ready =? -1) || (n_ready =? 0) then Ok (st, [])
  else
    let* st := match accepted with Some fd => on_listener st fd | None => Ok st end in
    peers_loop st 1 evs.
End main.

(** ** Lemmas: the table of connections *)
Lemma wr_Ok {A} (l : list A) i x l' :
  wr l i x = Ok l' -> 0 <= i < zlen l /\ l' = <[Z.to_nat i := x]> l.
Proof. unfold wr. destruct (_ && _) eqn:E; [|done]. intros [= <-]. split; [lia|done]. Qed.

Lemma wr_in_bounds {A} (l : list A) i x : 0 <= i < zlen l -> wr l i x = Ok (<[Z.to_nat i := x]> l).
Proof. intros Hi. unfold wr. by rewrite (proj2 (Z.leb_le 0 i)), (proj2 (Z.ltb_lt i (zlen l))) by lia. Qed.

(** what happens to the connections in [on_connection] *)
Lemma on_connection_Ok st i f st' :
  on_connection st i f = Ok st' -> exists c c', rd (connections st) i = Ok c /\ f c = Ok c' /\
    0 <= i < zlen (connections st) /\ st' = set_connections st (<[Z.to_nat i := c']> (connections st)).
Proof.
  unfold on_connection. intros H. step_res H. step_res H. step_res H. injection H as <-.
  apply wr_Ok in Ha1 as [Hi ->]. by exists a, a0.
Qed.

Lemma on_connection_rd st i f c c' :
  rd (connections st) i = Ok c -> f c = Ok c' ->
  exists st', on_connection st i f = Ok st' /\ st' = set_connections st (<[Z.to_nat i := c']> (connections st)) /\
    forall j, rd (connections st') j = if decide (j = i) then Ok c' else rd (connections st) j.
Proof.
  intros Hc Hf. assert (0 <= i < zlen (connections st)) as Hi.
  { apply rd_Ok in Hc as [? Hl]. apply lookup_lt_Some in Hl. unfold zlen. lia. }
  unfold on_connection. rewrite Hc. cbn [res_bind]. rewrite Hf. cbn [res_bind]. rewrite wr_in_bounds by done.
  eexists. split; [done|]. split; [done|]. intros j. by apply rd_insert.
Qed.

Section invariant.
Variable P : Connections -> Prop.

Lemma on_connection_Forall st i f st' :
  on_connection st i f = Ok st' -> (forall c c', P c -> f c = Ok c' -> P c') ->
  Forall P (connections st) -> Forall P (connections st').
Proof.
  intros H Hf HP. apply on_connection_Ok in H as (c & c' & Hc & Hfc & Hi & ->). cbn [connections set_connections].
  apply Forall_insert; [done|]. apply (Hf c); [|done]. apply rd_Ok in Hc as [_ Hl]. by eapply Forall_lookup_1.
Qed.

Lemma on_connection_send_Forall st k i f st' out :
  on_connection_send st k i f = Ok (st', out) -> (forall c c' o, P c -> f c = Ok (c', o) -> P c') ->
  Forall P (connections st) -> Forall P (connections st').
Proof.
  unfold on_connection_send. intros H Hf HP. step_res H. step_res H. step_res H. destruct a1 as [c' o].
  step_res H. injection H as <- <-. apply wr_Ok in Ha2 as [Hi ->]. cbn [connections set_connections].
  apply Forall_insert; [done|]. apply (Hf a0 c' o); [|done].
  apply rd_Ok in Ha0 as [_ Hl]. by eapply Forall_lookup_1.
Qed.
End invariant.

(** ** Reachable states *)
Section steps.
Variable cfg : config.

Inductive step : client -> client -> Prop :=
  | step_connect st i s ok r st' out : connect_peer cfg st i s ok r = Ok (st', out) -> step st st'
  | step_listener st fd st' : on_listener st fd = Ok st' -> step st st'
  | step_receive st i r st' out : on_receive cfg st i r = Ok (st', out) -> step st st'
  | step_writable st i st' i' out : on_writable cfg st i = Ok (st', i', out) -> step st st'
  | step_clear st : step st (set_buffer st (replicate (Z.to_nat BUFSIZ) 0)).

Inductive reachable (st : client) : client -> Prop :=
  | reach_refl : reachable st st
  | reach_step st1 st2 : reachable st st1 -> step st1 st2 -> reachable st st2.

(** a peer whose choke flag is set also has the own choke flag set *)
Definition choked (c : Connections) : Prop :=
  is_char (status_flags c) /\ (flag c PEERCHOKE = true -> flag c OWNCHOKE = true).

Lemma choked_flags c c' :
  choked c -> is_char (status_flags c') ->
  (flag c' PEERCHOKE = true -> flag c PEERCHOKE = true) -> (flag c OWNCHOKE = true -> flag c' OWNCHOKE = true) ->
  choked c'.
Proof. intros [_ H] Hc H1 H2. split; [done|]. auto. Qed.

Lemma choked_op c op c' o : choked c -> conn_step c op = Ok (c', o) -> choked c'.
Proof.
  intros Hc H. apply conn_step_spec in H as (Hc' & _ & Hf & _); [|apply Hc].
  apply (choked_flags c); [done|done|..]; rewrite Hf by done; intros E; [|by rewrite E, orb_true_r].
  by destruct op.
Qed.

Lemma choked_Set_Flag c f s c' : choked c -> 0 <= f < 8 -> f <> PEERCHOKE -> Set_Flag c f s = Ok c' -> choked c'.
Proof.
  intros Hc Hf Hne H. unfold Set_Flag in H. destruct (s =? 1); [|destruct (s =? 0); [|by injection H as <-]].
  - rewrite int_shl_1 in H by lia. injection H as <-. unfold PEERCHOKE in Hne.
    apply (choked_flags c); [done|apply or_flags_char|..]; unfold flag, or_flags; cbn [status_flags set_status_flags];
      rewrite or_bit by (apply Hc || done); intros E; [|by rewrite E, orb_true_r].
    by rewrite (proj2 (Z.eqb_neq PEERCHOKE f)) in E.
  - rewrite int_shl_0 in H by lia. injection H as <-. unfold and_flags. rewrite Z.land_0_r.
    split; [split; [discriminate|done]|]. done.
Qed.

Lemma choked_same_flags c c' : status_flags c' = status_flags c -> choked c -> choked c'.
Proof. unfold choked, flag. by intros ->. Qed.

Lemma char_bit z i : 0 <= i < 8 -> Z.testbit (to_char z) i = Z.testbit z i.
Proof.
  intros Hi. rewrite <- (Z.mod_pow2_bits_low (to_char z) 8), <- (Z.mod_pow2_bits_low z 8) by lia. f_equal.
  apply (wrap_s_congr 8). lia.
Qed.

Lemma choked_initialize c n c' : initialize_connection c n = Ok c' -> choked c'.
Proof.
  unfold initialize_connection. destruct (0 <=? _); [|done]. intros [= <-]. split; [apply to_char_range|].
  intros _. unfold flag. cbn [status_flags or_flags set_status_flags].
  rewrite char_bit by done. by rewrite Z.lor_spec, orb_true_r.
Qed.

Abbreviation all_choked st := (Forall choked (connections st)).

Lemma send_choked st k i op st' out :
  on_connection_send st k i (fun c => conn_step c op) = Ok (st', out) -> all_choked st -> all_choked st'.
Proof.
  intros H HP. eapply on_connection_send_Forall; [exact H| |exact HP]. intros c c' o Hc Ho. exact (choked_op c op c' o Hc Ho).
Qed.

Lemma handshake_with_bitfield_choked st k i st' out :
  handshake_with_bitfield cfg st k i = Ok (st', out) -> all_choked st -> all_choked st'.
Proof.
  unfold handshake_with_bitfield. intros H HP. step_res H. step_res H. step_res H. step_res H. step_res H. step_res H.
  destruct a4 as [st4 o]. injection H as <- <-. cbn [connections set_buffer].
  assert (all_choked a1) as H1.
  { eapply on_connection_Forall; [exact Ha1| |exact HP]. intros c c' Hc [= <-]. by apply (choked_same_flags c). }
  eapply (send_choked _ _ _ (if 0 <? a3 then OpInterested else OpUninterested)); [|exact H1].
  rewrite <- Ha4. f_equal. by destruct (0 <? a3).
Qed.

Lemma on_message_choked st i st' : on_message cfg st i = Ok st' -> all_choked st -> all_choked st'.
Proof.
  unfold on_message. intros H HP. step_res H. destruct a as [[msg id] n].
  assert (forall f s, 0 <= f < 8 -> f <> PEERCHOKE -> on_connection st i (fun c => Set_Flag c f s) = Ok st' -> all_choked st') as Hset.
  { intros f s Hf Hne Hc. eapply on_connection_Forall; [exact Hc| |exact HP]. intros c c' Hp Hs. exact (choked_Set_Flag c f s c' Hp Hf Hne Hs). }
  assert (forall g, (forall c c', g c = Ok c' -> status_flags c' = status_flags c) ->
    on_connection st i g = Ok st' -> all_choked st') as Hsame.
  { intros g Hg Hc. eapply on_connection_Forall; [exact Hc| |exact HP]. intros c c' Hp Hgc.
    apply (choked_same_flags c); [by apply Hg|done]. }
  destruct (id =? CHOKE); [by apply (Hset OWNCHOKE 1)|]. destruct (id =? UNCHOKE); [by apply (Hset OWNCHOKE 0)|].
  destruct (id =? INTERESTED); [by apply (Hset PEERINTERESTED 1)|].
  destruct (id =? UNINTERESTED); [by apply (Hset PEERINTERESTED 0)|].
  destruct (id =? HAVE).
  { unfold on_have in H. destruct (test_freed st); [done|]. step_res H. step_res H. injection H as <-.
    cbn [connections set_test_freed]. eapply on_connection_Forall; [exact Ha1| |exact HP].
    intros c c' Hp Hgc. do 3 step_res Hgc. injection Hgc as <-. by apply (choked_same_flags c). }
  destruct (id =? BITFIELD).
  { eapply Hsame; [|exact H]. intros c c' Hgc. do 2 step_res Hgc. by injection Hgc as <-. }
  destruct (id =? REQUEST).
  { step_res H. eapply Hsame; [|exact H]. intros c c' [= <-]. done. }
  destruct (id =? PIECE); [unfold on_piece in H; by do 3 step_res H|].
  destruct (id =? CANCEL); [|by injection H as <-]. eapply Hsame; [|exact H]. intros c c' [= <-]. done.
Qed.

Lemma on_receive_choked st i r st' out : on_receive cfg st i r = Ok (st', out) -> all_choked st -> all_choked st'.
Proof.
  unfold on_receive. destruct r as [data|]; [|by intros [= <- <-]]. intros H HP. step_res H.
  destruct (zlen data =? 0).
  { step_res H. step_res H. injection H as <- <-. eapply on_connection_Forall; [exact Ha1| |exact HP].
    intros c c' Hc Hf. refine (choked_Set_Flag c CONNECTIONSTATUS 0 c' Hc _ _ Hf); done. }
  destruct (zlen data =? _).
  { unfold handshake_only in H. do 5 step_res H. by injection H as <- <-. }
  destruct (zlen data =? _); [by eapply handshake_with_bitfield_choked|].
  step_res H. injection H as <- <-. by eapply on_message_choked.
Qed.

Lemma on_writable_choked st i st' i' out :
  on_writable cfg st i = Ok (st', i', out) -> all_choked st -> all_choked st'.
Proof.
  unfold on_writable. intros H HP. step_res H.
  destruct (_ && _).
  - destruct (negb _).
    + destruct (0 <=? _); [|by injection H as <- <- <-]. step_res H. destruct a0 as [st1 o]. injection H as <- <- <-.
      destruct (file_destination st) as [contents|] eqn:Ef.
      * by eapply (send_choked _ _ _ (OpPiece _ _ _ _)).
      * unfold on_connection_send in Ha0. by do 3 step_res Ha0.
    + step_res H. destruct a0 as [st1 o]. injection H as <- <- <-. by eapply (send_choked _ _ _ OpUnchoked).
  - destruct (negb _); [|by injection H as <- <- <-]. step_res H. destruct (0 <? a0).
    + destruct (negb _).
      * destruct (negb _); [|by injection H as <- <- <-]. step_res H. destruct a1 as [j [q|]]; [|done].
        step_res H. destruct a1 as [st1 o]. injection H as <- <- <-. by eapply (send_choked _ _ _ (OpRequest _)).
      * step_res H. destruct a1 as [st1 o]. injection H as <- <- <-. by eapply (send_choked _ _ _ OpInterested).
    + step_res H. destruct a1 as [st1 o]. injection H as <- <- <-. by eapply (send_choked _ _ _ OpUninterested).
Qed.

Lemma connect_peer_choked st i s ok r st' out :
  connect_peer cfg st i s ok r = Ok (st', out) -> all_choked st -> all_choked st'.
Proof.
  unfold connect_peer. intros H HP. destruct (16 <=? _); [|done]. step_res H. step_res H.
  assert (all_choked a0) as H0.
  { eapply on_connection_Forall; [exact Ha0| |exact HP]. intros c c' _ Hc. exact (choked_initialize c _ c' Hc). }
  destruct (negb ok); [done|]. step_res H. destruct r as [[|b data]|]; [done| |done]. step_res H.
  destruct (zlen _ =? _); [step_res H; by injection H as <- <-|].
  destruct (zlen _ =? _); [|by injection H as <- <-].
  step_res H. destruct a3 as [st3 o]. injection H as <- <-. by eapply handshake_with_bitfield_choked.
Qed.

Lemma on_listener_choked st fd st' : on_listener st fd = Ok st' -> all_choked st -> all_choked st'.
Proof. unfold on_listener. destruct (fd =? -1); [by intros [= <-]|]. intros H. do 3 step_res H. by injection H as <-. Qed.

Lemma step_choked st st' : step st st' -> all_choked st -> all_choked st'.
Proof.
  intros [st0 i s ok r st0' out H|st0 fd st0' H|st0 i r st0' out H|st0 i st0' i' out H|st0].
  - by eapply connect_peer_choked.
  - by eapply on_listener_choked.
  - by eapply on_receive_choked.
  - by eapply on_writable_choked.
  - done.
Qed.

Lemma reachable_choked st st' : reachable st st' -> all_choked st -> all_choked st'.
Proof. induction 1 as [|st1 st2 _ IH Hs]; [done|]. intros HP. eapply step_choked; [done|]. by apply IH. Qed.
End steps.

(** ** Lemmas: messages *)
Definition control (m : message) : bool :=
  match m with Have _ | Bitfield _ | Piece _ _ _ => false | _ => true end.

Definition flag_after (m : message) (c : Connections) (k : Z) : bool :=
  match m with
  | Choke => (k =? OWNCHOKE) || flag c k
  | Interested => (k =? PEERINTERESTED) || flag c k
  | Unchoke | Uninterested => false
  | _ => flag c k
  end.

Definition piece_after (m : message) (c : Connections) : Z :=
  match m with Request p _ _ => p | Cancel _ _ _ => -1 | _ => piece_to_send c end.

(** the function of the connection a control message is dispatched to *)
Definition control_action (m : message) (c : Connections) : res Connections :=
  match m with
  | Choke => Set_Flag c OWNCHOKE 1
  | Unchoke => Set_Flag c OWNCHOKE 0
  | Interested => Set_Flag c PEERINTERESTED 1
  | Uninterested => Set_Flag c PEERINTERESTED 0
  | Request p _ _ => Ok (set_piece_to_send c p)
  | Cancel _ _ _ => Ok (set_piece_to_send c (-1))
  | _ => Ok c
  end.

Lemma on_message_control cfg st i m msg rest :
  control m = true -> message_ok m -> construct m = Ok msg -> buffer st = msg ++ rest ->
  on_message cfg st i = on_connection st i (control_action m).
Proof.
  intros Hc Hm Hmsg Hb. unfold on_message. rewrite Hb. destruct m; try discriminate Hc.
  1-4: match goal with |- context [control_action ?m] =>
         assert (msg = frame (msg_id m) []) as -> by (by injection Hmsg);
         by rewrite (get_next_msg_frame (msg_id m) [] rest) by done end.
  - destruct Hm as (Hi & Ho & Hl).
    assert (msg = frame REQUEST (le 4 piece_index ++ le 4 blockoffset ++ le 4 blocklength)) as -> by (by injection Hmsg).
    rewrite get_next_msg_frame by done. cbn [res_bind].
    destruct (frame_ints REQUEST piece_index blockoffset blocklength Hi Ho Hl) as (-> & _). done.
  - assert (msg = frame CANCEL (le 4 piece_index ++ le 4 blockoffset ++ le 4 blocklength)) as -> by (by injection Hmsg).
    by rewrite get_next_msg_frame by done.
Qed.

Lemma control_action_effect m c :
  is_char (status_flags c) -> control m = true ->
  exists c', control_action m c = Ok c' /\ (forall k, 0 <= k < 8 -> flag c' k = flag_after m c k) /\
    piece_to_send c' = piece_after m c /\ peerBitfield c' = peerBitfield c /\ requested_piece c' = requested_piece c.
Proof.
  intros Hc Hm. destruct m; try discriminate Hm; cbn [control_action flag_after piece_after].
  1-4: match goal with H : is_char (status_flags ?c) |- context [Set_Flag ?c ?f ?s] =>
         destruct (Set_Flag_bits c f s H) as (c' & -> & _ & Hf & H1 & H2 & H3); [done|]; by exists c' end.
  - by exists (set_piece_to_send c piece_index).
  - by exists (set_piece_to_send c (-1)).
Qed.

(** ** Lemmas: what is sent *)
Lemma shifted_bit f k : 0 <= k -> negb (Z.land (Z.shiftr f k) 1 =? 0) = Z.testbit f k.
Proof.
  intros Hk. replace (Z.testbit f k) with (Z.testbit (Z.shiftr f k) 0) by (by rewrite Z.shiftr_spec by lia).
  change 1 with (Z.ones 1). rewrite Z.land_ones by lia. change (2 ^ 1) with 2. rewrite <- Z.bit0_mod.
  by destruct (Z.testbit _ 0).
Qed.

Definition allowed (st : client) (c : Connections) (op : conn_op) : Prop :=
  match op with
  | OpPiece _ _ _ _ => flag c PEERCHOKE = false /\ file_destination st <> None
  | OpRequest _ => flag c OWNCHOKE = false
  | _ => True
  end.

Lemma on_connection_send_out st k i op st' out :
  Forall (fun c => is_char (status_flags c)) (connections st) ->
  on_connection_send st k i (fun c => conn_step c op) = Ok (st', out) ->
  exists fd b, out = [(fd, b)] /\ construct (op_message op) = Ok b.
Proof.
  unfold on_connection_send. intros HP H. step_res H. step_res H. step_res H. destruct a1 as [c' o].
  step_res H. injection H as <- <-. exists a, o. split; [done|].
  apply rd_Ok in Ha0 as [_ Hl]. apply conn_step_spec in Ha1 as (_ & Hm & _); [done|]. exact (Forall_lookup_1 _ _ _ _ HP Hl).
Qed.

Lemma on_writable_out cfg st i c st' i' out :
  Forall (fun c => is_char (status_flags c)) (connections st) -> rd (connections st) i = Ok c ->
  on_writable cfg st i = Ok (st', i', out) ->
  out = [] \/ exists fd op b, out = [(fd, b)] /\ construct (op_message op) = Ok b /\ allowed st c op.
Proof.
  intros HP Hc H. unfold on_writable in H. rewrite Hc in H. cbn [res_bind] in H. rewrite !shifted_bit in H by done.
  fold (flag c PEERINTERESTED) (flag c PENDINGREQUEST) (flag c OWNINTERESTED) (flag c OWNCHOKE) (flag c PEERCHOKE) in H.
  assert (forall k j op st1 o, on_connection_send st k j (fun c => conn_step c op) = Ok (st1, o) -> allowed st c op ->
    exists fd op b, o = [(fd, b)] /\ construct (op_message op) = Ok b /\ allowed st c op) as Hsend.
  { intros k j op st1 o Ho Hop. destruct (on_connection_send_out _ _ _ _ _ _ HP Ho) as (fd & b & -> & Hb). by exists fd, op, b. }
  destruct (_ && _).
  - destruct (flag c PEERCHOKE) eqn:Ep; cbn [negb] in H.
    + right. step_res H. destruct a as [st1 o]. injection H as <- <- <-. by apply (Hsend i i OpUnchoked st1).
    + destruct (0 <=? _); [|injection H as <- <- <-; by left]. right. step_res H. destruct a as [st1 o].
      injection H as <- <- <-. destruct (file_destination st) as [contents|] eqn:Ef.
      * eapply (Hsend i i (OpPiece _ _ _ _) st1); [exact Ha|]. split; [done|]. by rewrite Ef.
      * unfold on_connection_send in Ha. by do 3 step_res Ha.
  - destruct (negb _); [|injection H as <- <- <-; by left]. step_res H. destruct (0 <? a).
    + destruct (flag c OWNINTERESTED).
      * destruct (flag c OWNCHOKE) eqn:Eo; [injection H as <- <- <-; by left|]. right. cbn [negb] in H.
        step_res H. destruct a0 as [j [q|]]; [|done]. step_res H. destruct a0 as [st1 o]. injection H as <- <- <-.
        by apply (Hsend j j (OpRequest q) st1).
      * right. step_res H. destruct a0 as [st1 o]. injection H as <- <- <-. by apply (Hsend i i OpInterested st1).
    + right. step_res H. destruct a0 as [st1 o]. injection H as <- <- <-. by apply (Hsend i i OpUninterested st1).
Qed.

(** ** Lemmas: the descriptor of the file is never assigned *)
Section file.
Variable cfg : config.

Lemma on_connection_file st i f st' : on_connection st i f = Ok st' -> file_destination st' = file_destination st.
Proof. intros H. by apply on_connection_Ok in H as (c & c' & _ & _ & _ & ->). Qed.

Lemma on_connection_send_file st k i f st' out :
  on_connection_send st k i f = Ok (st', out) -> file_destination st' = file_destination st.
Proof.
  unfold on_connection_send. intros H. do 3 step_res H. destruct a1 as [c' o]. step_res H. by injection H as <- <-.
Qed.

Lemma handshake_with_bitfield_file st k i st' out :
  handshake_with_bitfield cfg st k i = Ok (st', out) -> file_destination st' = file_destination st.
Proof.
  unfold handshake_with_bitfield. intros H. do 6 step_res H. destruct a4 as [st4 o]. injection H as <- <-.
  apply on_connection_send_file in Ha4. apply on_connection_file in Ha1. cbn [file_destination set_buffer] in *.
  congruence.
Qed.

Lemma on_message_file st i st' : on_message cfg st i = Ok st' -> file_destination st' = file_destination st.
Proof.
  unfold on_message. intros H. step_res H. destruct a as [[msg id] n].
  repeat match type of H with (if ?b then _ else _) = _ => destruct b end;
    try solve [by apply on_connection_file in H | by injection H as <-].
  - unfold on_have in H. destruct (test_freed st); [done|]. do 2 step_res H. injection H as <-.
    by apply on_connection_file in Ha1.
  - step_res H. by apply on_connection_file in H.
  - unfold on_piece in H. by do 3 step_res H.
Qed.

Lemma step_file st st' : step cfg st st' -> file_destination st' = file_destination st.
Proof.
  intros [st0 i s ok r st0' out H|st0 fd st0' H|st0 i r st0' out H|st0 i st0' i' out H|st0]; [..|done].
  - unfold connect_peer in H. destruct (16 <=? _); [|done]. do 2 step_res H. apply on_connection_file in Ha0.
    destruct (negb ok); [done|]. step_res H. destruct r as [[|b data]|]; [done| |done]. step_res H.
    destruct (zlen _ =? _); [step_res H; by injection H as <- <-|].
    destruct (zlen _ =? _); [|by injection H as <- <-]. step_res H. destruct a3 as [st3 o]. injection H as <- <-.
    apply handshake_with_bitfield_file in Ha3. cbn [file_destination set_buffer set_fds] in *. congruence.
  - unfold on_listener in H. destruct (fd =? -1); [by injection H as <-|]. do 3 step_res H. by injection H as <-.
  - unfold on_receive in H. destruct r as [data|]; [|by injection H as <- <-]. step_res H. destruct (zlen data =? 0).
    + do 2 step_res H. injection H as <- <-. by apply on_connection_file in Ha1.
    + destruct (zlen data =? _); [unfold handshake_only in H; do 5 step_res H; by injection H as <- <-|].
      destruct (zlen data =? _); [by apply handshake_with_bitfield_file in H|].
      step_res H. injection H as <- <-. by apply on_message_file in Ha0.
  - unfold on_writable in H. step_res H.
    repeat match type of H with (if ?b then _ else _) = _ => destruct b | Ok _ = Ok _ => by injection H as <- <- <-
           | res_bind _ _ = _ => step_res H | (match ?x with pair _ _ => _ end) = _ => destruct x
           | match ?o with Some _ => _ | None => _ end = _ => destruct o; [|done] end;
      injection H as <- <- <-; by eapply on_connection_send_file.
Qed.

Lemma reachable_file st st' : reachable cfg st st' -> file_destination st' = file_destination st.
Proof. induction 1 as [|st1 st2 _ IH Hs]; [done|]. rewrite <- IH. by apply step_file. Qed.
End file.

(** ** Lemmas: connecting leaves the other variables alone *)
Lemma on_connection_send_frame st k i f st' out :
  on_connection_send st k i f = Ok (st', out) -> max_peer_index st' = max_peer_index st /\ fds st' = fds st.
Proof. unfold on_connection_send. intros H. do 3 step_res H. destruct a1 as [c' o]. step_res H. by injection H as <- <-. Qed.

Lemma handshake_with_bitfield_frame cfg st k i st' out :
  handshake_with_bitfield cfg st k i = Ok (st', out) -> max_peer_index st' = max_peer_index st /\ fds st' = fds st.
Proof.
  unfold handshake_with_bitfield. intros H. do 6 step_res H. destruct a4 as [st4 o]. injection H as <- <-.
  apply on_connection_send_frame in Ha4 as [E1 E2]. apply on_connection_Ok in Ha1 as (? & ? & _ & _ & _ & ->).
  cbn [max_peer_index fds set_buffer set_connections] in *. done.
Qed.

Lemma connect_peer_frame cfg st i s ok r st' out :
  connect_peer cfg st i s ok r = Ok (st', out) ->
  max_peer_index st' = max_peer_index st /\ zlen (fds st') = zlen (fds st) /\ i + 1 < zlen (fds st).
Proof.
  unfold connect_peer. intros H. destruct (16 <=? _); [|done]. step_res H. step_res H.
  apply wr_Ok in Ha as [Hi ->]. apply on_connection_Ok in Ha0 as (? & ? & _ & _ & _ & ->).
  destruct (negb ok); [done|]. step_res H. destruct r as [[|b data]|]; [done| |done]. step_res H.
  assert (forall v, zlen (<[Z.to_nat (i + 1) := v]> (fds st)) = zlen (fds st)) as El
    by (intros; unfold zlen; by rewrite length_insert).
  destruct (zlen (b :: data) =? _); [step_res H; injection H as <- <-; cbn; split; [done|]; split; [apply El|lia]|].
  destruct (zlen (b :: data) =? _); [|injection H as <- <-; cbn; split; [done|]; split; [apply El|lia]].
  step_res H. destruct a1 as [st3 o]. injection H as <- <-. apply handshake_with_bitfield_frame in Ha1 as [E1 E2].
  cbn in E1, E2. rewrite E1, E2. split; [done|]. split; [apply El|lia].
Qed.

(** ** Properties *)
(** What a message does that the constructors built: received in front of
    any other bytes, CHOKE and INTERESTED set their flag of the connection,
    UNCHOKE and UNINTERESTED clear all of its flags, REQUEST and CANCEL set the
    piece to send; the other fields and the other connections stay as they
    are. *)
Theorem control_message_effect cfg st i m msg rest c :
  control m = true -> message_ok m -> construct m = Ok msg -> buffer st = msg ++ rest ->
  rd (connections st) i = Ok c -> is_char (status_flags c) ->
  exists st' c', on_message cfg st i = Ok st' /\
    (forall j, rd (connections st') j = if decide (j = i) then Ok c' else rd (connections st) j) /\
    (forall k, 0 <= k < 8 -> flag c' k = flag_after m c k) /\ piece_to_send c' = piece_after m c /\
    peerBitfield c' = peerBitfield c /\ requested_piece c' = requested_piece c.
Proof.
  intros Hm Hok Hmsg Hb Hc Hch. destruct (control_action_effect m c Hch Hm) as (c' & Ha & Hrest).
  destruct (on_connection_rd st i _ c c' Hc Ha) as (st' & Hst & _ & Hrd).
  exists st', c'. rewrite (on_message_control cfg st i m msg rest) by done. done.
Qed.

Definition sample_config : config := mk_config 16 4 (replicate 68 0) 0 (replicate 4 0) 16.
Definition sample_client : client :=
  mk_client (replicate 10 (mk_connections 104 (-1) (-1) [0; 0])) (replicate 10 0) [0; 0] None 1 1 false
    (construct_state_message UNCHOKE ++ replicate 100 0).

Lemma control_message_effect_witness :
  exists st' c', on_message sample_config sample_client 1 = Ok st' /\ rd (connections st') 1 = Ok c' /\
    flag c' OWNCHOKE = false /\ flag c' OWNINTERESTED = false.
Proof.
  destruct (control_message_effect sample_config sample_client 1 Unchoke (construct_state_message UNCHOKE)
    (replicate 100 0) (mk_connections 104 (-1) (-1) [0; 0])) as (st' & c' & H & Hrd & Hf & _);
    [reflexivity|exact I|reflexivity|reflexivity|reflexivity|split; [discriminate|reflexivity]|].
  exists st', c'. split; [exact H|]. split; [rewrite (Hrd 1); reflexivity|].
  split; [apply (Hf OWNCHOKE)|apply (Hf OWNINTERESTED)]; (split; [discriminate|reflexivity]).
Defined.


Definition two_choked : client :=
  mk_client (replicate 10 (mk_connections 40 (-1) (-1) [1; 0])) (replicate 10 5) [0; 0] None 1 1 false (replicate 100 0).




(** the bit of piece [q] as HAVE sets it: the most significant bit first *)
Definition has_piece (bf : bytes) (q : Z) : bool :=
  match rd bf (q / 8) with Ok b => Z.testbit b (7 - q mod 8) | _ => false end.

Lemma set_bit_uchar b k i :
  0 <= k < 8 -> 0 <= i < 8 -> Z.testbit (to_uchar (Z.lor (to_char b) (2 ^ k))) i = (i =? k) || Z.testbit b i.
Proof.
  intros Hk Hi. unfold to_uchar. change 256 with (2 ^ 8). rewrite Z.mod_pow2_bits_low by lia.
  rewrite Z.lor_spec, char_bit, Z.pow2_bits_eqb, orb_comm by lia. f_equal. by rewrite Z.eqb_sym.
Qed.

(** C29: HAVE sets the bit of its piece, counted from the most significant bit of
    the first byte, in the bitfield of the connection and no other bit, if the
    bitfield has it; the object the index is copied to is freed then, so that
    any second HAVE, from any peer, accesses freed memory. *)
Theorem have_message_effect cfg st i p msg rest c :
  is_int p -> construct (Have p) = Ok msg -> buffer st = msg ++ rest -> rd (connections st) i = Ok c ->
  (test_freed st = true -> on_message cfg st i = Fault UseAfterFree) /\
  (test_freed st = false -> 0 <= p < 8 * zlen (peerBitfield c) ->
   exists st' c', on_message cfg st i = Ok st' /\ test_freed st' = true /\ rd (connections st') i = Ok c' /\
     zlen (peerBitfield c') = zlen (peerBitfield c) /\
     forall q, 0 <= q < 8 * zlen (peerBitfield c) ->
       has_piece (peerBitfield c') q = (q =? p) || has_piece (peerBitfield c) q).
Proof.
  intros Hp Hmsg Hb Hc. injection Hmsg as <-. unfold construct_have_message in Hb.
  assert (buffer st = frame HAVE (le 4 p) ++ rest) as Hb' by (rewrite Hb; reflexivity).
  assert (on_message cfg st i = on_have st i (frame HAVE (le 4 p))) as ->.
  { unfold on_message. rewrite Hb'. by rewrite get_next_msg_frame by (done || by vm_compute). }
  unfold on_have. split; intros Hf; rewrite Hf; [done|]. intros Hr.
  pose proof (frame_int HAVE [] p [] 5 eq_refl Hp) as El. rewrite app_nil_r in El. cbn [app] in El.
  rewrite El. cbn [res_bind]. rewrite Z.quot_div_nonneg, Z.rem_mod_nonneg by lia.
  pose proof (Z.mod_pos_bound p 8 ltac:(lia)) as Hm. pose proof (Z.div_mod p 8 ltac:(lia)) as Hdm.
  assert (0 <= p / 8 < zlen (peerBitfield c)) as Hd by (split; [apply Z.div_pos; lia|lia]).
  destruct (rd_in_bounds (peerBitfield c) (p / 8) Hd) as [b Hbyte].
  set (bf := <[Z.to_nat (p / 8) := to_uchar (Z.lor (to_char b) (2 ^ (7 - p mod 8)))]> (peerBitfield c)).
  destruct (on_connection_rd st i (fun c =>
    let* b := rd (peerBitfield c) (p / 8) in
    let* v := int_shl 1 (7 - p mod 8) in
    let* bf := wr (peerBitfield c) (p / 8) (to_uchar (Z.lor (to_char b) v)) in
    Ok (set_peerBitfield c bf)) c (set_peerBitfield c bf) Hc) as (st' & -> & _ & Hrd).
  { rewrite Hbyte. cbn [res_bind]. rewrite int_shl_1 by lia. cbn [res_bind]. by rewrite wr_in_bounds. }
  cbn [res_bind]. exists (set_test_freed st' true), (set_peerBitfield c bf). split; [done|]. split; [done|].
  split; [cbn [connections set_test_freed]; rewrite Hrd; by rewrite decide_True|].
  split; [subst bf; unfold zlen; cbn [peerBitfield set_peerBitfield]; by rewrite length_insert|].
  intros q Hq. cbn [peerBitfield set_peerBitfield]. unfold has_piece. subst bf. rewrite rd_insert by done.
  pose proof (Z.mod_pos_bound q 8 ltac:(lia)). pose proof (Z.div_mod q 8 ltac:(lia)).
  destruct (decide (q / 8 = p / 8)) as [E|E].
  - rewrite E, Hbyte, set_bit_uchar by lia. f_equal. apply eq_true_iff_eq. rewrite !Z.eqb_eq. lia.
  - rewrite (proj2 (Z.eqb_neq q p)); [done|]. congruence.
Qed.

Lemma have_message_effect_witness :
  exists st' c', on_message sample_config (set_buffer sample_client (construct_have_message 9 ++ replicate 9 0)) 1 = Ok st' /\
    test_freed st' = true /\ rd (connections st') 1 = Ok c' /\ has_piece (peerBitfield c') 9 = true.
Proof.
  destruct (have_message_effect sample_config (set_buffer sample_client (construct_have_message 9 ++ replicate 9 0)) 1 9
    (construct_have_message 9) (replicate 9 0) (mk_connections 104 (-1) (-1) [0; 0])) as [_ H];
    [split; discriminate|reflexivity|reflexivity|reflexivity|].
  destruct H as (st' & c' & H1 & H2 & H3 & _ & H4); [reflexivity|split; [discriminate|reflexivity]|].
  exists st', c'. split; [exact H1|]. split; [exact H2|]. split; [exact H3|]. apply (H4 9). split; [discriminate|reflexivity].
Defined.

Lemma construct_bitfield_message_zlen b n msg :
  construct_bitfield_message b n = Ok msg -> zlen msg = 5 + n.
Proof.
  unfold construct_bitfield_message. intros H. step_res H. step_res H.
  assert (msg = le 4 a ++ BITFIELD :: a0) as -> by congruence.
  apply slice_Ok_len in Ha0. rewrite zlen_app, zlen_cons, zlen_le, Ha0. lia.
Qed.

(** The two halves of the handshake that never work: the answer to a peer
    that sent a handshake alone copies more bytes than the BITFIELD message has,
    whatever the number of pieces; and the count at the head of the loop counts
    no piece ([b & 255 == 1] is 0) and reads beyond the bitfield of a file with
    more than one piece. *)
Theorem handshake_answer_and_count cfg st i r :
  0 <= total_pieces_in_file cfg -> zlen (bitfield_of_current_pieces st) = (total_pieces_in_file cfg + 7) / 8 ->
  handshake_only cfg st i <> Ok r /\
  have_entire_file cfg st =
    if 1 <? total_pieces_in_file cfg then Fault OutOfBounds else Ok (total_pieces_in_file cfg =? 0).
Proof.
  intros Ht Hb. split.
  - intros H. unfold handshake_only in H. step_res H. step_res H. step_res H. step_res H.
    assert (zlen a0 = 5 + Z.quot (total_pieces_in_file cfg) 8) as El.
    { by apply construct_bitfield_message_zlen in Ha0. }
    assert (zlen a0 < bitfieldMsgLength cfg) as Hlt.
    { rewrite El, Z.quot_div_nonneg by lia. unfold bitfieldMsgLength, bitfieldLen. rewrite Z.quot_1_r, Z.quot_div_nonneg by lia.
      pose proof (Z.div_mod (total_pieces_in_file cfg) 8 ltac:(lia)).
      pose proof (Z.mod_pos_bound (total_pieces_in_file cfg) 8 ltac:(lia)).
      bdestruct (total_pieces_in_file cfg / 8 * 8 =? total_pieces_in_file cfg); lia. }
    rewrite slice_oob in Ha2; [done| |lia]. pose proof (zlen_nonneg a0). lia.
  - unfold have_entire_file. assert (forall n i, 0 <= i ->
      count_have (bitfield_of_current_pieces st) i n 0 =
      if i + Z.of_nat n <=? Z.max i (zlen (bitfield_of_current_pieces st)) then Ok 0 else Fault OutOfBounds) as E.
    { induction n as [|n IH]; intros j Hj; cbn [count_have]; [by rewrite (proj2 (Z.leb_le _ _)) by lia|].
      destruct (Z.lt_ge_cases j (zlen (bitfield_of_current_pieces st))).
      - destruct (rd_in_bounds (bitfield_of_current_pieces st) j) as [b ->]; [lia|]. cbn [res_bind].
        rewrite Z.land_0_r. cbn [Z.eqb negb]. rewrite IH by lia.
        replace (j + 1 + Z.of_nat n) with (j + Z.of_nat (S n)) by lia.
        by replace (Z.max (j + 1) _) with (Z.max j (zlen (bitfield_of_current_pieces st))) by lia.
      - rewrite rd_out_of_bounds by done. cbn [res_bind]. by rewrite (proj2 (Z.leb_gt _ _)) by lia. }
    rewrite E, Hb, Z2Nat.id, Z.add_0_l by lia. set (t := total_pieces_in_file cfg) in *.
    bdestruct (1 <? t).
    + rewrite (proj2 (Z.leb_gt _ _)); [done|]. apply Z.max_lub_lt; [lia|]. apply Z.div_lt_upper_bound; lia.
    + assert (t = 0 \/ t = 1) as [-> | ->] by lia; done.
Qed.

Lemma handshake_answer_and_count_witness :
  have_entire_file sample_config sample_client = Fault OutOfBounds /\
  ~ exists r, handshake_only sample_config sample_client 1 = Ok r.
Proof.
  split.
  - apply (handshake_answer_and_count sample_config sample_client 1 (sample_client, [])); [discriminate|reflexivity].
  - intros [r H]. revert H. apply handshake_answer_and_count; [discriminate|reflexivity].
Defined.

(** C35: The peers of the tracker are contacted but never served: connecting to
    them leaves [max_peer_index] as it is, 0, and until a connection is accepted
    the loop over the peers does nothing, whatever [recv] and [poll] give; and a
    tenth peer is stored behind the end of [fds]. *)
Theorem tracker_peers_not_served cfg st peers st' out :
  max_peer_index st = 0 -> zlen (fds st) = MAX_PEERS -> connect_peers cfg st 0 peers = Ok (st', out) ->
  zlen peers < MAX_PEERS /\ max_peer_index st' = 0 /\ forall evs, peers_loop cfg st' 1 evs = Ok (st', []).
Proof.
  intros H0 Hf H.
  assert (forall peers i st st' out, 0 <= i -> connect_peers cfg st i peers = Ok (st', out) ->
    max_peer_index st' = max_peer_index st /\ (peers = [] \/ i + zlen peers < zlen (fds st))) as E.
  { clear. induction peers as [|[[s ok] r] peers IH]; intros i st st' out Hi H; [injection H as <- <-; split; [done|by left]|].
    cbn [connect_peers] in H. step_res H. destruct a as [st1 o1]. step_res H. destruct a as [st2 o2]. injection H as <- <-.
    destruct (connect_peer_frame cfg st i s ok r st1 o1 Ha) as (Hm & Hl & Hlt).
    destruct (IH (i + 1) st1 st2 o2 ltac:(lia) Ha0) as [Hm2 Hl2]. split; [congruence|]. right.
    rewrite zlen_cons, <- Hl. destruct Hl2 as [->|Hl2]; [change (zlen (@nil (Z * bool * option bytes))) with 0|]; lia. }
  destruct (E peers 0 st st' out (Z.le_refl 0) H) as [Hm Hl]. split; [|split; [congruence|]].
  - unfold MAX_PEERS in *. destruct Hl as [->|Hl]; [done|lia].
  - intros [|[r w] evs]; [done|]. cbn [peers_loop]. by rewrite Hm, H0.
Qed.

Lemma tracker_peers_not_served_witness :
  exists st' out, connect_peers (mk_config 16 4 (replicate 68 1) 0 [] 16)
      (mk_client (replicate 10 (mk_connections 0 0 0 [])) (replicate 10 0) [0; 0] None 0 2 false (replicate 300 0)) 0
      [(7, true, Some [1; 2]); (8, true, Some [3])] = Ok (st', out) /\
    fds st' = [0; 7; 8; 0; 0; 0; 0; 0; 0; 0] /\ peers_loop (mk_config 16 4 (replicate 68 1) 0 [] 16) st' 1 [(Some [5], true)] = Ok (st', []).
Proof.
  eexists. eexists. split; [reflexivity|]. split; [reflexivity|].
  refine (proj2 (proj2 (tracker_peers_not_served (mk_config 16 4 (replicate 68 1) 0 [] 16)
    (mk_client (replicate 10 (mk_connections 0 0 0 [])) (replicate 10 0) [0; 0] None 0 2 false (replicate 300 0))
    [(7, true, Some [1; 2]); (8, true, Some [3])] _ _ _ _ _)) _); reflexivity.
Defined.
