(* ===== verification/TorrentMain.v ===== *)
(** * The start of the peer client (src/src/torrent.c, lines 11-114)

    What [main] does before its loops: the metainfo file is read, the bitfield
    and the handshake are made, the tracker is asked for the peers, and the
    listener is set up.  It calls Metainfo, FileConstructor, Btp, Tracker and
    Util, and leaves the state Torrent starts with.  [inet_pton] reads the
    address as a string; the address it finds only goes to [connect], whose
    result is an argument. *)
From Stdlib Require Import ZArith Lia Bool String.
From stdpp Require Import base numbers option list.
From S2P Require Import Prelude CStr Bencode Metainfo Util FileConstructor Tracker TrackerServ Btp Connection Torrent.

(** ** What [main] gets from outside *)
Record environment := mk_environment {
  torrent_file : file;                 (** testfile.txt.torrent *)
  open_ret : Z;                        (** [open] in [set_initial_bitfield] *)
  destination : bytes;                 (** the file it opens *)
  tracker_socket : Z;
  tracker_connected : bool;
  list_sent : bool;                    (** whether [send] of the request succeeds *)
  list_reply : bytes;                  (** what the tracker sends *)
  listener : Z * Z * Z * Z;            (** the results [configure_socket] gets *)
  (** the values of memory that is not initialised: the array [connections], the
      buffers of [main] and [recvMsg], the member behind the string [announce],
      and those of [config] *)
  junk_connections : list Connections;
  junk_buffer : bytes;
  junk_recv : bytes;
  junk_announce : bytes;
  junk_name : bytes;
  junk_verify : Z;
  junk_piece : bytes;
  remote_room : Z }.

Section start.
(** the size of the object [decodeFile] allocates *)
Variable alloc : Z.
Variable env : environment.

(** the first loop over [num_of_peers]: [n] peers from [peers[j]] on *)
Fixpoint copy_peers (peer_buf : bytes) (j : Z) (n : nat) : res (list bytes) :=
  match n with
  | O => Ok []
  | S n =>
      check* j <? MAX_PEERS else OutOfBounds in
      let* p := slice peer_buf (16 * j) 16 in
      let* ps := copy_peers peer_buf (j + 1) n in
      Ok (p :: ps)
  end.

(** the second one prints each as a string *)
Fixpoint print_peers (peers : list bytes) : res (list bytes) :=
  match peers with
  | [] => Ok []
  | p :: peers => let* s := cstr p in let* l := print_peers peers in Ok (s :: l)
  end.

(** lines 50-94: the peers the tracker gave *)
Definition ask_tracker (ann : bytes) : res (list bytes) :=
  let* tracker_ip := slice (ann ++ 0 :: junk_announce env) 0 16 in
  let* _ := cstr tracker_ip in
  if tracker_socket env <? 0 then Exit 1
  else if negb (tracker_connected env) then Exit 1
  else
    let* _ := strlen tracker_ip in
    let peer_buf := replicate (Z.to_nat (MAX_PEERS * 16)) 0 in
    let* (peer_buf, num_of_peers) := requestPeers (list_sent env) (junk_recv env) (list_reply env) peer_buf 0 in
    let* peers := copy_peers peer_buf 0 (Z.to_nat num_of_peers) in
    let* _ := print_peers peers in
    Ok peers.

(** the state before the first loop, and [peers] *)
Definition start : res (config * client * list bytes) :=
  let* ans := decodeFile_in alloc (torrent_file env) in
  let* nm := loaded (name ans) in
  let* num := loaded (num_pieces ans) in
  let* plen := loaded (piece_length ans) in
  let* _ := loaded (piece_hashes ans) in
  let* (bitfield, fd) := set_initial_bitfield (open_ret env) None (nm ++ 0 :: junk_name env) num in
  let* own_handshake := construct_handshake file_sha own_id in
  let* ann := loaded (announce ans) in
  let* peers := ask_tracker ann in
  let file_destination := match fd with Some _ => Some (destination env) | None => None end in
  let num_of_peers := zlen peers in
  let peers_to_connect_to := if MAX_CONNECTIONS - 1 <? num_of_peers then MAX_CONNECTIONS - 1 else num_of_peers in
  let '(sock, setsockopt, bind, listen) := listener env in
  let* listener_socket := configure_socket sock setsockopt bind listen in
  let* fds := wr (replicate (Z.to_nat MAX_PEERS) 0) 0 listener_socket in
  Ok (mk_config num plen own_handshake (junk_verify env) (junk_piece env) (remote_room env),
      mk_client (junk_connections env) fds bitfield file_destination 0 peers_to_connect_to false (junk_buffer env),
      peers).
End start.

(** ** Lemmas *)
Lemma copy_peers_ok peer_buf : forall n j,
  0 <= j -> j + Z.of_nat n <= MAX_PEERS -> 16 * (j + Z.of_nat n) <= zlen peer_buf ->
  exists ps, copy_peers peer_buf j n = Ok ps /\ length ps = n /\
    forall i p, ps !! i = Some p -> p = take 16 (drop (Z.to_nat (16 * (j + Z.of_nat i))) peer_buf).
Proof.
  induction n as [|n IH]; intros j Hj Hm Hl; [by exists []|]. cbn [copy_peers]. rewrite (proj2 (Z.ltb_lt _ _)) by lia.
  rewrite slice_in_bounds by lia. cbn [res_bind]. destruct (IH (j + 1)) as (ps & -> & Hlen & Hps); [lia..|]. cbn [res_bind].
  eexists. split; [done|]. split; [by cbn; rewrite Hlen|]. intros [|i] p Hp; cbn in Hp.
  - injection Hp as <-. by replace (j + Z.of_nat 0) with j by lia.
  - apply Hps in Hp. by replace (j + Z.of_nat (S i)) with (j + 1 + Z.of_nat i) by lia.
Qed.

(** a string that ends within a part of memory is found there *)
Lemma cstr_take n m s : cstr m = Ok s -> zlen s < Z.of_nat n -> cstr (take n m) = Ok s.
Proof.
  intros E Hl. destruct (cstr_no_nul m s E) as [Hs [m' ->]]. unfold zlen in Hl.
  rewrite take_app_ge by lia. destruct (n - length s)%nat eqn:En; [lia|]. cbn [take]. by apply cstr_app.
Qed.

Lemma print_peers_ok ps out :
  length ps = length out -> (forall i p t, ps !! i = Some p -> out !! i = Some t -> cstr p = Ok t) -> print_peers ps = Ok out.
Proof.
  revert out. induction ps as [|p ps IH]; intros [|t out] Hl H; try discriminate; [done|]. cbn [print_peers].
  rewrite (H 0%nat p t eq_refl eq_refl). cbn [res_bind]. rewrite (IH out); [done|by injection Hl|].
  intros i p' t' Hp Ht. by apply (H (S i)).
Qed.

(** nothing fails *)
Record runs (env : environment) : Prop := {
  runs_socket : 0 <= tracker_socket env;
  runs_connected : tracker_connected env = true;
  runs_sent : list_sent env = true;
  runs_listener : let '(_, setsockopt, bind, listen) := listener env in setsockopt <> -1 /\ bind <> -1 /\ listen <> -1;
  runs_recv : zlen (junk_recv env) = Tracker.BUFSIZ;
  runs_announce : 15 <= zlen (junk_announce env) }.

Lemma requestPeers_length sent buffer received peers num peers' n :
  requestPeers sent buffer received peers num = Ok (peers', n) -> zlen peers' = zlen peers.
Proof.
  unfold requestPeers. intros H. step_res H. destruct a as [? r]. destruct (r =? 0); [|by injection H as -> _].
  do 5 step_res H. injection H as <- _. by eapply blit_Ok_len.
Qed.

(** the address of the tracker is a string in the 16 bytes that are copied *)
Lemma tracker_ip_ok ann m :
  no_nul ann -> zlen ann <= 15 -> 15 <= zlen m ->
  exists ip, slice (ann ++ 0 :: m) 0 16 = Ok ip /\ cstr ip = Ok ann /\ strlen ip = Ok (zlen ann).
Proof.
  intros Hn Hl Hm. pose proof (zlen_nonneg ann). rewrite slice_in_bounds by (rewrite ?zlen_app, ?zlen_cons; lia).
  assert (cstr (take 16 (ann ++ 0 :: m)) = Ok ann) as E by (apply cstr_take; [by apply cstr_app|lia]).
  eexists. split; [done|]. split; [exact E|]. destruct (cstr_no_nul _ _ E) as [_ [m' E']].
  change (Z.to_nat 16) with 16%nat. change (drop (Z.to_nat 0) (ann ++ 0 :: m)) with (ann ++ 0 :: m). rewrite E'. by apply strlen_app.
Qed.

Lemma ask_tracker_ok env ann out peers' :
  runs env -> no_nul ann -> zlen ann <= 15 -> zlen out <= 10 -> Forall (fun t => zlen t <= 15) out ->
  requestPeers true (junk_recv env) (list_reply env) (replicate 160 0) 0 = Ok (peers', zlen out) ->
  (forall j t, Z.of_nat j < zlen out -> out !! j = Some t -> cstr (drop (16 * j) peers') = Ok t) ->
  exists peers, ask_tracker env ann = Ok peers /\ Forall2 (fun p t => cstr p = Ok t) peers out.
Proof.
  intros [Hs Hc Hsent _ _ Ha] Hn Hl Ho Hout Er Hslots. destruct (tracker_ip_ok ann _ Hn Hl Ha) as (ip & Ei & Ec & El).
  unfold ask_tracker. rewrite Ei. cbn [res_bind]. rewrite Ec. cbn [res_bind]. rewrite (proj2 (Z.ltb_ge _ _)) by lia.
  rewrite Hc, Hsent. cbn [negb]. rewrite El. cbn [res_bind]. change (Z.to_nat (MAX_PEERS * 16)) with 160%nat. rewrite Er. cbn [res_bind].
  pose proof (requestPeers_length _ _ _ _ _ _ _ Er) as Elen. rewrite zlen_replicate in Elen. pose proof (zlen_nonneg out).
  destruct (copy_peers_ok peers' (Z.to_nat (zlen out)) 0) as (ps & -> & Hlen & Hps); [lia|unfold MAX_PEERS; lia|lia|]. cbn [res_bind].
  assert (forall i p t, ps !! i = Some p -> out !! i = Some t -> cstr p = Ok t) as Hcs.
  { intros i p t Hp Ht. rewrite (Hps i p Hp). pose proof (lookup_lt_Some _ _ _ Ht) as Hi. rewrite Forall_forall in Hout.
    apply cstr_take; [|specialize (Hout t (list_elem_of_lookup_2 _ _ _ Ht)); lia].
    replace (Z.to_nat (16 * (0 + Z.of_nat i))) with (16 * i)%nat by lia. apply Hslots; [unfold zlen; lia|done]. }
  rewrite (print_peers_ok ps out); [|unfold zlen in *; lia|done]. cbn [res_bind]. exists ps. split; [done|].
  apply Forall2_same_length_lookup_2; [unfold zlen in *; lia|done].
Qed.


(** a client of the tracker with two other clients *)
Definition sample_env : environment :=
  mk_environment (Readable (bencode (metainfo (str "10.7.24.69") (str "moby_dick.txt") 500 256 sample_hashes))) 3 [] 4 true true
    (2 :: str "10.0.0.1" ++ 0 :: replicate 7 205 ++ str "10.0.0.3" ++ 0 :: replicate 7 205) (5, 0, 0, 0)
    (replicate 10 (mk_connections 0 0 0 [])) (replicate (Z.to_nat 8192) 0) (replicate (Z.to_nat 8192) 0) (replicate 1000 0)
    (replicate 1000 0) 0 [] 16.


(** C38: With the object [decodeFile] really allocates, the client never gets to
    its loops: on a well-formed metainfo file it writes out of bounds, and
    whatever the file and the tracker are, it does not return from its start. *)
Theorem start_never_returns env ann nm len plen hashes :
  metainfo_ok ann nm len plen hashes ->
  (torrent_file env = Readable (bencode (metainfo ann nm len plen hashes)) -> start 1000 env = Fault OutOfBounds) /\
  forall r, start 1000 env <> Ok r.
Proof.
  intros Hok. unfold start. fold (decodeFile (torrent_file env)). split; [intros ->; by rewrite (decodeFile_overflows _ _ _ _ _ Hok)|].
  intros r H. step_res H. step_res H. apply decodeFile_only_announce in Ha. destruct a as [? nm' ? ? ? ?].
  destruct Ha as (Hn & _). cbn [name] in *. subst nm'. done.
Qed.

Lemma start_never_returns_witness : start 1000 sample_env = Fault OutOfBounds.
Proof.
  apply (start_never_returns sample_env (str "10.7.24.69") (str "moby_dick.txt") 500 256 sample_hashes); [apply sample_metainfo_ok|reflexivity].
Defined.
