(* ===== verification/TorrentDrafts.v ===== *)
(** * The unfinished clients (src/src/torrent_client.c and src/src/torrent_main.c)

    Neither file compiles: the first holds a conflict of two versions, the second
    breaks off in a switch with a syntax error, and both use members of a
    connection that [struct connection_info] does not have.  What both have in
    common and can be read is the loop that greets the peers of the tracker, in
    the same words in both files, and what stands in front of it; its
    [connections[i]] is a record of the two members it uses.  Modelled are this
    loop and, of torrent_client.c, the endless loop behind it. *)
From Stdlib Require Import ZArith Lia Bool String.
From stdpp Require Import base numbers option list.
From S2P Require Import Prelude CStr Btp Connection Torrent.

(** the constants of [main] in both files *)
Definition file_length : Z := 256.
Definition piece_size : Z := 16.
Definition total_pieces : Z := Z.quot file_length piece_size.
(** [sizeof(char)] is 1 *)
Definition draft_bitfieldLen : Z := Z.quot total_pieces 1.
Definition draft_bitfieldMsgLength : Z := 4 + 1 + draft_bitfieldLen.

(** btp.h defines TRUE as 0 *)
Definition TRUE : Z := 0.

Record draft := mk_draft { draft_bitfield : bytes; ownInterested : Z }.

Record drafts := mk_drafts { draft_connections : list draft; draft_fds : list Z; draft_buffer : bytes }.

(** [int peers_to_connect_to = num_of_peers], where [num_of_peers] is a pointer,
    and the comparison of the pointer with MAX_CONNECTIONS-1 *)
Definition peers_to_connect (num_of_peers : Z) : Z :=
  if MAX_CONNECTIONS - 1 <? num_of_peers then MAX_CONNECTIONS - 1 else to_int num_of_peers.

Section drafts.
(** as in Torrent: the indeterminate byte of [verify_handshake], and what can be
    written from the address of the pointer [remote_addr] on *)
Variable junk : Z.
Variable remote_addr_room : Z.
Variable own_handshake : bytes.
Variable bitfield_of_current_pieces : bytes.

Definition cleared : bytes := replicate (Z.to_nat BUFSIZ) 0.

(** [memcpy(peer_handshake, buffer, 68)] and the test *)
Definition check_handshake (buffer : bytes) : res unit :=
  let* peer_handshake := slice buffer 0 68 in
  let* test := verify_handshake junk peer_handshake file_sha in
  if negb (test =? 0) then Exit 1 else Ok tt.

(** what is done with the answer to the handshake: the connection, the buffer,
    and what is sent *)
Definition greet (c : draft) (buffer : bytes) (received : option bytes) : res (draft * bytes * list bytes) :=
  match received with
  | None | Some [] => Exit 1
  | Some data =>
      let* buffer := blit buffer 0 data in
      let n := zlen data in
      if n =? FULLHANDSHAKELENGTH then
        let* _ := check_handshake buffer in
        Ok (c, cleared, [])
      else if n =? FULLHANDSHAKELENGTH + draft_bitfieldMsgLength then
        let* _ := check_handshake buffer in
        let* bitfield_message := slice buffer FULLHANDSHAKELENGTH draft_bitfieldMsgLength in
        let* b := slice bitfield_message 5 total_pieces in
        let* bf := blit (draft_bitfield c) 0 b in
        let* r := peerContainsUndownloadedPieces bf bitfield_of_current_pieces draft_bitfieldLen in
        if 0 <? r then Ok (mk_draft bf TRUE, cleared, [construct_state_message INTERESTED])
        else Ok (mk_draft bf (ownInterested c), cleared, [construct_state_message UNINTERESTED])
      else Ok (c, buffer, [])
  end.

(** the body of the loop: lines 242-326 of torrent_client.c *)
Definition greet_peer (st : drafts) (i client_socket : Z) (connected : bool) (received : option bytes)
  : res (drafts * list (Z * bytes)) :=
  check* 16 <=? remote_addr_room else OutOfBounds in
  let* f := wr (draft_fds st) (i + 1) client_socket in
  let* c := rd (draft_connections st) i in
  let c := mk_draft (replicate (Z.to_nat (Z.quot total_pieces 8)) 0) (ownInterested c) in
  if negb connected then Exit 1
  else
    let* hs := slice own_handshake 0 FULLHANDSHAKELENGTH in
    let* (c, buffer, out) := greet c (draft_buffer st) received in
    let* cs := wr (draft_connections st) i c in
    Ok (mk_drafts cs f buffer, (client_socket, hs) :: map (pair client_socket) out).

(** the loop from [i] on, with [n] rounds left and what the calls of each round
    give *)
Fixpoint greet_loop (n : nat) (st : drafts) (i : Z) (peers : nat -> Z * bool * option bytes)
  : res (drafts * list (Z * bytes)) :=
  match n with
  | O => Ok (st, [])
  | S n =>
      let '(s, connected, received) := peers O in
      let* (st, out) := greet_peer st i s connected received in
      let* (st, outs) := greet_loop n st (i + 1) (fun k => peers (S k)) in
      Ok (st, out ++ outs)
  end.

(** lines 144-250 of torrent_main.c *)
Definition greet_peers (num_of_peers : Z) (st : drafts) (peers : nat -> Z * bool * option bytes)
  : res (drafts * list (Z * bytes)) :=
  greet_loop (Z.to_nat (peers_to_connect num_of_peers)) st 0 peers.

(** ** The endless loop of torrent_client.c

    A round for what [poll] returns, what [recv] gives on the listener, [None]
    if it is not ready, and on each of the others that is: it is received to the
    buffer, and no more. *)
Fixpoint receive_all (buffer : bytes) (data : list bytes) : res bytes :=
  match data with
  | [] => Ok buffer
  | d :: data => let* buffer := blit buffer 0 d in receive_all buffer data
  end.

Definition poll_round (st : drafts) (rv : Z) (listener : option bytes) (data : list bytes) : res drafts :=
  if rv =? -1 then Exit 1
  else if rv =? 0 then Ok st
  else
    let* buffer := receive_all (draft_buffer st) (option_list listener ++ data) in
    Ok (mk_drafts (draft_connections st) (draft_fds st) buffer).

(** ** Lemmas *)
Lemma greet_peer_bounds st i s ok r st' out :
  greet_peer st i s ok r = Ok (st', out) ->
  0 <= i < zlen (draft_connections st) /\ zlen (draft_connections st') = zlen (draft_connections st).
Proof.
  unfold greet_peer. intros H. destruct (16 <=? _); [|done]. step_res H. step_res H. destruct (negb ok); [done|].
  step_res H. step_res H. destruct a2 as [[c b] o]. step_res H. injection H as <- <-.
  apply wr_Ok in Ha3 as [Hi ->]. split; [done|]. cbn [draft_connections]. unfold zlen. by rewrite length_insert.
Qed.

Lemma greet_loop_bounds n : forall st i peers st' out,
  greet_loop n st i peers = Ok (st', out) -> i <= zlen (draft_connections st) -> i + Z.of_nat n <= zlen (draft_connections st).
Proof.
  induction n as [|n IH]; intros st i peers st' out H Hi; [lia|]. cbn [greet_loop] in H. destruct (peers O) as [[s ok] r].
  step_res H. destruct a as [st1 o1]. step_res H. destruct a as [st2 o2]. injection H as <- <-.
  destruct (greet_peer_bounds st i s ok r st1 o1 Ha) as [Hb El]. specialize (IH st1 (i + 1) _ st2 o2 Ha0). rewrite El in IH. lia.
Qed.

(** ** Properties *)
(** The greeting works for a peer that answers with a handshake alone.  A peer
    that sends its bitfield with it is never recorded: the bitfield of a
    connection has a byte for eight pieces, and a byte for each is copied. *)
Theorem draft_greets_without_bitfield c buffer data :
  zlen data <= zlen buffer -> zlen (draft_bitfield c) = Z.quot total_pieces 8 ->
  (zlen data = FULLHANDSHAKELENGTH -> verify_handshake junk data file_sha = Ok 0 ->
   greet c buffer (Some data) = Ok (c, cleared, [])) /\
  (zlen data = FULLHANDSHAKELENGTH + draft_bitfieldMsgLength -> forall r, greet c buffer (Some data) <> Ok r).
Proof.
  intros Hb Hc.
  assert (data <> [] -> exists rest, blit buffer 0 data = Ok (data ++ rest)) as Hblit.
  { intros _. exists (drop (length data) buffer). rewrite <- (take_drop (length data) buffer) at 1. apply blit_prefix.
    unfold zlen in *. rewrite length_take. lia. }
  destruct data as [|b data]; [split; discriminate|]. destruct Hblit as [rest E]; [done|]. unfold greet. rewrite E. cbn [res_bind].
  split; intros Hl; rewrite Hl.
  - intros Hv. unfold check_handshake. change (FULLHANDSHAKELENGTH =? FULLHANDSHAKELENGTH) with true. cbn iota.
    rewrite (slice_prefix (b :: data) rest 68) by done. cbn [res_bind]. by rewrite Hv.
  - intros r H. change (_ =? FULLHANDSHAKELENGTH) with false in H. rewrite Z.eqb_refl in H. step_res H. step_res H. step_res H.
    apply slice_Ok_len in Ha1. assert (blit (draft_bitfield c) 0 a1 = Fault OutOfBounds) as E'.
    { unfold blit. rewrite Hc, Ha1. done. }
    rewrite E' in H. discriminate H.
Qed.

(** The clients never get behind this loop if the tracker knows any peer or none:
    the number of its rounds is the address of the number of peers, cut to 499,
    and there are ten connections. *)
Theorem draft_never_starts num_of_peers st peers r :
  MAX_CONNECTIONS <= num_of_peers -> zlen (draft_connections st) = 10 -> greet_peers num_of_peers st peers <> Ok r.
Proof.
  intros Hp Hc H. unfold greet_peers, peers_to_connect in H. rewrite (proj2 (Z.ltb_lt _ _)) in H by lia.
  destruct r as [st' out]. apply greet_loop_bounds in H; [|lia]. rewrite Hc in H. unfold MAX_CONNECTIONS in H. lia.
Qed.
End drafts.

(** ** Witnesses *)
Definition draft_handshake : bytes := PROTOCOLNAMELENGTH :: BTPROTOCOL ++ replicate 8 0 ++ str "AAAAAAAAAAAAAAAAAAA1" ++ str "00000000000000000002".

Lemma draft_greets_without_bitfield_witness :
  greet 0 [0; 0] (mk_draft [0; 0] 7) cleared (Some draft_handshake) = Ok (mk_draft [0; 0] 7, cleared, []) /\
  forall r, greet 0 [0; 0] (mk_draft [0; 0] 7) cleared (Some (draft_handshake ++ le 4 17 ++ BITFIELD :: replicate 16 255)) <> Ok r.
Proof.
  split.
  - apply (draft_greets_without_bitfield 0 [0; 0] (mk_draft [0; 0] 7) cleared draft_handshake);
      [vm_compute; discriminate|reflexivity|reflexivity|reflexivity].
  - apply (draft_greets_without_bitfield 0 [0; 0] (mk_draft [0; 0] 7) cleared
      (draft_handshake ++ le 4 17 ++ BITFIELD :: replicate 16 255)); [vm_compute; discriminate|reflexivity|reflexivity].
Defined.

Lemma draft_never_starts_witness :
  forall r, greet_peers 0 16 draft_handshake [0; 0] 93824992231424 (mk_drafts (replicate 10 (mk_draft [] 1)) (replicate 500 0) cleared)
    (fun _ => (5, true, Some draft_handshake)) <> Ok r.
Proof. intros r. apply draft_never_starts; [discriminate|reflexivity]. Defined.
