(* ===== verification/HashFcns.v ===== *)
(** * The hash functions of uthash (src/examples/p2p-chat-example/uthash.h, lines 345-592)

    The macros compute [hashv] from [keylen] bytes at [key], in arithmetic modulo
    2^32; the index of the bucket, their last output, is [HASH_TO_BKT] in
    UtHash.  Which of them [HASH_FCN] is, is chosen when the program is compiled:
    the class [HashFcn] is what the table needs of it, and every one of them is
    an instance.  Loops over the bytes of the key are recursive in their number. *)
From Stdlib Require Import ZArith Lia Bool String.
From stdpp Require Import base numbers option list.
From S2P Require Import Prelude.

(** ** Definitions *)
(** conversion to [unsigned] *)
Definition u32 (z : Z) : Z := z mod 2 ^ 32.

Definition shl32 (a n : Z) : Z := u32 (Z.shiftl a n).

(** the Bernstein hash *)
Fixpoint ber_loop (key : bytes) (n : nat) (hashv : Z) : res Z :=
  match n with
  | O => Ok hashv
  | S n =>
      let* b := deref key in
      ber_loop (tail key) n (u32 (u32 (shl32 hashv 5 + hashv) + to_char b))
  end.
Definition HASH_BER (key : bytes) (keylen : Z) : res Z := ber_loop key (Z.to_nat (u32 keylen)) 0.

(** the loops [for (i = 0; i < keylen; i++)] with body [f] on the byte [key[i]] *)
Fixpoint for_bytes (f : Z -> Z -> Z) (key : bytes) (n : nat) (hashv : Z) : res Z :=
  match n with
  | O => Ok hashv
  | S n => let* b := deref key in for_bytes f (tail key) n (f hashv (to_char b))
  end.

Definition sax_step (hashv b : Z) : Z :=
  Z.lxor hashv (u32 (shl32 hashv 5 + Z.shiftr hashv 2 + b)).
Definition HASH_SAX (key : bytes) (keylen : Z) : res Z := for_bytes sax_step key (Z.to_nat keylen) 0.

(** the multiplication is behind the loop, which has no braces *)
Definition fnv_step (hashv b : Z) : Z := Z.lxor hashv (u32 b).
Definition HASH_FNV (key : bytes) (keylen : Z) : res Z :=
  let* hashv := for_bytes fnv_step key (Z.to_nat keylen) 2166136261 in
  Ok (u32 (hashv * 16777619)).

Definition oat_step (hashv b : Z) : Z :=
  let hashv := u32 (hashv + b) in
  let hashv := u32 (hashv + shl32 hashv 10) in
  Z.lxor hashv (Z.shiftr hashv 6).
Definition HASH_OAT (key : bytes) (keylen : Z) : res Z :=
  let* hashv := for_bytes oat_step key (Z.to_nat keylen) 0 in
  let hashv := u32 (hashv + shl32 hashv 3) in
  let hashv := Z.lxor hashv (Z.shiftr hashv 11) in
  Ok (u32 (hashv + shl32 hashv 15)).

(** *** Jenkins *)
(** three lines of [HASH_JEN_MIX], with their shifts *)
Definition jen_round (r s t : Z) (abc : Z * Z * Z) : Z * Z * Z :=
  let '(a, b, c) := abc in
  let a := u32 (u32 (a - b) - c) in let a := Z.lxor a (Z.shiftr c r) in
  let b := u32 (u32 (b - c) - a) in let b := Z.lxor b (shl32 a s) in
  let c := u32 (u32 (c - a) - b) in let c := Z.lxor c (Z.shiftr b t) in
  (a, b, c).

Definition HASH_JEN_MIX (abc : Z * Z * Z) : Z * Z * Z :=
  jen_round 3 10 15 (jen_round 12 16 5 (jen_round 13 8 13 abc)).

(** [_hj_key[o] + (_hj_key[o+1] << 8) + (_hj_key[o+2] << 16) + (_hj_key[o+3] << 24)] *)
Definition jen_word (key : bytes) (o : Z) : res Z :=
  let* b0 := rd key o in
  let* b1 := rd key (o + 1) in
  let* b2 := rd key (o + 2) in
  let* b3 := rd key (o + 3) in
  Ok (u32 (b0 + shl32 b1 8 + shl32 b2 16 + shl32 b3 24)).

Fixpoint jen_loop (fuel : nat) (key : bytes) (_hj_i _hj_j hashv _hj_k : Z)
  : res (bytes * Z * Z * Z * Z) :=
  match fuel with
  | O => Fault NoFuel
  | S fuel =>
      if 12 <=? _hj_k then
        let* w0 := jen_word key 0 in
        let* w1 := jen_word key 4 in
        let* w2 := jen_word key 8 in
        let '(_hj_i, _hj_j, hashv) := HASH_JEN_MIX (u32 (_hj_i + w0), u32 (_hj_j + w1), u32 (hashv + w2)) in
        jen_loop fuel (drop 12 key) _hj_i _hj_j hashv (_hj_k - 12)
      else Ok (key, _hj_i, _hj_j, hashv, _hj_k)
  end.

(** a case of the [switch], reached when [_hj_k] is at least [k] *)
Definition jen_case (key : bytes) (_hj_k k sh x : Z) : res Z :=
  if k <=? _hj_k then let* b := rd key (k - 1) in Ok (u32 (x + shl32 b sh)) else Ok x.

Definition HASH_JEN (key : bytes) (keylen : Z) : res Z :=
  let* (key, _hj_i, _hj_j, hashv, _hj_k) :=
    jen_loop (S (Z.to_nat (u32 keylen / 12))) key 2654435769 2654435769 4276993775 (u32 keylen) in
  let hashv := u32 (hashv + keylen) in
  let* hashv := jen_case key _hj_k 11 24 hashv in
  let* hashv := jen_case key _hj_k 10 16 hashv in
  let* hashv := jen_case key _hj_k 9 8 hashv in
  let* _hj_j := jen_case key _hj_k 8 24 _hj_j in
  let* _hj_j := jen_case key _hj_k 7 16 _hj_j in
  let* _hj_j := jen_case key _hj_k 6 8 _hj_j in
  let* _hj_j := jen_case key _hj_k 5 0 _hj_j in
  let* _hj_i := jen_case key _hj_k 4 24 _hj_i in
  let* _hj_i := jen_case key _hj_k 3 16 _hj_i in
  let* _hj_i := jen_case key _hj_k 2 8 _hj_i in
  let* _hj_i := jen_case key _hj_k 1 0 _hj_i in
  let '(_, _, hashv) := HASH_JEN_MIX (_hj_i, _hj_j, hashv) in
  Ok hashv.

(** *** Hsieh *)
Definition get16bits (d : bytes) (o : Z) : res Z :=
  let* b1 := rd d (o + 1) in
  let* b0 := rd d o in
  Ok (u32 (shl32 b1 8 + b0)).

Fixpoint sfh_loop (key : bytes) (n : nat) (hashv : Z) : res (bytes * Z) :=
  match n with
  | O => Ok (key, hashv)
  | S n =>
      let* w := get16bits key 0 in
      let hashv := u32 (hashv + w) in
      let* w := get16bits key 2 in
      let tmp := Z.lxor (shl32 w 11) hashv in
      let hashv := Z.lxor (shl32 hashv 16) tmp in
      sfh_loop (drop 4 key) n (u32 (hashv + Z.shiftr hashv 11))
  end.

Definition sfh_rest (key : bytes) (rem hashv : Z) : res Z :=
  if rem =? 3 then
    let* w := get16bits key 0 in
    let hashv := u32 (hashv + w) in
    let hashv := Z.lxor hashv (shl32 hashv 16) in
    let* b := rd key 2 in
    let hashv := Z.lxor hashv (shl32 b 18) in
    Ok (u32 (hashv + Z.shiftr hashv 11))
  else if rem =? 2 then
    let* w := get16bits key 0 in
    let hashv := u32 (hashv + w) in
    let hashv := Z.lxor hashv (shl32 hashv 11) in
    Ok (u32 (hashv + Z.shiftr hashv 17))
  else if rem =? 1 then
    let* b := deref key in
    let hashv := u32 (hashv + b) in
    let hashv := Z.lxor hashv (shl32 hashv 10) in
    Ok (u32 (hashv + Z.shiftr hashv 1))
  else Ok hashv.

Definition HASH_SFH (key : bytes) (keylen : Z) : res Z :=
  let len := u32 keylen in
  let* (key, hashv) := sfh_loop key (Z.to_nat (Z.shiftr len 2)) 3405691582 in
  let* hashv := sfh_rest key (Z.land len 3) hashv in
  let hashv := Z.lxor hashv (shl32 hashv 3) in
  let hashv := u32 (hashv + Z.shiftr hashv 5) in
  let hashv := Z.lxor hashv (shl32 hashv 4) in
  let hashv := u32 (hashv + Z.shiftr hashv 17) in
  let hashv := Z.lxor hashv (shl32 hashv 25) in
  Ok (u32 (hashv + Z.shiftr hashv 6)).

(** *** Murmur, for x86, where [MUR_GETBLOCK] is an unaligned read *)
Definition MUR_ROTL32 (x r : Z) : Z := Z.lor (shl32 x r) (Z.shiftr x (32 - r)).

Definition MUR_FMIX (h : Z) : Z :=
  let h := Z.lxor h (Z.shiftr h 16) in
  let h := u32 (h * 2246822507) in
  let h := Z.lxor h (Z.shiftr h 13) in
  let h := u32 (h * 3266489909) in
  Z.lxor h (Z.shiftr h 16).

Definition mur_k1 (k1 : Z) : Z := u32 (MUR_ROTL32 (u32 (k1 * 3432918353)) 15 * 461845907).

(** the little-endian word at the pointer *)
Definition mur_block (p : bytes) : res Z := let* b := slice p 0 4 in Ok (u32 (le_val b)).

Fixpoint mur_loop (blocks : bytes) (n : nat) (h1 : Z) : res (bytes * Z) :=
  match n with
  | O => Ok (blocks, h1)
  | S n =>
      let* k1 := mur_block blocks in
      let h1 := MUR_ROTL32 (Z.lxor h1 (mur_k1 k1)) 13 in
      mur_loop (drop 4 blocks) n (u32 (h1 * 5 + 3864292196))
  end.

(** a case of the [switch], reached when [keylen & 3] is at least [k] *)
Definition mur_case (tail : bytes) (rest k sh k1 : Z) : res Z :=
  if k <=? rest then let* b := rd tail (k - 1) in Ok (Z.lxor k1 (shl32 b sh)) else Ok k1.

Definition HASH_MUR (key : bytes) (keylen : Z) : res Z :=
  let* (tail, h1) := mur_loop key (Z.to_nat (keylen / 4)) 4170011475 in
  let rest := Z.land keylen 3 in
  let* k1 := mur_case tail rest 3 16 0 in
  let* k1 := mur_case tail rest 2 8 k1 in
  let* k1 := mur_case tail rest 1 0 k1 in
  let h1 := if 1 <=? rest then Z.lxor h1 (mur_k1 k1) else h1 in
  Ok (MUR_FMIX (Z.lxor h1 (u32 keylen))).

(** ** What a table needs of its hash function *)
Class HashFcn := HASH_FCN : bytes -> Z -> res Z.

Definition is_u32 (z : Z) : Prop := 0 <= z < 2 ^ 32.

(** A computation that does not depend on the memory behind an object has a
    result with [P]. *)
Definition uniform {A} (P : A -> Prop) (r : bytes -> res A) : Prop := exists y, P y /\ forall m, r m = Ok y.

(** The hash is an [unsigned], and depends on nothing but the key. *)
Class HashFcnLaws (H : HashFcn) : Prop :=
  hash_uniform : forall k, zlen k < 2 ^ 32 -> uniform is_u32 (fun m => HASH_FCN (k ++ m) (zlen k)).

(** ** Lemmas: 32 bits *)
Lemma u32_range z : is_u32 (u32 z).
Proof. apply Z.mod_pos_bound. reflexivity. Qed.

Lemma u32_id z : is_u32 z -> u32 z = z.
Proof. apply Z.mod_small. Qed.

Lemma lxor_u32 a b : is_u32 a -> is_u32 b -> is_u32 (Z.lxor a b).
Proof.
  unfold is_u32. intros [Ha Ha'] [Hb Hb']. split; [by apply Z.lxor_nonneg|].
  destruct (Z.eq_dec (Z.lxor a b) 0) as [->|Hne]; [done|].
  assert (0 <= Z.lxor a b) by by apply Z.lxor_nonneg.
  apply Z.log2_lt_pow2; [lia|]. apply Z.le_lt_trans with (Z.max (Z.log2 a) (Z.log2 b)); [by apply Z.log2_lxor|].
  assert (forall x, 0 <= x < 2 ^ 32 -> Z.log2 x < 32) as Hlog.
  { intros x Hx. destruct (Z.eq_dec x 0) as [->|]; [done|]. apply Z.log2_lt_pow2; lia. }
  apply Z.max_lub_lt; by apply Hlog.
Qed.

Lemma shiftr_u32 a n : is_u32 a -> 0 <= n -> is_u32 (Z.shiftr a n).
Proof.
  unfold is_u32. intros [Ha Ha'] Hn. split; [by apply Z.shiftr_nonneg|]. rewrite Z.shiftr_div_pow2 by done.
  apply Z.le_lt_trans with a; [|done]. apply Z.div_le_upper_bound; [apply Z.pow_pos_nonneg; lia|].
  pose proof (Z.pow_pos_nonneg 2 n). nia.
Qed.

Lemma lor_u32 a b : is_u32 a -> is_u32 b -> is_u32 (Z.lor a b).
Proof.
  unfold is_u32. intros [Ha Ha'] [Hb Hb']. assert (0 <= Z.lor a b) by by apply Z.lor_nonneg. split; [done|].
  destruct (Z.eq_dec (Z.lor a b) 0) as [->|Hne]; [done|]. apply Z.log2_lt_pow2; [lia|]. rewrite Z.log2_lor by done.
  apply Z.max_lub_lt.
  - destruct (Z.eq_dec a 0) as [->|]; [done|]. apply Z.log2_lt_pow2; lia.
  - destruct (Z.eq_dec b 0) as [->|]; [done|]. apply Z.log2_lt_pow2; lia.
Qed.

Create HintDb u32.
#[export] Hint Resolve u32_range lxor_u32 lor_u32 : u32.
#[export] Hint Extern 2 (is_u32 (shl32 _ _)) => apply u32_range : u32.
#[export] Hint Extern 2 (is_u32 (Z.shiftr _ _)) => (apply shiftr_u32; [|discriminate]) : u32.

Definition is_u32_3 (abc : Z * Z * Z) : Prop := is_u32 abc.1.1 /\ is_u32 abc.1.2 /\ is_u32 abc.2.

Lemma jen_round_u32 r s t abc : 0 <= r -> 0 <= t -> is_u32_3 abc -> is_u32_3 (jen_round r s t abc).
Proof.
  intros Hr Ht (Ha & Hb & Hc). destruct abc as [[a b] c]. unfold is_u32_3, jen_round. cbn [fst snd] in *.
  assert (forall x n, 0 <= n -> is_u32 x -> is_u32 (Z.shiftr x n)) as Hs by (intros; by apply shiftr_u32).
  assert (forall x y, is_u32 (shl32 x y)) by (intros; apply u32_range). repeat split; auto 8 with u32.
  all: repeat apply lxor_u32; auto with u32; repeat (apply Hs; [done|]); auto 8 with u32.
Qed.

Lemma jen_mix_u32 abc : is_u32_3 abc -> is_u32_3 (HASH_JEN_MIX abc).
Proof. intros H. unfold HASH_JEN_MIX. repeat (apply jen_round_u32; [done..|]). done. Qed.

(** ** Lemmas: uniform computations *)
Lemma uniform_bind {A B} (P : A -> Prop) (Q : B -> Prop) r k :
  uniform P r -> (forall a, P a -> uniform Q (fun m => k a m)) -> uniform Q (fun m => res_bind (r m) (fun a => k a m)).
Proof.
  intros (a & Ha & Hr) Hk. destruct (Hk a Ha) as (b & Hb & E). exists b. split; [done|]. intros m. rewrite Hr. apply E.
Qed.

Lemma uniform_ret {A} (P : A -> Prop) a : P a -> uniform P (fun _ => Ok a).
Proof. intros H. by exists a. Qed.

Lemma uniform_ext {A} (P : A -> Prop) r r' : (forall m, r m = r' m) -> uniform P r' -> uniform P r.
Proof. intros E (a & Ha & Hr). exists a. split; [done|]. intros m. by rewrite E. Qed.

Lemma uniform_rd k i : 0 <= i < zlen k -> uniform (fun _ => True) (fun m => rd (k ++ m) i).
Proof.
  intros Hi. destruct (rd_in_bounds k i Hi) as [b Hb]. exists b. split; [done|]. intros m. by rewrite rd_app_l by lia.
Qed.

(** the loops over the bytes are folds *)
Lemma for_bytes_app f k m h :
  for_bytes f (k ++ m) (length k) h = Ok (fold_left (fun h b => f h (to_char b)) k h).
Proof. revert h. induction k as [|b k IH]; intros h; [done|]. apply IH. Qed.

Lemma ber_loop_app k m h :
  ber_loop (k ++ m) (length k) h =
  Ok (fold_left (fun h b => u32 (u32 (shl32 h 5 + h) + to_char b)) k h).
Proof. revert h. induction k as [|b k IH]; intros h; [done|]. apply IH. Qed.

Lemma fold_u32 (f : Z -> Z -> Z) k h :
  (forall h b, is_u32 h -> is_u32 (f h b)) -> is_u32 h -> is_u32 (fold_left f k h).
Proof. intros Hf. revert h. induction k as [|b k IH]; intros h Hh; [done|]. apply IH. by apply Hf. Qed.

Lemma uniform_for_bytes f k h :
  (forall h b, is_u32 h -> is_u32 (f h b)) -> is_u32 h -> uniform is_u32 (fun m => for_bytes f (k ++ m) (Z.to_nat (zlen k)) h).
Proof.
  intros Hf Hh. unfold zlen. rewrite Nat2Z.id. eexists. split; [|intros m; apply for_bytes_app]. apply fold_u32; [|done]. auto.
Qed.

(** ** Lemmas: the instances *)
Lemma ber_uniform k : zlen k < 2 ^ 32 -> uniform is_u32 (fun m => HASH_BER (k ++ m) (zlen k)).
Proof.
  intros Hk. unfold HASH_BER. rewrite u32_id by (split; [apply zlen_nonneg|done]). unfold zlen. rewrite Nat2Z.id.
  eexists. split; [|intros m; apply ber_loop_app]. apply fold_u32; [|done]. auto with u32.
Qed.

Lemma sax_uniform k : zlen k < 2 ^ 32 -> uniform is_u32 (fun m => HASH_SAX (k ++ m) (zlen k)).
Proof. intros _. apply uniform_for_bytes; [|done]. unfold sax_step. auto with u32. Qed.

Lemma fnv_uniform k : zlen k < 2 ^ 32 -> uniform is_u32 (fun m => HASH_FNV (k ++ m) (zlen k)).
Proof.
  intros _. apply (uniform_bind is_u32); [apply uniform_for_bytes; [|done]; unfold fnv_step; auto with u32|].
  intros h _. apply uniform_ret. auto with u32.
Qed.

Lemma oat_uniform k : zlen k < 2 ^ 32 -> uniform is_u32 (fun m => HASH_OAT (k ++ m) (zlen k)).
Proof.
  intros _. apply (uniform_bind is_u32); [apply uniform_for_bytes; [|done]; unfold oat_step; auto with u32|].
  intros h _. apply uniform_ret. auto with u32.
Qed.

Lemma jen_word_uniform k o : 0 <= o -> o + 4 <= zlen k -> uniform is_u32 (fun m => jen_word (k ++ m) o).
Proof.
  intros Ho Hk. unfold jen_word. do 4 (eapply uniform_bind; [apply uniform_rd; lia|intros ? _]). apply uniform_ret, u32_range.
Qed.

(** the loop consumes the key down to less than 12 bytes *)
Lemma jen_loop_uniform fuel : forall k i j h,
  zlen k < 12 * Z.of_nat fuel -> is_u32_3 (i, j, h) ->
  exists k' i' j' h', zlen k' < 12 /\ is_u32_3 (i', j', h') /\
  forall m, jen_loop fuel (k ++ m) i j h (zlen k) = Ok (k' ++ m, i', j', h', zlen k').
Proof.
  induction fuel as [|fuel IH]; intros k i j h Hk Hu; [pose proof (zlen_nonneg k); lia|].
  cbn [jen_loop]. bdestruct (12 <=? zlen k); [|by exists k, i, j, h].
  destruct (jen_word_uniform k 0) as (w0 & H0 & E0); [lia..|]. destruct (jen_word_uniform k 4) as (w1 & H1 & E1); [lia..|].
  destruct (jen_word_uniform k 8) as (w2 & H2 & E2); [lia..|].
  destruct (HASH_JEN_MIX (u32 (i + w0), u32 (j + w1), u32 (h + w2))) as [[i1 j1] h1] eqn:Em.
  assert (is_u32_3 (i1, j1, h1)) as Hu1 by (rewrite <- Em; apply jen_mix_u32; repeat split; apply u32_range).
  assert (zlen (drop 12 k) = zlen k - 12) as El by (unfold zlen in *; rewrite length_drop; lia).
  destruct (IH (drop 12 k) i1 j1 h1) as (k' & i' & j' & h' & Hk' & Hu' & E); [lia|done|].
  exists k', i', j', h'. split; [done|]. split; [done|]. intros m. rewrite E0, E1, E2. cbn [res_bind]. rewrite Em.
  rewrite drop_app_le by (unfold zlen in *; lia). rewrite <- El. apply E.
Qed.

Lemma jen_case_uniform k n sh x :
  is_u32 x -> 1 <= n -> uniform is_u32 (fun m => jen_case (k ++ m) (zlen k) n sh x).
Proof.
  intros Hx Hn. unfold jen_case. bdestruct (n <=? zlen k); [|by apply uniform_ret].
  eapply uniform_bind; [apply uniform_rd; lia|]. intros b _. apply uniform_ret, u32_range.
Qed.

Lemma jen_uniform k : zlen k < 2 ^ 32 -> uniform is_u32 (fun m => HASH_JEN (k ++ m) (zlen k)).
Proof.
  intros Hk. pose proof (zlen_nonneg k). unfold HASH_JEN. rewrite (u32_id (zlen k)) by done.
  destruct (jen_loop_uniform (S (Z.to_nat (zlen k / 12))) k 2654435769 2654435769 4276993775)
    as (k' & i & j & h & Hk' & (Hi & Hj & Hh) & E); [|by repeat split|].
  { pose proof (Z.div_mod (zlen k) 12). pose proof (Z.mod_pos_bound (zlen k) 12). pose proof (Z.div_pos (zlen k) 12). lia. }
  cbn [fst snd] in *.
  eapply uniform_ext; [intros m; rewrite E; cbn [res_bind]; reflexivity|].
  do 11 (eapply (uniform_bind is_u32); [apply jen_case_uniform; [auto with u32|lia]|intros ? ?]).
  match goal with |- context [HASH_JEN_MIX ?s] => pose proof (jen_mix_u32 s) as Hm; destruct (HASH_JEN_MIX s) as [[? ?] ?] end.
  apply uniform_ret. by apply Hm.
Qed.

(** reading behind the first bytes of a key *)
Lemma uniform_get16bits k o : 0 <= o -> o + 2 <= zlen k -> uniform is_u32 (fun m => get16bits (k ++ m) o).
Proof.
  intros Ho Hk. unfold get16bits. do 2 (eapply uniform_bind; [apply uniform_rd; lia|intros ? _]). apply uniform_ret, u32_range.
Qed.

Lemma sfh_loop_uniform n : forall k h,
  4 * Z.of_nat n <= zlen k -> is_u32 h ->
  exists h', is_u32 h' /\ forall m, sfh_loop (k ++ m) n h = Ok (drop (4 * n) k ++ m, h').
Proof.
  induction n as [|n IH]; intros k h Hk Hh; [by exists h|].
  destruct (uniform_get16bits k 0) as (w0 & H0 & E0); [lia..|]. destruct (uniform_get16bits k 2) as (w1 & H1 & E1); [lia..|].
  set (h1 := Z.lxor (shl32 (u32 (h + w0)) 16) (Z.lxor (shl32 w1 11) (u32 (h + w0)))).
  destruct (IH (drop 4 k) (u32 (h1 + Z.shiftr h1 11))) as (h' & Hh' & E).
  - unfold zlen in *. rewrite length_drop. lia.
  - apply u32_range.
  - exists h'. split; [done|]. intros m. cbn [sfh_loop]. rewrite E0. cbn [res_bind]. rewrite E1. cbn [res_bind].
    rewrite drop_app_le by (unfold zlen in *; lia). fold h1. rewrite E, drop_drop. by replace (4 + 4 * n)%nat with (4 * S n)%nat by lia.
Qed.

Lemma sfh_rest_uniform k h : zlen k < 4 -> is_u32 h -> uniform is_u32 (fun m => sfh_rest (k ++ m) (zlen k) h).
Proof.
  intros Hk Hh. unfold sfh_rest. bdestruct (zlen k =? 3); [|bdestruct (zlen k =? 2); [|bdestruct (zlen k =? 1)]].
  - eapply uniform_bind; [apply uniform_get16bits; lia|]. intros w _. eapply uniform_bind; [apply uniform_rd; lia|].
    intros b _. apply uniform_ret, u32_range.
  - eapply uniform_bind; [apply uniform_get16bits; lia|]. intros w _. apply uniform_ret, u32_range.
  - destruct k as [|b k]; [done|]. eexists. split; [|done]. apply u32_range.
  - by apply uniform_ret.
Qed.

Lemma sfh_uniform k : zlen k < 2 ^ 32 -> uniform is_u32 (fun m => HASH_SFH (k ++ m) (zlen k)).
Proof.
  intros Hk. pose proof (zlen_nonneg k). unfold HASH_SFH. rewrite u32_id by done.
  rewrite Z.shiftr_div_pow2 by done. change (2 ^ 2) with 4. pose proof (Z.div_mod (zlen k) 4). pose proof (Z.mod_pos_bound (zlen k) 4).
  pose proof (Z.div_pos (zlen k) 4).
  destruct (sfh_loop_uniform (Z.to_nat (zlen k / 4)) k 3405691582) as (h & Hh & E); [lia|done|].
  eapply uniform_ext; [intros m; rewrite E; cbn [res_bind]; reflexivity|].
  assert (Z.land (zlen k) 3 = zlen (drop (4 * Z.to_nat (zlen k / 4)) k)) as ->.
  { change 3 with (Z.ones 2). rewrite Z.land_ones by done. change (2 ^ 2) with 4. unfold zlen in *. rewrite length_drop. lia. }
  eapply (uniform_bind is_u32); [apply sfh_rest_uniform; [|done]|intros h' _; apply uniform_ret, u32_range].
  unfold zlen in *. rewrite length_drop. lia.
Qed.

Lemma fmix_u32 h : is_u32 h -> is_u32 (MUR_FMIX h).
Proof. intros _. unfold MUR_FMIX. apply lxor_u32; [|apply shiftr_u32; [|done]]; apply u32_range. Qed.

Lemma mur_loop_uniform n : forall k h,
  4 * Z.of_nat n <= zlen k -> is_u32 h ->
  exists h', is_u32 h' /\ forall m, mur_loop (k ++ m) n h = Ok (drop (4 * n) k ++ m, h').
Proof.
  induction n as [|n IH]; intros k h Hk Hh; [by exists h|]. cbn [mur_loop].
  destruct (IH (drop 4 k) (u32 (MUR_ROTL32 (Z.lxor h (mur_k1 (u32 (le_val (take 4 k))))) 13 * 5 + 3864292196))) as (h' & Hh' & E).
  - unfold zlen in *. rewrite length_drop. lia.
  - apply u32_range.
  - exists h'. split; [done|]. intros m. unfold mur_block.
    rewrite slice_in_bounds by (try rewrite zlen_app; pose proof (zlen_nonneg m); lia). cbn [res_bind].
    rewrite drop_app_le by (unfold zlen in *; lia). change (drop (Z.to_nat 0) (k ++ m)) with (k ++ m).
    rewrite take_app_le by (unfold zlen in *; simpl; lia). change (Z.to_nat 4) with 4%nat.
    rewrite E, drop_drop. by replace (4 + 4 * n)%nat with (4 * S n)%nat by lia.
Qed.

Lemma mur_case_uniform k n sh x :
  is_u32 x -> 1 <= n -> uniform is_u32 (fun m => mur_case (k ++ m) (zlen k) n sh x).
Proof.
  intros Hx Hn. unfold mur_case. bdestruct (n <=? zlen k); [|by apply uniform_ret].
  eapply uniform_bind; [apply uniform_rd; lia|]. intros b _. apply uniform_ret, lxor_u32; [done|apply u32_range].
Qed.

Lemma mur_uniform k : zlen k < 2 ^ 32 -> uniform is_u32 (fun m => HASH_MUR (k ++ m) (zlen k)).
Proof.
  intros Hk. pose proof (zlen_nonneg k). unfold HASH_MUR. pose proof (Z.div_mod (zlen k) 4).
  pose proof (Z.mod_pos_bound (zlen k) 4). pose proof (Z.div_pos (zlen k) 4).
  destruct (mur_loop_uniform (Z.to_nat (zlen k / 4)) k 4170011475) as (h & Hh & E); [lia|done|].
  eapply uniform_ext; [intros m; rewrite E; cbn [res_bind]; reflexivity|].
  assert (Z.land (zlen k) 3 = zlen (drop (4 * Z.to_nat (zlen k / 4)) k)) as ->.
  { change 3 with (Z.ones 2). rewrite Z.land_ones by done. change (2 ^ 2) with 4. unfold zlen in *. rewrite length_drop. lia. }
  do 3 (eapply (uniform_bind is_u32); [apply mur_case_uniform; done|intros ? ?]).
  apply uniform_ret, fmix_u32, lxor_u32; [|apply u32_range]. case_match; [|done]. apply lxor_u32; [done|apply u32_range].
Qed.

(** Every choice of [HASH_FUNCTION]. *)
#[export] Instance ber_laws : HashFcnLaws HASH_BER := ber_uniform.
#[export] Instance sax_laws : HashFcnLaws HASH_SAX := sax_uniform.
#[export] Instance fnv_laws : HashFcnLaws HASH_FNV := fnv_uniform.
#[export] Instance oat_laws : HashFcnLaws HASH_OAT := oat_uniform.
#[export] Instance jen_laws : HashFcnLaws HASH_JEN := jen_uniform.
#[export] Instance sfh_laws : HashFcnLaws HASH_SFH := sfh_uniform.
#[export] Instance mur_laws : HashFcnLaws HASH_MUR := mur_uniform.



(** The hash called FNV does not depend on the order of the bytes: the
    multiplication stands behind the loop instead of in it, so that all
    permutations of a key collide. *)
Theorem HASH_FNV_permutation k k' : k ≡ₚ k' -> HASH_FNV k (zlen k) = HASH_FNV k' (zlen k').
Proof.
  intros H. unfold HASH_FNV. assert (zlen k = zlen k') as <- by (unfold zlen; by rewrite H).
  pose proof (for_bytes_app fnv_step k [] 2166136261) as E. pose proof (for_bytes_app fnv_step k' [] 2166136261) as E'.
  rewrite app_nil_r in E, E'. unfold zlen. rewrite Nat2Z.id, E. rewrite (Permutation_length H), E'. cbn [res_bind]. do 2 f_equal. f_equal.
  clear E E'. generalize 2166136261. induction H as [|x k k' H IH|x y k|k k' k'' H1 IH1 H2 IH2]; intros h; [done|apply IH| |by rewrite IH1].
  cbn [fold_left]. f_equal. unfold fnv_step. by rewrite Z.lxor_assoc, (Z.lxor_comm (u32 _)), <- Z.lxor_assoc.
Qed.

Lemma HASH_FNV_permutation_witness : HASH_FNV (str "ab") 2 = HASH_FNV (str "ba") 2.
Proof. apply (HASH_FNV_permutation (str "ab") (str "ba")). apply perm_swap. Defined.
