(* ===== verification/UtHash.v ===== *)
(** * The hash table of uthash (src/examples/p2p-chat-example/uthash.h)

    The handle [hh] of every element is in a heap with one finite map per field,
    from the address of the element; a pointer to a handle and the pointer to
    its element are the same number ([hho] is not modelled), 0 is the null
    pointer.  [tail] of the table is [tbl_tail] here.  A hash is the pointer the
    program keeps ([head]), the table its elements point to, and the heap.  The
    macros are functions on it; without HASH_BLOOM, HASH_DEBUG and
    HASH_EMIT_KEYS (see UtHashBloom), as the program is compiled, except that [HASH_FSCK] is
    the check that HASH_DEBUG turns on.  [malloc_ok] says which requests for
    memory succeed; [uthash_fatal] exits.  Chains are followed with the number
    of handles in the heap as fuel. *)
From Stdlib Require Import ZArith Lia Bool.
From stdpp Require Import base numbers option list gmap.
From S2P Require Import Prelude CStr HashFcns.

(** ** Data *)
Abbreviation ptr := Z.

Record heap := mk_heap {
  prev : gmap ptr ptr;       (* previous and next element in app order *)
  next : gmap ptr ptr;
  hh_prev : gmap ptr ptr;    (* previous and next in bucket order *)
  hh_next : gmap ptr ptr;
  key : gmap ptr bytes;      (* the memory [key] points to *)
  keylen : gmap ptr Z;
  hashv : gmap ptr Z }.

Record UT_hash_bucket := mk_bucket { hh_head : ptr; count : Z; expand_mult : Z }.

Record UT_hash_table := mk_table {
  buckets : list UT_hash_bucket; num_buckets : Z; log2_num_buckets : Z; num_items : Z; tbl_tail : ptr;
  ideal_chain_maxlen : Z; nonideal_items : Z; ineff_expands : Z; noexpand : Z }.

Record hash := mk_hash { hd : ptr; tbl : option UT_hash_table; mem : heap }.

(** reading and writing a field *)
Definition ld {A} (f : gmap ptr A) (p : ptr) : res A :=
  if p =? 0 then Fault NullDeref else match f !! p with Some v => Ok v | None => Fault UseAfterFree end.

Definition st {A} (f : gmap ptr A) (p : ptr) (v : A) : res (gmap ptr A) :=
  let* _ := ld f p in Ok (<[p := v]> f).

Definition set_prev (m : heap) (p v : ptr) : res heap :=
  let* f := st (prev m) p v in Ok (mk_heap f (next m) (hh_prev m) (hh_next m) (key m) (keylen m) (hashv m)).
Definition set_next (m : heap) (p v : ptr) : res heap :=
  let* f := st (next m) p v in Ok (mk_heap (prev m) f (hh_prev m) (hh_next m) (key m) (keylen m) (hashv m)).
Definition set_hh_prev (m : heap) (p v : ptr) : res heap :=
  let* f := st (hh_prev m) p v in Ok (mk_heap (prev m) (next m) f (hh_next m) (key m) (keylen m) (hashv m)).
Definition set_hh_next (m : heap) (p v : ptr) : res heap :=
  let* f := st (hh_next m) p v in Ok (mk_heap (prev m) (next m) (hh_prev m) f (key m) (keylen m) (hashv m)).
Definition set_key (m : heap) (p : ptr) (v : bytes) : res heap :=
  let* f := st (key m) p v in Ok (mk_heap (prev m) (next m) (hh_prev m) (hh_next m) f (keylen m) (hashv m)).
Definition set_keylen (m : heap) (p : ptr) (v : Z) : res heap :=
  let* f := st (keylen m) p v in Ok (mk_heap (prev m) (next m) (hh_prev m) (hh_next m) (key m) f (hashv m)).
Definition set_hashv (m : heap) (p : ptr) (v : Z) : res heap :=
  let* f := st (hashv m) p v in Ok (mk_heap (prev m) (next m) (hh_prev m) (hh_next m) (key m) (keylen m) f).

Definition set_tail (t : UT_hash_table) (p : ptr) : UT_hash_table :=
  mk_table (buckets t) (num_buckets t) (log2_num_buckets t) (num_items t) p
    (ideal_chain_maxlen t) (nonideal_items t) (ineff_expands t) (noexpand t).
Definition set_num_items (t : UT_hash_table) (n : Z) : UT_hash_table :=
  mk_table (buckets t) (num_buckets t) (log2_num_buckets t) n (tbl_tail t)
    (ideal_chain_maxlen t) (nonideal_items t) (ineff_expands t) (noexpand t).
Definition set_buckets (t : UT_hash_table) (b : list UT_hash_bucket) : UT_hash_table :=
  mk_table b (num_buckets t) (log2_num_buckets t) (num_items t) (tbl_tail t)
    (ideal_chain_maxlen t) (nonideal_items t) (ineff_expands t) (noexpand t).

Definition HASH_INITIAL_NUM_BUCKETS : Z := 32.
Definition HASH_INITIAL_NUM_BUCKETS_LOG2 : Z := 5.
Definition HASH_BKT_CAPACITY_THRESH : Z := 10.
Definition sizeof_UT_hash_table : Z := 64.
Definition sizeof_UT_hash_bucket : Z := 16.

Definition HASH_TO_BKT (hashv num_bkts : Z) : Z := Z.land hashv (u32 (num_bkts - 1)).

Definition chain_fuel (m : heap) : nat := S (size (hh_next m)).

Section uthash.
Context `{HF : HashFcn}.
Variable malloc_ok : Z -> bool.

Definition uthash_malloc (sz : Z) : res unit := if malloc_ok sz then Ok tt else Exit (-1).

(** [(head)->hh.tbl] *)
Definition head_tbl (t : hash) : res UT_hash_table :=
  if hd t =? 0 then Fault NullDeref else match tbl t with Some b => Ok b | None => Fault UseAfterFree end.

(** ** Finding *)
Definition HASH_KEYCMP (a b : bytes) (len : Z) : res Z := memcmp a b (Z.to_nat len).

(** the [while] loop of [HASH_FIND_IN_BKT] *)
Fixpoint HASH_FIND_IN_BKT (fuel : nat) (m : heap) (out : ptr) (keyptr : bytes) (keylen_in : Z) : res ptr :=
  match fuel with
  | O => Fault NoFuel
  | S fuel =>
      if out =? 0 then Ok 0 else
      let* n := ld (keylen m) out in
      let* found :=
        if n =? keylen_in then
          let* k := ld (key m) out in
          let* d := HASH_KEYCMP k keyptr keylen_in in Ok (d =? 0)
        else Ok false in
      if (found : bool) then Ok out
      else let* out := ld (hh_next m) out in HASH_FIND_IN_BKT fuel m out keyptr keylen_in
  end.

Definition HASH_FIND (t : hash) (keyptr : bytes) (keylen : Z) : res ptr :=
  if hd t =? 0 then Ok 0
  else
    let* b := head_tbl t in
    let* hashv := HASH_FCN keyptr keylen in
    let* bkt := rd (buckets b) (HASH_TO_BKT hashv (num_buckets b)) in
    HASH_FIND_IN_BKT (chain_fuel (mem t)) (mem t) (hh_head bkt) keyptr keylen.

(** ** Adding *)
Definition HASH_MAKE_TABLE (head : ptr) : res UT_hash_table :=
  let* _ := uthash_malloc sizeof_UT_hash_table in
  let* _ := uthash_malloc (HASH_INITIAL_NUM_BUCKETS * sizeof_UT_hash_bucket) in
  Ok (mk_table (replicate (Z.to_nat HASH_INITIAL_NUM_BUCKETS) (mk_bucket 0 0 0))
        HASH_INITIAL_NUM_BUCKETS HASH_INITIAL_NUM_BUCKETS_LOG2 0 head 0 0 0 0).

(** the [while] loop of [HASH_EXPAND_BUCKETS]: the chain from [_he_thh] is moved
    to the new buckets *)
Fixpoint expand_chain (fuel : nat) (num_bkts ideal : Z) (_he_thh : ptr)
    (new : list UT_hash_bucket) (nonideal : Z) (m : heap) : res (list UT_hash_bucket * Z * heap) :=
  match fuel with
  | O => Fault NoFuel
  | S fuel =>
      if _he_thh =? 0 then Ok (new, nonideal, m) else
      let* _he_hh_nxt := ld (hh_next m) _he_thh in
      let* h := ld (hashv m) _he_thh in
      let _he_bkt := HASH_TO_BKT h num_bkts in
      let* b := rd new _he_bkt in
      let c := u32 (count b + 1) in
      let* (mult, nonideal) :=
        if ideal <? c then
          check* negb (ideal =? 0) else DivByZero in Ok (c / ideal, u32 (nonideal + 1))
        else Ok (expand_mult b, nonideal) in
      let* m := set_hh_prev m _he_thh 0 in
      let* m := set_hh_next m _he_thh (hh_head b) in
      let* m := if hh_head b =? 0 then Ok m else set_hh_prev m (hh_head b) _he_thh in
      let* new := wr new _he_bkt (mk_bucket _he_thh c mult) in
      expand_chain fuel num_bkts ideal _he_hh_nxt new nonideal m
  end.

(** the [for] loop over the old buckets *)
Fixpoint expand_loop (num_bkts ideal : Z) (old new : list UT_hash_bucket) (nonideal : Z) (m : heap)
  : res (list UT_hash_bucket * Z * heap) :=
  match old with
  | [] => Ok (new, nonideal, m)
  | b :: old =>
      let* (new, nonideal, m) := expand_chain (chain_fuel m) num_bkts ideal (hh_head b) new nonideal m in
      expand_loop num_bkts ideal old new nonideal m
  end.

Definition HASH_EXPAND_BUCKETS (t : UT_hash_table) (m : heap) : res (UT_hash_table * heap) :=
  let num_bkts := u32 (2 * num_buckets t) in
  let* _ := uthash_malloc (num_bkts * sizeof_UT_hash_bucket) in
  let ideal := u32 (Z.shiftr (num_items t) (log2_num_buckets t + 1) +
                    (if Z.land (num_items t) (u32 (num_bkts - 1)) =? 0 then 0 else 1)) in
  let* (new, nonideal, m) :=
    expand_loop num_bkts ideal (buckets t) (replicate (Z.to_nat num_bkts) (mk_bucket 0 0 0)) 0 m in
  let ineff := if Z.shiftr (num_items t) 1 <? nonideal then u32 (ineff_expands t + 1) else 0 in
  Ok (mk_table new num_bkts (u32 (log2_num_buckets t + 1)) (num_items t) (tbl_tail t)
        ideal nonideal ineff (if 1 <? ineff then 1 else noexpand t), m).

Definition HASH_ADD_TO_BKT (t : UT_hash_table) (m : heap) (bkt : Z) (add : ptr) : res (UT_hash_table * heap) :=
  let* b := rd (buckets t) bkt in
  let c := u32 (count b + 1) in
  let* m := set_hh_next m add (hh_head b) in
  let* m := set_hh_prev m add 0 in
  let* m := if hh_head b =? 0 then Ok m else set_hh_prev m (hh_head b) add in
  let* bs := wr (buckets t) bkt (mk_bucket add c (expand_mult b)) in
  let t := set_buckets t bs in
  if (u32 ((expand_mult b + 1) * HASH_BKT_CAPACITY_THRESH) <=? c) && negb (noexpand t =? 1)
  then HASH_EXPAND_BUCKETS t m else Ok (t, m).

Definition HASH_ADD_KEYPTR (t : hash) (keyptr : bytes) (keylen_in : Z) (add : ptr) : res hash :=
  let m := mem t in
  let* m := set_next m add 0 in
  let* m := set_key m add keyptr in
  let* m := set_keylen m add (u32 keylen_in) in
  let* (head, b, m) :=
    if hd t =? 0 then
      let* m := set_prev m add 0 in
      let* b := HASH_MAKE_TABLE add in
      Ok (add, b, m)
    else
      let* b := head_tbl t in
      let* m := set_next m (tbl_tail b) add in
      let* m := set_prev m add (tbl_tail b) in
      Ok (hd t, set_tail b add, m) in
  let b := set_num_items b (u32 (num_items b + 1)) in
  let* h := HASH_FCN keyptr keylen_in in
  let* m := set_hashv m add h in
  let* (b, m) := HASH_ADD_TO_BKT b m (HASH_TO_BKT h (num_buckets b)) add in
  Ok (mk_hash head (Some b) m).

(** [HASH_ADD(hh,head,key[0],keylen_in,add)] for a key in the element: its
    memory is the one the handle points to afterwards *)
Definition HASH_ADD (t : hash) (keyptr : bytes) (keylen_in : Z) (add : ptr) : res hash :=
  HASH_ADD_KEYPTR t keyptr keylen_in add.

(** ** Deleting *)
Definition HASH_DEL_IN_BKT (t : UT_hash_table) (m : heap) (bkt : Z) (hh_del : ptr) : res (UT_hash_table * heap) :=
  let* b := rd (buckets t) bkt in
  let c := u32 (count b - 1) in
  let* n := ld (hh_next m) hh_del in
  let h := if hh_head b =? hh_del then n else hh_head b in
  let* p := ld (hh_prev m) hh_del in
  let* m := if p =? 0 then Ok m else set_hh_next m p n in
  let* m := if n =? 0 then Ok m else set_hh_prev m n p in
  let* bs := wr (buckets t) bkt (mk_bucket h c (expand_mult b)) in
  Ok (set_buckets t bs, m).

Definition HASH_DELETE (t : hash) (delptr : ptr) : res hash :=
  let m := mem t in
  let* p := ld (prev m) delptr in
  let* n := ld (next m) delptr in
  let* b := head_tbl t in
  if (p =? 0) && (n =? 0) then Ok (mk_hash 0 None m)
  else
    let b := if delptr =? tbl_tail b then set_tail b p else b in
    let* (head, m) :=
      if p =? 0 then Ok (n, m) else let* m := set_next m p n in Ok (hd t, m) in
    let* n := ld (next m) delptr in
    let* m := if n =? 0 then Ok m else set_prev m n p in
    let* h := ld (hashv m) delptr in
    let* b' := head_tbl (mk_hash head (Some b) m) in
    let* (b, m) := HASH_DEL_IN_BKT b' m (HASH_TO_BKT h (num_buckets b')) delptr in
    Ok (mk_hash head (Some (set_num_items b (u32 (num_items b - 1)))) m).

Definition HASH_DEL (t : hash) (delptr : ptr) : res hash := HASH_DELETE t delptr.

(** the result is the hash and [replaced] *)
Definition HASH_REPLACE (t : hash) (keyptr : bytes) (keylen_in : Z) (add : ptr) : res (hash * ptr) :=
  let* replaced := HASH_FIND t keyptr keylen_in in
  let* t := if replaced =? 0 then Ok t else HASH_DELETE t replaced in
  let* t := HASH_ADD t keyptr keylen_in add in
  Ok (t, replaced).

(** ** The forms for strings *)
Definition HASH_FIND_STR (t : hash) (findstr : bytes) : res ptr :=
  let* n := strlen findstr in HASH_FIND t findstr n.
Definition HASH_ADD_STR (t : hash) (strfield : bytes) (add : ptr) : res hash :=
  let* n := strlen strfield in HASH_ADD t strfield n add.
Definition HASH_REPLACE_STR (t : hash) (strfield : bytes) (add : ptr) : res (hash * ptr) :=
  let* n := strlen strfield in HASH_REPLACE t strfield n add.

(** ** Traversal, count, clearing *)
(** the elements [HASH_ITER] visits from [el] on *)
Fixpoint HASH_ITER (fuel : nat) (m : heap) (el : ptr) : res (list ptr) :=
  match fuel with
  | O => Fault NoFuel
  | S fuel =>
      if el =? 0 then Ok [] else
      let* tmp := ld (next m) el in
      let* l := HASH_ITER fuel m tmp in Ok (el :: l)
  end.

Definition HASH_COUNT (t : hash) : res Z :=
  if hd t =? 0 then Ok 0 else let* b := head_tbl t in Ok (num_items b).

Definition HASH_CLEAR (t : hash) : res hash :=
  if hd t =? 0 then Ok t else let* _ := head_tbl t in Ok (mk_hash 0 None (mem t)).

Definition HASH_OVERHEAD (t : hash) : res Z :=
  let* b := head_tbl t in
  Ok (num_items b * 56 + num_buckets b * sizeof_UT_hash_bucket + sizeof_UT_hash_table + 0).

(** ** The integrity check; [HASH_OOPS] exits *)
(** the chain of a bucket: its length *)
Fixpoint fsck_chain (fuel : nat) (m : heap) (_thh _prev : ptr) (_bkt_count : Z) : res Z :=
  match fuel with
  | O => Fault NoFuel
  | S fuel =>
      if _thh =? 0 then Ok _bkt_count else
      let* p := ld (hh_prev m) _thh in
      if negb (_prev =? p) then Exit (-1) else
      let* n := ld (hh_next m) _thh in
      fsck_chain fuel m n _thh (u32 (_bkt_count + 1))
  end.

Fixpoint fsck_buckets (m : heap) (bs : list UT_hash_bucket) (_count : Z) : res Z :=
  match bs with
  | [] => Ok _count
  | b :: bs =>
      let* n := fsck_chain (chain_fuel m) m (hh_head b) 0 0 in
      if negb (count b =? n) then Exit (-1) else fsck_buckets m bs (u32 (_count + n))
  end.

(** the list in app order: its length *)
Fixpoint fsck_app (fuel : nat) (m : heap) (_thh _prev : ptr) (_count : Z) : res Z :=
  match fuel with
  | O => Fault NoFuel
  | S fuel =>
      if _thh =? 0 then Ok _count else
      let* p := ld (prev m) _thh in
      if negb (_prev =? p) then Exit (-1) else
      let* n := ld (next m) _thh in
      fsck_app fuel m n _thh (u32 (_count + 1))
  end.

Definition HASH_FSCK (t : hash) : res unit :=
  if hd t =? 0 then Ok tt
  else
    let* b := head_tbl t in
    let* n := fsck_buckets (mem t) (take (Z.to_nat (num_buckets b)) (buckets b)) 0 in
    if negb (n =? num_items b) then Exit (-1) else
    let* n := fsck_app (S (size (next (mem t)))) (mem t) (hd t) 0 0 in
    if negb (n =? num_items b) then Exit (-1) else Ok tt.

(** ** Sequences of operations, for C strings *)
Inductive hash_op :=
  | OpFind (findstr : bytes)
  | OpAdd (add : ptr) (strfield : bytes)
  | OpDel (delptr : ptr)
  | OpReplace (add : ptr) (strfield : bytes).

(** the pointer an operation assigns to its last argument, or null *)
Definition hash_step (t : hash) (op : hash_op) : res (hash * ptr) :=
  match op with
  | OpFind s => let* p := HASH_FIND_STR t s in Ok (t, p)
  | OpAdd a s => let* t := HASH_ADD_STR t s a in Ok (t, 0)
  | OpDel p => let* t := HASH_DEL t p in Ok (t, 0)
  | OpReplace a s => HASH_REPLACE_STR t s a
  end.

Fixpoint hash_run (t : hash) (ops : list hash_op) : res (hash * list ptr) :=
  match ops with
  | [] => Ok (t, [])
  | op :: ops =>
      let* (t, p) := hash_step t op in
      let* (t, ps) := hash_run t ops in
      Ok (t, p :: ps)
  end.
End uthash.
