(* ===== verification/LinkedList.v ===== *)
(** * Linked lists in a heap with one map per field

    [lseg nx l]: from its first element on, the list [l] is linked by the field
    [nx] and ends with the null pointer.  [dseg nx pv pp l nn]: [l] is linked
    both ways between [pp] and [nn].  Used for the two doubly linked lists of
    uthash. *)
From Stdlib Require Import ZArith Lia.
From stdpp Require Import base numbers option list gmap.
From S2P Require Import Prelude.

Implicit Types (nx pv : gmap Z Z) (l : list Z) (p q pp nn : Z).

(** the first element of [l], or [d] *)
Definition hdp l (d : Z) : Z := match l with [] => d | p :: _ => p end.
(** the last one *)
Definition lastp l (d : Z) : Z := default d (last l).

Fixpoint lseg nx l : Prop :=
  match l with
  | [] => True
  | p :: l => p <> 0 /\ nx !! p = Some (hdp l 0) /\ lseg nx l
  end.

Fixpoint dseg nx pv pp l nn : Prop :=
  match l with
  | [] => True
  | p :: l => p <> 0 /\ pv !! p = Some pp /\ nx !! p = Some (hdp l nn) /\ dseg nx pv p l nn
  end.

Abbreviation dll nx pv l := (dseg nx pv 0 l 0).

Lemma NoDup_middle {A} (l1 l2 : list A) x : NoDup (l1 ++ x :: l2) -> (x ∉ l1 ++ l2) /\ NoDup (l1 ++ l2).
Proof. rewrite <- Permutation_middle. apply NoDup_cons. Qed.

Lemma lastp_snoc l p d : lastp (l ++ [p]) d = p.
Proof. unfold lastp. by rewrite last_snoc. Qed.

Lemma lastp_cons p l d : lastp (p :: l) d = lastp l p.
Proof. unfold lastp. rewrite last_cons. by destruct (last l). Qed.

Lemma lastp_elem l d : l <> [] -> lastp l d ∈ l.
Proof.
  destruct l as [|p l _] using rev_ind; [done|]. intros _. rewrite lastp_snoc. apply elem_of_app. right. by left.
Qed.

Lemma hdp_elem l d : l <> [] -> hdp l d ∈ l.
Proof. destruct l; [done|]. by left. Qed.

Lemma hdp_app l l' d : hdp (l ++ l') d = hdp l (hdp l' d).
Proof. by destruct l. Qed.

Lemma dseg_lseg nx pv pp l : dseg nx pv pp l 0 -> lseg nx l.
Proof. revert pp. induction l as [|p l IH]; intros pp; [done|]. intros (? & _ & ? & H). split; [done|]. split; [done|]. by eapply IH. Qed.

Lemma dseg_not_null nx pv pp l nn p : dseg nx pv pp l nn -> p ∈ l -> p <> 0.
Proof.
  revert pp. induction l as [|q l IH]; intros pp; [by intros _ ?%not_elem_of_nil|].
  intros (? & _ & _ & H) [->|?]%elem_of_cons; [done|]. by eapply IH.
Qed.

Lemma dseg_app nx pv pp l l' nn :
  dseg nx pv pp (l ++ l') nn <-> dseg nx pv pp l (hdp l' nn) /\ dseg nx pv (lastp l pp) l' nn.
Proof.
  revert pp. induction l as [|p l IH]; intros pp; [by cbn; tauto|].
  cbn [app dseg]. rewrite IH, hdp_app, lastp_cons. tauto.
Qed.

(** only the fields of the elements matter *)
Lemma lseg_frame nx nx' l : (forall p, p ∈ l -> nx' !! p = nx !! p) -> lseg nx l -> lseg nx' l.
Proof.
  induction l as [|p l IH]; [done|]. intros H (? & Hn & Hl). split; [done|]. split; [rewrite H by left; done|].
  apply IH; [|done]. intros q Hq. apply H. by right.
Qed.

Lemma dseg_frame nx pv nx' pv' pp l nn :
  (forall p, p ∈ l -> nx' !! p = nx !! p /\ pv' !! p = pv !! p) -> dseg nx pv pp l nn -> dseg nx' pv' pp l nn.
Proof.
  revert pp. induction l as [|p l IH]; intros pp; [done|]. intros H (? & Hp & Hn & Hl). cbn [dseg]. destruct (H p) as [-> ->]; [by left|].
  split; [done|]. split; [done|]. split; [done|]. apply IH; [|done]. intros q Hq. apply H. by right.
Qed.

Lemma dseg_frame_nx nx pv pp l nn q v : q ∉ l -> dseg nx pv pp l nn -> dseg (<[q := v]> nx) pv pp l nn.
Proof. intros Hq. apply dseg_frame. intros p Hp. split; [|done]. apply lookup_insert_ne. congruence. Qed.

Lemma dseg_frame_pv nx pv pp l nn q v : q ∉ l -> dseg nx pv pp l nn -> dseg nx (<[q := v]> pv) pp l nn.
Proof. intros Hq. apply dseg_frame. intros p Hp. split; [done|]. apply lookup_insert_ne. congruence. Qed.

(** relinking the ends of a segment *)
Lemma dseg_set_last nx pv pp l nn v :
  NoDup l -> l <> [] -> dseg nx pv pp l nn -> dseg (<[lastp l 0 := v]> nx) pv pp l v.
Proof.
  destruct l as [|p l _] using rev_ind; [done|]. intros Hn _ H. rewrite lastp_snoc.
  apply NoDup_app in Hn as (_ & Hn & _). apply dseg_app in H as [H1 (? & H2 & H3 & _)]. apply dseg_app. split.
  - apply dseg_frame_nx; [|done]. intros Hp. apply (Hn p Hp). by left.
  - cbn. rewrite lookup_insert_eq. done.
Qed.

Lemma dseg_set_first nx pv pp l nn v :
  NoDup l -> l <> [] -> dseg nx pv pp l nn -> dseg nx (<[hdp l 0 := v]> pv) v l nn.
Proof.
  destruct l as [|p l]; [done|]. intros [Hp Hn]%NoDup_cons _ (? & _ & ? & H). cbn [hdp dseg]. rewrite lookup_insert_eq.
  split; [done|]. split; [done|]. split; [done|]. by apply dseg_frame_pv.
Qed.

(** ** The operations on lists *)
(** an element is added at the front *)
Lemma dll_push nx pv l a :
  dll nx pv l -> NoDup l -> a ∉ l -> a <> 0 ->
  dll (<[a := hdp l 0]> nx) ((if hdp l 0 =? 0 then id else <[hdp l 0 := a]>) (<[a := 0]> pv)) (a :: l).
Proof.
  intros Hl Hn Ha H0. destruct l as [|q l].
  - cbn. rewrite !lookup_insert_eq. done.
  - pose proof Hl as (Hq & _). cbn [hdp]. rewrite (proj2 (Z.eqb_neq q 0) Hq).
    assert (dseg (<[a := q]> nx) (<[q := a]> (<[a := 0]> pv)) a (q :: l) 0) as H.
    { apply dseg_frame_nx; [done|]. apply (dseg_set_first _ (<[a := 0]> pv) 0 (q :: l) 0 a); [done|done|]. by apply dseg_frame_pv. }
    split; [done|]. split; [|split; [|exact H]].
    + rewrite lookup_insert_ne by (intros ->; apply Ha; by left). by rewrite lookup_insert_eq.
    + by rewrite lookup_insert_eq.
Qed.

(** or at the end *)
Lemma dll_append nx pv l a :
  dll nx pv l -> NoDup l -> l <> [] -> a ∉ l -> a <> 0 ->
  dll (<[lastp l 0 := a]> (<[a := 0]> nx)) (<[a := lastp l 0]> pv) (l ++ [a]).
Proof.
  intros Hl Hn Hne Ha H0. apply dseg_app. split.
  - apply (dseg_set_last _ _ _ _ 0); [done|done|]. apply dseg_frame_nx; [done|]. by apply dseg_frame_pv.
  - cbn [dseg hdp]. rewrite lookup_insert_eq. rewrite lookup_insert_ne.
    + rewrite lookup_insert_eq. split; [done|]. split; [done|]. done.
    + intros E. apply Ha. rewrite <- E. by apply lastp_elem.
Qed.

(** an element is removed *)
Lemma dll_remove nx pv l1 a l2 :
  dll nx pv (l1 ++ a :: l2) -> NoDup (l1 ++ a :: l2) ->
  nx !! a = Some (hdp l2 0) /\ pv !! a = Some (lastp l1 0) /\
  dll ((if lastp l1 0 =? 0 then id else <[lastp l1 0 := hdp l2 0]>) nx)
      ((if hdp l2 0 =? 0 then id else <[hdp l2 0 := lastp l1 0]>) pv) (l1 ++ l2).
Proof.
  intros H Hn. apply dseg_app in H as [H1 (Ha & Hp & Hx & H2)]. split; [done|]. split; [done|].
  apply NoDup_app in Hn as (Hn1 & Hd & [Ha2 Hn2]%NoDup_cons).
  assert (forall q, q ∈ l1 -> q ∉ l2) as Hd' by (intros q Hq Hq'; apply (Hd q Hq); by right).
  assert (dseg nx ((if hdp l2 0 =? 0 then id else <[hdp l2 0 := lastp l1 0]>) pv) (lastp l1 0) l2 0) as H2'.
  { destruct l2 as [|q l2]; [done|]. pose proof H2 as (Hq & _). cbn [hdp]. rewrite (proj2 (Z.eqb_neq q 0) Hq).
    by apply (dseg_set_first _ _ a (q :: l2)). }
  assert (dseg nx ((if hdp l2 0 =? 0 then id else <[hdp l2 0 := lastp l1 0]>) pv) 0 l1 a) as H1'.
  { destruct (Z.eqb_spec (hdp l2 0) 0); [done|]. apply dseg_frame_pv; [|done]. intros Hin. apply (Hd' _ Hin), hdp_elem. by intros ->. }
  destruct (decide (l1 = [])) as [->|Hne]; [done|].
  assert (lastp l1 0 <> 0) as Hl0 by by apply (dseg_not_null _ _ _ _ _ _ H1), lastp_elem.
  rewrite (proj2 (Z.eqb_neq _ 0) Hl0). apply dseg_app. split.
  - by apply (dseg_set_last _ _ _ _ a).
  - apply dseg_frame_nx; [|done]. by apply Hd', lastp_elem.
Qed.
