(* ===== verification/UtHashSpec.v ===== *)
(** * The hash table of uthash represents a list of elements with their keys

    [represents t items]: the elements and their keys in app order.  The
    macros of UtHash refine the operations on that list, for every hash function
    with the laws of [HashFcnLaws] and every allocator that refuses a request
    for 2^35 bytes, through all expansions of the buckets. *)
From Stdlib Require Import ZArith Lia Bool String.
From stdpp Require Import base numbers option list gmap.
From S2P Require Import Prelude CStr HashFcns UtHash LinkedList.

Abbreviation item := (ptr * bytes)%type.
Abbreviation ptrs items := (fst <$> (items : list item)).

Section spec.
Context {HF : HashFcn} {HL : HashFcnLaws HF}.
Variable malloc_ok : Z -> bool.

(** ** The representation *)
Definition hash_of (k : bytes) : Z := match HASH_FCN k (zlen k) with Ok h => h | _ => 0 end.

(** the bucket of a key among [nb] *)
Definition bkt_of (nb : Z) (k : bytes) : Z := HASH_TO_BKT (hash_of k) nb.

Record node_ok (m : heap) (it : item) : Prop := {
  node_len : zlen it.2 < 2 ^ 32;
  node_key : exists r, key m !! it.1 = Some (it.2 ++ r);
  node_keylen : keylen m !! it.1 = Some (zlen it.2);
  node_hashv : hashv m !! it.1 = Some (hash_of it.2) }.

(** the buckets hold the chains [f] *)
Definition buckets_ok (m : heap) (nb : Z) (bs : list UT_hash_bucket) (f : Z -> list ptr) : Prop :=
  zlen bs = nb /\
  forall j, 0 <= j < nb -> exists b, bs !! Z.to_nat j = Some b /\
    hh_head b = hdp (f j) 0 /\ count b = zlen (f j) /\ dll (hh_next m) (hh_prev m) (f j).

(** the chains hold the elements, each in the bucket of its key *)
Definition chains_ok (nb : Z) (f : Z -> list ptr) (items : list item) : Prop :=
  forall j, 0 <= j < nb -> NoDup (f j) /\ forall p, p ∈ f j <-> exists k, (p, k) ∈ items /\ bkt_of nb k = j.

(** the number of buckets is a power of two *)
Definition pow2_ok (b : UT_hash_table) : Prop :=
  0 <= log2_num_buckets b <= 30 /\ num_buckets b = 2 ^ log2_num_buckets b.

Record table_ok (m : heap) (b : UT_hash_table) (items : list item) (f : Z -> list ptr) : Prop := {
  ok_pow2 : pow2_ok b;
  ok_num : num_items b = zlen items /\ zlen items < 2 ^ 32;
  ok_tail : tbl_tail b = lastp (ptrs items) 0;
  ok_nodup : NoDup (ptrs items);
  ok_app : dll (next m) (prev m) (ptrs items);
  ok_nodes : Forall (node_ok m) items;
  ok_chains : chains_ok (num_buckets b) f items;
  ok_buckets : buckets_ok m (num_buckets b) (buckets b) f }.

Definition represents (t : hash) (items : list item) : Prop :=
  match items with
  | [] => hd t = 0 /\ tbl t = None
  | (p, _) :: _ => hd t = p /\ exists b f, tbl t = Some b /\ table_ok (mem t) b items f
  end.

(** an element that was allocated: its fields have some values *)
Definition allocated (m : heap) (p : ptr) : Prop :=
  p <> 0 /\ is_Some (prev m !! p) /\ is_Some (next m !! p) /\ is_Some (hh_prev m !! p) /\ is_Some (hh_next m !! p) /\
  is_Some (key m !! p) /\ is_Some (keylen m !! p) /\ is_Some (hashv m !! p).

(** ** Lemmas: fields *)
Lemma ld_Ok {A} (f : gmap ptr A) p v : p <> 0 -> f !! p = Some v -> ld f p = Ok v.
Proof. intros H E. unfold ld. by rewrite (proj2 (Z.eqb_neq p 0) H), E. Qed.

Lemma st_Ok {A} (f : gmap ptr A) p v : p <> 0 -> is_Some (f !! p) -> st f p v = Ok (<[p := v]> f).
Proof. intros H [w E]. unfold st. by rewrite (ld_Ok f p w). Qed.

Lemma is_Some_insert {A} (f : gmap ptr A) i j v : is_Some (f !! i) -> is_Some (<[j := v]> f !! i).
Proof. intros H. destruct (decide (i = j)) as [->|]; [rewrite lookup_insert_eq; by eexists|by rewrite lookup_insert_ne]. Qed.

Lemma hash_of_spec k m : zlen k < 2 ^ 32 -> HASH_FCN (k ++ m) (zlen k) = Ok (hash_of k) /\ is_u32 (hash_of k).
Proof.
  intros Hk. destruct (hash_uniform k Hk) as (h & Hh & E'). assert (forall m, HASH_FCN (k ++ m) (zlen k) = Ok h) as E by exact E'.
  unfold hash_of. pose proof (E []) as E0. rewrite app_nil_r in E0. rewrite E0. by rewrite E.
Qed.

(** ** Lemmas: buckets *)
Lemma bkt_mod h n : 0 <= n <= 31 -> HASH_TO_BKT h (2 ^ n) = h mod 2 ^ n.
Proof.
  intros Hn. unfold HASH_TO_BKT. rewrite u32_id.
  - rewrite Z.sub_1_r, <- Z.ones_equiv. apply Z.land_ones. lia.
  - pose proof (Z.pow_le_mono_r 2 n 31). pose proof (Z.pow_pos_nonneg 2 n). unfold is_u32. lia.
Qed.

Lemma bkt_range h n : 0 <= n <= 31 -> 0 <= HASH_TO_BKT h (2 ^ n) < 2 ^ n.
Proof. intros Hn. rewrite bkt_mod by done. apply Z.mod_pos_bound, Z.pow_pos_nonneg; lia. Qed.

Lemma memcmp_prefix (k r m : bytes) n : n = length k -> memcmp (k ++ r) (k ++ m) n = Ok 0.
Proof. intros ->. induction k as [|b k IH]; [done|]. cbn [memcmp app length]. by rewrite Z.eqb_refl. Qed.

(** keys of the same length are compared *)
Lemma keycmp_eq (k r k' m : bytes) :
  length k = length k' -> exists d, HASH_KEYCMP (k ++ r) (k' ++ m) (zlen k') = Ok d /\ (d = 0 <-> k = k').
Proof.
  intros Hl. unfold HASH_KEYCMP. assert (Z.to_nat (zlen k') = length k') as -> by (unfold zlen; lia).
  revert k' Hl. induction k as [|b k IH]; intros [|b' k'] Hl; try discriminate.
  - exists 0. done.
  - cbn [memcmp app length]. destruct (Z.eqb_spec b b') as [->|Hb].
    + destruct (IH k') as (d & -> & Hd); [by injection Hl|]. exists d. split; [done|]. rewrite Hd. split; [by intros ->|by intros [=]].
    + exists (b - b'). split; [done|]. split; [lia|]. intros [= ? _]. done.
Qed.

Definition fupd (f : Z -> list ptr) (j : Z) (l : list ptr) : Z -> list ptr := fun i => if i =? j then l else f i.

Lemma fupd_eq f j l : fupd f j l j = l.
Proof. unfold fupd. by rewrite Z.eqb_refl. Qed.
Lemma fupd_ne f j l i : i <> j -> fupd f j l i = f i.
Proof. intros H. unfold fupd. by rewrite (proj2 (Z.eqb_neq i j) H). Qed.

(** the heap in which [a] is linked in front of the chain that starts at [h] *)
Definition push_heap (m : heap) (a h : ptr) : heap :=
  mk_heap (prev m) (next m) ((if h =? 0 then id else <[h := a]>) (<[a := 0]> (hh_prev m))) (<[a := h]> (hh_next m))
    (key m) (keylen m) (hashv m).

Lemma push_writes m a h :
  a <> 0 -> is_Some (hh_prev m !! a) -> is_Some (hh_next m !! a) -> h = 0 \/ is_Some (hh_prev m !! h) ->
  (let* m := set_hh_next m a h in
   let* m := set_hh_prev m a 0 in
   if h =? 0 then Ok m else set_hh_prev m h a) = Ok (push_heap m a h) /\
  (let* m := set_hh_prev m a 0 in
   let* m := set_hh_next m a h in
   if h =? 0 then Ok m else set_hh_prev m h a) = Ok (push_heap m a h).
Proof.
  intros Ha Hp Hn Hh. unfold set_hh_next, set_hh_prev, push_heap. rewrite !st_Ok by done. cbn [res_bind hh_prev hh_next].
  rewrite !st_Ok by done. cbn [res_bind hh_prev hh_next].
  destruct (Z.eqb_spec h 0); [done|]. destruct Hh as [?|Hh]; [done|].
  by rewrite !st_Ok by (done || by apply is_Some_insert).
Qed.

Lemma buckets_rd m nb bs f j :
  buckets_ok m nb bs f -> 0 <= j < nb ->
  exists b, rd bs j = Ok b /\ hh_head b = hdp (f j) 0 /\ count b = zlen (f j) /\ dll (hh_next m) (hh_prev m) (f j).
Proof.
  intros [Hl H] Hj. destruct (H j Hj) as (b & Hb & H1 & H2 & H3). exists b. split; [|done]. apply rd_Ok. split; [lia|done].
Qed.

(** a chain is replaced, the heap changes outside of the others *)
Lemma buckets_upd m m' nb bs f j b l :
  buckets_ok m nb bs f -> 0 <= j < nb ->
  hh_head b = hdp l 0 -> count b = zlen l -> dll (hh_next m') (hh_prev m') l ->
  (forall i p, 0 <= i < nb -> i <> j -> p ∈ f i -> hh_next m' !! p = hh_next m !! p /\ hh_prev m' !! p = hh_prev m !! p) ->
  exists bs', wr bs j b = Ok bs' /\ buckets_ok m' nb bs' (fupd f j l).
Proof.
  intros [Hl H] Hj Hh Hc Hd Hf. exists (<[Z.to_nat j := b]> bs). unfold wr. rewrite Hl.
  rewrite (proj2 (Z.leb_le 0 j)), (proj2 (Z.ltb_lt j nb)) by lia. split; [done|]. split; [unfold zlen in *; by rewrite length_insert|].
  intros i Hi. destruct (Z.eq_dec i j) as [->|Hij].
  - exists b. rewrite fupd_eq. split; [|done]. apply list_lookup_insert_eq. unfold zlen in Hl. lia.
  - destruct (H i Hi) as (b' & Hb & H1 & H2 & H3). exists b'. rewrite fupd_ne by done. split.
    + rewrite list_lookup_insert_ne by lia. done.
    + split; [done|]. split; [done|]. apply (dseg_frame (hh_next m) (hh_prev m)); [|done]. intros p Hp. by apply (Hf i).
Qed.

Lemma push_heap_frame m a h p :
  p <> a -> p <> h -> hh_next (push_heap m a h) !! p = hh_next m !! p /\ hh_prev (push_heap m a h) !! p = hh_prev m !! p.
Proof.
  intros Ha Hh. unfold push_heap. cbn [hh_next hh_prev]. rewrite lookup_insert_ne by done. split; [done|].
  destruct (h =? 0); cbn; [by rewrite lookup_insert_ne|by rewrite !lookup_insert_ne].
Qed.

Lemma push_heap_prev_dom m a h p : is_Some (hh_prev m !! p) -> is_Some (hh_prev (push_heap m a h) !! p).
Proof.
  intros H. unfold push_heap. cbn [hh_prev]. destruct (h =? 0); repeat apply is_Some_insert; done.
Qed.

(** an element is pushed to a chain *)
Lemma buckets_push m nb bs f j a b c mult :
  buckets_ok m nb bs f -> 0 <= j < nb -> rd bs j = Ok b -> NoDup (f j) ->
  (forall i p, 0 <= i < nb -> i <> j -> p ∈ f i -> p ∉ f j) ->
  a <> 0 -> (forall i, 0 <= i < nb -> a ∉ f i) -> c = zlen (f j) + 1 ->
  exists bs', wr bs j (mk_bucket a c mult) = Ok bs' /\ buckets_ok (push_heap m a (hh_head b)) nb bs' (fupd f j (a :: f j)).
Proof.
  intros Hb Hj Hr Hn Hd Ha Hni ->. destruct (buckets_rd _ _ _ _ _ Hb Hj) as (b' & Hr' & Hh & Hc & Hdll).
  assert (b' = b) as -> by congruence. rewrite Hh. eapply buckets_upd; [exact Hb|done|done| | |].
  - cbn [count]. rewrite zlen_cons. lia.
  - unfold push_heap. cbn [hh_next hh_prev]. apply dll_push; [done|done|by apply Hni|done].
  - intros i p Hi Hij Hp. apply push_heap_frame; [intros ->; by apply (Hni i)|].
    intros ->. destruct (f j) as [|q l] eqn:Ef.
    + destruct Hb as [_ Hb]. destruct (Hb i Hi) as (? & _ & _ & _ & Hdi). by apply (dseg_not_null _ _ _ _ _ _ Hdi Hp).
    + apply (Hd i q Hi Hij Hp). by left.
Qed.

(** ** Lemmas: expansion *)
Definition push_all (idx : ptr -> Z) (f : Z -> list ptr) (l : list ptr) : Z -> list ptr :=
  fold_left (fun f p => fupd f (idx p) (p :: f (idx p))) l f.

(** chains that hold elements in their buckets *)
Definition sorted_in (idx : ptr -> Z) (nb : Z) (f : Z -> list ptr) : Prop :=
  forall i, 0 <= i < nb -> NoDup (f i) /\ forall p, p ∈ f i -> idx p = i.

Lemma push_elem idx f p i q :
  q ∈ fupd f (idx p) (p :: f (idx p)) i <-> q ∈ f i \/ q = p /\ idx p = i.
Proof.
  destruct (Z.eq_dec i (idx p)) as [->|Hi].
  - rewrite fupd_eq, elem_of_cons. naive_solver.
  - rewrite fupd_ne by done. naive_solver.
Qed.

Lemma push_all_elem idx l : forall f i q, q ∈ push_all idx f l i <-> q ∈ f i \/ q ∈ l /\ idx q = i.
Proof.
  induction l as [|p l IH]; intros f i q; cbn [push_all fold_left].
  - rewrite elem_of_nil. tauto.
  - fold (push_all idx (fupd f (idx p) (p :: f (idx p))) l). rewrite IH, push_elem, elem_of_cons. naive_solver.
Qed.

Lemma push_sorted idx nb f p :
  sorted_in idx nb f -> (forall i, 0 <= i < nb -> p ∉ f i) -> sorted_in idx nb (fupd f (idx p) (p :: f (idx p))).
Proof.
  intros H Hp i Hi. split.
  - destruct (Z.eq_dec i (idx p)) as [->|Hne]; [|rewrite fupd_ne by done; by apply H].
    rewrite fupd_eq. apply NoDup_cons. split; [by apply Hp|by apply H].
  - intros q [Hq|[-> <-]]%push_elem; [by apply (H i)|done].
Qed.

Record same_data (m m' : heap) : Prop := {
  same_prev : prev m' = prev m; same_next : next m' = next m; same_key : key m' = key m;
  same_keylen : keylen m' = keylen m; same_hashv : hashv m' = hashv m;
  same_size : size (hh_next m') = size (hh_next m);
  same_hh_prev : forall p, is_Some (hh_prev m !! p) -> is_Some (hh_prev m' !! p);
  same_hh_next : forall p, is_Some (hh_next m !! p) -> is_Some (hh_next m' !! p) }.

Lemma same_data_refl m : same_data m m.
Proof. by constructor. Qed.

Lemma same_data_trans m m' m'' : same_data m m' -> same_data m' m'' -> same_data m m''.
Proof. intros [] []. constructor; try congruence; auto. Qed.

Lemma push_same_data m a h : is_Some (hh_next m !! a) -> same_data m (push_heap m a h).
Proof.
  intros [v Hv]. constructor; try done.
  - cbn [push_heap hh_next]. by rewrite map_size_insert, Hv.
  - intros p. apply push_heap_prev_dom.
  - intros p. apply is_Some_insert.
Qed.

Section expand.
Variables (nb ideal B : Z) (idx : ptr -> Z).
Hypothesis Hideal : 0 < ideal.
Hypothesis HB : B < 2 ^ 32.

(** the elements [l] can be moved to the buckets [new] with the chains [f] *)
Record movable (m : heap) (new : list UT_hash_bucket) (f : Z -> list ptr) (l : list ptr) : Prop := {
  mv_nodup : NoDup l;
  mv_hash : forall p, p ∈ l -> exists h, hashv m !! p = Some h /\ HASH_TO_BKT h nb = idx p /\ 0 <= idx p < nb;
  mv_alloc : forall p, p ∈ l -> is_Some (hh_prev m !! p);
  mv_buckets : buckets_ok m nb new f;
  mv_sorted : sorted_in idx nb f;
  mv_fresh : forall i p, 0 <= i < nb -> p ∈ f i -> p ∉ l;
  mv_prev : forall i p, 0 <= i < nb -> p ∈ f i -> is_Some (hh_prev m !! p);
  mv_bound : forall i, 0 <= i < nb -> zlen (f i) + zlen l <= B }.

(** one element is moved *)
Lemma move_one m new f p l :
  movable m new f (p :: l) -> p <> 0 -> is_Some (hh_next m !! p) ->
  exists b, rd new (idx p) = Ok b /\ u32 (count b + 1) = zlen (f (idx p)) + 1 /\
  (hh_head b = 0 \/ is_Some (hh_prev m !! hh_head b)) /\
  forall mult, exists new', wr new (idx p) (mk_bucket p (u32 (count b + 1)) mult) = Ok new' /\
    movable (push_heap m p (hh_head b)) new' (fupd f (idx p) (p :: f (idx p))) l.
Proof.
  intros [Hn Hh Ha Hb Hs Hf Hp Hbd] Hp0 Hpn. apply NoDup_cons in Hn as [Hpl Hn].
  destruct (Hh p) as (h & Hhp & Hidx & Hr); [by left|].
  destruct (buckets_rd _ _ _ _ _ Hb Hr) as (b & Erd & Eh & Ec & Ed). exists b. split; [done|].
  pose proof (Hbd _ Hr) as Hbd'. rewrite zlen_cons in Hbd'. pose proof (zlen_nonneg l). pose proof (zlen_nonneg (f (idx p))).
  assert (u32 (count b + 1) = zlen (f (idx p)) + 1) as Eu by (rewrite Ec; apply u32_id; unfold is_u32; lia).
  split; [done|]. split.
  { rewrite Eh. destruct (f (idx p)) as [|q c] eqn:Ef; [by left|]. right. cbn [hdp]. apply (Hp (idx p)); [done|]. rewrite Ef. by left. }
  assert (forall i, 0 <= i < nb -> p ∉ f i) as Hpf by (intros i Hi Hin; apply (Hf i p Hi Hin); by left).
  intros mult. destruct (buckets_push m nb new f (idx p) p b (u32 (count b + 1)) mult Hb Hr Erd) as (new' & Ew & Hb'); try done.
  { by apply Hs. }
  { intros i q Hi Hne Hq Hq'. apply Hne. destruct (Hs i Hi) as [_ H1]. destruct (Hs (idx p) Hr) as [_ H2].
    rewrite <- (H1 q Hq). by apply H2. }
  exists new'. split; [done|]. constructor; [done|..].
  - intros q Hq. apply Hh. by right.
  - intros q Hq. apply push_heap_prev_dom, Ha. by right.
  - done.
  - by apply push_sorted.
  - intros i q Hi [Hq|[-> _]]%push_elem; [|done]. intros Hql. apply (Hf i q Hi Hq). by right.
  - intros i q Hi [Hq|[-> _]]%push_elem; apply push_heap_prev_dom; [by apply (Hp i)|apply Ha; by left].
  - intros i Hi. destruct (Z.eq_dec i (idx p)) as [->|Hne].
    + rewrite fupd_eq, zlen_cons. lia.
    + rewrite fupd_ne by done. pose proof (Hbd i Hi) as Hbi. rewrite zlen_cons in Hbi. lia.
Qed.

Lemma expand_chain_ok l : forall rest fuel m new f nonideal,
  (length l < fuel)%nat -> lseg (hh_next m) l -> movable m new f (l ++ rest) ->
  exists new' nonideal' m', expand_chain fuel nb ideal (hdp l 0) new nonideal m = Ok (new', nonideal', m') /\
  movable m' new' (push_all idx f l) rest /\ same_data m m' /\ forall p, p ∉ l -> hh_next m' !! p = hh_next m !! p.
Proof.
  induction l as [|p l IH]; intros rest [|fuel] m new f nonideal Hfuel Hl Hmv; simpl in Hfuel; [lia| |lia|].
  { exists new, nonideal, m. split; [done|]. split; [done|]. split; [apply same_data_refl|done]. }
  destruct Hl as (Hp0 & Hpn & Hl). cbn [app] in Hmv.
  destruct (mv_hash _ _ _ _ Hmv p) as (h & Hhp & Hidx & Hr); [by left|].
  destruct (move_one _ _ _ _ _ Hmv Hp0) as (b & Erd & Eu & Hh & Hw); [by eexists|].
  pose proof (mv_nodup _ _ _ _ Hmv) as [Hpl _]%NoDup_cons.
  assert (is_Some (hh_prev m !! p)) as Hpp by (apply (mv_alloc _ _ _ _ Hmv); by left).
  destruct (push_writes m p (hh_head b) Hp0 Hpp) as [_ Epush]; [by eexists|done|].
  cbn [expand_chain hdp]. rewrite (proj2 (Z.eqb_neq p 0) Hp0). rewrite (ld_Ok _ _ _ Hp0 Hpn). cbn [res_bind].
  rewrite (ld_Ok _ _ _ Hp0 Hhp). cbn [res_bind]. rewrite Hidx, Erd. cbn [res_bind].
  set (mult := if ideal <? u32 (count b + 1) then u32 (count b + 1) / ideal else expand_mult b).
  set (non := if ideal <? u32 (count b + 1) then u32 (nonideal + 1) else nonideal).
  assert ((if ideal <? u32 (count b + 1) then
             check* negb (ideal =? 0) else DivByZero in Ok (u32 (count b + 1) / ideal, u32 (nonideal + 1))
           else Ok (expand_mult b, nonideal)) = Ok (mult, non)) as ->.
  { unfold mult, non. rewrite (proj2 (Z.eqb_neq ideal 0)) by lia. by destruct (ideal <? _). }
  cbn [res_bind].
  destruct (Hw mult) as (new' & Ew & Hmv').
  destruct (IH rest fuel (push_heap m p (hh_head b)) new' (fupd f (idx p) (p :: f (idx p))) non) as (new'' & non' & m' & E & Hmv'' & Hs & Hf).
  - lia.
  - apply (lseg_frame (hh_next m)); [|done]. intros q Hq. cbn [push_heap hh_next]. apply lookup_insert_ne.
    intros <-. apply Hpl, elem_of_app. by left.
  - done.
  - exists new'', non', m'. split; [|split; [exact Hmv''|split]].
    + rewrite <- E. destruct (set_hh_prev m p 0) as [m1|fl|ec]; [|done..]. cbn [res_bind] in Epush |- *.
      destruct (set_hh_next m1 p (hh_head b)) as [m2|fl|ec]; [|done..]. cbn [res_bind] in Epush |- *.
      rewrite Epush. cbn [res_bind]. by rewrite Ew.
    + apply (same_data_trans _ (push_heap m p (hh_head b))); [|done]. apply push_same_data. by eexists.
    + intros q [Hqp Hql]%not_elem_of_cons. rewrite Hf by done. cbn [push_heap hh_next]. by apply lookup_insert_ne.
Qed.

Lemma lseg_length nx (l : list ptr) : NoDup l -> lseg nx l -> (length l <= size nx)%nat.
Proof.
  intros Hn Hl. rewrite <- size_dom, <- (size_list_to_set (C := gset Z) l) by done. apply subseteq_size. intros p Hp%elem_of_list_to_set.
  clear Hn. induction l as [|q l IH]; [by apply not_elem_of_nil in Hp|]. destruct Hl as (_ & Hq & Hl).
  apply elem_of_cons in Hp as [->|Hp]; [|by apply IH]. apply elem_of_dom. by eexists.
Qed.

Lemma expand_loop_ok cs : forall old m new f nonideal,
  Forall2 (fun b c => hh_head b = hdp c 0) old cs -> Forall (lseg (hh_next m)) cs -> movable m new f (concat cs) ->
  exists new' nonideal' m', expand_loop nb ideal old new nonideal m = Ok (new', nonideal', m') /\
  movable m' new' (push_all idx f (concat cs)) [] /\ same_data m m'.
Proof.
  induction cs as [|c cs IH]; intros old m new f nonideal H2 Hl Hmv.
  { apply Forall2_nil_inv_r in H2 as ->. exists new, nonideal, m. split; [done|]. split; [done|]. apply same_data_refl. }
  apply Forall2_cons_inv_r in H2 as (b & old' & Hb & H2 & ->). apply Forall_cons in Hl as [Hc Hl]. cbn [concat] in Hmv.
  pose proof (mv_nodup _ _ _ _ Hmv) as (Hnc & Hd & _)%NoDup_app.
  cbn [expand_loop]. rewrite Hb.
  destruct (expand_chain_ok c (concat cs) (chain_fuel m) m new f nonideal) as (new1 & non1 & m1 & -> & Hmv1 & Hs1 & Hf1).
  { unfold chain_fuel. pose proof (lseg_length _ _ Hnc Hc). lia. }
  { done. }
  { done. }
  cbn [res_bind]. destruct (IH old' m1 new1 (push_all idx f c) non1) as (new2 & non2 & m2 & -> & Hmv2 & Hs2).
  - done.
  - rewrite Forall_forall in Hl. apply Forall_forall. intros c' Hc'. apply (lseg_frame (hh_next m)); [|by apply Hl].
    intros p Hp. apply Hf1. intros Hpc. apply (Hd p Hpc). apply list_elem_of_In, in_concat. exists c'. rewrite <- !list_elem_of_In. done.
  - done.
  - exists new2, non2, m2. split; [done|]. split; [|by eapply same_data_trans].
    cbn [concat]. unfold push_all in *. by rewrite fold_left_app.
Qed.
End expand.

Lemma NoDup_chains (g : nat -> list ptr) n : forall s,
  (forall i, (s <= i < s + n)%nat -> NoDup (g i)) ->
  (forall i j p, (s <= i < s + n)%nat -> (s <= j < s + n)%nat -> p ∈ g i -> p ∈ g j -> i = j) ->
  NoDup (concat (map g (seq s n))).
Proof.
  induction n as [|n IH]; intros s Hn Hd; [constructor|]. cbn [seq map concat]. apply NoDup_app. split; [apply Hn; lia|]. split.
  - intros p Hp Hp'. apply list_elem_of_In, in_concat in Hp' as (c & Hc & Hpc). apply in_map_iff in Hc as (j & <- & Hj%in_seq).
    apply list_elem_of_In in Hpc. assert (s = j) by (apply (Hd s j p); (done || lia)). lia.
  - apply IH; [intros; apply Hn; lia|]. intros i j p ? ?. apply Hd; lia.
Qed.

(** the elements of all chains *)
Lemma chains_elem nb f items p :
  (forall k, 0 <= bkt_of nb k < nb) -> chains_ok nb f items ->
  p ∈ concat (map (fun i => f (Z.of_nat i)) (seq 0 (Z.to_nat nb))) <-> exists k, (p, k) ∈ items.
Proof.
  intros Hb Hc. rewrite list_elem_of_In, in_concat. split.
  - intros (c & Hc' & Hp). apply in_map_iff in Hc' as (j & <- & Hj%in_seq). apply list_elem_of_In in Hp.
    apply Hc in Hp as (k & Hk & _); [by exists k|lia].
  - intros (k & Hk). exists (f (bkt_of nb k)). split.
    + apply in_map_iff. exists (Z.to_nat (bkt_of nb k)). specialize (Hb k). split; [f_equal; lia|]. apply in_seq. lia.
    + apply list_elem_of_In, Hc; [apply Hb|]. by exists k.
Qed.

Lemma key_unique (items : list item) p k k' : NoDup (ptrs items) -> (p, k) ∈ items -> (p, k') ∈ items -> k = k'.
Proof.
  intros Hn [i Hi]%list_elem_of_lookup [j Hj]%list_elem_of_lookup.
  assert (i = j) as ->; [|congruence]. apply (NoDup_lookup _ _ _ p Hn); rewrite list_lookup_fmap; [by rewrite Hi|by rewrite Hj].
Qed.

Lemma bkt_of_range n k : 0 <= n <= 31 -> 0 <= bkt_of (2 ^ n) k < 2 ^ n.
Proof. apply bkt_range. Qed.

Lemma node_ok_same m m' it : same_data m m' -> node_ok m it -> node_ok m' it.
Proof.
  intros Hs [H1 H2 H3 H4]. constructor; rewrite ?(same_key _ _ Hs), ?(same_keylen _ _ Hs), ?(same_hashv _ _ Hs); done.
Qed.

Section expand_table.
Hypothesis Hmalloc : forall n, malloc_ok n = true -> n < 2 ^ 35.

(** the bucket an element has among [nb] *)
Definition idx_in (m : heap) (nb : Z) (p : ptr) : Z :=
  match hashv m !! p with Some h => HASH_TO_BKT h nb | None => 0 end.

Lemma idx_in_key m nb items p k : Forall (node_ok m) items -> (p, k) ∈ items -> idx_in m nb p = bkt_of nb k.
Proof. intros H Hin. rewrite Forall_forall in H. pose proof (node_hashv _ _ (H _ Hin)) as E. unfold idx_in. cbn [fst] in E. by rewrite E. Qed.

Lemma elem_ptrs (items : list item) p : p ∈ ptrs items <-> exists k, (p, k) ∈ items.
Proof.
  rewrite list_elem_of_fmap. split.
  - intros ([q k] & -> & H). by exists k.
  - intros [k H]. by exists (p, k).
Qed.

(** the chains of a table hold each element once *)
Lemma table_chains m b items f :
  table_ok m b items f ->
  let cs := map (fun i => f (Z.of_nat i)) (seq 0 (Z.to_nat (num_buckets b))) in
  NoDup (concat cs) /\ (forall p, p ∈ concat cs <-> exists k, (p, k) ∈ items) /\
  Forall2 (fun b c => hh_head b = hdp c 0 /\ count b = zlen c /\ dll (hh_next m) (hh_prev m) c) (buckets b) cs.
Proof.
  intros [[Hlog Hnb] _ _ Hn _ _ Hch [Hlen Hbk]] cs.
  assert (forall k, 0 <= bkt_of (num_buckets b) k < num_buckets b) as Hbr by (intros k; rewrite Hnb; apply bkt_of_range; lia).
  split; [|split].
  - apply NoDup_chains; [intros i Hi; apply Hch; lia|]. intros i j p Hi Hj Hp Hp'.
    apply Hch in Hp as (k & Hk & Eb); [|lia]. apply Hch in Hp' as (k' & Hk' & Eb'); [|lia].
    rewrite (key_unique items p k k') in Eb by done. lia.
  - intros p. by apply chains_elem.
  - apply Forall2_same_length_lookup. unfold cs. rewrite length_map, length_seq. split; [unfold zlen in Hlen; lia|].
    intros i x c Hx Hc. apply list_lookup_fmap_Some in Hc as (j & -> & Hj). apply lookup_seq in Hj as [-> Hj].
    destruct (Hbk (Z.of_nat (0 + i))) as (b0 & Hb0 & E & H); [lia|]. rewrite Nat2Z.id in Hb0. cbn [Nat.add] in *.
    assert (b0 = x) as <- by congruence. done.
Qed.

(** the old buckets can be moved to twice as many *)
Lemma table_movable m b items f :
  table_ok m b items f -> log2_num_buckets b <= 29 ->
  (forall p, p ∈ ptrs items -> is_Some (hh_prev m !! p)) ->
  let nb' := 2 ^ (log2_num_buckets b + 1) in
  let cs := map (fun i => f (Z.of_nat i)) (seq 0 (Z.to_nat (num_buckets b))) in
  movable nb' (zlen items) (idx_in m nb') m (replicate (Z.to_nat nb') (mk_bucket 0 0 0)) (fun _ => []) (concat cs) /\
  Forall2 (fun b c => hh_head b = hdp c 0) (buckets b) cs /\ Forall (lseg (hh_next m)) cs /\
  forall p, p ∈ concat cs <-> exists k, (p, k) ∈ items.
Proof.
  intros Hok Hlog' Hprev nb' cs. destruct (table_chains _ _ _ _ Hok) as (Hncs & Hel & H2). fold cs in Hncs, Hel, H2.
  destruct Hok as [[Hlog Hnb] [Hni Hlt] _ Hn _ Hnodes Hch [Hlen Hbk]].
  split; [|split; [|split; [|done]]].
  - constructor; try done.
    + intros p [k Hk]%Hel. rewrite Forall_forall in Hnodes. pose proof (node_hashv _ _ (Hnodes _ Hk)) as Eh. cbn [fst] in Eh.
      eexists. split; [exact Eh|]. unfold idx_in. rewrite Eh. split; [done|]. apply bkt_range. lia.
    + intros p Hp. apply Hprev, elem_ptrs. by apply Hel.
    + split; [unfold zlen; rewrite length_replicate; lia|]. intros j Hj. exists (mk_bucket 0 0 0).
      split; [|done]. apply lookup_replicate. split; [done|lia].
    + intros i Hi. split; [constructor|]. by intros p ?%not_elem_of_nil.
    + by intros i p _ ?%not_elem_of_nil.
    + by intros i p _ ?%not_elem_of_nil.
    + intros i Hi. change (zlen (@nil ptr)) with 0. unfold zlen. rewrite <- (length_fmap fst items).
      assert (length (concat cs) <= length (ptrs items))%nat; [|lia]. apply submseteq_length, NoDup_submseteq; [done|].
      intros p Hp. by apply elem_ptrs, Hel.
  - eapply Forall2_impl; [exact H2|]. by intros x c [? _].
  - clear -H2. induction H2 as [|x c bs cs (_ & _ & Hd) H2 IH]; constructor; [by apply dseg_lseg in Hd|done].
Qed.

(** the new length of a chain is positive when there is an element *)
Lemma ideal_pos n l : 0 < n < 2 ^ 32 -> 0 <= l <= 29 ->
  0 < u32 (Z.shiftr n (l + 1) + (if Z.land n (u32 (2 ^ (l + 1) - 1)) =? 0 then 0 else 1)).
Proof.
  intros Hn Hl. pose proof (Z.pow_le_mono_r 2 (l + 1) 30). pose proof (Z.pow_le_mono_r 2 1 (l + 1)). 
  rewrite Z.shiftr_div_pow2 by lia. fold (HASH_TO_BKT n (2 ^ (l + 1))). rewrite bkt_mod by lia.
  pose proof (Z.div_mod n (2 ^ (l + 1))). pose proof (Z.mod_pos_bound n (2 ^ (l + 1))).
  assert (0 <= n / 2 ^ (l + 1) <= n / 2) as Hd by (split; [apply Z.div_pos; lia|apply Z.div_le_compat_l; lia]).
  assert (n / 2 < 2 ^ 31) by (apply Z.div_lt_upper_bound; lia).
  rewrite u32_id by (unfold is_u32; case_match; lia). bdestruct (n mod 2 ^ (l + 1) =? 0); [|lia]. nia.
Qed.

(** the table with the number and the last element of the list *)
Definition fixed (b : UT_hash_table) (items : list item) : UT_hash_table :=
  set_num_items (set_tail b (lastp (ptrs items) 0)) (zlen items).

Lemma fixed_same b items : num_items b = zlen items -> tbl_tail b = lastp (ptrs items) 0 -> fixed b items = b.
Proof. intros E1 E2. unfold fixed. rewrite <- E1, <- E2. by destruct b. Qed.

(** the expansion does not need the right number, only one that is not zero *)
Lemma expand_ok m b items f :
  table_ok m (fixed b items) items f -> 0 < num_items b < 2 ^ 32 -> items <> [] -> (forall p, p ∈ ptrs items -> is_Some (hh_prev m !! p)) ->
  HASH_EXPAND_BUCKETS malloc_ok b m = Exit (-1) \/
  exists b' m' f', HASH_EXPAND_BUCKETS malloc_ok b m = Ok (b', m') /\ table_ok m' (fixed b' items) items f' /\ same_data m m' /\
    num_items b' = num_items b /\ tbl_tail b' = tbl_tail b.
Proof.
  intros H Hni Hne Hprev. pose proof H as [[Hlog Hnb] [_ Hlt] _ Hn Happ Hnodes Hch Hbk]. cbn [fixed set_num_items set_tail log2_num_buckets num_buckets buckets] in Hlog, Hnb, Hch, Hbk. unfold HASH_EXPAND_BUCKETS.
  assert (u32 (2 * num_buckets b) = 2 ^ (log2_num_buckets b + 1)) as ->.
  { rewrite Hnb, Z.pow_add_r, Z.mul_comm by lia. apply u32_id. pose proof (Z.pow_le_mono_r 2 (log2_num_buckets b) 30).
    pose proof (Z.pow_pos_nonneg 2 (log2_num_buckets b)). unfold is_u32. lia. }
  unfold uthash_malloc. destruct (malloc_ok _) eqn:Em; [|by left]. right. apply Hmalloc in Em.
  assert (log2_num_buckets b <= 29) as Hlog'.
  { destruct (Z.le_gt_cases (log2_num_buckets b) 29); [done|]. exfalso. unfold sizeof_UT_hash_bucket in Em.
    pose proof (Z.pow_le_mono_r 2 31 (log2_num_buckets b + 1)). lia. }
  cbn [res_bind]. assert (0 < zlen items) as Hpos by (destruct items; [done|rewrite zlen_cons; pose proof (zlen_nonneg items); lia]).
  pose proof (ideal_pos (num_items b) (log2_num_buckets b) ltac:(lia) ltac:(lia)) as Hid. set (ideal := u32 _) in *.
  destruct (table_movable m (fixed b items) items f H Hlog' Hprev) as (Hmv & H2 & Hl & Hel).
  cbn [fixed set_num_items set_tail log2_num_buckets num_buckets buckets] in Hmv, H2, Hl, Hel.
  set (nb' := 2 ^ (log2_num_buckets b + 1)) in *. set (cs := map _ _) in *.
  destruct (expand_loop_ok nb' ideal (zlen items) (idx_in m nb') Hid Hlt cs (buckets b) m
    (replicate (Z.to_nat nb') (mk_bucket 0 0 0)) (fun _ => []) 0 H2 Hl Hmv) as (new & non & m' & -> & Hmv' & Hs).
  cbn [res_bind]. eexists _, m', _. split; [reflexivity|]. split; [|split; [done|done]].
  assert (u32 (log2_num_buckets b + 1) = log2_num_buckets b + 1) as El by (apply u32_id; unfold is_u32; lia).
  constructor; cbn [fixed set_num_items set_tail log2_num_buckets num_buckets num_items tbl_tail buckets]; try done.
  - unfold pow2_ok. cbn [fixed set_num_items set_tail log2_num_buckets num_buckets]. rewrite El. split; [lia|done].
  - by rewrite (same_next _ _ Hs), (same_prev _ _ Hs).
  - eapply Forall_impl; [exact Hnodes|]. intros it. by apply node_ok_same.
  - intros j Hj. destruct (mv_sorted _ _ _ _ _ _ _ Hmv' j Hj) as [Hnj _]. split; [done|]. intros p.
    rewrite push_all_elem, elem_of_nil, Hel. split.
    + intros [[]|[[k Hk] <-]]. exists k. split; [done|]. by rewrite (idx_in_key m nb' items p k).
    + intros (k & Hk & <-). right. split; [by exists k|]. by apply (idx_in_key m nb' items).
  - by apply (mv_buckets _ _ _ _ _ _ _ Hmv').
Qed.

(** ** Lemmas: finding *)
(** the element with key [k], or null *)
Definition lookup_key (items : list item) (k : bytes) : ptr :=
  match list_find (fun it => it.2 = k) items with Some (_, it) => it.1 | None => 0 end.

(** the comparison of the key of an element *)
Lemma node_cmp m p k' k r :
  node_ok m (p, k') -> p <> 0 ->
  (let* n := ld (keylen m) p in
   if n =? zlen k then
     let* s := ld (key m) p in let* d := HASH_KEYCMP s (k ++ r) (zlen k) in Ok (d =? 0)
   else Ok false) = Ok (bool_decide (k' = k)).
Proof.
  intros [Hlen [r' Hkey] Hkl _] Hp. cbn [fst snd] in *. rewrite (ld_Ok _ _ _ Hp Hkl). cbn [res_bind].
  bdestruct (zlen k' =? zlen k).
  - rewrite (ld_Ok _ _ _ Hp Hkey). cbn [res_bind]. destruct (keycmp_eq k' r' k r) as (d & -> & Hd); [unfold zlen in Hb; lia|].
    cbn [res_bind]. f_equal. destruct (bool_decide_reflect (k' = k)) as [E|E].
    + by rewrite (proj2 Hd E).
    + apply Z.eqb_neq. tauto.
  - rewrite bool_decide_false; [done|]. by intros ->.
Qed.

Lemma find_in_bkt m items k r l : forall fuel,
  (length l < fuel)%nat -> lseg (hh_next m) l -> Forall (node_ok m) items -> NoDup (ptrs items) ->
  (forall p, p ∈ l -> exists k', (p, k') ∈ items) ->
  exists q, HASH_FIND_IN_BKT fuel m (hdp l 0) (k ++ r) (zlen k) = Ok q /\
  (q = 0 /\ (forall p, p ∈ l -> (p, k) ∉ items) \/ q <> 0 /\ (q, k) ∈ items).
Proof.
  induction l as [|p l IH]; intros [|fuel] Hf Hl Hnodes Hn Hin; simpl in Hf; [lia| |lia|].
  { exists 0. split; [done|]. left. split; [done|]. by intros p ?%not_elem_of_nil. }
  destruct Hl as (Hp0 & Hpn & Hl). destruct (Hin p) as [k' Hk']; [by left|]. pose proof Hnodes as Hnodes'.
  rewrite Forall_forall in Hnodes'. pose proof (node_cmp m p k' k r (Hnodes' _ Hk') Hp0) as Ec.
  cbn [HASH_FIND_IN_BKT hdp]. rewrite (proj2 (Z.eqb_neq p 0) Hp0). destruct (ld (keylen m) p) as [n|?|?]; [|done..].
  cbn [res_bind] in Ec |- *. rewrite Ec. cbn [res_bind].
  destruct (bool_decide_reflect (k' = k)) as [->|Hne]; [exists p; split; [done|]; by right|].
  rewrite (ld_Ok _ _ _ Hp0 Hpn). cbn [res_bind].
  destruct (IH fuel) as (q & E & Hq); [lia|done|done|done|intros; apply Hin; by right|]. exists q. split; [exact E|].
  destruct Hq as [[-> Hq]|Hq]; [|by right]. left. split; [done|]. intros p' [->|Hp']%elem_of_cons; [|by apply Hq].
  intros Hk. apply Hne. by apply (key_unique items p).
Qed.

Lemma table_bkt m b items f k :
  table_ok m b items f -> 0 <= bkt_of (num_buckets b) k < num_buckets b.
Proof. intros [[Hlog ->] _ _ _ _ _ _ _]. apply bkt_of_range. lia. Qed.

Lemma represents_table t items :
  represents t items -> items <> [] ->
  hd t = hdp (ptrs items) 0 /\ hd t <> 0 /\ exists b f, tbl t = Some b /\ head_tbl t = Ok b /\ table_ok (mem t) b items f.
Proof.
  destruct items as [|[p k] items]; [done|]. intros (Hh & b & f & Eb & Hok) _. split; [done|].
  assert (p <> 0) as Hp by apply Hok. split; [by rewrite Hh|]. exists b, f. split; [done|]. split; [|done].
  unfold head_tbl. by rewrite Hh, (proj2 (Z.eqb_neq p 0) Hp), Eb.
Qed.

Lemma find_ok t items k r :
  represents t items -> zlen k < 2 ^ 32 ->
  exists q, HASH_FIND t (k ++ r) (zlen k) = Ok q /\ (q = 0 /\ (forall p, (p, k) ∉ items) \/ q <> 0 /\ (q, k) ∈ items).
Proof.
  intros Ht Hk. unfold HASH_FIND. destruct (decide (items = [])) as [->|Hne].
  { destruct Ht as [-> _]. exists 0. split; [done|]. left. split; [done|]. intros p. apply not_elem_of_nil. }
  destruct (represents_table t items Ht Hne) as (_ & Hh & b & f & _ & -> & Hok). rewrite (proj2 (Z.eqb_neq _ 0) Hh).
  destruct (hash_of_spec k r Hk) as [-> _]. cbn [res_bind]. fold (bkt_of (num_buckets b) k).
  pose proof (table_bkt _ _ _ _ k Hok) as Hb. destruct Hok as [_ _ _ Hn _ Hnodes Hch Hbk].
  destruct (buckets_rd _ _ _ _ _ Hbk Hb) as (bk & -> & Eh & _ & Hd). cbn [res_bind]. rewrite Eh. apply dseg_lseg in Hd.
  destruct (Hch _ Hb) as [Hnc Hin].
  destruct (find_in_bkt (mem t) items k r (f (bkt_of (num_buckets b) k)) (chain_fuel (mem t))) as (q & E & Hq); try done.
  - unfold chain_fuel. pose proof (lseg_length _ _ Hnc Hd). lia.
  - intros p (k' & Hk' & _)%Hin. by exists k'.
  - exists q. split; [done|]. destruct Hq as [[-> Hq]|Hq]; [|by right]. left. split; [done|]. intros p Hp.
    apply (Hq p); [|done]. apply Hin. by exists k.
Qed.

Lemma lookup_key_spec items k p : NoDup (snd <$> items) -> (p, k) ∈ items -> lookup_key items k = p.
Proof.
  intros Hn Hp. unfold lookup_key. destruct (list_find _ items) as [[i [q k']]|] eqn:E.
  - apply list_find_Some in E as (Hi & Ek & _). cbn [fst snd] in *. subst k'.
    apply list_elem_of_lookup in Hp as [j Hj]. assert (i = j) as ->; [|congruence].
    apply (NoDup_lookup _ _ _ k Hn); rewrite list_lookup_fmap; [by rewrite Hi|by rewrite Hj].
  - apply list_find_None in E. rewrite Forall_forall in E. by destruct (E _ Hp).
Qed.

Lemma lookup_key_absent items k : (forall p, (p, k) ∉ items) -> lookup_key items k = 0.
Proof.
  intros H. unfold lookup_key. destruct (list_find _ items) as [[i [q k']]|] eqn:E; [|done].
  apply list_find_Some in E as (Hi & Ek & _). cbn [snd] in Ek. subst k'. apply list_elem_of_lookup_2 in Hi. by apply H in Hi.
Qed.

(** ** Lemmas: adding *)
Lemma chain_hh_prev m b items f p :
  table_ok m b items f -> p ∈ ptrs items -> is_Some (hh_prev m !! p) /\ is_Some (hh_next m !! p).
Proof.
  intros Hok [k Hk]%elem_ptrs. pose proof (table_bkt _ _ _ _ k Hok) as Hb. destruct Hok as [_ _ _ _ _ _ Hch Hbk].
  assert (p ∈ f (bkt_of (num_buckets b) k)) as Hp by (apply Hch; [done|]; by exists k).
  destruct Hbk as [_ Hbk]. destruct (Hbk _ Hb) as (_ & _ & _ & _ & Hd). apply list_elem_of_split in Hp as (l1 & l2 & E).
  rewrite E in Hd. apply dseg_app in Hd as [_ (_ & ? & ? & _)]. split; by eexists.
Qed.

(** whatever the number and the last element the table has: it must not be
    expanded with the number zero *)
Lemma add_bucket_any m b items f a k :
  pow2_ok b -> zlen items + 1 < 2 ^ 32 ->
  0 < num_items b < 2 ^ 32 \/ items = [] /\ Forall (fun bk => expand_mult bk = 0) (buckets b) ->
  NoDup (ptrs (items ++ [(a, k)])) -> dll (next m) (prev m) (ptrs (items ++ [(a, k)])) ->
  Forall (node_ok m) (items ++ [(a, k)]) -> chains_ok (num_buckets b) f items ->
  buckets_ok m (num_buckets b) (buckets b) f -> allocated m a -> (forall p, p ∈ ptrs items -> is_Some (hh_prev m !! p)) ->
  HASH_ADD_TO_BKT malloc_ok b m (bkt_of (num_buckets b) k) a = Exit (-1) \/
  exists b' m' f', HASH_ADD_TO_BKT malloc_ok b m (bkt_of (num_buckets b) k) a = Ok (b', m') /\
    table_ok m' (fixed b' (items ++ [(a, k)])) (items ++ [(a, k)]) f' /\ same_data m m' /\ num_items b' = num_items b /\ tbl_tail b' = tbl_tail b.
Proof.
  intros Hpow Hlt Hni Hn Happ Hnodes Hch Hbk (Ha0 & _ & _ & Hap & Han & _) Hprev.
  set (items' := items ++ [(a, k)]) in *. set (nb := num_buckets b) in *. set (j := bkt_of nb k).
  assert (0 <= j < nb) as Hj by (unfold j, nb; destruct Hpow as [? ->]; apply bkt_of_range; lia).
  assert (ptrs items' = ptrs items ++ [a]) as Ep by (unfold items'; by rewrite fmap_app).
  assert (a ∉ ptrs items) as Hai.
  { rewrite Ep in Hn. apply NoDup_app in Hn as (_ & Hd & _). intros Hin. apply (Hd a Hin). by left. }
  assert (forall i, 0 <= i < nb -> a ∉ f i) as Haf by (intros i Hi (k' & Hk' & _)%Hch; [|done]; apply Hai, elem_ptrs; by exists k').
  destruct (buckets_rd _ _ _ _ _ Hbk Hj) as (bk & Erd & Eh & Ec & Ed). destruct (Hch j Hj) as [Hnj Hinj].
  assert (zlen (f j) <= zlen items) as Hlj.
  { unfold zlen. rewrite <- (length_fmap fst items). apply Nat2Z.inj_le, submseteq_length, NoDup_submseteq; [done|].
    intros p (k' & Hk' & _)%Hinj. apply elem_ptrs. by exists k'. }
  pose proof (zlen_nonneg (f j)).
  assert (u32 (count bk + 1) = zlen (f j) + 1) as Eu by (rewrite Ec; apply u32_id; unfold is_u32; lia).
  destruct (buckets_push m nb (buckets b) f j a bk (u32 (count bk + 1)) (expand_mult bk)) as (bs & Ew & Hbs); try done.
  { intros i p Hi Hij Hp (k1 & Hk1 & E1)%Hinj. apply Hch in Hp as (k2 & Hk2 & E2); [|done].
    apply Hij. rewrite <- E2, <- E1. f_equal. apply (key_unique items p); [|done..]. rewrite Ep in Hn. by apply NoDup_app in Hn as [? _]. }
  assert (hh_head bk = 0 \/ is_Some (hh_prev m !! hh_head bk)) as Hhd.
  { rewrite Eh. destruct (f j) as [|q c] eqn:Ef; [by left|]. right. apply Hprev, elem_ptrs. destruct (Hinj q) as [Hq _].
    destruct Hq as (k' & Hk' & _); [by left|]. by exists k'. }
  destruct (push_writes m a (hh_head bk) Ha0 Hap Han Hhd) as [Epush _].
  unfold HASH_ADD_TO_BKT. fold nb j. rewrite Erd. cbn [res_bind].
  destruct (set_hh_next m a (hh_head bk)) as [m1|?|?]; [|done..]. cbn [res_bind] in Epush |- *.
  destruct (set_hh_prev m1 a 0) as [m2|?|?]; [|done..]. cbn [res_bind] in Epush |- *. rewrite Epush. cbn [res_bind].
  rewrite Ew. cbn [res_bind]. set (m' := push_heap m a (hh_head bk)) in *.
  assert (same_data m m') as Hs by by apply push_same_data.
  assert (table_ok m' (fixed (set_buckets b bs) items') items' (fupd f j (a :: f j))) as Hok.
  { constructor; cbn [fixed set_num_items set_tail set_buckets num_items tbl_tail num_buckets buckets]; try done.
    - split; [done|]. unfold items'. rewrite zlen_app. change (zlen [(a, k)]) with 1. lia.
    - eapply Forall_impl; [exact Hnodes|]. intros it. by apply node_ok_same.
    - intros i Hi. split.
      + destruct (Z.eq_dec i j) as [->|Hij]; [rewrite fupd_eq|rewrite fupd_ne by done; by apply Hch].
        apply NoDup_cons. split; [by apply Haf|done].
      + intros p. unfold items'. destruct (Z.eq_dec i j) as [->|Hij].
        * rewrite fupd_eq, elem_of_cons, Hinj. split.
          -- intros [->|(k' & Hk' & E')]; [exists k; split; [|done]|exists k'; split; [|done]]; apply elem_of_app; [right; by left|by left].
          -- intros (k' & [Hk'|[= -> ->]%list_elem_of_singleton]%elem_of_app & E'); [right; by exists k'|by left].
        * rewrite fupd_ne, (proj2 (Hch i Hi)) by done. split.
          -- intros (k' & Hk' & E'). exists k'. split; [|done]. apply elem_of_app. by left.
          -- intros (k' & [Hk'|[= -> ->]%list_elem_of_singleton]%elem_of_app & E'); [by exists k'|]. done. }
  destruct (_ && _) eqn:Eexp.
  - assert (0 < num_items b < 2 ^ 32) as Hni'.
    { destruct Hni as [?|[-> Hmult]]; [done|]. exfalso. rewrite Forall_forall in Hmult.
      assert (expand_mult bk = 0) as Em by (apply Hmult; apply rd_Ok in Erd as [_ Erd]; by eapply list_elem_of_lookup_2).
      change (zlen (@nil item)) with 0 in Hlj. rewrite Em, Eu in Eexp. apply andb_true_iff in Eexp as [Eexp%Z.leb_le _].
      change (u32 ((0 + 1) * HASH_BKT_CAPACITY_THRESH)) with 10 in Eexp. lia. }
    destruct (expand_ok m' (set_buckets b bs) items' _ Hok Hni') as [E|(b' & m'' & f' & E & Hok' & Hs' & En & Et)].
    + unfold items'. by destruct items.
    + intros p Hp. by apply (chain_hh_prev _ _ _ _ _ Hok).
    + by left.
    + right. exists b', m'', f'. split; [done|]. split; [done|]. split; [by eapply same_data_trans|]. by rewrite En, Et.
  - right. exists (set_buckets b bs), m', (fupd f j (a :: f j)). done.
Qed.

Lemma add_bucket m b items f a k :
  pow2_ok b -> num_items b = zlen items + 1 -> zlen items + 1 < 2 ^ 32 -> tbl_tail b = a ->
  NoDup (ptrs (items ++ [(a, k)])) -> dll (next m) (prev m) (ptrs (items ++ [(a, k)])) ->
  Forall (node_ok m) (items ++ [(a, k)]) -> chains_ok (num_buckets b) f items ->
  buckets_ok m (num_buckets b) (buckets b) f -> allocated m a -> (forall p, p ∈ ptrs items -> is_Some (hh_prev m !! p)) ->
  HASH_ADD_TO_BKT malloc_ok b m (bkt_of (num_buckets b) k) a = Exit (-1) \/
  exists b' m' f', HASH_ADD_TO_BKT malloc_ok b m (bkt_of (num_buckets b) k) a = Ok (b', m') /\
    table_ok m' b' (items ++ [(a, k)]) f' /\ same_data m m'.
Proof.
  intros Hpow Hni Hlt Htail Hn Happ Hnodes Hch Hbk Ha Hprev. pose proof (zlen_nonneg items).
  destruct (add_bucket_any m b items f a k) as [E|(b' & m' & f' & E & Hok & Hs & En & Et)]; try done; [left; lia|by left|].
  right. exists b', m', f'. split; [done|]. split; [|done]. rewrite fixed_same in Hok; [done|..].
  - rewrite En, Hni, zlen_app. done.
  - rewrite Et, Htail, fmap_app. change (ptrs [(a, k)]) with [a]. by rewrite lastp_snoc.
Qed.

(** the heap before [a] is put into its bucket: [q] is the element before it *)
Definition added_heap (m : heap) (a q : ptr) (keyptr k : bytes) : heap :=
  mk_heap (<[a := q]> (prev m)) ((if q =? 0 then id else <[q := a]>) (<[a := 0]> (next m))) (hh_prev m) (hh_next m)
    (<[a := keyptr]> (key m)) (<[a := zlen k]> (keylen m)) (<[a := hash_of k]> (hashv m)).

Lemma added_allocated m a q s k p : allocated m p -> allocated (added_heap m a q s k) p.
Proof.
  intros (? & ? & ? & ? & ? & ? & ? & ?). unfold allocated, added_heap. cbn.
  repeat split; try done; repeat (apply is_Some_insert || (case_match; cbn)); try done; by repeat apply is_Some_insert.
Qed.

Lemma same_allocated m m' p : same_data m m' -> allocated m p -> allocated m' p.
Proof.
  intros Hs (? & ? & ? & ? & ? & ? & ? & ?). unfold allocated.
  rewrite (same_prev _ _ Hs), (same_next _ _ Hs), (same_key _ _ Hs), (same_keylen _ _ Hs), (same_hashv _ _ Hs).
  pose proof (same_hh_prev _ _ Hs p). pose proof (same_hh_next _ _ Hs p). tauto.
Qed.

Lemma added_nodes m a q k r items :
  Forall (node_ok m) items -> a ∉ ptrs items -> zlen k < 2 ^ 32 -> Forall (node_ok (added_heap m a q (k ++ r) k)) (items ++ [(a, k)]).
Proof.
  intros Hn Ha Hk. apply Forall_app. split.
  - rewrite Forall_forall in Hn. apply Forall_forall. intros [p k'] Hp. destruct (Hn _ Hp) as [H1 H2 H3 H4].
    assert (a <> p) as Hne by (intros ->; apply Ha, elem_ptrs; by exists k').
    constructor; cbn [fst snd added_heap key keylen hashv] in *; rewrite ?lookup_insert_ne by done; done.
  - constructor; [|constructor]. constructor; cbn [fst snd added_heap key keylen hashv]; rewrite ?lookup_insert_eq; try done. by exists r.
Qed.

Lemma app_links m b items f a :
  table_ok m b items f -> items <> [] -> a ∉ ptrs items -> a <> 0 ->
  tbl_tail b <> 0 /\ is_Some (next m !! tbl_tail b) /\
  dll ((if tbl_tail b =? 0 then id else <[tbl_tail b := a]>) (<[a := 0]> (next m))) (<[a := tbl_tail b]> (prev m)) (ptrs items ++ [a]).
Proof.
  intros [_ _ Ht Hn Happ _ _ _] Hne Ha Ha0.
  assert (ptrs items <> []) as Hne' by (by intros E%fmap_nil_inv).
  assert (tbl_tail b ∈ ptrs items) as Hin by (rewrite Ht; by apply lastp_elem).
  assert (tbl_tail b <> 0) as H0 by by apply (dseg_not_null _ _ _ _ _ _ Happ). split; [done|]. split.
  - apply list_elem_of_split in Hin as (l1 & l2 & E). rewrite E in Happ. apply dseg_app in Happ as [_ (_ & _ & ? & _)]. by eexists.
  - rewrite (proj2 (Z.eqb_neq _ 0) H0), Ht. by apply dll_append.
Qed.

Lemma chains_nil nb : chains_ok nb (fun _ => []) [].
Proof. intros j _. split; [constructor|]. intros p. rewrite elem_of_nil. split; [done|]. by intros (k & ?%not_elem_of_nil & _). Qed.

Lemma buckets_init m nb : 0 <= nb -> buckets_ok m nb (replicate (Z.to_nat nb) (mk_bucket 0 0 0)) (fun _ => []).
Proof.
  intros Hnb. split; [unfold zlen; rewrite length_replicate; lia|]. intros j Hj. exists (mk_bucket 0 0 0). split; [|done].
  apply lookup_replicate. split; [done|lia].
Qed.

(** the stores of [HASH_ADD_KEYPTR] *)
Lemma add_stores m a s (k : bytes) : allocated m a -> zlen k < 2 ^ 32 ->
  (let* m := set_next m a 0 in let* m := set_key m a s in set_keylen m a (u32 (zlen k))) =
  Ok (mk_heap (prev m) (<[a := 0]> (next m)) (hh_prev m) (hh_next m) (<[a := s]> (key m)) (<[a := zlen k]> (keylen m)) (hashv m)).
Proof.
  intros (? & ? & ? & ? & ? & ? & ? & ?) Hk. unfold set_next, set_key, set_keylen.
  rewrite u32_id by (split; [apply zlen_nonneg|done]).
  rewrite st_Ok by done. cbn [res_bind key]. rewrite st_Ok by done. cbn [res_bind keylen]. by rewrite st_Ok by done.
Qed.

Lemma add_ok t items a k r :
  represents t items -> allocated (mem t) a -> a ∉ ptrs items -> zlen k < 2 ^ 32 -> zlen items + 1 < 2 ^ 32 ->
  HASH_ADD malloc_ok t (k ++ r) (zlen k) a = Exit (-1) \/
  exists t', HASH_ADD malloc_ok t (k ++ r) (zlen k) a = Ok t' /\ represents t' (items ++ [(a, k)]) /\
    forall p, allocated (mem t) p -> allocated (mem t') p.
Proof.
  intros Ht Hal Ha Hk Hlt. pose proof Hal as (Ha0 & Hap & Han & Hahp & Hahn & Hak & Hakl & Hah).
  pose proof (add_stores (mem t) a (k ++ r) k Hal Hk) as Est. destruct (hash_of_spec k r Hk) as [Ehash _].
  unfold HASH_ADD, HASH_ADD_KEYPTR. destruct (set_next (mem t) a 0) as [m1|?|?]; [|done..]. cbn [res_bind] in Est |- *.
  destruct (set_key m1 a (k ++ r)) as [m2|?|?]; [|done..]. cbn [res_bind] in Est |- *. rewrite Est. cbn [res_bind].
  destruct (decide (items = [])) as [->|Hne].
  - destruct Ht as [Hhd _]. rewrite Hhd. cbn [Z.eqb]. unfold set_prev. cbn [prev]. rewrite st_Ok by done. cbn [res_bind].
    unfold HASH_MAKE_TABLE, uthash_malloc. destruct (malloc_ok sizeof_UT_hash_table); [|by left]. cbn [res_bind].
    destruct (malloc_ok _); [|by left]. cbn [res_bind]. rewrite Ehash. cbn [res_bind].
    unfold set_hashv. cbn [hashv]. rewrite st_Ok by done. cbn [res_bind prev next hh_prev hh_next key keylen].
    set (b := set_num_items _ _).
    change (mk_heap _ _ _ _ _ _ _) with (added_heap (mem t) a 0 (k ++ r) k). fold (bkt_of (num_buckets b) k).
    destruct (add_bucket (added_heap (mem t) a 0 (k ++ r) k) b [] (fun _ => []) a k) as [E|(b' & m' & f' & E & Hok & Hs)]; try done.
    + apply NoDup_singleton.
    + cbn. rewrite !lookup_insert_eq. done.
    + by apply (added_nodes _ _ _ _ _ []).
    + apply chains_nil.
    + by apply buckets_init.
    + by apply added_allocated.
    + by intros p ?%not_elem_of_nil.
    + left. by rewrite E.
    + right. eexists. split; [by rewrite E|]. split.
      * split; [done|]. by exists b', f'.
      * intros p Hp. by apply (same_allocated _ _ _ Hs), added_allocated.
  - destruct (represents_table t items Ht Hne) as (Hhd & Hh0 & b & f & _ & Etbl & Hok).
    rewrite (proj2 (Z.eqb_neq _ 0) Hh0), Etbl. cbn [res_bind].
    destruct (app_links _ _ _ _ a Hok Hne Ha Ha0) as (Ht0 & Htn & Hdll).
    unfold set_next. cbn [next]. rewrite st_Ok by (done || by apply is_Some_insert). cbn [res_bind].
    unfold set_prev. cbn [prev]. rewrite st_Ok by done. cbn [res_bind]. rewrite Ehash. cbn [res_bind].
    unfold set_hashv. cbn [hashv]. rewrite st_Ok by done. cbn [res_bind prev next hh_prev hh_next key keylen].
    set (b1 := set_num_items _ _). fold (bkt_of (num_buckets b1) k).
    assert (mk_heap (<[a := tbl_tail b]> (prev (mem t))) (<[tbl_tail b := a]> (<[a := 0]> (next (mem t)))) (hh_prev (mem t)) (hh_next (mem t))
      (<[a := k ++ r]> (key (mem t))) (<[a := zlen k]> (keylen (mem t))) (<[a := hash_of k]> (hashv (mem t))) =
      added_heap (mem t) a (tbl_tail b) (k ++ r) k) as ->.
    { unfold added_heap. by rewrite (proj2 (Z.eqb_neq _ 0) Ht0). }
    pose proof Hok as [Hpow [Hni Hlt'] Htl Hn Happ Hnodes Hch Hbk]. pose proof (zlen_nonneg items).
    destruct (add_bucket (added_heap (mem t) a (tbl_tail b) (k ++ r) k) b1 items f a k) as [E|(b' & m' & f' & E & Hok' & Hs)]; try done.
    + cbn. rewrite Hni. apply u32_id. unfold is_u32. lia.
    + rewrite fmap_app. apply NoDup_app. split; [done|]. split; [|apply NoDup_singleton].
      intros p Hp Hp'%list_elem_of_singleton. cbn in Hp'. by subst.
    + rewrite fmap_app. exact Hdll.
    + by apply added_nodes.
    + by apply added_allocated.
    + intros p Hp. by apply (chain_hh_prev _ _ _ _ _ Hok).
    + left. by rewrite E.
    + right. eexists. split; [by rewrite E|]. split.
      * destruct items as [|[p k'] items]; [done|]. split; [exact Hhd|]. by exists b', f'.
      * intros p Hp. by apply (same_allocated _ _ _ Hs), added_allocated.
Qed.

(** ** Lemmas: deleting *)
(** the stores that take an element out of a doubly linked list *)
Definition unlink_heap (m : heap) (q n : ptr) : heap :=
  mk_heap ((if n =? 0 then id else <[n := q]>) (prev m)) ((if q =? 0 then id else <[q := n]>) (next m))
    (hh_prev m) (hh_next m) (key m) (keylen m) (hashv m).

Definition unlink_bkt (m : heap) (q n : ptr) : heap :=
  mk_heap (prev m) (next m) ((if n =? 0 then id else <[n := q]>) (hh_prev m)) ((if q =? 0 then id else <[q := n]>) (hh_next m))
    (key m) (keylen m) (hashv m).

Lemma cond_is_Some {A} (c : bool) (f : gmap ptr A) i j v : is_Some (f !! i) -> is_Some ((if c then id else <[j := v]>) f !! i).
Proof. intros H. destruct c; [done|]. by apply is_Some_insert. Qed.

Lemma unlink_allocated m q n p : allocated m p -> allocated (unlink_heap m q n) p.
Proof.
  intros (? & ? & ? & ? & ? & ? & ? & ?). unfold allocated, unlink_heap. cbn. repeat split; try done; by apply cond_is_Some.
Qed.

Lemma unlink_bkt_allocated m q n p : allocated m p -> allocated (unlink_bkt m q n) p.
Proof.
  intros (? & ? & ? & ? & ? & ? & ? & ?). unfold allocated, unlink_bkt. cbn. repeat split; try done; by apply cond_is_Some.
Qed.

Lemma dll_mid nx pv l1 a l2 :
  dll nx pv (l1 ++ a :: l2) ->
  (lastp l1 0 = 0 \/ is_Some (nx !! lastp l1 0)) /\ (hdp l2 0 = 0 \/ is_Some (pv !! hdp l2 0)).
Proof.
  intros [H1 (_ & _ & _ & H2)]%dseg_app. split.
  - destruct l1 as [|q l1 _] using rev_ind; [by left|]. right. rewrite lastp_snoc. apply dseg_app in H1 as [_ (_ & _ & ? & _)]. by eexists.
  - destruct l2 as [|q l2]; [by left|]. right. destruct H2 as (_ & ? & _). by eexists.
Qed.

Lemma del_bucket m b items f p k c1 c2 :
  let nb := num_buckets b in
  let j := bkt_of nb k in
  buckets_ok m nb (buckets b) f -> chains_ok nb f items -> NoDup (ptrs items) -> zlen items < 2 ^ 32 ->
  0 <= j < nb -> f j = c1 ++ p :: c2 ->
  exists bs, HASH_DEL_IN_BKT b m j p = Ok (set_buckets b bs, unlink_bkt m (lastp c1 0) (hdp c2 0)) /\
  buckets_ok (unlink_bkt m (lastp c1 0) (hdp c2 0)) nb bs (fupd f j (c1 ++ c2)).
Proof.
  intros nb j Hbk Hch Hn Hlt Hj Ef. destruct (buckets_rd _ _ _ _ _ Hbk Hj) as (bk & Erd & Eh & Ec & Ed).
  destruct (Hch j Hj) as [Hnj Hinj]. rewrite Ef in Ed, Hnj.
  destruct (dll_remove _ _ _ _ _ Ed Hnj) as (En & Ep & Ed'). destruct (dll_mid _ _ _ _ _ Ed) as [Hq Hh].
  assert (p <> 0) as Hp0 by (apply (dseg_not_null _ _ _ _ _ _ Ed), elem_of_app; right; by left).
  unfold HASH_DEL_IN_BKT. fold nb. rewrite Erd. cbn [res_bind]. rewrite (ld_Ok _ _ _ Hp0 En). cbn [res_bind].
  rewrite (ld_Ok _ _ _ Hp0 Ep). cbn [res_bind].
  assert ((if lastp c1 0 =? 0 then Ok m else set_hh_next m (lastp c1 0) (hdp c2 0)) =
    Ok (mk_heap (prev m) (next m) (hh_prev m) ((if lastp c1 0 =? 0 then id else <[lastp c1 0 := hdp c2 0]>) (hh_next m)) (key m) (keylen m) (hashv m))) as ->.
  { destruct (Z.eqb_spec (lastp c1 0) 0); [by destruct m|]. unfold set_hh_next. destruct Hq; [done|]. by rewrite st_Ok. }
  cbn [res_bind].
  match goal with |- context [if hdp c2 0 =? 0 then Ok ?m1 else _] =>
    assert ((if hdp c2 0 =? 0 then Ok m1 else set_hh_prev m1 (hdp c2 0) (lastp c1 0)) = Ok (unlink_bkt m (lastp c1 0) (hdp c2 0))) as -> end.
  { unfold unlink_bkt. destruct (Z.eqb_spec (hdp c2 0) 0); [done|]. unfold set_hh_prev. destruct Hh; [done|]. by rewrite st_Ok. }
  cbn [res_bind].
  destruct (buckets_upd m (unlink_bkt m (lastp c1 0) (hdp c2 0)) nb (buckets b) f j
    (mk_bucket (if hh_head bk =? p then hdp c2 0 else hh_head bk) (u32 (count bk - 1)) (expand_mult bk)) (c1 ++ c2)) as (bs & Ew & Hbs).
  - done.
  - done.
  - cbn [hh_head]. rewrite Eh, Ef. destruct c1 as [|q c1]; cbn [app hdp]; [by rewrite Z.eqb_refl|].
    rewrite (proj2 (Z.eqb_neq q p)); [done|]. intros ->. apply NoDup_cons in Hnj as [Hni _]. apply Hni, elem_of_app. right. by left.
  - cbn [count]. rewrite Ec, Ef, !zlen_app, zlen_cons.
    assert (zlen (f j) <= zlen items) as Hle.
    { unfold zlen. rewrite <- (length_fmap fst items). apply Nat2Z.inj_le, submseteq_length, NoDup_submseteq; [by rewrite Ef|].
      intros q (k' & Hk' & _)%Hinj. apply elem_ptrs. by exists k'. }
    rewrite Ef, zlen_app, zlen_cons in Hle. pose proof (zlen_nonneg c1). pose proof (zlen_nonneg c2).
    rewrite u32_id; [lia|]. unfold is_u32. lia.
  - exact Ed'.
  - intros i q Hi Hij Hqi. assert (q ∉ f j) as Hqj.
    { intros (k1 & Hk1 & E1)%Hinj. apply Hch in Hqi as (k2 & Hk2 & E2); [|done]. apply Hij. rewrite <- E2, <- E1. f_equal.
      by apply (key_unique items q). }
    rewrite Ef in Hqj. apply not_elem_of_app in Hqj as [Hq1 [_ Hq2]%not_elem_of_cons].
    unfold unlink_bkt. cbn [hh_next hh_prev]. split.
    + destruct (Z.eqb_spec (lastp c1 0) 0); [done|]. apply lookup_insert_ne. intros <-. apply Hq1, lastp_elem. by intros ->.
    + destruct (Z.eqb_spec (hdp c2 0) 0); [done|]. apply lookup_insert_ne. intros <-. apply Hq2, hdp_elem. by intros ->.
  - rewrite Ew. exists bs. done.
Qed.

(** the chains without an element *)
Lemma chains_remove nb f l1 p k l2 c1 c2 :
  chains_ok nb f (l1 ++ (p, k) :: l2) -> NoDup (ptrs (l1 ++ (p, k) :: l2)) ->
  0 <= bkt_of nb k < nb -> f (bkt_of nb k) = c1 ++ p :: c2 -> chains_ok nb (fupd f (bkt_of nb k) (c1 ++ c2)) (l1 ++ l2).
Proof.
  intros Hch Hn Hj Ef i Hi. set (j := bkt_of nb k) in *. destruct (Hch j Hj) as [Hnj Hinj]. rewrite Ef in Hnj, Hinj.
  assert (forall q k', q <> p -> (q, k') ∈ l1 ++ (p, k) :: l2 <-> (q, k') ∈ l1 ++ l2) as Hel.
  { intros q k' Hq. rewrite !elem_of_app, elem_of_cons. naive_solver. }
  assert (p ∉ ptrs (l1 ++ l2)) as Hp.
  { rewrite fmap_app in *. cbn in Hn. by apply NoDup_middle in Hn as [? _]. }
  assert (forall q k', (q, k') ∈ l1 ++ l2 -> q <> p) as Hne by (intros q k' Hq ->; apply Hp, elem_ptrs; by exists k').
  destruct (Z.eq_dec i j) as [->|Hij].
  - rewrite fupd_eq. apply NoDup_middle in Hnj as [Hpc Hnj]. split; [done|]. intros q.
    destruct (Z.eq_dec q p) as [->|Hqp].
    + split; [done|]. intros (k' & Hk' & _). by apply Hne in Hk'.
    + transitivity (q ∈ c1 ++ p :: c2).
      * rewrite !elem_of_app, elem_of_cons. naive_solver.
      * rewrite Hinj. split; intros (k' & Hk' & E'); exists k'; (split; [by apply Hel|done]).
  - rewrite fupd_ne by done. destruct (Hch i Hi) as [Hni Hini]. split; [done|]. intros q. rewrite Hini. split.
    + intros (k' & Hk' & E'). exists k'. split; [|done]. apply Hel; [|done]. intros ->. apply Hij. rewrite <- E'. unfold j. f_equal.
      apply (key_unique _ p _ _ Hn); [done|]. apply elem_of_app. right. by left.
    + intros (k' & Hk' & E'). exists k'. split; [|done]. apply Hel; [by eapply Hne|done].
Qed.

Lemma unlink_writes {A} m q n p h0 (k : ptr -> heap -> res A) :
  q <> p -> q = 0 \/ is_Some (next m !! q) -> n = 0 \/ is_Some (prev m !! n) -> p <> 0 -> next m !! p = Some n ->
  (let* (head, m) := if q =? 0 then Ok (n, m) else let* m := set_next m q n in Ok (h0, m) in
   let* n := ld (next m) p in
   let* m := if n =? 0 then Ok m else set_prev m n q in k head m) =
  k (if q =? 0 then n else h0) (unlink_heap m q n).
Proof.
  intros Hqp Hq Hn Hp En. unfold unlink_heap. destruct (Z.eqb_spec q 0) as [->|Hq0]; cbn [res_bind].
  - rewrite (ld_Ok _ _ _ Hp En). cbn [res_bind]. destruct (Z.eqb_spec n 0); cbn [res_bind id]; [by destruct m|].
    unfold set_prev. destruct Hn; [done|]. by rewrite st_Ok.
  - unfold set_next. destruct Hq as [?|Hq]; [done|]. rewrite st_Ok by done. cbn [res_bind next].
    rewrite (ld_Ok _ _ n Hp) by by rewrite lookup_insert_ne. cbn [res_bind].
    destruct (Z.eqb_spec n 0); cbn [res_bind id]; [done|]. unfold set_prev. cbn [prev]. destruct Hn; [done|]. by rewrite st_Ok.
Qed.

Lemma dll_mid_links m b l1 p k l2 f :
  table_ok m b (l1 ++ (p, k) :: l2) f ->
  p <> 0 /\ prev m !! p = Some (lastp (ptrs l1) 0) /\ next m !! p = Some (hdp (ptrs l2) 0) /\
  lastp (ptrs l1) 0 <> p /\
  (lastp (ptrs l1) 0 = 0 \/ is_Some (next m !! lastp (ptrs l1) 0)) /\
  (hdp (ptrs l2) 0 = 0 \/ is_Some (prev m !! hdp (ptrs l2) 0)) /\
  dll (next (unlink_heap m (lastp (ptrs l1) 0) (hdp (ptrs l2) 0))) (prev (unlink_heap m (lastp (ptrs l1) 0) (hdp (ptrs l2) 0)))
    (ptrs (l1 ++ l2)).
Proof.
  intros [_ _ _ Hn Happ _ _ _]. rewrite fmap_app in *. cbn [fmap list_fmap] in *. change (p, k).1 with p in *.
  destruct (dll_remove _ _ _ _ _ Happ Hn) as (En & Ep & Hd). destruct (dll_mid _ _ _ _ _ Happ) as [Hq Hh].
  assert (p <> 0) as Hp0 by (apply (dseg_not_null _ _ _ _ _ _ Happ), elem_of_app; right; by left).
  split; [done|]. split; [done|]. split; [done|]. split; [|done].
  intros E. apply NoDup_middle in Hn as [Hni _]. destruct (decide (ptrs l1 = [])) as [E0|Hne].
  - rewrite E0 in E. by cbn in E.
  - apply Hni, elem_of_app. left. rewrite <- E. by apply lastp_elem.
Qed.

Lemma null_ends m b l1 p k l2 f :
  table_ok m b (l1 ++ (p, k) :: l2) f ->
  (lastp (ptrs l1) 0 = 0 <-> l1 = []) /\ (hdp (ptrs l2) 0 = 0 <-> l2 = []).
Proof.
  intros [_ _ _ _ Happ _ _ _]. split; (split; [|by intros ->]); intros E.
  - destruct l1 as [|it l1 _] using rev_ind; [done|]. rewrite fmap_app in E. cbn in E. rewrite lastp_snoc in E. exfalso.
    apply (dseg_not_null _ _ _ _ _ it.1 Happ); [|done]. apply list_elem_of_fmap_2, elem_of_app. left. apply elem_of_app. right. by left.
  - destruct l2 as [|it l2]; [done|]. exfalso. apply (dseg_not_null _ _ _ _ _ it.1 Happ); [|done].
    apply list_elem_of_fmap_2, elem_of_app. right. right. by left.
Qed.

Lemma del_ok t l1 p k l2 :
  represents t (l1 ++ (p, k) :: l2) ->
  exists t', HASH_DELETE t p = Ok t' /\ represents t' (l1 ++ l2) /\ forall q, allocated (mem t) q -> allocated (mem t') q.
Proof.
  intros Ht. destruct (represents_table t _ Ht) as (Hhd & Hh0 & b & f & _ & Etbl & Hok); [by destruct l1|].
  destruct (dll_mid_links _ _ _ _ _ _ _ Hok) as (Hp0 & Ep & En & Hqp & Hq & Hn & Hdll). set (q := lastp (ptrs l1) 0) in *.
  set (n := hdp (ptrs l2) 0) in *. destruct (null_ends _ _ _ _ _ _ _ Hok) as [Hq0 Hn0]. fold q in Hq0. fold n in Hn0.
  unfold HASH_DELETE. rewrite (ld_Ok _ _ _ Hp0 Ep). cbn [res_bind]. rewrite (ld_Ok _ _ _ Hp0 En). cbn [res_bind].
  rewrite Etbl. cbn [res_bind]. destruct ((q =? 0) && (n =? 0)) eqn:Ec.
  { apply andb_true_iff in Ec as [Eq En']. apply Z.eqb_eq in Eq, En'. apply Hq0 in Eq as ->. apply Hn0 in En' as ->.
    exists (mk_hash 0 None (mem t)). done. }
  rewrite (unlink_writes _ _ _ _ _ _ Hqp Hq Hn Hp0 En). set (m1 := unlink_heap (mem t) q n).
  set (b1 := if p =? tbl_tail b then set_tail b q else b).
  pose proof Hok as [Hpow [Hni Hlt] Htl Hnd Happ Hnodes Hch Hbk].
  assert (Forall (node_ok m1) (l1 ++ (p, k) :: l2)) as Hnodes1.
  { eapply Forall_impl; [exact Hnodes|]. intros it [? ? ? ?]. by constructor. }
  assert (hashv m1 !! p = Some (hash_of k)) as Eh.
  { rewrite Forall_forall in Hnodes1. apply (node_hashv _ (p, k)), Hnodes1, elem_of_app. right. by left. }
  rewrite (ld_Ok _ _ _ Hp0 Eh). cbn [res_bind].
  assert (head_tbl (mk_hash (if q =? 0 then n else hd t) (Some b1) m1) = Ok b1) as ->.
  { unfold head_tbl. cbn [hd tbl]. rewrite (proj2 (Z.eqb_neq _ 0)); [done|]. destruct (q =? 0); [|done]. cbn in Ec. by apply Z.eqb_neq. }
  cbn [res_bind]. assert (num_buckets b1 = num_buckets b) as Enb by (unfold b1; by destruct (p =? tbl_tail b)).
  assert (buckets b1 = buckets b) as Ebs by (unfold b1; by destruct (p =? tbl_tail b)).
  fold (bkt_of (num_buckets b1) k). rewrite Enb. set (j := bkt_of (num_buckets b) k).
  pose proof (table_bkt _ _ _ _ k Hok) as Hj. fold j in Hj.
  assert (p ∈ f j) as Hpj by (apply Hch; [done|]; exists k; split; [apply elem_of_app; right; by left|done]).
  apply list_elem_of_split in Hpj as (c1 & c2 & Ef).
  destruct (del_bucket m1 b1 (l1 ++ (p, k) :: l2) f p k c1 c2) as (bs & Ed & Hbs).
  { rewrite Enb, Ebs. exact Hbk. }
  { by rewrite Enb. }
  { done. }
  { done. }
  { by rewrite Enb. }
  { by rewrite Enb. }
  rewrite Enb in Ed, Hbs. fold j in Ed, Hbs. rewrite Ed. cbn [res_bind].
  eexists. split; [reflexivity|]. split.
  2:{ intros r Hr. cbn [mem]. by apply unlink_bkt_allocated, unlink_allocated. }
  assert (Forall (node_ok m1) (l1 ++ l2)) as Hnodes2.
  { rewrite Forall_app, Forall_cons in *. tauto. }
  assert (table_ok (unlink_bkt m1 (lastp c1 0) (hdp c2 0))
    (set_num_items (set_buckets b1 bs) (u32 (num_items (set_buckets b1 bs) - 1))) (l1 ++ l2) (fupd f j (c1 ++ c2))) as Hok'.
  { constructor; cbn [set_num_items set_buckets num_items tbl_tail num_buckets buckets].
    - unfold b1, pow2_ok. destruct (p =? tbl_tail b); exact Hpow.
    - assert (num_items b1 = zlen (l1 ++ (p, k) :: l2)) as -> by (unfold b1; by destruct (p =? tbl_tail b)).
      rewrite !zlen_app, zlen_cons in *. pose proof (zlen_nonneg l1). pose proof (zlen_nonneg l2).
      rewrite u32_id by (unfold is_u32; lia). lia.
    - unfold b1. destruct l2 as [|it l2 _] using rev_ind.
      + assert (tbl_tail b = p) as -> by (rewrite Htl, fmap_app; apply lastp_snoc).
        rewrite Z.eqb_refl. cbn [tbl_tail set_tail]. by rewrite app_nil_r.
      + assert (forall l, lastp (ptrs (l ++ [it])) 0 = it.1) as Hl by (intros l; rewrite fmap_app; apply lastp_snoc).
        assert (tbl_tail b = it.1) as Et by (rewrite Htl, app_comm_cons, app_assoc; apply Hl).
        rewrite Et, (proj2 (Z.eqb_neq p it.1)); [by rewrite Et, app_assoc, Hl|].
        intros ->. rewrite fmap_app in Hnd. cbn [fmap list_fmap] in Hnd. apply NoDup_middle in Hnd as [Hni' _]. apply Hni'.
        apply elem_of_app. right. change (it.1 ∈ ptrs (l2 ++ [it])). apply list_elem_of_fmap_2, elem_of_app. right. by left.
    - rewrite fmap_app in *. by apply NoDup_middle in Hnd as [_ ?].
    - exact Hdll.
    - eapply Forall_impl; [exact Hnodes2|]. intros it [? ? ? ?]. by constructor.
    - rewrite Enb. by apply (chains_remove _ _ _ p k).
    - rewrite Enb. exact Hbs. }
  destruct l1 as [|[p1 k1] l1].
  - assert (q = 0) as Eq by done. rewrite Eq in *. cbn [Z.eqb] in *. destruct l2 as [|[p2 k2] l2]; [done|].
    split; [done|]. by eexists _, _.
  - assert (q <> 0) as Hq' by (intros E; by apply Hq0 in E). rewrite (proj2 (Z.eqb_neq q 0) Hq') in *.
    split; [exact Hhd|]. by eexists _, _.
Qed.

(** ** Lemmas: the integrity check and the traversal *)
Lemma fsck_chain_ok m l : forall fuel pp n,
  (length l < fuel)%nat -> dseg (hh_next m) (hh_prev m) pp l 0 -> 0 <= n -> n + zlen l < 2 ^ 32 ->
  fsck_chain fuel m (hdp l 0) pp n = Ok (n + zlen l).
Proof.
  induction l as [|p l IH]; intros [|fuel] pp n Hf Hd Hn Hl; simpl in Hf; [lia| |lia|].
  { cbn. f_equal. change (zlen (@nil ptr)) with 0. lia. }
  destruct Hd as (Hp & Hpv & Hnx & Hd). cbn [fsck_chain hdp]. rewrite (proj2 (Z.eqb_neq p 0) Hp), (ld_Ok _ _ _ Hp Hpv). cbn [res_bind].
  rewrite Z.eqb_refl. cbn [negb]. rewrite (ld_Ok _ _ _ Hp Hnx). cbn [res_bind]. rewrite zlen_cons in *. pose proof (zlen_nonneg l).
  rewrite u32_id by (unfold is_u32; lia). rewrite IH by (done || lia). f_equal. lia.
Qed.

Lemma fsck_app_ok m l : forall fuel pp n,
  (length l < fuel)%nat -> dseg (next m) (prev m) pp l 0 -> 0 <= n -> n + zlen l < 2 ^ 32 ->
  fsck_app fuel m (hdp l 0) pp n = Ok (n + zlen l).
Proof.
  induction l as [|p l IH]; intros [|fuel] pp n Hf Hd Hn Hl; simpl in Hf; [lia| |lia|].
  { cbn. f_equal. change (zlen (@nil ptr)) with 0. lia. }
  destruct Hd as (Hp & Hpv & Hnx & Hd). cbn [fsck_app hdp]. rewrite (proj2 (Z.eqb_neq p 0) Hp), (ld_Ok _ _ _ Hp Hpv). cbn [res_bind].
  rewrite Z.eqb_refl. cbn [negb]. rewrite (ld_Ok _ _ _ Hp Hnx). cbn [res_bind]. rewrite zlen_cons in *. pose proof (zlen_nonneg l).
  rewrite u32_id by (unfold is_u32; lia). rewrite IH by (done || lia). f_equal. lia.
Qed.

Lemma fsck_buckets_ok m bs cs : forall n,
  Forall2 (fun b c => hh_head b = hdp c 0 /\ count b = zlen c /\ dll (hh_next m) (hh_prev m) c) bs cs ->
  NoDup (concat cs) -> 0 <= n -> n + zlen (concat cs) < 2 ^ 32 -> fsck_buckets m bs n = Ok (n + zlen (concat cs)).
Proof.
  intros n H. revert n. induction H as [|b c bs cs (Hh & Hc & Hd) H2 IH]; intros n Hnd Hn Hl.
  { cbn. f_equal. change (zlen (@nil ptr)) with 0. lia. }
  cbn [concat] in *. apply NoDup_app in Hnd as (Hnc & _ & Hnd). rewrite zlen_app in *. pose proof (zlen_nonneg c).
  pose proof (zlen_nonneg (concat cs)). cbn [fsck_buckets]. rewrite Hh, fsck_chain_ok; [|..|done|done|lia].
  - cbn [res_bind]. rewrite Hc. rewrite Z.eqb_refl. cbn [negb]. rewrite u32_id by (unfold is_u32; lia).
    rewrite IH by (done || lia). f_equal. lia.
  - unfold chain_fuel. apply dseg_lseg in Hd. pose proof (lseg_length _ _ Hnc Hd). lia.
Qed.

Lemma fsck_ok t items : represents t items -> HASH_FSCK t = Ok tt.
Proof.
  intros Ht. unfold HASH_FSCK. destruct (decide (items = [])) as [->|Hne]; [by destruct Ht as [-> _]|].
  destruct (represents_table t items Ht Hne) as (Hhd & Hh0 & b & f & _ & -> & Hok). rewrite (proj2 (Z.eqb_neq _ 0) Hh0). cbn [res_bind].
  destruct (table_chains _ _ _ _ Hok) as (Hncs & Hel & H2). set (cs := map _ _) in *.
  destruct Hok as [_ [Hni Hlt] _ Hn Happ _ _ [Hlen _]].
  assert (zlen (concat cs) = zlen items) as El.
  { unfold zlen. rewrite <- (length_fmap fst items). f_equal. apply Permutation_length, NoDup_Permutation; [done|done|].
    intros p. by rewrite Hel, elem_ptrs. }
  rewrite take_ge by (unfold zlen in Hlen; lia). rewrite (fsck_buckets_ok _ _ cs) by (done || lia). cbn [res_bind].
  rewrite Hni, El, Z.add_0_l, Z.eqb_refl. cbn [negb].
  assert (zlen (ptrs items) = zlen items) as Ep by (unfold zlen; by rewrite length_fmap).
  rewrite Hhd, fsck_app_ok; [|..|done|done|lia].
  - cbn [res_bind]. by rewrite Ep, Z.add_0_l, Z.eqb_refl.
  - apply dseg_lseg in Happ. pose proof (lseg_length _ _ Hn Happ). lia.
Qed.

Lemma iter_chain m l : forall fuel, (length l < fuel)%nat -> lseg (next m) l -> HASH_ITER fuel m (hdp l 0) = Ok l.
Proof.
  induction l as [|p l IH]; intros [|fuel] Hf Hl; simpl in Hf; [lia|done|lia|]. destruct Hl as (Hp & Hn & Hl).
  cbn [HASH_ITER hdp]. rewrite (proj2 (Z.eqb_neq p 0) Hp), (ld_Ok _ _ _ Hp Hn). cbn [res_bind]. rewrite IH by (done || lia). done.
Qed.

(** the elements are linked in app order *)
Lemma represents_app t items :
  represents t items ->
  hd t = hdp (ptrs items) 0 /\ lseg (next (mem t)) (ptrs items) /\ (length (ptrs items) < S (size (next (mem t))))%nat.
Proof.
  intros Ht. destruct (decide (items = [])) as [->|Hne]; [by destruct Ht as [-> _]; repeat split; cbn; lia|].
  destruct (represents_table t items Ht Hne) as (-> & _ & b & f & _ & _ & [_ _ _ Hn Happ _ _ _]). apply dseg_lseg in Happ.
  split; [done|]. split; [done|]. pose proof (lseg_length _ _ Hn Happ). lia.
Qed.

(** [HASH_ITER] visits the elements in order *)
Lemma iter_ok t items : represents t items -> HASH_ITER (S (size (next (mem t)))) (mem t) (hd t) = Ok (ptrs items).
Proof. intros Ht. destruct (represents_app t items Ht) as (-> & Hl & Hlen). by apply iter_chain. Qed.
End expand_table.
End spec.
