(* ===== verification/UtHashRefine.v ===== *)
(** * Sequences of operations of uthash refine a list

    The abstract table is the list of its elements in app order, each a pointer
    with its key; keys and pointers are unique.  A sequence of operations on a
    table that represents a list has the results of the sequence on the list,
    unless an allocation fails, when uthash exits; with the traversal, the count
    and the integrity check. *)
From Stdlib Require Import ZArith Lia Bool String.
From stdpp Require Import base numbers option list gmap.
From S2P Require Import Prelude CStr HashFcns UtHash LinkedList UtHashSpec.

(** ** Specification: a list of elements with different keys *)
Definition remove_ptr (items : list item) (p : ptr) : list item := filter (fun it => it.1 <> p) items.
Definition remove_key (items : list item) (k : bytes) : list item := filter (fun it => it.2 <> k) items.

(** the string at the start of a memory *)
Definition str_of (s : bytes) : bytes := match cstr s with Ok k => k | _ => [] end.

Definition spec_step (items : list item) (op : hash_op) : list item * ptr :=
  match op with
  | OpFind s => (items, lookup_key items (str_of s))
  | OpAdd a s => (items ++ [(a, str_of s)], 0)
  | OpDel p => (remove_ptr items p, 0)
  | OpReplace a s => (remove_key items (str_of s) ++ [(a, str_of s)], lookup_key items (str_of s))
  end.

Fixpoint spec_run (items : list item) (ops : list hash_op) : list item * list ptr :=
  match ops with
  | [] => (items, [])
  | op :: ops =>
      let '(items, p) := spec_step items op in
      let '(items, ps) := spec_run items ops in
      (items, p :: ps)
  end.

(** a string with a length an [unsigned] holds *)
Definition is_key (s : bytes) : Prop := exists k, cstr s = Ok k /\ zlen k < 2 ^ 32.

(** what the macros require: an added element is one that was allocated and is
    not in the table, a key is only added when it is absent, only elements of
    the table are deleted, and their number fits an [unsigned] *)
Definition op_ok (m : heap) (items : list item) (op : hash_op) : Prop :=
  match op with
  | OpFind s => is_key s
  | OpAdd a s => is_key s /\ allocated m a /\ (a ∉ ptrs items) /\ (str_of s ∉ (snd <$> items)) /\ zlen items + 1 < 2 ^ 32
  | OpDel p => p ∈ ptrs items
  | OpReplace a s => is_key s /\ allocated m a /\ (a ∉ ptrs items) /\ zlen items + 1 < 2 ^ 32
  end.

Fixpoint ops_ok (m : heap) (items : list item) (ops : list hash_op) : Prop :=
  match ops with
  | [] => True
  | op :: ops => op_ok m items op /\ ops_ok m (spec_step items op).1 ops
  end.

Lemma str_of_Ok s k : cstr s = Ok k -> str_of s = k /\ no_nul k /\ exists m, s = k ++ 0 :: m.
Proof. intros E. unfold str_of. rewrite E. split; [done|]. by apply cstr_no_nul. Qed.

Lemma remove_ptr_split items l1 p k l2 :
  items = l1 ++ (p, k) :: l2 -> NoDup (ptrs items) -> remove_ptr items p = l1 ++ l2.
Proof.
  intros -> Hn. rewrite fmap_app in Hn. cbn in Hn. apply NoDup_middle in Hn as [Hni _]. apply not_elem_of_app in Hni as [H1 H2].
  assert (forall l : list item, p ∉ ptrs l -> remove_ptr l p = l) as Hf.
  { intros l Hp. unfold remove_ptr. induction l as [|it l IH]; [done|]. cbn in Hp. apply not_elem_of_cons in Hp as [? ?].
    rewrite filter_cons_True by done. by rewrite IH. }
  unfold remove_ptr. rewrite filter_app, filter_cons_False by (cbn; tauto). f_equal; by apply Hf.
Qed.

Lemma remove_key_absent items k : (forall p, (p, k) ∉ items) -> remove_key items k = items.
Proof.
  unfold remove_key. induction items as [|[p k'] items IH]; intros H; [done|]. rewrite filter_cons_True.
  - f_equal. apply IH. intros q Hq. apply (H q). by right.
  - intros <-. apply (H p). by left.
Qed.

Lemma remove_key_split items l1 p k l2 :
  items = l1 ++ (p, k) :: l2 -> NoDup (snd <$> items) -> remove_key items k = l1 ++ l2.
Proof.
  intros -> Hn. rewrite fmap_app in Hn. cbn in Hn. apply NoDup_middle in Hn as [Hni _]. apply not_elem_of_app in Hni as [H1 H2].
  unfold remove_key. rewrite filter_app, filter_cons_False by (cbn; tauto). fold (remove_key l1 k) (remove_key l2 k).
  rewrite !remove_key_absent; [done|..]; intros q Hq; [apply H2|apply H1]; apply (list_elem_of_fmap_2 snd _ _ Hq).
Qed.

Lemma snoc_keys (items : list item) a k : (k ∉ (snd <$> items)) -> NoDup (snd <$> items) -> NoDup (snd <$> items ++ [(a, k)]).
Proof.
  intros Hk Hn. rewrite fmap_app. apply NoDup_app. split; [done|]. split; [|apply NoDup_singleton].
  intros x Hx Hx'. apply list_elem_of_singleton in Hx'. cbn in Hx'. congruence.
Qed.

Lemma filter_keys (P : item -> Prop) `{!forall x, Decision (P x)} (items : list item) :
  NoDup (snd <$> items) -> NoDup (snd <$> filter P items).
Proof.
  induction items as [|it items IH]; [done|]. rewrite fmap_cons. intros [Hni Hn]%NoDup_cons.
  rewrite filter_cons. case_decide; [|by apply IH]. rewrite fmap_cons. apply NoDup_cons. split; [|by apply IH].
  intros (x & Ex & Hx)%list_elem_of_fmap. apply list_elem_of_filter in Hx as [_ Hx]. apply Hni.
  rewrite Ex. by apply list_elem_of_fmap_2.
Qed.

(** the fields of an element are the same in another heap *)
Definition same_at (m m' : heap) (p : ptr) : Prop :=
  prev m' !! p = prev m !! p /\ next m' !! p = next m !! p /\ hh_prev m' !! p = hh_prev m !! p /\
  hh_next m' !! p = hh_next m !! p /\ key m' !! p = key m !! p /\ keylen m' !! p = keylen m !! p /\
  hashv m' !! p = hashv m !! p.

Lemma allocated_same m m' p : same_at m m' p -> allocated m p -> allocated m' p.
Proof. unfold same_at, allocated. by intros (-> & -> & -> & -> & -> & -> & ->). Qed.

Section refine.
Context {HF : HashFcn} {HL : HashFcnLaws HF}.
Variable malloc_ok : Z -> bool.
Hypothesis Hmalloc : forall n, malloc_ok n = true -> n < 2 ^ 35.

Lemma represents_nodup t items : represents t items -> NoDup (ptrs items).
Proof.
  destruct items as [|it items]; [intros _; apply NoDup_nil; done|]. intros Ht.
  destruct (represents_table _ _ Ht) as (_ & _ & b & f & _ & _ & Hok); [done|]. apply Hok.
Qed.

(** the table only depends on its elements *)
Lemma represents_frame t m' items :
  represents t items -> (forall p, p ∈ ptrs items -> same_at (mem t) m' p) -> represents (mk_hash (hd t) (tbl t) m') items.
Proof.
  intros Ht Hs. destruct items as [|[p k] items]; [done|]. set (its := (p, k) :: items) in *.
  destruct Ht as (Hh & b & f & Eb & Hok). split; [done|]. exists b, f. split; [done|]. cbn [mem].
  assert (forall q, q ∈ ptrs its -> (next m' !! q = next (mem t) !! q) /\ prev m' !! q = prev (mem t) !! q) as H1
    by (intros q Hq; by apply Hs in Hq as (? & ? & _)).
  destruct Hok as [Hp2 Hnum Htail Hnd Happ Hnodes Hch [Hlen Hbk]]. constructor; try done.
  - by apply (dseg_frame _ _ _ _ _ _ _ H1).
  - rewrite Forall_forall in Hnodes |- *. intros it Hit. destruct (Hnodes it Hit) as [? ? ? ?].
    destruct (Hs it.1 (list_elem_of_fmap_2 fst _ _ Hit)) as (_ & _ & _ & _ & E1 & E2 & E3).
    constructor; [done|by rewrite E1|by rewrite E2|by rewrite E3].
  - split; [done|]. intros j Hj. destruct (Hbk j Hj) as (bk & ? & ? & ? & Hd). exists bk. split; [done|]. split; [done|]. split; [done|].
    apply (dseg_frame (hh_next (mem t)) (hh_prev (mem t))); [|done]. intros q Hq. destruct (Hch j Hj) as [_ Hc].
    apply Hc in Hq as (k' & Hin & _). by destruct (Hs q (list_elem_of_fmap_2 fst _ _ Hin)) as (_ & _ & ? & ? & _).
Qed.

(** what a step leaves *)
Definition step_ok (t : hash) (items : list item) (r : res (hash * ptr)) (items' : list item) (p : ptr) : Prop :=
  r = Exit (-1) \/
  exists t', r = Ok (t', p) /\ represents t' items' /\ forall q, allocated (mem t) q -> allocated (mem t') q.

Lemma find_step t items k r :
  represents t items -> NoDup (snd <$> items) -> zlen k < 2 ^ 32 ->
  HASH_FIND t (k ++ r) (zlen k) = Ok (lookup_key items k) /\
  (lookup_key items k = 0 /\ (k ∉ (snd <$> items)) \/ lookup_key items k <> 0 /\ (lookup_key items k, k) ∈ items).
Proof.
  intros Ht Hn Hk. destruct (find_ok t items k r Ht Hk) as (q & -> & [[-> Ha]|[Hq Hin]]).
  - rewrite lookup_key_absent by done. split; [done|]. left. split; [done|].
    intros ([p k'] & Ek & Hp)%list_elem_of_fmap. cbn in Ek. subst k'. by apply (Ha p).
  - by rewrite (lookup_key_spec _ _ _ Hn Hin); auto.
Qed.

Lemma remove_step t items p k :
  represents t items -> NoDup (snd <$> items) -> (p, k) ∈ items ->
  remove_key items k = remove_ptr items p /\
  exists t', HASH_DELETE t p = Ok t' /\ represents t' (remove_ptr items p) /\
    forall q, allocated (mem t) q -> allocated (mem t') q.
Proof.
  intros Ht Hn (l1 & l2 & E)%list_elem_of_split. rewrite (remove_key_split items l1 p k l2) by done.
  rewrite (remove_ptr_split items l1 p k l2 E) by (by apply (represents_nodup t)). split; [done|]. subst items.
  destruct (del_ok t l1 p k l2 Ht) as (t' & ? & ? & ?). by exists t'.
Qed.

Lemma zlen_filter (P : item -> Prop) `{!forall x, Decision (P x)} (items : list item) : zlen (filter P items) <= zlen items.
Proof. unfold zlen. pose proof (length_filter P items). lia. Qed.

Lemma replace_step t items a k r :
  represents t items -> NoDup (snd <$> items) -> allocated (mem t) a -> (a ∉ ptrs items) -> zlen k < 2 ^ 32 -> zlen items + 1 < 2 ^ 32 ->
  step_ok t items (HASH_REPLACE malloc_ok t (k ++ r) (zlen k) a) (remove_key items k ++ [(a, k)]) (lookup_key items k) /\
  NoDup (snd <$> (remove_key items k ++ [(a, k)])).
Proof.
  intros Ht Hn Ha Hna Hk Hlt. unfold HASH_REPLACE.
  destruct (find_step t items k r Ht Hn Hk) as [-> Hq]. cbn [res_bind]. set (q := lookup_key items k) in *.
  assert (exists t', (if q =? 0 then Ok t else HASH_DELETE t q) = Ok t' /\ represents t' (remove_key items k) /\
    forall p, allocated (mem t) p -> allocated (mem t') p) as (t' & -> & Ht' & Hal).
  { destruct Hq as [[-> Hq]|[Hq Hin]].
    - exists t. rewrite remove_key_absent; [done|]. intros p Hp. apply Hq. apply (list_elem_of_fmap_2 snd _ _ Hp).
    - rewrite (proj2 (Z.eqb_neq q 0) Hq). destruct (remove_step t items q k Ht Hn Hin) as (-> & t' & ? & ? & ?). by exists t'. }
  assert (k ∉ (snd <$> remove_key items k)) as Hnk.
  { intros (x & Ek & Hx)%list_elem_of_fmap. by apply list_elem_of_filter in Hx as [? _]. }
  split; [|apply snoc_keys; [done|by apply filter_keys]]. cbn [res_bind].
  destruct (add_ok malloc_ok Hmalloc t' (remove_key items k) a k r) as [->|(t'' & -> & ? & ?)]; auto.
  - intros ([x k'] & -> & Hx)%list_elem_of_fmap. apply list_elem_of_filter in Hx as [_ Hx]. apply Hna. by apply (list_elem_of_fmap_2 fst _ _ Hx).
  - pose proof (zlen_filter (fun it => it.2 <> k) items). unfold remove_key. lia.
  - by left.
  - right. exists t''. cbn [res_bind]. auto.
Qed.

Lemma step_refines t items op m :
  represents t items -> NoDup (snd <$> items) -> (forall q, allocated m q -> allocated (mem t) q) -> op_ok m items op ->
  step_ok t items (hash_step malloc_ok t op) (spec_step items op).1 (spec_step items op).2 /\
  NoDup (snd <$> (spec_step items op).1).
Proof.
  intros Ht Hn Hm Hop. destruct op as [s|a s|p|a s]; cbn [op_ok] in Hop.
  - destruct Hop as (k & Hs & Hk). destruct (str_of_Ok s k Hs) as (Es & Hnn & r & ->). unfold step_ok. cbn [spec_step hash_step fst snd].
    unfold HASH_FIND_STR. rewrite Es, strlen_app by done. cbn [res_bind]. destruct (find_step t items k (0 :: r) Ht Hn Hk) as [-> _].
    split; [|done]. right. by exists t.
  - destruct Hop as ((k & Hs & Hk) & Ha & Hna & Hnk & Hlt). destruct (str_of_Ok s k Hs) as (Es & Hnn & r & ->).
    rewrite Es in Hnk. unfold step_ok. cbn [spec_step hash_step fst snd]. unfold HASH_ADD_STR. rewrite Es, strlen_app by done. cbn [res_bind].
    split; [|by apply snoc_keys].
    destruct (add_ok malloc_ok Hmalloc t items a k (0 :: r) Ht (Hm _ Ha) Hna Hk Hlt) as [->|(t' & -> & ? & ?)]; [by left|].
    right. by exists t'.
  - apply elem_ptrs in Hop as [k Hp]. unfold step_ok. cbn [spec_step hash_step fst snd]. unfold HASH_DEL.
    destruct (remove_step t items p k Ht Hn Hp) as (_ & t' & -> & ? & ?). split; [right; by exists t'|by apply filter_keys].
  - destruct Hop as ((k & Hs & Hk) & Ha & Hna & Hlt). destruct (str_of_Ok s k Hs) as (Es & Hnn & r & ->).
    cbn [spec_step hash_step fst snd]. unfold HASH_REPLACE_STR. rewrite Es, strlen_app by done. cbn [res_bind].
    by apply (replace_step t items a k (0 :: r) Ht Hn (Hm _ Ha)).
Qed.

(** a table that represents the elements, whose keys are different *)
Definition keyed (t : hash) (items : list item) : Prop := represents t items /\ NoDup (snd <$> items).

Lemma run_refines t items ops :
  keyed t items -> ops_ok (mem t) items ops ->
  hash_run malloc_ok t ops = Exit (-1) \/
  exists t', hash_run malloc_ok t ops = Ok (t', (spec_run items ops).2) /\ keyed t' (spec_run items ops).1.
Proof.
  assert (forall m, (forall q, allocated m q -> allocated (mem t) q) -> keyed t items -> ops_ok m items ops ->
    hash_run malloc_ok t ops = Exit (-1) \/
    exists t', hash_run malloc_ok t ops = Ok (t', (spec_run items ops).2) /\ keyed t' (spec_run items ops).1) as H; [|by apply H].
  intros m. revert t items. induction ops as [|op ops IH]; intros t items Hm Ht Hops; [right; by exists t|].
  destruct Ht as [Ht Hn], Hops as [Hop Hops]. cbn [hash_run spec_run].
  destruct (step_refines t items op m Ht Hn Hm Hop) as [[->|(t' & -> & Ht' & Hal)] Hn']; [by left|]. cbn [res_bind].
  destruct (spec_step items op) as [items' p]. cbn [fst snd] in *.
  destruct (IH t' items') as [->|(t'' & -> & Ht'')]; [auto|done|done|by left|]. right. exists t''.
  destruct (spec_run items' ops) as [items'' ps]. done.
Qed.

(** C7: The hash table refines the list of its elements.  For every sequence of
    finds, additions, deletions and replacements, through every expansion of the
    buckets, with every hash function of uthash.h: the pointers the macros assign
    are those of the list and the table represents the list that is left, unless
    an allocation failed, when uthash_fatal has exited. *)
Theorem hash_run_refines t items ops :
  keyed t items -> ops_ok (mem t) items ops ->
  hash_run malloc_ok t ops = Exit (-1) \/
  exists t', hash_run malloc_ok t ops = Ok (t', (spec_run items ops).2) /\ keyed t' (spec_run items ops).1.
Proof. apply run_refines. Qed.

Lemma count_ok t items : represents t items -> HASH_COUNT t = Ok (zlen items).
Proof.
  intros Ht. unfold HASH_COUNT. destruct (decide (items = [])) as [->|Hne]; [by destruct Ht as [-> _]|].
  destruct (represents_table t items Ht Hne) as (_ & Hh & b & f & _ & -> & Hok). rewrite (proj2 (Z.eqb_neq _ 0) Hh).
  cbn [res_bind]. f_equal. apply Hok.
Qed.

(** C20: After every sequence of operations on a table that represents a list,
    the integrity check of HASH_DEBUG finds nothing, [HASH_ITER] visits the
    elements of the list in app order, each once, and [HASH_COUNT] is their
    number. *)
Theorem HASH_FSCK_passes t items ops t' ps :
  keyed t items -> ops_ok (mem t) items ops -> hash_run malloc_ok t ops = Ok (t', ps) ->
  HASH_FSCK t' = Ok tt /\
  HASH_ITER (S (size (next (mem t')))) (mem t') (hd t') = Ok (ptrs (spec_run items ops).1) /\
  HASH_COUNT t' = Ok (zlen (spec_run items ops).1) /\ NoDup (ptrs (spec_run items ops).1).
Proof.
  intros Ht Hops E. destruct (run_refines t items ops Ht Hops) as [E'|(t'' & E' & Ht' & _)]; rewrite E in E'; [done|].
  injection E' as <- _. split; [by eapply fsck_ok|]. split; [by apply iter_ok|].
  split; [by apply count_ok|by apply (represents_nodup t')].
Qed.
End refine.

(** ** Witnesses *)
(** the hash function the program is compiled with *)
#[local] Instance default_fcn : HashFcn := HASH_JEN.
#[local] Instance default_laws : HashFcnLaws default_fcn := jen_laws.

(** a heap of three new elements *)
Definition heap0 : heap :=
  let f := list_to_map [(100, 0); (200, 0); (300, 0)] in
  mk_heap f f f f (list_to_map [(100, []); (200, []); (300, [])]) f f.
Definition hash0 : hash := mk_hash 0 None heap0.
Definition ops0 : list hash_op :=
  [OpAdd 100 (str "alice" ++ [0]); OpAdd 200 (str "bob" ++ [0]); OpFind (str "bob" ++ [0; 7]);
   OpReplace 300 (str "alice" ++ [0]); OpDel 200; OpFind (str "bob" ++ [0])].
Definition malloc0 (n : Z) : bool := n <=? 2 ^ 30.

Lemma malloc0_bound n : malloc0 n = true -> n < 2 ^ 35.
Proof. unfold malloc0. rewrite Z.leb_le. lia. Qed.

Lemma heap0_allocated p : (p ∈ [100; 200; 300]) -> allocated heap0 p.
Proof.
  intros H. repeat (apply elem_of_cons in H as [->|H]; [repeat split; [done|..]; by eexists|]). by apply elem_of_nil in H.
Qed.

Lemma hash0_ok : keyed hash0 [] /\ ops_ok (mem hash0) [] ops0.
Proof.
  assert (forall s k, cstr s = Ok k -> (zlen k <? 2 ^ 32) = true -> is_key s) as Hk by (intros s k E H; exists k; split; [done|lia]).
  split; [split; [done|apply NoDup_nil; done]|]. unfold ops0.
  repeat (cbn [ops_ok]; split; [cbn [op_ok]; repeat split; first
    [apply (bool_decide_unpack _); vm_compute; exact I | eapply Hk; [vm_compute; reflexivity|reflexivity]
    |apply heap0_allocated; apply (bool_decide_unpack _); vm_compute; exact I]|]). done.
Qed.

Lemma hash_run_refines_witness :
  hash_run malloc0 hash0 ops0 = Exit (-1) \/
  exists t', hash_run malloc0 hash0 ops0 = Ok (t', [0; 0; 200; 100; 0; 0]) /\ keyed t' [(300, str "alice")].
Proof. apply (hash_run_refines malloc0 malloc0_bound hash0 [] ops0); apply hash0_ok. Defined.

Lemma HASH_FSCK_passes_witness :
  exists t' ps, hash_run malloc0 hash0 ops0 = Ok (t', ps) /\ HASH_FSCK t' = Ok tt /\ HASH_COUNT t' = Ok 1.
Proof.
  destruct (hash_run malloc0 hash0 ops0) as [[t' ps]| |] eqn:E; [|by vm_compute in E..]. exists t', ps. split; [done|].
  destruct (HASH_FSCK_passes malloc0 malloc0_bound hash0 [] ops0 t' ps) as (H1 & _ & H2 & _); [apply hash0_ok..|exact E|].
  split; [exact H1|exact H2].
Defined.
