(* ===== verification/UtHashInt.v ===== *)
(** * The forms of uthash for integers and pointers (src/examples/p2p-chat-example/uthash.h)

    HASH_FIND_INT, HASH_ADD_INT and HASH_REPLACE_INT take the four bytes of an
    [int] as key, the forms for pointers the eight bytes of an address.  Specified
    by a finite map from keys to elements. *)
From Stdlib Require Import ZArith Lia Bool String.
From stdpp Require Import base numbers option list gmap fin_maps.
From S2P Require Import Prelude CStr HashFcns UtHash UtHashSpec UtHashRefine.

(** ** The macros; the key is the memory the argument or the field is in *)
Section macros.
Context `{HF : HashFcn}.
Variable malloc_ok : Z -> bool.

Definition HASH_FIND_INT (t : hash) (findint : bytes) : res ptr := HASH_FIND t findint 4.
Definition HASH_ADD_INT (t : hash) (intfield : bytes) (add : ptr) : res hash := HASH_ADD malloc_ok t intfield 4 add.
Definition HASH_REPLACE_INT (t : hash) (intfield : bytes) (add : ptr) : res (hash * ptr) :=
  HASH_REPLACE malloc_ok t intfield 4 add.
Definition HASH_FIND_PTR (t : hash) (findptr : bytes) : res ptr := HASH_FIND t findptr 8.
Definition HASH_ADD_PTR (t : hash) (ptrfield : bytes) (add : ptr) : res hash := HASH_ADD malloc_ok t ptrfield 8 add.
Definition HASH_REPLACE_PTR (t : hash) (ptrfield : bytes) (add : ptr) : res (hash * ptr) :=
  HASH_REPLACE malloc_ok t ptrfield 8 add.

(** which forms a program uses for a table *)
Inductive form := INT | PTR.
Definition width (f : form) : nat := match f with INT => 4 | PTR => 8 end.

(** a key [z] with what is behind it in memory *)
Inductive key_op :=
  | KFind (z : Z) (r : bytes)
  | KAdd (a : ptr) (z : Z) (r : bytes)
  | KDel (z : Z) (p : ptr)
  | KReplace (a : ptr) (z : Z) (r : bytes).

Definition key_step (f : form) (t : hash) (op : key_op) : res (hash * ptr) :=
  match op with
  | KFind z r =>
      let k := le (width f) z ++ r in
      let* p := match f with INT => HASH_FIND_INT t k | PTR => HASH_FIND_PTR t k end in Ok (t, p)
  | KAdd a z r =>
      let k := le (width f) z ++ r in
      let* t := match f with INT => HASH_ADD_INT t k a | PTR => HASH_ADD_PTR t k a end in Ok (t, 0)
  | KDel _ p => let* t := HASH_DEL t p in Ok (t, 0)
  | KReplace a z r =>
      let k := le (width f) z ++ r in
      match f with INT => HASH_REPLACE_INT t k a | PTR => HASH_REPLACE_PTR t k a end
  end.

Fixpoint key_run (f : form) (t : hash) (ops : list key_op) : res (hash * list ptr) :=
  match ops with
  | [] => Ok (t, [])
  | op :: ops =>
      let* (t, p) := key_step f t op in
      let* (t, ps) := key_run f t ops in
      Ok (t, p :: ps)
  end.
End macros.

(** ** Specification *)
Definition key_ok (f : form) (z : Z) : Prop := match f with INT => is_int z | PTR => 0 <= z < 2 ^ 64 end.

Definition map_step (m : gmap Z ptr) (op : key_op) : gmap Z ptr * ptr :=
  match op with
  | KFind z _ => (m, default 0 (m !! z))
  | KAdd a z _ => (<[z := a]> m, 0)
  | KDel z _ => (delete z m, 0)
  | KReplace a z _ => (<[z := a]> m, default 0 (m !! z))
  end.

Fixpoint map_run (m : gmap Z ptr) (ops : list key_op) : gmap Z ptr * list ptr :=
  match ops with
  | [] => (m, [])
  | op :: ops =>
      let '(m, p) := map_step m op in
      let '(m, ps) := map_run m ops in
      (m, p :: ps)
  end.

(** an added element was allocated and is not in the table, a key is only added
    when it is absent, and an element is deleted under its key *)
Definition key_op_ok (f : form) (h : heap) (m : gmap Z ptr) (op : key_op) : Prop :=
  match op with
  | KFind z _ => key_ok f z
  | KAdd a z _ =>
      key_ok f z /\ m !! z = None /\ allocated h a /\ (forall z', m !! z' <> Some a) /\ Z.of_nat (size m) + 1 < 2 ^ 32
  | KDel z p => m !! z = Some p
  | KReplace a z _ => key_ok f z /\ allocated h a /\ (forall z', m !! z' <> Some a) /\ Z.of_nat (size m) + 1 < 2 ^ 32
  end.

Fixpoint key_ops_ok (f : form) (h : heap) (m : gmap Z ptr) (ops : list key_op) : Prop :=
  match ops with
  | [] => True
  | op :: ops => key_op_ok f h m op /\ key_ops_ok f h (map_step m op).1 ops
  end.

(** ** Lemmas *)
Definition pairs (f : form) (zs : list (Z * ptr)) : list item := (fun zp => (zp.2, le (width f) zp.1)) <$> zs.

Lemma key_inj f z z' : key_ok f z -> key_ok f z' -> le (width f) z = le (width f) z' -> z = z'.
Proof.
  intros Hz Hz' E. apply (f_equal le_val) in E. destruct f; cbn [width key_ok] in *.
  - apply (f_equal to_int) in E. by rewrite !int_of_le_id in E.
  - rewrite !le_val_le, !Z.mod_small in E; [done|done|done].
Qed.

Lemma elem_pairs f zs p k : (p, k) ∈ pairs f zs <-> exists z, (z, p) ∈ zs /\ k = le (width f) z.
Proof.
  unfold pairs. rewrite list_elem_of_fmap. split.
  - intros ([z q] & [= -> ->] & H). by exists z.
  - intros (z & H & ->). by exists (z, p).
Qed.

(** the elements with their keys, in app order *)
Record elements (f : form) (m : gmap Z ptr) (zs : list (Z * ptr)) : Prop := {
  el_nodup : NoDup zs.*1;
  el_keys : Forall (key_ok f) zs.*1;
  el_map : forall z p, m !! z = Some p <-> (z, p) ∈ zs
}.

Lemma elements_size f m zs : elements f m zs -> zlen (pairs f zs) = Z.of_nat (size m).
Proof.
  intros [Hn _ Hm]. assert (m = list_to_map zs) as ->.
  { apply map_eq. intros z. apply option_eq. intros p. rewrite Hm. by apply elem_of_list_to_map. }
  unfold zlen, pairs. by rewrite length_fmap, map_size_list_to_map.
Qed.

Lemma elements_key f m zs z p : elements f m zs -> (z, p) ∈ zs -> key_ok f z.
Proof.
  intros [_ Hk _] H. rewrite Forall_forall in Hk. apply Hk. by apply (list_elem_of_fmap_2 fst _ _ H).
Qed.

Lemma elements_nodup f m zs : elements f m zs -> NoDup (snd <$> pairs f zs).
Proof.
  intros [Hn Hk _]. unfold pairs. rewrite <- list_fmap_compose. clear m.
  induction zs as [|[z p] zs IH]; [constructor|]. rewrite fmap_cons in Hn, Hk. apply NoDup_cons in Hn as [Hni Hn].
  apply Forall_cons in Hk as [Hz Hk]. rewrite fmap_cons. apply NoDup_cons. split; [|by apply IH].
  intros ([z' p'] & E & H)%list_elem_of_fmap. cbn in E. apply Hni. apply (list_elem_of_fmap_2 fst) in H. cbn in H.
  rewrite (key_inj f z z'); [done|done| |done]. rewrite Forall_forall in Hk. by apply Hk.
Qed.

Lemma elements_absent f m zs z : elements f m zs -> key_ok f z -> m !! z = None -> forall p, (p, le (width f) z) ∉ pairs f zs.
Proof.
  intros He Hz Hm p (z' & H & E)%elem_pairs. rewrite (key_inj f z z') in Hm; [|done|by eapply elements_key|done].
  apply (el_map _ _ _ He) in H. congruence.
Qed.

Lemma elements_lookup f m zs z : elements f m zs -> key_ok f z -> lookup_key (pairs f zs) (le (width f) z) = default 0 (m !! z).
Proof.
  intros He Hz. destruct (m !! z) as [p|] eqn:E; cbn [default].
  - apply lookup_key_spec; [by eapply elements_nodup|]. apply elem_pairs. exists z. split; [by apply He|done].
  - apply lookup_key_absent. by apply (elements_absent f m).
Qed.

(** removing a key *)
Lemma elements_remove f m zs z : elements f m zs -> key_ok f z ->
  exists zs', remove_key (pairs f zs) (le (width f) z) = pairs f zs' /\ elements f (delete z m) zs' /\ (z ∉ zs'.*1).
Proof.
  intros He Hz. pose proof He as [Hn Hk Hm]. exists (filter (fun zp => zp.1 <> z) zs).
  assert (forall z' p, (z', p) ∈ filter (fun zp => zp.1 <> z) zs <-> z' <> z /\ (z', p) ∈ zs) as Hf
    by (intros z' p; by rewrite list_elem_of_filter).
  split; [|split; [constructor|]].
  - clear Hm He Hf Hn. induction zs as [|[z' p] zs IH]; [done|]. rewrite fmap_cons in Hk. apply Forall_cons in Hk as [Hz' Hk].
    unfold pairs, remove_key in *. rewrite fmap_cons, !filter_cons. cbn [fst snd].
    destruct (decide (z' = z)) as [->|Hne].
    + rewrite decide_False by by intros []. rewrite decide_False by by intros []. by apply IH.
    + rewrite decide_True by (intros E; by apply Hne, (key_inj f)). rewrite decide_True by done. rewrite fmap_cons. f_equal. by apply IH.
  - clear Hm He Hf. induction zs as [|[z' p] zs IH]; [constructor|]. rewrite fmap_cons in Hn, Hk. apply NoDup_cons in Hn as [Hni Hn].
    apply Forall_cons in Hk as [_ Hk]. rewrite filter_cons. destruct (decide _); [|by apply IH]. rewrite fmap_cons. apply NoDup_cons.
    split; [|by apply IH]. intros (zp & E & H)%list_elem_of_fmap. apply list_elem_of_filter in H as [_ H].
    apply Hni. rewrite E. by apply list_elem_of_fmap_2.
  - apply Forall_forall. intros z' ([z2 p] & -> & [_ H]%list_elem_of_filter)%list_elem_of_fmap. by eapply elements_key.
  - intros z' p. rewrite Hf, <- Hm, lookup_delete_Some. naive_solver.
  - intros ([z2 p] & -> & [H _]%list_elem_of_filter)%list_elem_of_fmap. done.
Qed.

Lemma elements_snoc f m zs z a : elements f m zs -> key_ok f z -> (z ∉ zs.*1) -> elements f (<[z := a]> m) (zs ++ [(z, a)]).
Proof.
  intros [Hn Hk Hm] Hz Hni. constructor.
  - rewrite fmap_app. apply NoDup_app. split; [done|]. split; [|apply NoDup_singleton].
    intros x Hx ->%list_elem_of_singleton. done.
  - rewrite fmap_app. apply Forall_app. split; [done|by repeat constructor].
  - intros z' p. rewrite lookup_insert_Some, elem_of_app, list_elem_of_singleton, Hm. split.
    + intros [[-> ->]|[? ?]]; [by right|by left].
    + intros [H|[= -> ->]]; [right|by left]. split; [|done]. intros ->. apply Hni, (list_elem_of_fmap_2 fst _ _ H).
Qed.

Lemma elements_ptr f m zs a : elements f m zs -> (forall z, m !! z <> Some a) -> a ∉ ptrs (pairs f zs).
Proof.
  intros He Ha ([p k] & -> & H)%list_elem_of_fmap. apply elem_pairs in H as (z & H & _). apply (Ha z). by apply He.
Qed.

Section refine.
Context {HF : HashFcn} {HL : HashFcnLaws HF}.
Variable malloc_ok : Z -> bool.
Hypothesis Hmalloc : forall n, malloc_ok n = true -> n < 2 ^ 35.

Definition maps (f : form) (t : hash) (m : gmap Z ptr) : Prop := exists zs, represents t (pairs f zs) /\ elements f m zs.

Lemma key_step_refines f t m op h :
  maps f t m -> (forall q, allocated h q -> allocated (mem t) q) -> key_op_ok f h m op ->
  key_step malloc_ok f t op = Exit (-1) \/
  exists t', key_step malloc_ok f t op = Ok (t', (map_step m op).2) /\ maps f t' (map_step m op).1 /\
    forall q, allocated (mem t) q -> allocated (mem t') q.
Proof.
  intros (zs & Ht & He) Hh Hop. pose proof (elements_nodup f m zs He) as Hn. pose proof (elements_size f m zs He) as Hsz.
  assert (forall z, zlen (le (width f) z) = Z.of_nat (width f)) as Hw by (intros z; by rewrite zlen_le).
  assert (forall z, zlen (le (width f) z) < 2 ^ 32) as Hlt by (intros z; rewrite Hw; by destruct f).
  destruct op as [z r|a z r|z p|a z r]; cbn [key_op_ok map_step key_step fst snd] in *.
  - right. destruct (find_step t (pairs f zs) (le (width f) z) r Ht Hn (Hlt z)) as [E _].
    rewrite Hw, (elements_lookup f m) in E by done. exists t.
    replace (match f with INT => _ | PTR => _ end) with (HASH_FIND t (le (width f) z ++ r) (Z.of_nat (width f))) by by destruct f.
    rewrite E. split; [done|]. split; [by exists zs|done].
  - destruct Hop as (Hz & Hm & Ha & Hna & Hs).
    replace (match f with INT => _ | PTR => _ end) with (HASH_ADD malloc_ok t (le (width f) z ++ r) (Z.of_nat (width f)) a) by by destruct f.
    rewrite <- (Hw z). destruct (add_ok malloc_ok Hmalloc t (pairs f zs) a (le (width f) z) r) as [->|(t' & -> & Ht' & Hal)];
      [done|by apply Hh|by apply (elements_ptr f m)|done|by rewrite Hsz|by left|]. right. exists t'. split; [done|]. split; [|done].
    exists (zs ++ [(z, a)]). unfold pairs. rewrite fmap_app. split; [done|]. apply elements_snoc; [done|done|].
    intros ([z' p] & -> & H)%list_elem_of_fmap. apply (el_map _ _ _ He) in H. cbn in Hm. congruence.
  - apply (el_map _ _ _ He) in Hop as Hin. assert ((p, le (width f) z) ∈ pairs f zs) as Hp by (apply elem_pairs; by exists z).
    destruct (remove_step t (pairs f zs) p _ Ht Hn Hp) as (E & t' & E' & Ht' & Hal). unfold HASH_DEL. rewrite E'. right. exists t'.
    split; [done|]. split; [|done]. destruct (elements_remove f m zs z He) as (zs' & Er & He' & _); [by eapply elements_key|].
    exists zs'. by rewrite <- Er, E.
  - destruct Hop as (Hz & Ha & Hna & Hs).
    replace (match f with INT => _ | PTR => _ end) with (HASH_REPLACE malloc_ok t (le (width f) z ++ r) (Z.of_nat (width f)) a) by by destruct f.
    rewrite <- (Hw z). destruct (replace_step malloc_ok Hmalloc t (pairs f zs) a (le (width f) z) r Ht Hn) as [[E|(t' & E & Ht' & Hal)] _];
      [by apply Hh|by apply (elements_ptr f m)|done|by rewrite Hsz|by left|]. right. exists t'. rewrite E, (elements_lookup f m) by done.
    split; [done|]. split; [|done]. destruct (elements_remove f m zs z He Hz) as (zs' & Er & He' & Hni).
    exists (zs' ++ [(z, a)]). rewrite Er in Ht'. unfold pairs in *. rewrite fmap_app. split; [done|].
    rewrite <- insert_delete_eq. by apply elements_snoc.
Qed.

(** ** Properties *)
(** C9: With keys of integers or addresses the hash table is a finite map: for every
    sequence of finds, additions, replacements and deletions, with every hash
    function, the elements the macros give are those of the map, 0 for a key it
    does not have, unless an allocation failed. *)
Theorem key_run_refines f ops : forall t m,
  maps f t m -> key_ops_ok f (mem t) m ops ->
  key_run malloc_ok f t ops = Exit (-1) \/
  exists t', key_run malloc_ok f t ops = Ok (t', (map_run m ops).2) /\ maps f t' (map_run m ops).1.
Proof.
  assert (forall h t m, (forall q, allocated h q -> allocated (mem t) q) -> maps f t m -> key_ops_ok f h m ops ->
    key_run malloc_ok f t ops = Exit (-1) \/
    exists t', key_run malloc_ok f t ops = Ok (t', (map_run m ops).2) /\ maps f t' (map_run m ops).1) as H; [|intros t m; by apply H].
  induction ops as [|op ops IH]; intros h t m Hh Ht Hops; [right; by exists t|]. destruct Hops as [Hop Hops]. cbn [key_run map_run].
  destruct (key_step_refines f t m op h Ht Hh Hop) as [->|(t' & -> & Ht' & Hal)]; [by left|]. cbn [res_bind].
  destruct (map_step m op) as [m' p]. cbn [fst snd] in *.
  destruct (IH h t' m') as [->|(t'' & -> & Ht'')]; [auto|done|done|by left|]. right. exists t''.
  destruct (map_run m' ops) as [m'' ps]. done.
Qed.
End refine.

(** ** Witnesses *)
#[local] Instance default_fcn : HashFcn := HASH_JEN.
#[local] Instance default_laws : HashFcnLaws default_fcn := jen_laws.

Definition ops_int : list key_op := [KAdd 100 (-1) []; KAdd 200 256 [7]; KFind 256 []; KReplace 300 (-1) [9]; KDel 256 200; KFind 256 []].

Lemma key_run_refines_witness :
  exists t', key_run malloc0 INT hash0 ops_int = Ok (t', [0; 0; 200; 100; 0; 0]) /\ maps INT t' {[ -1 := 300 ]}.
Proof.
  destruct (key_run_refines malloc0 malloc0_bound INT ops_int hash0 ∅) as [E|(t' & E & Ht')].
  - exists []. split; [by split|]. constructor; [constructor|constructor|]. intros z p. rewrite lookup_empty. split; [done|].
    intros H. by apply not_elem_of_nil in H.
  - unfold ops_int. cbn [key_ops_ok map_step fst].
    assert (forall q, q = 100 \/ q = 200 \/ q = 300 -> allocated (mem hash0) q) as Hal by (intros q [-> |[-> | ->]]; vm_compute; by repeat split; eauto).
    repeat match goal with |- _ /\ _ => split end; cbn [key_op_ok]; try exact I;
      repeat match goal with |- _ /\ _ => split end;
      first [ apply Hal; lia | reflexivity | (vm_compute; by repeat split) | idtac ].
    all: try (intros z'; apply not_eq_sym; intros H; symmetry in H; revert H; rewrite ?lookup_insert_Some, ?lookup_empty; naive_solver lia).
  - by vm_compute in E.
  - exists t'. split; [exact E|exact Ht'].
Defined.
