(* ===== verification/UtHashSelect.v ===== *)
(** * Selecting from a hash of uthash (src/examples/p2p-chat-example/uthash.h)

    [HASH_SELECT] puts the elements of one hash that fulfil a condition into a
    second hash, through a second handle in each element.  The handles of the
    source are those of its heap, the handles of the destination those of the
    heap of the destination; an element has the same address in both.  Specified
    by the list of the selected elements; the macro does not set the tail of the
    destination, which [HASH_ADD] relies on. *)
From Stdlib Require Import ZArith Lia Bool String.
From stdpp Require Import base numbers option list gmap.
From S2P Require Import Prelude CStr HashFcns UtHash LinkedList UtHashSpec UtHashRefine.

Section uthash.
Context `{HF : HashFcn}.
Variable malloc_ok : Z -> bool.
Variable cond : ptr -> bool.

(** the body for a selected element: the destination and [_last_elt] *)
Definition select_elt (src : heap) (dst : hash) (_last_elt _elt : ptr) : res (hash * ptr) :=
  let m := mem dst in
  let* k := ld (key src) _elt in
  let* m := set_key m _elt k in
  let* n := ld (keylen src) _elt in
  let* m := set_keylen m _elt n in
  let* h := ld (hashv src) _elt in
  let* m := set_hashv m _elt h in
  let* m := set_prev m _elt _last_elt in
  let* m := set_next m _elt 0 in
  let* m := if _last_elt =? 0 then Ok m else set_next m _last_elt _elt in
  let* (head, b) :=
    if hd dst =? 0 then let* b := HASH_MAKE_TABLE malloc_ok _elt in Ok (_elt, b)
    else let* b := head_tbl dst in Ok (hd dst, b) in
  let* h := ld (hashv m) _elt in
  let* (b, m) := HASH_ADD_TO_BKT malloc_ok b m (HASH_TO_BKT h (num_buckets b)) _elt in
  Ok (mk_hash head (Some (set_num_items b (u32 (num_items b + 1)))) m, _elt).

(** the inner loop, over the chain from [_src_hh] *)
Fixpoint select_chain (fuel : nat) (src : heap) (_src_hh : ptr) (dst : hash) (_last_elt : ptr) : res (hash * ptr) :=
  match fuel with
  | O => Fault NoFuel
  | S fuel =>
      if _src_hh =? 0 then Ok (dst, _last_elt) else
      let* (dst, _last_elt) := if cond _src_hh then select_elt src dst _last_elt _src_hh else Ok (dst, _last_elt) in
      let* n := ld (hh_next src) _src_hh in
      select_chain fuel src n dst _last_elt
  end.

(** the outer loop, over the buckets *)
Fixpoint select_buckets (src : heap) (bs : list UT_hash_bucket) (dst : hash) (_last_elt : ptr) : res (hash * ptr) :=
  match bs with
  | [] => Ok (dst, _last_elt)
  | b :: bs =>
      let* (dst, _last_elt) := select_chain (chain_fuel src) src (hh_head b) dst _last_elt in
      select_buckets src bs dst _last_elt
  end.

Definition HASH_SELECT (dst src : hash) : res hash :=
  if hd src =? 0 then Ok dst
  else
    let* b := head_tbl src in
    let* (dst, _) := select_buckets (mem src) (take (Z.to_nat (num_buckets b)) (buckets b)) dst 0 in
    Ok dst.
End uthash.

Section spec.
Context {HF : HashFcn} {HL : HashFcnLaws HF}.
Variable malloc_ok : Z -> bool.
Hypothesis Hmalloc : forall n, malloc_ok n = true -> n < 2 ^ 35.
Variable cond : ptr -> bool.

(** The destination after [sel] was selected: all of a table that represents
    this list but the tail, which is still the first element. *)
Definition selected (dst : hash) (sel : list item) (last : ptr) : Prop :=
  last = lastp (ptrs sel) 0 /\
  match sel with
  | [] => hd dst = 0 /\ tbl dst = None
  | (p, _) :: _ => hd dst = p /\ exists b f, tbl dst = Some b /\ table_ok (mem dst) (fixed b sel) sel f /\
      num_items b = zlen sel /\ tbl_tail b = p
  end.

(** the stores to the handle of the destination *)
Lemma select_stores (src m : heap) a q (k : bytes) r : node_ok src (a, k) -> key src !! a = Some (k ++ r) ->
  allocated m a -> q = 0 \/ is_Some (next m !! q) ->
  (let* k := ld (key src) a in
   let* m := set_key m a k in
   let* n := ld (keylen src) a in
   let* m := set_keylen m a n in
   let* h := ld (hashv src) a in
   let* m := set_hashv m a h in
   let* m := set_prev m a q in
   let* m := set_next m a 0 in
   if q =? 0 then Ok m else set_next m q a) = Ok (added_heap m a q (k ++ r) k).
Proof.
  intros [Hlen _ Hkl Hh] Hk (Ha & Hap & Han & Hahp & Hahn & Hak & Hakl & Hah) Hq. cbn [fst snd] in *.
  rewrite (ld_Ok _ _ _ Ha Hk). cbn [res_bind]. unfold set_key, set_keylen, set_hashv, set_prev, set_next.
  rewrite st_Ok by done. cbn [res_bind keylen]. rewrite (ld_Ok _ _ _ Ha Hkl). cbn [res_bind].
  rewrite st_Ok by done. cbn [res_bind hashv]. rewrite (ld_Ok _ _ _ Ha Hh). cbn [res_bind].
  rewrite st_Ok by done. cbn [res_bind prev]. rewrite st_Ok by done. cbn [res_bind next]. rewrite st_Ok by done. cbn [res_bind].
  unfold added_heap. cbn [next prev hh_prev hh_next key keylen hashv]. bdestruct (q =? 0); [done|].
  destruct Hq as [?|Hq]; [done|]. by rewrite st_Ok by (done || by apply is_Some_insert).
Qed.

(** the loops bind one store after the other *)
Lemma select_elt_stores src dst last a (k r : bytes) : node_ok src (a, k) -> key src !! a = Some (k ++ r) ->
  allocated (mem dst) a -> last = 0 \/ is_Some (next (mem dst) !! last) ->
  select_elt malloc_ok src dst last a =
  let m := added_heap (mem dst) a last (k ++ r) k in
  let* (head, b) :=
    if hd dst =? 0 then let* b := HASH_MAKE_TABLE malloc_ok a in Ok (a, b)
    else let* b := head_tbl dst in Ok (hd dst, b) in
  let* (b, m) := HASH_ADD_TO_BKT malloc_ok b m (bkt_of (num_buckets b) k) a in
  Ok (mk_hash head (Some (set_num_items b (u32 (num_items b + 1)))) m, a).
Proof.
  intros Hn Hk Hal Hl. pose proof (select_stores src (mem dst) a last k r Hn Hk Hal Hl) as E. unfold select_elt.
  repeat match type of E with res_bind ?m _ = _ => destruct m as [?|?|?]; [|done..]; cbn [res_bind] in E |- * end.
  rewrite E. cbn [res_bind]. destruct (if hd dst =? 0 then _ else _) as [[h b]|?|?]; cbn [res_bind]; [|done..].
  rewrite (ld_Ok _ a (hash_of k)); [done|apply Hal|]. unfold added_heap. cbn [hashv]. apply lookup_insert_eq.
Qed.

Lemma select_elt_ok src dst sel last a k :
  selected dst sel last -> node_ok src (a, k) -> allocated (mem dst) a -> a ∉ ptrs sel -> zlen sel + 1 < 2 ^ 32 ->
  select_elt malloc_ok src dst last a = Exit (-1) \/
  exists dst', select_elt malloc_ok src dst last a = Ok (dst', a) /\ selected dst' (sel ++ [(a, k)]) a /\
    forall p, allocated (mem dst) p -> allocated (mem dst') p.
Proof.
  intros [-> Hs] Hn Hal Ha Hlt. pose proof Hn as [Hk [r Hkey] _ _]. pose proof Hal as (Ha0 & _). cbn [fst snd] in *.
  destruct sel as [|[p0 k0] sel].
  - change (lastp (ptrs []) 0) with 0. rewrite (select_elt_stores src dst 0 a k r) by (auto || done). destruct Hs as [-> _]. cbn [Z.eqb].
    unfold HASH_MAKE_TABLE, uthash_malloc. destruct (malloc_ok sizeof_UT_hash_table); [|by left]. cbn [res_bind].
    destruct (malloc_ok _); [|by left]. cbn [res_bind]. set (b := mk_table _ _ _ _ _ _ _ _ _).
    destruct (add_bucket_any malloc_ok Hmalloc (added_heap (mem dst) a 0 (k ++ r) k) b [] (fun _ => []) a k)
      as [E|(b' & m' & f' & E & Hok & Hsd & En & Et)]; try done.
    + right. split; [done|]. by apply Forall_replicate.
    + apply NoDup_singleton.
    + cbn. by rewrite !lookup_insert_eq.
    + by apply (added_nodes _ _ _ _ _ []).
    + apply chains_nil.
    + by apply buckets_init.
    + by apply added_allocated.
    + by intros p ?%not_elem_of_nil.
    + left. by rewrite E.
    + right. rewrite E. cbn [res_bind]. eexists. split; [done|]. split.
      * split; [done|]. split; [done|]. eexists _, f'. split; [done|]. split; [exact Hok|]. cbn [set_num_items num_items tbl_tail]. by rewrite En, Et.
      * intros p Hp. by apply (same_allocated _ _ _ Hsd), added_allocated.
  - set (its := (p0, k0) :: sel) in *. destruct Hs as (Hh & b & f & Eb & Hok & Hni & Htl).
    assert (its <> []) as Hne by done. destruct (app_links _ _ _ _ a Hok Hne Ha Ha0) as (Ht0 & Htn & Hdll).
    assert (p0 <> 0) as Hp0.
    { destruct Hok as [_ _ _ _ Happ _ _ _]. apply (dseg_not_null _ _ _ _ _ p0 Happ). cbn. by left. }
    cbn [fixed set_num_items set_tail tbl_tail] in Ht0, Htn, Hdll. set (q := lastp (ptrs its) 0) in *.
    rewrite (select_elt_stores src dst q a k r) by (auto || done). rewrite Hh, (proj2 (Z.eqb_neq p0 0) Hp0).
    unfold head_tbl. rewrite Hh, (proj2 (Z.eqb_neq p0 0) Hp0), Eb. cbn [res_bind].
    pose proof Hok as [Hpow [_ Hlt'] _ Hnd Happ Hnodes Hch Hbk]. cbn [fixed set_num_items set_tail num_buckets buckets] in Hpow, Hch, Hbk.
    assert (0 < zlen its) by (unfold its; rewrite zlen_cons; pose proof (zlen_nonneg sel); lia).
    destruct (add_bucket_any malloc_ok Hmalloc (added_heap (mem dst) a q (k ++ r) k) b its f a k)
      as [E|(b' & m' & f' & E & Hok' & Hsd & En & Et)]; try done.
    + left. lia.
    + rewrite fmap_app. apply NoDup_app. split; [done|]. split; [|apply NoDup_singleton].
      intros p Hp Hp'%list_elem_of_singleton. cbn in Hp'. by subst.
    + rewrite fmap_app. exact Hdll.
    + by apply added_nodes.
    + by apply added_allocated.
    + intros p Hp. by apply (chain_hh_prev _ _ _ _ _ Hok).
    + left. by rewrite E.
    + right. rewrite E. cbn [res_bind]. eexists. split; [done|]. split.
      * split; [rewrite fmap_app; change (ptrs [(a, k)]) with [a]; by rewrite lastp_snoc|].
        cbn [hd]. split; [done|]. eexists _, f'. split; [done|]. split; [exact Hok'|]. cbn [set_num_items num_items tbl_tail]. rewrite En, Et. split; [|done].
        change ((p0, k0) :: sel ++ [(a, k)]) with (its ++ [(a, k)]). rewrite Hni, zlen_app. change (zlen [(a, k)]) with 1.
        apply u32_id. unfold is_u32. lia.
      * intros p Hp. by apply (same_allocated _ _ _ Hsd), added_allocated.
Qed.

(** ** Lemmas: the loops *)
Definition key_at (items : list item) (p : ptr) : bytes :=
  match list_find (fun it => it.1 = p) items with Some (_, it) => it.2 | None => [] end.

Abbreviation with_keys items l := (map (fun p => (p, key_at items p)) l).
Abbreviation chosen l := (filter (fun it : item => cond it.1 = true) l).

Lemma key_at_in items p k : NoDup (ptrs items) -> (p, k) ∈ items -> key_at items p = k.
Proof.
  intros Hn Hp. unfold key_at. destruct (list_find _ items) as [[i [q k']]|] eqn:E.
  - apply list_find_Some in E as (Hi & Eq & _). cbn [fst snd] in *. subst q. apply list_elem_of_lookup_2 in Hi. by apply (key_unique items p).
  - apply list_find_None in E. rewrite Forall_forall in E. by destruct (E _ Hp).
Qed.

Lemma with_keys_ptrs items : NoDup (ptrs items) -> with_keys items (ptrs items) = items.
Proof.
  intros Hn. assert (forall l : list item, l ⊆ items -> with_keys items (ptrs l) = l) as H; [|by apply H].
  induction l as [|[p k] l IH]; intros Hl; [done|]. cbn [fmap list_fmap map fst]. f_equal.
  - rewrite (key_at_in items p k); [done|done|]. apply Hl. by left.
  - apply IH. intros x Hx. apply Hl. by right.
Qed.

Lemma chosen_cons items p l :
  chosen (with_keys items (p :: l)) = (if cond p then [(p, key_at items p)] else []) ++ chosen (with_keys items l).
Proof. cbn [map]. rewrite filter_cons. cbn [fst]. destruct (cond p); [by rewrite decide_True|by rewrite decide_False]. Qed.

(** the elements that are still to come *)
Definition pending (src : heap) (items : list item) (dst : hash) (sel : list item) (l : list ptr) : Prop :=
  NoDup l /\ zlen sel + zlen l < 2 ^ 32 /\
  forall p, p ∈ l -> node_ok src (p, key_at items p) /\ allocated (mem dst) p /\ (p ∉ ptrs sel).

Lemma pending_app src items dst sel l1 l2 dst' :
  pending src items dst sel (l1 ++ l2) -> (forall p, allocated (mem dst) p -> allocated (mem dst') p) ->
  pending src items dst sel l1 /\ pending src items dst' (sel ++ chosen (with_keys items l1)) l2.
Proof.
  intros ((Hn1 & Hd & Hn2)%NoDup_app & Hlt & Hp) Hal. rewrite zlen_app in Hlt. pose proof (zlen_nonneg l2).
  assert (zlen (chosen (with_keys items l1)) <= zlen l1) as Hle.
  { unfold zlen. pose proof (length_filter (fun it : item => cond it.1 = true) (with_keys items l1)) as H1. rewrite length_map in H1. lia. }
  split; [split; [done|split; [lia|intros p Hin; apply Hp, elem_of_app; by left]]|].
  split; [done|]. split; [rewrite zlen_app; lia|]. intros p Hin. destruct (Hp p) as (H1 & H2 & H3); [apply elem_of_app; by right|].
  split; [done|]. split; [by apply Hal|]. rewrite fmap_app, elem_of_app. intros [?|(it & -> & Hit)%list_elem_of_fmap]; [done|].
  apply list_elem_of_filter in Hit as [_ Hit]. apply list_elem_of_In, in_map_iff in Hit as (q & <- & Hq). cbn [fst] in *.
  apply (Hd q); [by apply list_elem_of_In|done].
Qed.

(** what a loop over the elements [l] leaves *)
Definition loop_ok (items : list item) (dst : hash) (sel : list item) (l : list ptr) (r : res (hash * ptr)) : Prop :=
  r = Exit (-1) \/
  exists dst' last', r = Ok (dst', last') /\ selected dst' (sel ++ chosen (with_keys items l)) last' /\
    forall p, allocated (mem dst) p -> allocated (mem dst') p.

Lemma select_chain_ok src items l : forall fuel dst sel last,
  (length l < fuel)%nat -> lseg (hh_next src) l -> pending src items dst sel l -> selected dst sel last ->
  loop_ok items dst sel l (select_chain malloc_ok cond fuel src (hdp l 0) dst last).
Proof.
  induction l as [|p l IH]; intros [|fuel] dst sel last Hf Hl Hp Hs; simpl in Hf; [lia| |lia|].
  { right. exists dst, last. split; [done|]. split; [|done]. cbn. by rewrite app_nil_r. }
  destruct Hl as (Hp0 & Hpn & Hl). cbn [select_chain hdp]. rewrite (proj2 (Z.eqb_neq p 0) Hp0).
  assert (exists r, (if cond p then select_elt malloc_ok src dst last p else Ok (dst, last)) = r /\ loop_ok items dst sel [p] r) as (r & -> & Hr).
  { eexists. split; [done|]. unfold loop_ok. rewrite chosen_cons. destruct (cond p).
    - destruct Hp as (_ & Hlt & Hp). destruct (Hp p) as (H1 & H2 & H3); [by left|]. rewrite zlen_cons in Hlt. pose proof (zlen_nonneg l).
      destruct (select_elt_ok src dst sel last p (key_at items p)) as [E|(dst' & E & Hs' & Hal)]; try done; [lia|by left|].
      right. exists dst', p. by rewrite E.
    - right. exists dst, last. split; [done|]. split; [|done]. cbn. by rewrite app_nil_r. }
  destruct Hr as [->|(dst' & last' & -> & Hs' & Hal)]; [by left|]. cbn [res_bind]. rewrite (ld_Ok _ _ _ Hp0 Hpn). cbn [res_bind].
  destruct (pending_app src items dst sel [p] l dst' Hp Hal) as [_ Hp'].
  destruct (IH fuel dst' _ last' ltac:(lia) Hl Hp' Hs') as [E|(dst'' & last'' & E & Hs'' & Hal')]; [by left|].
  right. exists dst'', last''. split; [done|]. split; [|auto]. rewrite chosen_cons. rewrite chosen_cons in Hs''.
  cbn [map] in Hs''. by rewrite filter_nil, app_nil_r, <- app_assoc in Hs''.
Qed.

Lemma select_buckets_ok src items cs : forall bs dst sel last,
  Forall2 (fun b c => hh_head b = hdp c 0) bs cs -> Forall (fun c => lseg (hh_next src) c /\ NoDup c) cs ->
  pending src items dst sel (concat cs) -> selected dst sel last ->
  loop_ok items dst sel (concat cs) (select_buckets malloc_ok cond src bs dst last).
Proof.
  induction cs as [|c cs IH]; intros bs dst sel last H2 Hl Hp Hs.
  - apply Forall2_nil_inv_r in H2 as ->. right. exists dst, last. split; [done|]. split; [|done]. cbn. by rewrite app_nil_r.
  - apply Forall2_cons_inv_r in H2 as (b & bs' & Hb & H2 & ->). apply Forall_cons in Hl as [[Hlc Hnc] Hl]. cbn [select_buckets concat].
    rewrite Hb. destruct (pending_app src items dst sel c (concat cs) dst Hp) as [Hpc _]; [done|].
    assert (length c < chain_fuel src)%nat as Hfuel by (unfold chain_fuel; pose proof (lseg_length _ _ Hnc Hlc); lia).
    destruct (select_chain_ok src items c _ dst sel last Hfuel Hlc Hpc Hs) as [->|(dst' & last' & -> & Hs' & Hal)]; [by left|].
    cbn [res_bind]. destruct (pending_app src items dst sel c (concat cs) dst' Hp Hal) as [_ Hp'].
    destruct (IH bs' dst' _ last' H2 Hl Hp' Hs') as [->|(dst'' & last'' & -> & Hs'' & Hal')]; [by left|].
    right. exists dst'', last''. split; [done|]. split; [|auto]. rewrite map_app, filter_app, app_assoc. done.
Qed.

(** the destination with the tail put right *)
Definition repaired (dst : hash) (sel : list item) : hash := mk_hash (hd dst) ((fun b => fixed b sel) <$> tbl dst) (mem dst).

Lemma selected_repaired dst sel last : selected dst sel last -> represents (repaired dst sel) sel.
Proof.
  intros [_ Hs]. unfold repaired. destruct sel as [|[p k] sel]; cbn [represents hd tbl mem].
  - by destruct Hs as [-> ->].
  - destruct Hs as (Hh & b & f & Eb & Hok & _). rewrite Eb. split; [done|]. by exists (fixed b ((p, k) :: sel)), f.
Qed.

(** finding, counting and the traversal do not look at the tail *)
Lemma find_repaired dst sel k n : HASH_FIND (repaired dst sel) k n = HASH_FIND dst k n.
Proof. unfold HASH_FIND, head_tbl, repaired. cbn [hd tbl mem]. destruct (hd dst =? 0); [done|]. by destruct (tbl dst). Qed.

Lemma fsck_repaired dst sel last : selected dst sel last -> HASH_FSCK (repaired dst sel) = HASH_FSCK dst.
Proof.
  intros [_ Hs]. unfold HASH_FSCK, head_tbl, repaired. cbn [hd tbl mem]. destruct (hd dst =? 0); [done|]. destruct sel as [|[p k] sel].
  - by destruct Hs as [_ ->].
  - destruct Hs as (_ & b & f & -> & _ & Hni & _). cbn [fmap option_fmap option_map res_bind fixed set_num_items num_items num_buckets buckets set_tail].
    by rewrite Hni.
Qed.

Lemma chains_permutation items cs : NoDup (concat cs) -> NoDup (ptrs items) ->
  (forall p, p ∈ concat cs <-> exists k, (p, k) ∈ items) -> chosen (with_keys items (concat cs)) ≡ₚ chosen items.
Proof.
  intros Hc Hn Hel. transitivity (chosen (with_keys items (ptrs items))); [|by rewrite with_keys_ptrs]. apply filter_Permutation, Permutation_map, NoDup_Permutation; [done|done|].
  intros p. by rewrite Hel, elem_ptrs.
Qed.

Lemma select_ok dst src items :
  represents src items -> hd dst = 0 -> tbl dst = None -> (forall p, p ∈ ptrs items -> allocated (mem dst) p) ->
  HASH_SELECT malloc_ok cond dst src = Exit (-1) \/
  exists dst' sel last, HASH_SELECT malloc_ok cond dst src = Ok dst' /\ sel ≡ₚ chosen items /\
    selected dst' sel last /\ forall p, allocated (mem dst) p -> allocated (mem dst') p.
Proof.
  intros Hsrc Hh Ht Hal. unfold HASH_SELECT. destruct (decide (items = [])) as [->|Hne].
  { destruct Hsrc as [-> _]. right. exists dst, [], 0. done. }
  destruct (represents_table src items Hsrc Hne) as (_ & Hh0 & b & f & _ & -> & Hok). rewrite (proj2 (Z.eqb_neq _ 0) Hh0). cbn [res_bind].
  destruct (table_chains _ _ _ _ Hok) as (Hnc & Hel & H2). set (cs := map _ _) in *.
  pose proof Hok as [Hpow [_ Hlt] _ Hnd _ Hnodes _ [Hlen _]].
  rewrite take_ge by (unfold zlen in Hlen; lia).
  assert (length (concat cs) = length items) as El.
  { rewrite <- (length_fmap fst items). apply Permutation_length, NoDup_Permutation; [done|done|]. intros p. by rewrite Hel, elem_ptrs. }
  destruct (select_buckets_ok (mem src) items cs (buckets b) dst [] 0) as [->|(dst' & last & -> & Hs & Hal')].
  - eapply Forall2_impl; [exact H2|]. by intros ? ? [? _].
  - apply Forall_forall. intros c Hc. split.
    + apply list_elem_of_lookup in Hc as [i Hi]. eapply Forall2_lookup_r in H2 as (x & _ & _ & _ & Hd); [|exact Hi]. by eapply dseg_lseg.
    + apply list_elem_of_split in Hc as (l1 & l2 & E). rewrite E, concat_app in Hnc. cbn [concat] in Hnc.
      apply NoDup_app in Hnc as (_ & _ & Hnc). by apply NoDup_app in Hnc as [? _].
  - split; [done|]. split; [change (zlen []) with 0; unfold zlen in *; lia|]. intros p Hp. pose proof Hp as [k Hk]%Hel.
    rewrite (key_at_in items p k) by done. split; [|split; [apply Hal, elem_ptrs; by exists k|apply not_elem_of_nil]].
    rewrite Forall_forall in Hnodes. by apply Hnodes.
  - done.
  - by left.
  - right. exists dst', (chosen (with_keys items (concat cs))), last. cbn [res_bind app] in *. split; [done|].
    split; [by apply chains_permutation|]. done.
Qed.

(** ** Lemmas: buckets and the links in app order *)
(** the heap with other links in app order *)
Definition with_app (pv nx : gmap ptr ptr) (m : heap) : heap :=
  mk_heap pv nx (hh_prev m) (hh_next m) (key m) (keylen m) (hashv m).

Abbreviation lift pv nx r := (let* (x, m) := r in Ok (x, with_app pv nx m)).

Lemma set_hh_prev_app pv nx m p v : set_hh_prev (with_app pv nx m) p v = let* m := set_hh_prev m p v in Ok (with_app pv nx m).
Proof. unfold set_hh_prev. cbn. by destruct (st (hh_prev m) p v). Qed.

Lemma set_hh_next_app pv nx m p v : set_hh_next (with_app pv nx m) p v = let* m := set_hh_next m p v in Ok (with_app pv nx m).
Proof. unfold set_hh_next. cbn. by destruct (st (hh_next m) p v). Qed.

Lemma expand_chain_app pv nx nb ideal : forall fuel p new non m,
  expand_chain fuel nb ideal p new non (with_app pv nx m) = lift pv nx (expand_chain fuel nb ideal p new non m).
Proof.
  induction fuel as [|fuel IH]; intros p new non m; [done|]. cbn [expand_chain]. destruct (p =? 0); [done|].
  change (hh_next (with_app pv nx m)) with (hh_next m). change (hashv (with_app pv nx m)) with (hashv m).
  destruct (ld (hh_next m) p) as [n|?|?]; cbn [res_bind]; [|done..]. destruct (ld (hashv m) p) as [h|?|?]; cbn [res_bind]; [|done..].
  destruct (rd new (HASH_TO_BKT h nb)) as [b|?|?]; cbn [res_bind]; [|done..].
  destruct (if ideal <? _ then _ else _) as [[mult non']|?|?]; cbn [res_bind]; [|done..].
  rewrite set_hh_prev_app. destruct (set_hh_prev m p 0) as [m1|?|?]; cbn [res_bind]; [|done..].
  rewrite set_hh_next_app. destruct (set_hh_next m1 p (hh_head b)) as [m2|?|?]; cbn [res_bind]; [|done..].
  destruct (hh_head b =? 0); cbn [res_bind].
  - destruct (wr new _ _) as [new'|?|?]; cbn [res_bind]; [|done..]. apply IH.
  - rewrite set_hh_prev_app. destruct (set_hh_prev m2 _ p) as [m3|?|?]; cbn [res_bind]; [|done..].
    destruct (wr new _ _) as [new'|?|?]; cbn [res_bind]; [|done..]. apply IH.
Qed.

Lemma expand_loop_app pv nx nb ideal old : forall new non m,
  expand_loop nb ideal old new non (with_app pv nx m) = lift pv nx (expand_loop nb ideal old new non m).
Proof.
  induction old as [|b old IH]; intros new non m; [done|]. cbn [expand_loop]. change (chain_fuel (with_app pv nx m)) with (chain_fuel m).
  rewrite expand_chain_app. destruct (expand_chain _ _ _ _ _ _ _) as [[[new' non'] m']|?|?]; cbn [res_bind]; [|done..]. apply IH.
Qed.

Lemma add_to_bkt_app pv nx b m j a :
  HASH_ADD_TO_BKT malloc_ok b (with_app pv nx m) j a = lift pv nx (HASH_ADD_TO_BKT malloc_ok b m j a).
Proof.
  assert (forall b m, HASH_EXPAND_BUCKETS malloc_ok b (with_app pv nx m) = lift pv nx (HASH_EXPAND_BUCKETS malloc_ok b m)) as He.
  { clear b m. intros b m. unfold HASH_EXPAND_BUCKETS. destruct (uthash_malloc _ _) as [?|?|?]; cbn [res_bind]; [|done..].
    rewrite expand_loop_app. by destruct (expand_loop _ _ _ _ _ _) as [[[new' non'] m']|?|?]. }
  unfold HASH_ADD_TO_BKT. destruct (rd (buckets b) j) as [bk|?|?]; cbn [res_bind]; [|done..].
  rewrite set_hh_next_app. destruct (set_hh_next m a (hh_head bk)) as [m1|?|?]; cbn [res_bind]; [|done..].
  rewrite set_hh_prev_app. destruct (set_hh_prev m1 a 0) as [m2|?|?]; cbn [res_bind]; [|done..].
  destruct (hh_head bk =? 0); cbn [res_bind].
  - destruct (wr (buckets b) j _) as [bs|?|?]; cbn [res_bind]; [|done..]. destruct (_ && _); [apply He|done].
  - rewrite set_hh_prev_app. destruct (set_hh_prev m2 (hh_head bk) a) as [m3|?|?]; cbn [res_bind]; [|done..].
    destruct (wr (buckets b) j _) as [bs|?|?]; cbn [res_bind]; [|done..]. destruct (_ && _); [apply He|done].
Qed.

(** an element that is added to the destination goes behind its first element *)
Lemma add_to_selected dst it sel last a k r :
  let its := it :: sel in
  selected dst its last -> allocated (mem dst) a -> a ∉ ptrs its -> zlen k < 2 ^ 32 -> zlen its + 1 < 2 ^ 32 ->
  HASH_ADD malloc_ok dst (k ++ r) (zlen k) a = Exit (-1) \/
  exists dst', HASH_ADD malloc_ok dst (k ++ r) (zlen k) a = Ok dst' /\
    HASH_ITER (S (size (next (mem dst')))) (mem dst') (hd dst') = Ok [it.1; a] /\ HASH_COUNT dst' = Ok (zlen its + 1).
Proof.
  intros its [-> Hs] Hal Ha Hk Hlt. destruct it as [p0 k0]. destruct Hs as (Hh & b & f & Eb & Hok & Hni & Htl).
  pose proof Hal as (Ha0 & Hap & Han & Hahp & Hahn & Hak & Hakl & Hah).
  assert (its <> []) as Hne by done. destruct (app_links _ _ _ _ a Hok Hne Ha Ha0) as (_ & _ & Hdll).
  assert (p0 <> 0 /\ is_Some (next (mem dst) !! p0)) as [Hp0 Hn0] by (destruct Hok as [_ _ _ _ (? & _ & ? & _) _ _ _]; split; [done|by eexists]).
  assert (p0 <> a) as Hpa by (intros ->; apply Ha; cbn; by left).
  cbn [fixed set_num_items set_tail tbl_tail fst] in Hdll |- *. set (q := lastp (ptrs its) 0) in *.
  pose proof (add_stores (mem dst) a (k ++ r) k Hal Hk) as Est. destruct (hash_of_spec k r Hk) as [Ehash _].
  unfold HASH_ADD, HASH_ADD_KEYPTR. destruct (set_next (mem dst) a 0) as [m1|?|?]; [|done..]. cbn [res_bind] in Est |- *.
  destruct (set_key m1 a (k ++ r)) as [m2|?|?]; [|done..]. cbn [res_bind] in Est |- *. rewrite Est. cbn [res_bind].
  unfold head_tbl. rewrite Hh, (proj2 (Z.eqb_neq p0 0) Hp0), Eb. cbn [res_bind]. rewrite Htl.
  unfold set_next. cbn [next]. rewrite st_Ok by (done || by apply is_Some_insert). cbn [res_bind].
  unfold set_prev. cbn [prev]. rewrite st_Ok by done. cbn [res_bind]. rewrite Ehash. cbn [res_bind].
  unfold set_hashv. cbn [hashv]. rewrite st_Ok by done. cbn [res_bind prev next hh_prev hh_next key keylen].
  set (b1 := set_num_items _ _). fold (bkt_of (num_buckets b1) k). set (pv := <[a := p0]> _). set (nx := <[p0 := a]> _).
  change (mk_heap pv nx _ _ _ _ _) with (with_app pv nx (added_heap (mem dst) a q (k ++ r) k)). rewrite add_to_bkt_app.
  pose proof Hok as [Hpow [_ _] _ Hnd Happ Hnodes Hch Hbk]. cbn [fixed set_num_items set_tail num_buckets buckets] in Hpow, Hch, Hbk.
  assert (num_items b1 = zlen its + 1) as En1.
  { unfold b1. cbn [set_num_items num_items set_tail]. rewrite Hni. apply u32_id. pose proof (zlen_nonneg its). unfold is_u32. lia. }
  destruct (add_bucket_any malloc_ok Hmalloc (added_heap (mem dst) a q (k ++ r) k) b1 its f a k)
    as [E|(b' & m' & f' & E & Hok' & Hsd & En & Et)]; try done.
  - left. pose proof (zlen_nonneg its). lia.
  - rewrite fmap_app. apply NoDup_app. split; [done|]. split; [|apply NoDup_singleton].
    intros p Hp Hp'%list_elem_of_singleton. cbn in Hp'. by subst.
  - rewrite fmap_app. exact Hdll.
  - by apply added_nodes.
  - by apply added_allocated.
  - intros p Hp. by apply (chain_hh_prev _ _ _ _ _ Hok).
  - left. by rewrite E.
  - right. rewrite E. cbn [res_bind]. eexists. split; [done|]. cbn [mem hd with_app next]. split.
    + assert (lseg nx [p0; a]) as Hl.
      { unfold nx. split; [done|]. split; [by rewrite lookup_insert_eq|]. split; [done|].
        split; [by rewrite lookup_insert_ne, lookup_insert_eq|done]. }
      change p0 with (hdp [p0; a] 0) at 1. apply iter_chain; [|exact Hl].
      pose proof (lseg_length nx [p0; a] ltac:(by apply NoDup_cons; split; [rewrite list_elem_of_singleton|apply NoDup_singleton]) Hl). lia.
    + unfold HASH_COUNT, head_tbl. cbn [hd tbl]. rewrite (proj2 (Z.eqb_neq p0 0) Hp0). cbn [res_bind]. by rewrite En, En1.
Qed.

(** ** Properties *)
(** C25: [HASH_SELECT] into an empty hash: unless memory is short, the elements
    that fulfil the condition, each once, are afterwards in both hashes; finding
    by key, the traversal, the count and the integrity check of the destination
    are those of a table with these elements.  But its tail is the first of
    them: an element that is added next is linked behind that one, so that the
    traversal visits these two only, while the count is right. *)
Theorem HASH_SELECT_selects dst src items :
  represents src items -> hd dst = 0 -> tbl dst = None -> (forall p, p ∈ ptrs items -> allocated (mem dst) p) ->
  HASH_SELECT malloc_ok cond dst src = Exit (-1) \/
  exists dst' sel, HASH_SELECT malloc_ok cond dst src = Ok dst' /\ sel ≡ₚ chosen items /\
    (forall k r, zlen k < 2 ^ 32 -> exists q, HASH_FIND dst' (k ++ r) (zlen k) = Ok q /\
       (q = 0 /\ (forall p, (p, k) ∉ sel) \/ q <> 0 /\ (q, k) ∈ sel)) /\
    HASH_ITER (S (size (next (mem dst')))) (mem dst') (hd dst') = Ok (ptrs sel) /\ HASH_COUNT dst' = Ok (zlen sel) /\
    HASH_FSCK dst' = Ok tt /\
    (forall a k r, sel <> [] -> allocated (mem dst) a -> a ∉ ptrs sel -> zlen k < 2 ^ 32 -> zlen sel + 1 < 2 ^ 32 ->
       HASH_ADD malloc_ok dst' (k ++ r) (zlen k) a = Exit (-1) \/
       exists dst'', HASH_ADD malloc_ok dst' (k ++ r) (zlen k) a = Ok dst'' /\
         HASH_ITER (S (size (next (mem dst'')))) (mem dst'') (hd dst'') = Ok [hd dst'; a] /\ HASH_COUNT dst'' = Ok (zlen sel + 1)).
Proof.
  intros Hsrc Hh Ht Hal. destruct (select_ok dst src items Hsrc Hh Ht Hal) as [->|(dst' & sel & last & -> & Hp & Hs & Hal')]; [by left|].
  right. exists dst', sel. split; [done|]. split; [done|]. pose proof (selected_repaired dst' sel last Hs) as Hr. split; [|split; [|split; [|split]]].
  - intros k r Hk. rewrite <- (find_repaired dst' sel). by apply find_ok.
  - apply (iter_ok (repaired dst' sel) sel Hr).
  - destruct Hs as [_ Hs]. unfold HASH_COUNT, head_tbl. destruct sel as [|[p k] sel]; [by destruct Hs as [-> _]|].
    destruct Hs as (-> & b & f & -> & Hok & Hni & _).
    assert (p <> 0) as Hp0 by (by destruct Hok as [_ _ _ _ (? & _) _ _ _]). rewrite (proj2 (Z.eqb_neq p 0) Hp0). cbn [res_bind]. by rewrite Hni.
  - rewrite <- (fsck_repaired dst' sel last Hs). by eapply fsck_ok.
  - intros a k r Hne Ha Hna Hk Hlt. destruct sel as [|it sel]; [done|]. assert (hd dst' = it.1) as ->.
    { destruct Hs as [_ Hs]. destruct it as [p k']. by destruct Hs as [-> _]. }
    by apply (add_to_selected dst' it sel last); [|apply Hal'|..].
Qed.
End spec.

#[local] Instance default_fcn : HashFcn := HASH_JEN.
#[local] Instance default_laws : HashFcnLaws default_fcn := jen_laws.

Definition ops_select : list hash_op := [OpAdd 100 (str "alice" ++ [0]); OpAdd 200 (str "bob" ++ [0])].

(** all elements of a table of two are selected, and a third is added *)
Lemma HASH_SELECT_selects_witness :
  exists src ps, hash_run malloc0 hash0 ops_select = Ok (src, ps) /\
  (HASH_SELECT malloc0 (fun _ => true) hash0 src = Exit (-1) \/
   exists dst sel, HASH_SELECT malloc0 (fun _ => true) hash0 src = Ok dst /\ sel ≡ₚ [(100, str "alice"); (200, str "bob")] /\
     HASH_COUNT dst = Ok (zlen sel)).
Proof.
  destruct (run_refines malloc0 malloc0_bound hash0 [] ops_select) as [E|(src & E & Ht & _)];
    [apply hash0_ok| |vm_compute in E; discriminate E|].
  - split; [|split; [|exact I]]; (split; [eexists; split; [vm_compute; reflexivity|reflexivity]|]);
      (split; [apply heap0_allocated; apply (bool_decide_unpack _); vm_compute; exact I|]);
      repeat split; try (apply (bool_decide_unpack _); vm_compute; exact I).
  - exists src. eexists. split; [exact E|].
    destruct (HASH_SELECT_selects malloc0 malloc0_bound (fun _ => true) hash0 src [(100, str "alice"); (200, str "bob")])
      as [Es|(dst & sel & Es & Hp & _ & _ & Hc & _)]; [exact Ht|reflexivity|reflexivity| |by left|].
    + intros p Hp. apply heap0_allocated. cbn in Hp |- *. revert Hp. rewrite !elem_of_cons. tauto.
    + right. exists dst, sel. split; [exact Es|]. split; [exact Hp|exact Hc].
Defined.
