(* ===== verification/UtHashBloom.v ===== *)
(** * Two options of uthash: a Bloom filter and emitted keys (src/examples/p2p-chat-example/uthash.h)

    The macros of UtHash as they are compiled with [-DHASH_BLOOM=n]: the table
    has a bit vector, [HASH_FIND] looks at it before it looks at the bucket, and
    [HASH_ADD_KEYPTR] sets a bit.  The members [bloom_nbits] and [bloom_bv] of the
    table are kept beside it, and the table is larger by them.  Specification:
    the same list of elements, so the filter changes nothing that is found.  With
    [-DHASH_EMIT_KEYS=fd] each added key is written to a descriptor with its
    length in front. *)
From Stdlib Require Import ZArith Lia Bool String.
From stdpp Require Import base numbers option list gmap.
From S2P Require Import Prelude CStr HashFcns UtHash LinkedList UtHashSpec UtHashRefine.

Record bloom := mk_bloom { bloom_nbits : Z; bloom_bv : bytes }.

(** a hash whose table has a filter *)
Record bhash := mk_bhash { core : hash; filter_ : option bloom }.

Definition sizeof_bloom_table : Z := 80.

Definition HASH_BLOOM_BITSET (bv : bytes) (idx : Z) : res bytes :=
  let* b := rd bv (idx / 8) in wr bv (idx / 8) (Z.lor b (Z.shiftl 1 (idx mod 8))).

Definition HASH_BLOOM_BITTEST (bv : bytes) (idx : Z) : res Z :=
  let* b := rd bv (idx / 8) in Ok (Z.land b (Z.shiftl 1 (idx mod 8))).

(** [hashv & (uint32_t)((1ULL << nbits) - 1)] *)
Definition bloom_idx (nbits hashv : Z) : res Z :=
  check* (0 <=? nbits) && (nbits <? 64) else Overflow in
  Ok (Z.land hashv (u32 (2 ^ nbits - 1))).

Definition HASH_BLOOM_ADD (f : bloom) (hashv : Z) : res bloom :=
  let* idx := bloom_idx (bloom_nbits f) hashv in
  let* bv := HASH_BLOOM_BITSET (bloom_bv f) idx in
  Ok (mk_bloom (bloom_nbits f) bv).

Definition HASH_BLOOM_TEST (f : bloom) (hashv : Z) : res Z :=
  let* idx := bloom_idx (bloom_nbits f) hashv in
  HASH_BLOOM_BITTEST (bloom_bv f) idx.

Section uthash.
Context `{HF : HashFcn}.
Variable malloc_ok : Z -> bool.
(** the value of the macro *)
Variable HASH_BLOOM : Z.

Definition HASH_BLOOM_BITLEN : Z := Z.shiftl 1 HASH_BLOOM.
Definition HASH_BLOOM_BYTELEN : Z := HASH_BLOOM_BITLEN / 8 + (if HASH_BLOOM_BITLEN mod 8 =? 0 then 0 else 1).

Definition HASH_BLOOM_MAKE : res bloom :=
  let* _ := uthash_malloc malloc_ok HASH_BLOOM_BYTELEN in
  Ok (mk_bloom (to_char HASH_BLOOM) (replicate (Z.to_nat HASH_BLOOM_BYTELEN) 0)).

(** the filter of the table of [head] *)
Definition tbl_bloom (t : bhash) : res bloom :=
  match filter_ t with Some f => Ok f | None => Fault UseAfterFree end.

Definition HASH_FIND (t : bhash) (keyptr : bytes) (keylen : Z) : res ptr :=
  if hd (core t) =? 0 then Ok 0
  else
    let* b := head_tbl (core t) in
    let* hashv := HASH_FCN keyptr keylen in
    let* f := tbl_bloom t in
    let* bit := HASH_BLOOM_TEST f hashv in
    if bit =? 0 then Ok 0
    else
      let* bkt := rd (buckets b) (HASH_TO_BKT hashv (num_buckets b)) in
      HASH_FIND_IN_BKT (chain_fuel (mem (core t))) (mem (core t)) (hh_head bkt) keyptr keylen.

Definition HASH_MAKE_TABLE (head : ptr) : res (UT_hash_table * bloom) :=
  let* _ := uthash_malloc malloc_ok sizeof_bloom_table in
  let* _ := uthash_malloc malloc_ok (HASH_INITIAL_NUM_BUCKETS * sizeof_UT_hash_bucket) in
  let* f := HASH_BLOOM_MAKE in
  Ok (mk_table (replicate (Z.to_nat HASH_INITIAL_NUM_BUCKETS) (mk_bucket 0 0 0))
        HASH_INITIAL_NUM_BUCKETS HASH_INITIAL_NUM_BUCKETS_LOG2 0 head 0 0 0 0, f).

Definition HASH_ADD_KEYPTR (t : bhash) (keyptr : bytes) (keylen_in : Z) (add : ptr) : res bhash :=
  let m := mem (core t) in
  let* m := set_next m add 0 in
  let* m := set_key m add keyptr in
  let* m := set_keylen m add (u32 keylen_in) in
  let* (head, b, f, m) :=
    if hd (core t) =? 0 then
      let* m := set_prev m add 0 in
      let* (b, f) := HASH_MAKE_TABLE add in
      Ok (add, b, f, m)
    else
      let* b := head_tbl (core t) in
      let* f := tbl_bloom t in
      let* m := set_next m (tbl_tail b) add in
      let* m := set_prev m add (tbl_tail b) in
      Ok (hd (core t), set_tail b add, f, m) in
  let b := set_num_items b (u32 (num_items b + 1)) in
  let* h := HASH_FCN keyptr keylen_in in
  let* m := set_hashv m add h in
  let* (b, m) := HASH_ADD_TO_BKT malloc_ok b m (HASH_TO_BKT h (num_buckets b)) add in
  let* f := HASH_BLOOM_ADD f h in
  Ok (mk_bhash (mk_hash head (Some b) m) (Some f)).

(** with [HASH_BLOOM_FREE] when the table goes *)
Definition HASH_DELETE (t : bhash) (delptr : ptr) : res bhash :=
  let* p := ld (prev (mem (core t))) delptr in
  let* n := ld (next (mem (core t))) delptr in
  let* c := UtHash.HASH_DELETE (core t) delptr in
  Ok (mk_bhash c (if (p =? 0) && (n =? 0) then None else filter_ t)).

Definition HASH_REPLACE (t : bhash) (keyptr : bytes) (keylen_in : Z) (add : ptr) : res (bhash * ptr) :=
  let* replaced := HASH_FIND t keyptr keylen_in in
  let* t := if replaced =? 0 then Ok t else HASH_DELETE t replaced in
  let* t := HASH_ADD_KEYPTR t keyptr keylen_in add in
  Ok (t, replaced).

(** the operations of [UtHash.hash_step], with the filter *)
Definition bloom_step (t : bhash) (op : hash_op) : res (bhash * ptr) :=
  match op with
  | OpFind s => let* n := strlen s in let* p := HASH_FIND t s n in Ok (t, p)
  | OpAdd a s => let* n := strlen s in let* t := HASH_ADD_KEYPTR t s n a in Ok (t, 0)
  | OpDel p => let* t := HASH_DELETE t p in Ok (t, 0)
  | OpReplace a s => let* n := strlen s in HASH_REPLACE t s n a
  end.

Fixpoint bloom_run (t : bhash) (ops : list hash_op) : res (bhash * list ptr) :=
  match ops with
  | [] => Ok (t, [])
  | op :: ops =>
      let* (t, p) := bloom_step t op in
      let* (t, ps) := bloom_run t ops in
      Ok (t, p :: ps)
  end.
End uthash.

(** ** Emitted keys *)
(** the bytes written for a key; [_klen] is an [unsigned] *)
Definition HASH_EMIT_KEY (keyptr : bytes) (fieldlen : Z) : res bytes :=
  let _klen := u32 fieldlen in
  let* k := slice keyptr 0 fieldlen in
  Ok (le 4 _klen ++ k).

(** the keys of a sequence of additions *)
Fixpoint emit_all (keys : list (bytes * Z)) : res bytes :=
  match keys with
  | [] => Ok []
  | (keyptr, len) :: keys => let* e := HASH_EMIT_KEY keyptr len in let* es := emit_all keys in Ok (e ++ es)
  end.

(** the reader: keys until the stream ends *)
Fixpoint read_keys (fuel : nat) (stream : bytes) : option (list bytes) :=
  match fuel, stream with
  | _, [] => Some []
  | O, _ => None
  | S fuel, _ =>
      let n := le_val (take 4 stream) in
      let k := take (Z.to_nat n) (drop 4 stream) in
      if (length stream <? 4)%nat || negb (zlen k =? n) then None
      else l ← read_keys fuel (drop (4 + length k) stream); Some (k :: l)
  end.

(** ** Lemmas: bits *)
Definition bit (bv : bytes) (idx : Z) : bool :=
  match bv !! Z.to_nat (idx / 8) with Some b => Z.testbit b (idx mod 8) | None => false end.

Lemma land_bit b k : 0 <= k -> (Z.land b (Z.shiftl 1 k) =? 0) = negb (Z.testbit b k).
Proof.
  intros Hk. rewrite Z.shiftl_1_l. destruct (Z.testbit b k) eqn:E; cbn [negb].
  - apply Z.eqb_neq. intros H. apply (f_equal (fun z => Z.testbit z k)) in H.
    rewrite Z.land_spec, Z.pow2_bits_true, Z.testbit_0_l, E in H by done. done.
  - apply Z.eqb_eq, Z.bits_inj_0. intros i. rewrite Z.land_spec. destruct (Z.eq_dec i k) as [->|Hi]; [by rewrite E|].
    rewrite Z.pow2_bits_false by done. apply andb_false_r.
Qed.

Lemma bit_set bv idx : 0 <= idx -> idx / 8 < zlen bv ->
  exists bv', HASH_BLOOM_BITSET bv idx = Ok bv' /\ zlen bv' = zlen bv /\ bit bv' idx = true /\ forall j, 0 <= j -> bit bv j = true -> bit bv' j = true.
Proof.
  intros H0 Hl. assert (0 <= idx / 8) as Hd by (apply Z.div_pos; lia). pose proof (Z.mod_pos_bound idx 8 ltac:(lia)) as Hm.
  destruct (rd_in_bounds bv (idx / 8)) as [b Hb]; [lia|]. unfold HASH_BLOOM_BITSET. rewrite Hb. cbn [res_bind].
  unfold wr. rewrite (proj2 (Z.leb_le 0 _)), (proj2 (Z.ltb_lt _ (zlen bv))) by done. cbn [andb].
  apply rd_Ok in Hb as [_ Hb]. set (b' := Z.lor b (Z.shiftl 1 (idx mod 8))). eexists. split; [done|].
  split; [unfold zlen; by rewrite length_insert|]. assert (Z.to_nat (idx / 8) < length bv)%nat as Hn by (unfold zlen in Hl; lia).
  split.
  - unfold bit. rewrite list_lookup_insert_eq by done. unfold b'. rewrite Z.lor_spec, Z.shiftl_1_l, Z.pow2_bits_true by lia. apply orb_true_r.
  - intros j Hj Hbit. unfold bit in *. destruct (Nat.eq_dec (Z.to_nat (idx / 8)) (Z.to_nat (j / 8))) as [E|E].
    + rewrite <- E in *. rewrite list_lookup_insert_eq by done. rewrite Hb in Hbit. unfold b'. by rewrite Z.lor_spec, Hbit.
    + by rewrite list_lookup_insert_ne by done.
Qed.

Lemma bit_test bv idx : 0 <= idx -> idx / 8 < zlen bv ->
  exists v, HASH_BLOOM_BITTEST bv idx = Ok v /\ (v =? 0) = negb (bit bv idx).
Proof.
  intros H0 Hl. assert (0 <= idx / 8) as Hd by (apply Z.div_pos; lia). pose proof (Z.mod_pos_bound idx 8 ltac:(lia)) as Hm.
  destruct (rd_in_bounds bv (idx / 8)) as [b Hb]; [lia|]. unfold HASH_BLOOM_BITTEST. rewrite Hb. cbn [res_bind].
  eexists. split; [done|]. rewrite land_bit by lia. apply rd_Ok in Hb as [_ Hb]. unfold bit. by rewrite Hb.
Qed.

Section refine.
Context {HF : HashFcn} {HL : HashFcnLaws HF}.
Variable malloc_ok : Z -> bool.
Hypothesis Hmalloc : forall n, malloc_ok n = true -> n < 2 ^ 35.
Variable HASH_BLOOM : Z.
Hypothesis Hbits : 0 <= HASH_BLOOM < 64.

Abbreviation idx_of k := (Z.land (hash_of k) (u32 (2 ^ HASH_BLOOM - 1))).

(** every element has its bit *)
Record bloom_ok (f : bloom) (items : list item) : Prop := {
  ok_nbits : bloom_nbits f = HASH_BLOOM;
  ok_len : zlen (bloom_bv f) = HASH_BLOOM_BYTELEN HASH_BLOOM;
  ok_bits : forall p k, (p, k) ∈ items -> bit (bloom_bv f) (idx_of k) = true }.

(** a table that represents the elements, with its filter *)
Definition filtered (t : bhash) (items : list item) : Prop :=
  keyed (core t) items /\ (items <> [] -> exists f, filter_ t = Some f /\ bloom_ok f items).

Lemma bytelen_nonneg : 0 <= HASH_BLOOM_BYTELEN HASH_BLOOM.
Proof.
  unfold HASH_BLOOM_BYTELEN, HASH_BLOOM_BITLEN. rewrite Z.shiftl_1_l.
  assert (0 <= 2 ^ HASH_BLOOM / 8) by (apply Z.div_pos; [apply Z.pow_nonneg|]; lia). case_match; lia.
Qed.

Lemma idx_bounds h : 0 <= h ->
  let i := Z.land h (u32 (2 ^ HASH_BLOOM - 1)) in 0 <= i /\ i / 8 < HASH_BLOOM_BYTELEN HASH_BLOOM.
Proof.
  intros Hh i. assert (0 < 2 ^ HASH_BLOOM) as Hp by (apply Z.pow_pos_nonneg; lia).
  pose proof (u32_range (2 ^ HASH_BLOOM - 1)) as Hu. unfold is_u32 in Hu.
  assert (u32 (2 ^ HASH_BLOOM - 1) <= 2 ^ HASH_BLOOM - 1) by (apply Z.mod_le; lia).
  assert (0 <= i) by (apply Z.land_nonneg; by left).
  assert (i <= u32 (2 ^ HASH_BLOOM - 1)) as Hi.
  { unfold i. apply Z.ldiff_le; [lia|]. apply Z.bits_inj_0. intros n. rewrite Z.ldiff_spec, Z.land_spec.
    by destruct (Z.testbit _ n), (Z.testbit _ n). }
  split; [done|]. unfold HASH_BLOOM_BYTELEN, HASH_BLOOM_BITLEN. rewrite Z.shiftl_1_l. bdestruct (2 ^ HASH_BLOOM mod 8 =? 0).
  - rewrite Z.add_0_r. apply Z.div_lt_upper_bound; [done|]. pose proof (Z.div_mod (2 ^ HASH_BLOOM) 8). lia.
  - assert (i / 8 <= 2 ^ HASH_BLOOM / 8) by (apply Z.div_le_mono; lia). lia.
Qed.

Lemma bloom_idx_ok f items h : bloom_ok f items -> bloom_idx (bloom_nbits f) h = Ok (Z.land h (u32 (2 ^ HASH_BLOOM - 1))).
Proof.
  intros [-> _ _]. unfold bloom_idx. by rewrite (proj2 (Z.leb_le 0 _)), (proj2 (Z.ltb_lt _ 64)) by lia.
Qed.

Lemma hash_of_nonneg k : zlen k < 2 ^ 32 -> 0 <= hash_of k.
Proof. intros Hk. destruct (hash_of_spec k [] Hk) as [_ H]. apply H. Qed.

(** ** Lemmas: the filter *)
Lemma bloom_add_ok f items a k : bloom_ok f items -> zlen k < 2 ^ 32 ->
  exists f', HASH_BLOOM_ADD f (hash_of k) = Ok f' /\ bloom_ok f' (items ++ [(a, k)]).
Proof.
  intros Hf Hk. unfold HASH_BLOOM_ADD. rewrite (bloom_idx_ok f items) by done. cbn [res_bind].
  destruct (idx_bounds (hash_of k) (hash_of_nonneg k Hk)) as [H0 Hl]. destruct Hf as [Hn Hlen Hb].
  destruct (bit_set (bloom_bv f) (idx_of k) H0) as (bv & -> & El & Hnew & Hold); [by rewrite Hlen|].
  cbn [res_bind]. eexists. split; [done|]. constructor; cbn [bloom_nbits bloom_bv]; [done|congruence|].
  intros p k' [H|[= -> ->]%list_elem_of_singleton]%elem_of_app; [|done]. apply Hold; [|by apply (Hb p)].
  apply Z.land_nonneg. right. apply u32_range.
Qed.

(** a bit that is not set excludes a key *)
Lemma bloom_test_ok f items k : bloom_ok f items -> zlen k < 2 ^ 32 ->
  exists v, HASH_BLOOM_TEST f (hash_of k) = Ok v /\ (v = 0 -> forall p, (p, k) ∉ items).
Proof.
  intros Hf Hk. unfold HASH_BLOOM_TEST. rewrite (bloom_idx_ok f items) by done. cbn [res_bind].
  destruct (idx_bounds (hash_of k) (hash_of_nonneg k Hk)) as [H0 Hl]. destruct Hf as [Hn Hlen Hb].
  destruct (bit_test (bloom_bv f) (idx_of k) H0) as (v & -> & Hv); [by rewrite Hlen|]. exists v. split; [done|].
  intros -> p Hp. rewrite (Hb p k Hp) in Hv. done.
Qed.

(** a finding is not changed by the filter *)
Lemma find_same t items k r : filtered t items -> zlen k < 2 ^ 32 ->
  HASH_FIND t (k ++ r) (zlen k) = UtHash.HASH_FIND (core t) (k ++ r) (zlen k).
Proof.
  intros [[Ht Hn] Hf] Hk. destruct (find_ok (core t) items k r Ht Hk) as (q & E & Hq). unfold HASH_FIND.
  destruct (decide (items = [])) as [->|Hne].
  { rewrite E. destruct Ht as [-> _]. destruct Hq as [[-> _]|[_ Hq]]; [done|]. by apply not_elem_of_nil in Hq. }
  destruct (Hf Hne) as (f & Ef & Hok). destruct (represents_table (core t) items Ht Hne) as (_ & Hh & b & fb & _ & Eb & _).
  destruct (bloom_test_ok f items k Hok Hk) as (v & Ev & Hv). pose proof E as E'. unfold UtHash.HASH_FIND in E'.
  rewrite (proj2 (Z.eqb_neq _ 0) Hh), Eb in E' |- *. destruct (hash_of_spec k r Hk) as [Eh _]. rewrite Eh in E' |- *.
  cbn [res_bind] in E' |- *. unfold tbl_bloom. rewrite Ef. cbn [res_bind]. rewrite Ev. cbn [res_bind].
  bdestruct (v =? 0); [|by rewrite E', E]. rewrite E. destruct Hq as [[-> _]|[_ Hq]]; [done|]. by apply Hv in Hq.
Qed.

(** ** Lemmas: adding *)
(** both sides go on with the same first step *)
Ltac first_step m := lazymatch m with res_bind ?m' _ => first_step m' | _ => destruct m as [?|?|?]; cbn [res_bind]; [|done..] end.
Ltac same_steps := repeat lazymatch goal with
  | |- res_bind ?m _ = _ => first_step m
  | |- (let (_, _) := ?x in _) = _ => destruct x as [? ?]
  end.

(** the table of the macros without the filter, and then the bit *)
Lemma add_nonempty t f key n a : hd (core t) <> 0 -> filter_ t = Some f ->
  HASH_ADD_KEYPTR malloc_ok HASH_BLOOM t key n a =
  let* c := UtHash.HASH_ADD malloc_ok (core t) key n a in
  let* h := HASH_FCN key n in
  let* f := HASH_BLOOM_ADD f h in
  Ok (mk_bhash c (Some f)).
Proof.
  intros Hh Hf. unfold HASH_ADD_KEYPTR, UtHash.HASH_ADD, UtHash.HASH_ADD_KEYPTR, tbl_bloom. rewrite Hf, (proj2 (Z.eqb_neq _ 0) Hh).
  cbn [res_bind]. by same_steps.
Qed.

(** the table without the filter is smaller *)
Definition malloc_table (sz : Z) : bool := (sz =? sizeof_UT_hash_table) || malloc_ok sz.

Lemma malloc_table_bound n : malloc_table n = true -> n < 2 ^ 35.
Proof. intros [->%Z.eqb_eq|H%Hmalloc]%orb_true_iff; [done|done]. Qed.

Lemma add_to_bkt_same b m j a : num_buckets b = 32 -> HASH_ADD_TO_BKT malloc_ok b m j a = HASH_ADD_TO_BKT malloc_table b m j a.
Proof.
  intros Hb. unfold HASH_ADD_TO_BKT. same_steps. destruct (_ && _); [|done].
  unfold HASH_EXPAND_BUCKETS. cbn [set_buckets num_buckets]. by rewrite Hb.
Qed.

Lemma add_empty t key n a : hd (core t) = 0 -> allocated (mem (core t)) a ->
  let fresh := mk_bloom (to_char HASH_BLOOM) (replicate (Z.to_nat (HASH_BLOOM_BYTELEN HASH_BLOOM)) 0) in
  HASH_ADD_KEYPTR malloc_ok HASH_BLOOM t key n a = Exit (-1) \/
  HASH_ADD_KEYPTR malloc_ok HASH_BLOOM t key n a =
  let* c := UtHash.HASH_ADD malloc_table (core t) key n a in
  let* h := HASH_FCN key n in
  let* f := HASH_BLOOM_ADD fresh h in
  Ok (mk_bhash c (Some f)).
Proof.
  intros Hh (Ha & Hap & Han & Hahp & Hahn & Hak & Hakl & Hah) fresh.
  unfold HASH_ADD_KEYPTR, UtHash.HASH_ADD, UtHash.HASH_ADD_KEYPTR, HASH_MAKE_TABLE, UtHash.HASH_MAKE_TABLE, HASH_BLOOM_MAKE, uthash_malloc.
  rewrite Hh. cbn [Z.eqb]. unfold set_next, set_key, set_keylen, set_prev. rewrite st_Ok by done. cbn [res_bind UtHash.key].
  rewrite st_Ok by done. cbn [res_bind UtHash.keylen]. rewrite st_Ok by done. cbn [res_bind prev]. rewrite st_Ok by done. cbn [res_bind].
  destruct (malloc_ok sizeof_bloom_table); [|by left]. cbn [res_bind]. destruct (malloc_ok (HASH_INITIAL_NUM_BUCKETS * _)) eqn:E2; [|by left].
  cbn [res_bind]. destruct (malloc_ok (HASH_BLOOM_BYTELEN HASH_BLOOM)); [|by left]. cbn [res_bind]. right.
  unfold malloc_table at 1 2. rewrite E2. cbn [Z.eqb Pos.eqb orb sizeof_UT_hash_table res_bind]. rewrite orb_true_r. cbn [res_bind].
  destruct (HASH_FCN key n) as [h|?|?]; cbn [res_bind]; [|done..]. destruct (set_hashv _ a h) as [m|?|?]; cbn [res_bind]; [|done..].
  rewrite add_to_bkt_same by done. by same_steps.
Qed.

Lemma fresh_ok : bloom_ok (mk_bloom (to_char HASH_BLOOM) (replicate (Z.to_nat (HASH_BLOOM_BYTELEN HASH_BLOOM)) 0)) [].
Proof.
  constructor; cbn [bloom_nbits bloom_bv].
  - unfold to_char. apply wrap_s_small; lia.
  - rewrite zlen_replicate. pose proof bytelen_nonneg. lia.
  - by intros p k ?%not_elem_of_nil.
Qed.

(** what an operation leaves *)
Definition bloom_result (t : bhash) (items : list item) (r : res (bhash * ptr)) (items' : list item) (p : ptr) : Prop :=
  r = Exit (-1) \/
  exists t', r = Ok (t', p) /\ filtered t' items' /\ forall q, allocated (mem (core t)) q -> allocated (mem (core t')) q.

Lemma add_result t items a k r :
  filtered t items -> allocated (mem (core t)) a -> a ∉ ptrs items -> zlen k < 2 ^ 32 -> (k ∉ (snd <$> items)) -> zlen items + 1 < 2 ^ 32 ->
  bloom_result t items (let* t := HASH_ADD_KEYPTR malloc_ok HASH_BLOOM t (k ++ r) (zlen k) a in Ok (t, 0)) (items ++ [(a, k)]) 0.
Proof.
  intros [[Ht Hn] Hf] Hal Ha Hk Hnk Hlt. destruct (hash_of_spec k r Hk) as [Eh _].
  assert (forall malloc f its, (forall n, malloc n = true -> n < 2 ^ 35) -> bloom_ok f items -> its = items ->
    bloom_result t items (let* t := (let* c := UtHash.HASH_ADD malloc (core t) (k ++ r) (zlen k) a in
      let* h := HASH_FCN (k ++ r) (zlen k) in let* f := HASH_BLOOM_ADD f h in Ok (mk_bhash c (Some f))) in Ok (t, 0)) (its ++ [(a, k)]) 0) as G.
  { intros malloc f its Hm Hfo ->. destruct (add_ok malloc Hm (core t) items a k r Ht Hal Ha Hk Hlt) as [->|(c & -> & Hc & Hal')]; [by left|].
    cbn [res_bind]. rewrite Eh. cbn [res_bind]. destruct (bloom_add_ok f items a k Hfo Hk) as (f' & -> & Hf').
    right. eexists. split; [done|]. split; [|done]. split; [split; [done|by apply snoc_keys]|]. intros _. by exists f'. }
  destruct (decide (items = [])) as [->|Hne].
  - destruct (add_empty t (k ++ r) (zlen k) a) as [->| ->]; [by destruct Ht|done|by left|].
    apply G; [apply malloc_table_bound|apply fresh_ok|done].
  - destruct (Hf Hne) as (f & Ef & Hfo). rewrite (add_nonempty t f) by (done || by eapply represents_table). by apply G.
Qed.

(** the links of an element: both are null only if there is no other *)
Lemma represents_links t items p k : represents t items -> (p, k) ∈ items ->
  exists q n, ld (prev (mem t)) p = Ok q /\ ld (next (mem t)) p = Ok n /\ ((q =? 0) && (n =? 0) = true -> remove_ptr items p = []).
Proof.
  intros Ht (l1 & l2 & E)%list_elem_of_split. pose proof (represents_nodup t items Ht) as Hnd. pose proof E as E'. subst items.
  destruct (represents_table t _ Ht) as (_ & _ & b & f & _ & _ & Hok); [by destruct l1|].
  destruct (dll_mid_links _ _ _ _ _ _ _ Hok) as (Hp0 & Ep & En & _). destruct (null_ends _ _ _ _ _ _ _ Hok) as [Hq0 Hn0].
  eexists _, _. split; [by apply ld_Ok|]. split; [by apply ld_Ok|]. intros [Eq En']%andb_true_iff. apply Z.eqb_eq in Eq, En'.
  rewrite (remove_ptr_split _ l1 p k l2 eq_refl Hnd). apply Hq0 in Eq as ->. by apply Hn0 in En' as ->.
Qed.

(** the elements that are left keep their bits *)
Lemma bloom_ok_incl f items items' : items' ⊆ items -> bloom_ok f items -> bloom_ok f items'.
Proof. intros Hi [H1 H2 H3]. constructor; [done|done|]. intros p k H. apply (H3 p). by apply Hi. Qed.

Lemma delete_result t items p k :
  filtered t items -> (p, k) ∈ items ->
  remove_key items k = remove_ptr items p /\
  exists t', HASH_DELETE t p = Ok t' /\ filtered t' (remove_ptr items p) /\ forall q, allocated (mem (core t)) q -> allocated (mem (core t')) q.
Proof.
  intros [[Ht Hn] Hf] Hp. destruct (remove_step (core t) items p k Ht Hn Hp) as (E & c & Ec & Hc & Hal). split; [done|].
  unfold HASH_DELETE. rewrite Ec. destruct (represents_links (core t) items p k Ht Hp) as (q & n & -> & -> & Hends). cbn [res_bind].
  eexists. split; [done|]. split; [|done]. split; [split; [done|by apply filter_keys]|]. cbn [core filter_]. intros Hne.
  destruct ((q =? 0) && (n =? 0)) eqn:Eb; [by rewrite (Hends eq_refl) in Hne|].
  destruct (Hf ltac:(intros ->; by apply not_elem_of_nil in Hp)) as (f & Ef & Hfo). exists f. split; [done|].
  eapply bloom_ok_incl; [|exact Hfo]. intros x Hx. by apply list_elem_of_filter in Hx as [_ Hx].
Qed.

Lemma replace_result t items a k r :
  filtered t items -> allocated (mem (core t)) a -> a ∉ ptrs items -> zlen k < 2 ^ 32 -> zlen items + 1 < 2 ^ 32 ->
  bloom_result t items (HASH_REPLACE malloc_ok HASH_BLOOM t (k ++ r) (zlen k) a) (remove_key items k ++ [(a, k)]) (lookup_key items k).
Proof.
  intros Hti Hal Ha Hk Hlt. pose proof Hti as [[Ht Hn] Hf]. unfold HASH_REPLACE. rewrite (find_same t items) by done.
  destruct (find_step (core t) items k r Ht Hn Hk) as [-> Hq]. cbn [res_bind]. set (q := lookup_key items k) in *.
  assert (exists t', (if q =? 0 then Ok t else HASH_DELETE t q) = Ok t' /\ filtered t' (remove_key items k) /\
    forall p, allocated (mem (core t)) p -> allocated (mem (core t')) p) as (t' & -> & Ht' & Hal').
  { destruct Hq as [[-> Hq]|[Hq Hin]].
    - exists t. rewrite remove_key_absent; [done|]. intros p Hp. apply Hq. apply (list_elem_of_fmap_2 snd _ _ Hp).
    - rewrite (proj2 (Z.eqb_neq q 0) Hq). destruct (delete_result t items q k Hti Hin) as (-> & t' & ? & ? & ?). by exists t'. }
  assert (k ∉ (snd <$> remove_key items k)) as Hnk.
  { intros (x & Ek & Hx)%list_elem_of_fmap. by apply list_elem_of_filter in Hx as [? _]. }
  cbn [res_bind]. destruct (add_result t' (remove_key items k) a k r Ht' (Hal' _ Hal)) as [E|(t'' & E & Ht'' & Hal'')]; try done.
  - intros ([x k'] & -> & Hx)%list_elem_of_fmap. apply list_elem_of_filter in Hx as [_ Hx]. apply Ha. by apply (list_elem_of_fmap_2 fst _ _ Hx).
  - pose proof (zlen_filter (fun it => it.2 <> k) items). unfold remove_key. lia.
  - left. by destruct (HASH_ADD_KEYPTR _ _ _ _ _ _).
  - right. exists t''. destruct (HASH_ADD_KEYPTR _ _ _ _ _ _); [|done..]. injection E as ->. cbn [res_bind]. auto.
Qed.

Lemma bloom_step_refines t items op m :
  filtered t items -> (forall q, allocated m q -> allocated (mem (core t)) q) -> op_ok m items op ->
  bloom_result t items (bloom_step malloc_ok HASH_BLOOM t op) (spec_step items op).1 (spec_step items op).2.
Proof.
  intros Ht Hm Hop. destruct op as [s|a s|p|a s]; cbn [op_ok] in Hop; cbn [bloom_step spec_step fst snd].
  - destruct Hop as (k & Hs & Hk). destruct (str_of_Ok s k Hs) as (-> & Hnn & r & ->). rewrite strlen_app by done. cbn [res_bind].
    rewrite (find_same t items) by done. destruct (find_step (core t) items k (0 :: r)) as [-> _]; [by apply Ht..|done|].
    right. by exists t.
  - destruct Hop as ((k & Hs & Hk) & Ha & Hna & Hnk & Hlt). destruct (str_of_Ok s k Hs) as (E & Hnn & r & ->). rewrite E in Hnk |- *.
    rewrite strlen_app by done. cbn [res_bind]. apply add_result; auto.
  - apply elem_ptrs in Hop as [k Hp]. destruct (delete_result t items p k Ht Hp) as (_ & t' & -> & ? & ?). right. by exists t'.
  - destruct Hop as ((k & Hs & Hk) & Ha & Hna & Hlt). destruct (str_of_Ok s k Hs) as (-> & Hnn & r & ->).
    rewrite strlen_app by done. cbn [res_bind]. apply replace_result; auto.
Qed.

Lemma bloom_run_ok t items ops m :
  filtered t items -> (forall q, allocated m q -> allocated (mem (core t)) q) -> ops_ok m items ops ->
  bloom_run malloc_ok HASH_BLOOM t ops = Exit (-1) \/
  exists t', bloom_run malloc_ok HASH_BLOOM t ops = Ok (t', (spec_run items ops).2) /\ filtered t' (spec_run items ops).1.
Proof.
  revert t items. induction ops as [|op ops IH]; intros t items Ht Hm Hops; [right; by exists t|].
  destruct Hops as [Hop Hops]. cbn [bloom_run spec_run].
  destruct (bloom_step_refines t items op m Ht Hm Hop) as [->|(t' & -> & Ht' & Hal)]; [by left|]. cbn [res_bind].
  destruct (spec_step items op) as [items' p]. cbn [fst snd] in *.
  destruct (IH t' items' Ht') as [->|(t'' & -> & Ht'')]; [auto|done|by left|]. right. exists t''.
  by destruct (spec_run items' ops) as [items'' ps].
Qed.

(** ** Properties *)
(** C10: The Bloom filter changes nothing that is found.  With a filter of 2^n
    bits, n < 64, every sequence of finds, additions, deletions and replacements
    assigns the pointers that the same sequence assigns on the list of the
    elements, and so those of the table without a filter, and leaves a table
    that represents the list, in whose filter each element has its bit: the bits
    are always in the vector, and a bit that is not set excludes the key. *)
Theorem bloom_run_refines t items ops :
  filtered t items -> ops_ok (mem (core t)) items ops ->
  (bloom_run malloc_ok HASH_BLOOM t ops = Exit (-1) \/
   exists t', bloom_run malloc_ok HASH_BLOOM t ops = Ok (t', (spec_run items ops).2) /\ filtered t' (spec_run items ops).1) /\
  (hash_run malloc_ok (core t) ops = Exit (-1) \/
   exists t'', hash_run malloc_ok (core t) ops = Ok (t'', (spec_run items ops).2)).
Proof.
  intros Ht Hops. split; [by apply (bloom_run_ok t items ops (mem (core t)))|].
  destruct (run_refines malloc_ok Hmalloc (core t) items ops) as [E|(t'' & E & _)]; [apply Ht|done|by left|].
  right. by exists t''.
Qed.
End refine.

#[local] Instance default_fcn : HashFcn := HASH_JEN.
#[local] Instance default_laws : HashFcnLaws default_fcn := jen_laws.

Lemma bloom_run_refines_witness :
  (bloom_run malloc0 3 (mk_bhash hash0 None) ops0 = Exit (-1) \/
   exists t', bloom_run malloc0 3 (mk_bhash hash0 None) ops0 = Ok (t', [0; 0; 200; 100; 0; 0]) /\ filtered 3 t' [(300, str "alice")]) /\
  (hash_run malloc0 hash0 ops0 = Exit (-1) \/ exists t'', hash_run malloc0 hash0 ops0 = Ok (t'', [0; 0; 200; 100; 0; 0])).
Proof.
  apply (bloom_run_refines malloc0 malloc0_bound 3 ltac:(split; [discriminate|reflexivity]) (mk_bhash hash0 None) [] ops0);
    [split; [apply hash0_ok|intros H; by destruct H]|apply hash0_ok].
Defined.

(** What is emitted can be read back: the keys in the order of their additions,
    for any bytes behind them in memory. *)
Theorem emitted_keys_read keys :
  Forall (fun kr => zlen kr.1 < 2 ^ 32) keys ->
  exists stream, emit_all (map (fun kr => (kr.1 ++ kr.2, zlen kr.1)) keys) = Ok stream /\
    read_keys (length stream) stream = Some (map fst keys).
Proof.
  intros H. assert (exists stream, emit_all (map (fun kr => (kr.1 ++ kr.2, zlen kr.1)) keys) = Ok stream /\
    forall fuel, (length stream <= fuel)%nat -> read_keys fuel stream = Some (map fst keys)) as (stream & E & Hr).
  { induction H as [|[k r] keys Hk _ (stream & E & IH)]; [exists []; split; [done|]; by intros []|]. cbn [map emit_all fst snd] in *.
    unfold HASH_EMIT_KEY. rewrite slice_prefix by done. cbn [res_bind]. rewrite E. cbn [res_bind]. eexists. split; [done|].
    pose proof (zlen_nonneg k). rewrite u32_id by done. assert (length (le 4 (zlen k)) = 4%nat) as L4 by done.
    assert (length ((le 4 (zlen k) ++ k) ++ stream) = 4 + length k + length stream)%nat as Ls by (by rewrite !length_app, L4).
    assert (take 4 ((le 4 (zlen k) ++ k) ++ stream) = le 4 (zlen k)) as E1 by done.
    assert (drop 4 ((le 4 (zlen k) ++ k) ++ stream) = k ++ stream) as E2 by done.
    intros fuel Hf. destruct (_ ++ stream) as [|b s]; [done|]. destruct fuel as [|fuel]; [lia|]. cbn [read_keys].
    rewrite E1, le_val_le, Z.mod_small by (cbn; lia). rewrite E2. unfold zlen at 1 2 3. rewrite Nat2Z.id, take_app_length.
    unfold zlen. rewrite Z.eqb_refl, (proj2 (Nat.ltb_ge _ _)) by lia. cbn [orb negb].
    rewrite Nat2Z.id, take_app_length, <- drop_drop, E2, drop_app_length, IH by lia. done. }
  exists stream. split; [done|]. by apply Hr.
Qed.

Lemma emitted_keys_read_witness :
  exists stream, emit_all [(str "bob" ++ [0], 3); (str "alice" ++ [0], 5)] = Ok stream /\
    read_keys (length stream) stream = Some [str "bob"; str "alice"].
Proof. apply (emitted_keys_read [(str "bob", [0]); (str "alice", [0])]). by repeat constructor. Defined.

(** a filter of eight bits with one of them set: the hashes 2 and 10 pass it *)
Example bloom_bits :
  HASH_BLOOM_TEST (mk_bloom 3 [4]) 2 = Ok 4 /\ HASH_BLOOM_TEST (mk_bloom 3 [4]) 10 = Ok 4 /\ HASH_BLOOM_TEST (mk_bloom 3 [4]) 3 = Ok 0.
Proof. done. Qed.
