(* ===== verification/UtHashSort.v ===== *)
(** * Sorting a hash of uthash (src/examples/p2p-chat-example/uthash.h, lines 715-804)

    HASH_SRT is a bottom-up merge sort of the list of the elements in app order:
    runs of [_hs_insize] elements are merged in pairs, and the size is doubled
    until there is one run left.  [cmpfcn] compares the contents of two elements,
    which sorting does not change.  Each loop takes one more than the number of
    elements in the heap as fuel.  The reference is [isort], a stable insertion
    sort of the list of elements. *)
From Stdlib Require Import ZArith Lia Bool String.
From stdpp Require Import base numbers option list gmap sorting.
From S2P Require Import Prelude CStr HashFcns UtHash LinkedList UtHashSpec UtHashRefine.

Section sort.
Variable cmpfcn : ptr -> ptr -> Z.

(** the [for] loop that looks for the second run, [n] rounds before its end:
    [_hs_q] and [_hs_psize] *)
Fixpoint srt_skip (n : nat) (m : heap) (_hs_q : ptr) (_hs_psize : Z) : res (ptr * Z) :=
  match n with
  | O => Ok (_hs_q, _hs_psize)
  | S n =>
      let _hs_psize := u32 (_hs_psize + 1) in
      let* _hs_q := ld (next m) _hs_q in
      if _hs_q =? 0 then Ok (_hs_q, _hs_psize) else srt_skip n m _hs_q _hs_psize
  end.

(** the element to take next, and the runs without it *)
Definition srt_take (m : heap) (_hs_p : ptr) (_hs_psize : Z) (_hs_q : ptr) (_hs_qsize : Z) : res (ptr * (ptr * Z) * (ptr * Z)) :=
  let from_p := let* p := (if _hs_p =? 0 then Ok _hs_p else ld (next m) _hs_p) in
                Ok (_hs_p, (p, u32 (_hs_psize - 1)), (_hs_q, _hs_qsize)) in
  let from_q := let* q := ld (next m) _hs_q in Ok (_hs_q, (_hs_p, _hs_psize), (q, u32 (_hs_qsize - 1))) in
  if _hs_psize =? 0 then from_q
  else if (_hs_qsize =? 0) || (_hs_q =? 0) then from_p
  else if cmpfcn _hs_p _hs_q <=? 0 then from_p
  else from_q.

(** the element [_hs_e] is put at the end of the result *)
Definition srt_put (m : heap) (_hs_e _hs_list _hs_tail : ptr) : res (heap * ptr) :=
  let* (m, _hs_list) := (if negb (_hs_tail =? 0) then let* m := set_next m _hs_tail _hs_e in Ok (m, _hs_list) else Ok (m, _hs_e)) in
  let* m := (if negb (_hs_e =? 0) then set_prev m _hs_e _hs_tail else Ok m) in
  Ok (m, _hs_list).

(** the [while] loop that merges two runs *)
Fixpoint srt_merge (fuel : nat) (m : heap) (_hs_p : ptr) (_hs_psize : Z) (_hs_q : ptr) (_hs_qsize : Z) (_hs_list _hs_tail : ptr)
    : res (heap * ptr * ptr * ptr) :=
  match fuel with
  | O => Fault NoFuel
  | S fuel =>
      if (0 <? _hs_psize) || ((0 <? _hs_qsize) && negb (_hs_q =? 0)) then
        let* (_hs_e, (_hs_p, _hs_psize), (_hs_q, _hs_qsize)) := srt_take m _hs_p _hs_psize _hs_q _hs_qsize in
        let* (m, _hs_list) := srt_put m _hs_e _hs_list _hs_tail in
        srt_merge fuel m _hs_p _hs_psize _hs_q _hs_qsize _hs_list _hs_e
      else Ok (m, _hs_q, _hs_list, _hs_tail)
  end.

(** the [while (_hs_p)] loop: one pass over the list *)
Fixpoint srt_pass (fuel : nat) (m : heap) (_hs_insize : Z) (_hs_p _hs_list _hs_tail : ptr) (_hs_nmerges : Z)
    : res (heap * ptr * ptr * Z) :=
  match fuel with
  | O => Fault NoFuel
  | S fuel' =>
      if _hs_p =? 0 then Ok (m, _hs_list, _hs_tail, _hs_nmerges)
      else
        let _hs_nmerges := u32 (_hs_nmerges + 1) in
        let* (_hs_q, _hs_psize) := srt_skip (Z.to_nat _hs_insize) m _hs_p 0 in
        let* (m, _hs_q, _hs_list, _hs_tail) := srt_merge (S (size (next m))) m _hs_p _hs_psize _hs_q _hs_insize _hs_list _hs_tail in
        srt_pass fuel' m _hs_insize _hs_q _hs_list _hs_tail _hs_nmerges
  end.

(** the [while (_hs_looping)] loop: the heap, the first and the last element *)
Fixpoint srt_loop (fuel : nat) (m : heap) (_hs_list : ptr) (_hs_insize : Z) : res (heap * ptr * ptr) :=
  match fuel with
  | O => Fault NoFuel
  | S fuel =>
      let* (m, _hs_list, _hs_tail, _hs_nmerges) := srt_pass (S (size (next m))) m _hs_insize _hs_list 0 0 0 in
      let* m := (if negb (_hs_tail =? 0) then set_next m _hs_tail 0 else Ok m) in
      if _hs_nmerges <=? 1 then Ok (m, _hs_list, _hs_tail)
      else srt_loop fuel m _hs_list (u32 (_hs_insize * 2))
  end.

Definition HASH_SRT (t : hash) : res hash :=
  if hd t =? 0 then Ok t
  else
    let* b := head_tbl t in
    let* (m, list, tail) := srt_loop (S (size (next (mem t)))) (mem t) (hd t) 1 in
    Ok (mk_hash list (Some (set_tail b tail)) m).
End sort.

(** ** The reference: stable insertion sort *)
Section reference.
Context {A : Type} (le : A -> A -> bool).

(** in front of the first element that is not less *)
Fixpoint insert_le (x : A) (l : list A) : list A :=
  match l with
  | [] => [x]
  | y :: l' => if le x y then x :: l else y :: insert_le x l'
  end.

Fixpoint isort (l : list A) : list A := match l with [] => [] | x :: l => insert_le x (isort l) end.

(** the merge of two runs, the first one first among equals *)
Fixpoint merge_le (a : list A) {struct a} : list A -> list A :=
  match a with
  | [] => fun b => b
  | x :: a' =>
      fix go (b : list A) : list A :=
        match b with
        | [] => x :: a'
        | y :: b' => if le x y then x :: merge_le a' b else y :: go b'
        end
  end.

Lemma merge_le_nil a : merge_le a [] = a.
Proof. by destruct a. Qed.

Lemma merge_le_cons x a y b :
  merge_le (x :: a) (y :: b) = if le x y then x :: merge_le a (y :: b) else y :: merge_le (x :: a) b.
Proof. done. Qed.

Lemma insert_le_perm x l : insert_le x l ≡ₚ x :: l.
Proof. induction l as [|y l IH]; [done|]. cbn. destruct (le x y); [done|]. rewrite IH. by apply Permutation_swap. Qed.

Lemma isort_perm l : isort l ≡ₚ l.
Proof. induction l as [|x l IH]; [done|]. cbn. by rewrite insert_le_perm, IH. Qed.

Lemma merge_le_perm a : forall b, merge_le a b ≡ₚ a ++ b.
Proof.
  induction a as [|x a IHa]; intros b; [done|]. induction b as [|y b IHb]; [by rewrite merge_le_nil, app_nil_r|].
  rewrite merge_le_cons. destruct (le x y); [by rewrite IHa|]. rewrite IHb. by apply Permutation_middle.
Qed.

Hypothesis le_total : forall x y, le x y = true \/ le y x = true.
Hypothesis le_trans : forall x y z, le x y = true -> le y z = true -> le x z = true.

Lemma isort_sorted l : StronglySorted (fun x y => le x y = true) (isort l).
Proof.
  induction l as [|x l IH]; [constructor|]. cbn. induction IH as [|y l' Hs IH Hy]; cbn; [repeat constructor|].
  destruct (le x y) eqn:E.
  - constructor; [by constructor|]. constructor; [done|]. eapply Forall_impl; [exact Hy|]. intros z Hz. by eapply le_trans.
  - constructor; [done|]. rewrite insert_le_perm. constructor; [|done]. destruct (le_total x y); congruence.
Qed.

Lemma insert_merge x a : forall b, merge_le (insert_le x a) b = insert_le x (merge_le a b).
Proof.
  induction a as [|z a IHa]; intros b.
  - cbn [insert_le]. induction b as [|y b IHb]; [done|]. rewrite merge_le_cons, IHb. done.
  - induction b as [|y b IHb]; [by rewrite !merge_le_nil|]. cbn [insert_le] in IHb |- *. rewrite merge_le_cons.
    destruct (le x z) eqn:Exz; rewrite merge_le_cons; destruct (le z y) eqn:Ezy; cbn [insert_le].
    + rewrite (le_trans x z y), Exz, merge_le_cons, Ezy by done. done.
    + destruct (le x y); [by rewrite merge_le_cons, Ezy|]. by rewrite IHb.
    + rewrite Exz. f_equal. apply IHa.
    + destruct (le x y) eqn:Exy; [|by rewrite IHb]. exfalso.
      destruct (le_total y z) as [H|H]; [|congruence]. by rewrite (le_trans x y z) in Exz.
Qed.

Lemma isort_app a b : isort (a ++ b) = merge_le (isort a) (isort b).
Proof. induction a as [|x a IH]; [done|]. cbn [app isort]. by rewrite IH, insert_merge. Qed.

(** elements that are equal for the order stay in their order *)
Lemma isort_stable x l :
  filter (fun y => le x y = true /\ le y x = true) (isort l) = filter (fun y => le x y = true /\ le y x = true) l.
Proof.
  induction l as [|y l IH]; [done|]. cbn [isort].
  assert (forall k, filter (fun y => le x y = true /\ le y x = true) (insert_le y k) =
    filter (fun y => le x y = true /\ le y x = true) (y :: k)) as H; [|by rewrite H, !filter_cons, IH].
  clear IH. intros k. induction k as [|z k IH]; [done|]. cbn [insert_le]. destruct (le y z) eqn:E; [done|].
  rewrite filter_cons, IH, !filter_cons. destruct (decide (le x z = true /\ le z x = true)) as [[H1 H2]|], (decide (le x y = true /\ le y x = true)) as [[H3 H4]|]; try done.
  by rewrite (le_trans y x z) in E.
Qed.

(** ** Runs: [L] is the list [l] with each of its runs of [s] elements sorted *)
Inductive runs (s : nat) : list A -> list A -> Prop :=
  | runs_nil : runs s [] []
  | runs_app a l L :
      a <> [] -> (length a <= s)%nat -> (length a = s \/ l = []) -> runs s l L -> runs s (a ++ l) (isort a ++ L).

(** one pass, and the number of its merges *)
Inductive pass (s : nat) : list A -> list A -> nat -> Prop :=
  | pass_nil : pass s [] [] 0
  | pass_app L L' k :
      L <> [] -> pass s (drop s (drop s L)) L' k ->
      pass s L (merge_le (take s L) (take s (drop s L)) ++ L') (S k).

Lemma runs_one l : runs 1 l l.
Proof. induction l as [|x l IH]; [constructor|]. by apply (runs_app 1 [x] l l); [..|left|]. Qed.

Lemma runs_perm s l L : runs s l L -> L ≡ₚ l.
Proof. induction 1 as [|a l L _ _ _ _ IH]; [done|]. by rewrite isort_perm, IH. Qed.

Lemma runs_sorted s l L : runs s l L -> (length l <= s)%nat -> L = isort l.
Proof.
  destruct 1 as [|a l L Ha _ Hl Hr]; [done|]. rewrite length_app. intros Hs.
  assert (l = []) as -> by (destruct Hl; [|done]; apply nil_length_inv; lia).
  apply runs_perm, Permutation_nil_r in Hr as ->. by rewrite !app_nil_r.
Qed.

(** the first run of a list of runs *)
Lemma runs_inv s l L :
  runs s l L -> L <> [] ->
  exists a l' L', l = a ++ l' /\ a <> [] /\ (length a <= s)%nat /\ (length a = s \/ l' = []) /\ runs s l' L' /\
    take s L = isort a /\ drop s L = L'.
Proof.
  destruct 1 as [|a l L Ha Hs Hl Hr]; [done|]. intros _. exists a, l, L. repeat (split; [done|]).
  pose proof (Permutation_length (isort_perm a)) as E. destruct Hl as [Hl| ->].
  - by rewrite take_app_length', drop_app_length' by lia.
  - apply runs_perm in Hr. apply Permutation_nil_r in Hr as ->. rewrite app_nil_r, take_ge, drop_ge by lia. done.
Qed.

Lemma pass_runs s L L' k : pass s L L' k -> forall l, runs s l L -> runs (2 * s) l L'.
Proof.
  induction 1 as [|L L' k HL HP IH]; intros l Hr.
  - pose proof (runs_perm s l [] Hr) as E. apply Permutation_nil_l in E as <-. constructor.
  - destruct (runs_inv s l L Hr HL) as (a & l1 & L1 & -> & Ha & Hla & Hl1 & Hr1 & Et & Ed). rewrite Et, Ed in *.
    destruct (decide (L1 = [])) as [->|HL1].
    + pose proof (runs_perm s l1 [] Hr1) as E. apply Permutation_nil_l in E as <-. rewrite take_nil, merge_le_nil.
      apply runs_app; [done|lia|by right|]. apply IH. rewrite !drop_nil. constructor.
    + destruct (runs_inv s l1 L1 Hr1 HL1) as (b & l2 & L2 & -> & Hb & Hlb & Hl2 & Hr2 & Et2 & Ed2). rewrite Et2, Ed2 in *.
      rewrite <- isort_app, app_assoc. apply runs_app.
      * by intros [? _]%app_nil.
      * rewrite length_app. lia.
      * rewrite length_app. destruct Hl1 as [Hl1|[? _]%app_nil]; [|done]. destruct Hl2; [left; lia|by right].
      * by apply IH.
Qed.

Lemma pass_count s L L' k : pass s L L' k -> ((k <= 1)%nat <-> (length L <= 2 * s)%nat).
Proof.
  destruct 1 as [|L L' k HL HP]; [cbn; lia|]. rewrite drop_drop in HP.
  destruct (drop (s + s) L) as [|x L2] eqn:E; pose proof (f_equal length E) as El; rewrite length_drop in El; cbn in El.
  - inversion HP; [lia|done].
  - inversion HP; subst; lia.
Qed.

Lemma pass_perm s L L' k : pass s L L' k -> L' ≡ₚ L.
Proof.
  induction 1 as [|L L' k HL HP IH]; [done|]. rewrite merge_le_perm, IH, <- app_assoc, (take_drop s (drop s L)). by rewrite take_drop.
Qed.
End reference.

(** ** The links *)
(** [l] is linked by [nx], its last element to [nn] *)
Fixpoint sseg (nx : gmap ptr ptr) (l : list ptr) (nn : ptr) : Prop :=
  match l with
  | [] => True
  | p :: l => p <> 0 /\ nx !! p = Some (hdp l nn) /\ sseg nx l nn
  end.

Lemma lseg_split nx l l' : lseg nx (l ++ l') <-> sseg nx l (hdp l' 0) /\ lseg nx l'.
Proof. induction l as [|p l IH]; [cbn; tauto|]. cbn [app lseg sseg]. rewrite IH, hdp_app. tauto. Qed.

Lemma sseg_frame nx l nn q v : q ∉ l -> sseg nx l nn -> sseg (<[q := v]> nx) l nn.
Proof.
  induction l as [|p l IH]; [done|]. intros [Hq Hl]%not_elem_of_cons (? & ? & ?). cbn [sseg].
  rewrite lookup_insert_ne by done. auto.
Qed.

Lemma lseg_insert nx l q v : q ∉ l -> lseg nx l -> lseg (<[q := v]> nx) l.
Proof. intros Hq. apply lseg_frame. intros p Hp. apply lookup_insert_ne. congruence. Qed.

(** The elements of [D] are linked both ways, up to the end; [P] is a run and [Q]
    the rest of the list. *)
Record merging (m : heap) (D P Q : list ptr) : Prop := {
  mg_nodup : NoDup (D ++ P ++ Q);
  mg_done : exists nn, dseg (next m) (prev m) 0 D nn;
  mg_run : exists nn, sseg (next m) P nn;
  mg_rest : lseg (next m) Q;
  mg_prev : forall x, x ∈ P ++ Q -> is_Some (prev m !! x) }.

(** nothing but the links in app order of the elements of [l] is changed *)
Record relinked (l : list ptr) (m m' : heap) : Prop := {
  rl_data : hh_prev m' = hh_prev m /\ hh_next m' = hh_next m /\ key m' = key m /\ keylen m' = keylen m /\ hashv m' = hashv m;
  rl_size : size (next m') = size (next m);
  rl_frame : forall x, x ∉ l -> next m' !! x = next m !! x /\ prev m' !! x = prev m !! x }.

Lemma relinked_refl l m : relinked l m m.
Proof. by split. Qed.

Lemma relinked_trans l m m' m'' : relinked l m m' -> relinked l m' m'' -> relinked l m m''.
Proof.
  intros [(H1 & H2 & H3 & H4 & H5) Hs Hf] [(H1' & H2' & H3' & H4' & H5') Hs' Hf']. split; [by rewrite H1', H2', H3', H4', H5'|congruence|].
  intros x Hx. destruct (Hf x Hx) as [<- <-]. by apply Hf'.
Qed.

Lemma relinked_perm l l' m m' : l ≡ₚ l' -> relinked l m m' -> relinked l' m m'.
Proof. intros E [? ? Hf]. split; [done|done|]. intros x Hx. apply Hf. by rewrite E. Qed.

Lemma lseg_not_null nx l p : lseg nx l -> p ∈ l -> p <> 0.
Proof.
  induction l as [|q l IH]; [by intros _ ?%not_elem_of_nil|]. intros (? & _ & ?) [->|?]%elem_of_cons; auto.
Qed.

Lemma dseg_is_Some nx pv pp l nn p : dseg nx pv pp l nn -> p ∈ l -> is_Some (nx !! p).
Proof.
  revert pp. induction l as [|q l IH]; intros pp; [by intros _ ?%not_elem_of_nil|].
  intros (? & _ & E & H) [->|?]%elem_of_cons; [by rewrite E|by eapply IH].
Qed.

Lemma dseg_prev_Some nx pv pp l nn p : dseg nx pv pp l nn -> p ∈ l -> is_Some (pv !! p).
Proof.
  revert pp. induction l as [|q l IH]; intros pp; [by intros _ ?%not_elem_of_nil|].
  intros (_ & E & _ & H) [->|?]%elem_of_cons; [by rewrite E|by eapply IH].
Qed.

(** the heap after [srt_put] *)
Definition put_heap (m : heap) (e tail : ptr) : heap :=
  mk_heap (<[e := tail]> (prev m)) (if tail =? 0 then next m else <[tail := e]> (next m))
    (hh_prev m) (hh_next m) (key m) (keylen m) (hashv m).

Lemma put_ok m D e R v nn :
  NoDup (D ++ e :: R) -> dseg (next m) (prev m) 0 D nn -> e <> 0 -> next m !! e = Some v -> is_Some (prev m !! e) ->
  srt_put m e (hdp D 0) (lastp D 0) = Ok (put_heap m e (lastp D 0), hdp (D ++ [e]) 0) /\
  dseg (next (put_heap m e (lastp D 0))) (prev (put_heap m e (lastp D 0))) 0 (D ++ [e]) v /\
  relinked (D ++ e :: R) m (put_heap m e (lastp D 0)).
Proof.
  intros Hn Hd He Hv Hp. unfold srt_put, put_heap. pose proof Hn as (HnD & Hdis & _)%NoDup_app.
  assert (e ∉ D) as HeD by (intros H; apply (Hdis e H); by left).
  destruct (decide (D = [])) as [->|Hne].
  - cbn [negb Z.eqb hdp lastp last default res_bind app]. rewrite (proj2 (Z.eqb_neq e 0) He). cbn [negb].
    unfold set_prev. rewrite st_Ok by done. cbn [res_bind]. split; [done|]. split.
    + cbn. rewrite lookup_insert_eq. done.
    + split; [done|done|]. intros x Hx%not_elem_of_cons. cbn. by rewrite lookup_insert_ne by (intros ->; tauto).
  - pose proof (lastp_elem D 0 Hne) as Hl. pose proof (dseg_not_null _ _ _ _ _ _ Hd Hl) as H0.
    pose proof (dseg_is_Some _ _ _ _ _ _ Hd Hl) as Hs. rewrite (proj2 (Z.eqb_neq _ 0) H0), (proj2 (Z.eqb_neq e 0) He). cbn [negb].
    unfold set_next, set_prev. rewrite st_Ok by done. cbn [res_bind]. rewrite st_Ok by done. cbn [res_bind].
    split; [destruct D; done|]. split; [|split; [done|by apply map_size_insert_Some|]].
    + cbn. apply dseg_app. split.
      * apply (dseg_set_last _ _ _ _ nn); [done|done|]. by apply dseg_frame_pv.
      * cbn. rewrite lookup_insert_eq, lookup_insert_ne by (intros E; rewrite E in Hl; done). done.
    + intros x [Hx1 [Hx2 Hx3]%not_elem_of_cons]%not_elem_of_app. cbn. rewrite !lookup_insert_ne; [done|congruence|].
      intros E. by rewrite E in Hl.
Qed.

(** the element is the first of the run or of the rest *)
Lemma put_merging m D P Q P' Q' e :
  merging m D P Q -> (P = e :: P' /\ Q' = Q) \/ (P' = P /\ Q = e :: Q') ->
  srt_put m e (hdp D 0) (lastp D 0) = Ok (put_heap m e (lastp D 0), hdp (D ++ [e]) 0) /\
  merging (put_heap m e (lastp D 0)) (D ++ [e]) P' Q' /\
  relinked (D ++ P ++ Q) m (put_heap m e (lastp D 0)).
Proof.
  intros [Hn [nd Hd] [np Hp] Hq Hpv] Hc.
  assert (P ++ Q ≡ₚ e :: P' ++ Q') as Eperm by (destruct Hc as [[-> ->]|[-> ->]]; [done|by rewrite Permutation_middle]).
  assert (NoDup (D ++ e :: P' ++ Q')) as Hn' by (by rewrite <- Eperm).
  assert (e <> 0 /\ exists v, next m !! e = Some v) as [He [v Hv]].
  { destruct Hc as [[-> ->]|[-> ->]]; [destruct Hp as (? & ? & _)|destruct Hq as (? & ? & _)]; eauto. }
  assert ((exists n', sseg (next m) P' n') /\ lseg (next m) Q') as [[np' Hp'] Hq'].
  { destruct Hc as [[-> ->]|[-> ->]]; [destruct Hp as (_ & _ & ?)|destruct Hq as (_ & _ & ?)]; eauto. }
  destruct (put_ok m D e (P' ++ Q') v nd Hn' Hd He Hv) as (E & Hd' & Hr).
  { apply Hpv. rewrite Eperm. by left. }
  split; [done|]. split; [|eapply relinked_perm; [|exact Hr]; by rewrite Eperm].
  assert (lastp D 0 = 0 \/ (lastp D 0 ∉ P') /\ (lastp D 0 ∉ Q')) as Hl.
  { destruct (decide (D = [])) as [->|Hne]; [by left|]. right. pose proof (lastp_elem D 0 Hne) as Hin.
    apply NoDup_app in Hn' as (_ & Hdis & _). apply not_elem_of_app. intros Hx. apply (Hdis _ Hin). by right. }
  split.
  - by rewrite <- app_assoc.
  - by exists v.
  - exists np'. cbn. destruct (Z.eqb_spec (lastp D 0) 0); [done|]. destruct Hl as [|[Hl _]]; [done|]. by apply sseg_frame.
  - cbn. destruct (Z.eqb_spec (lastp D 0) 0); [done|]. destruct Hl as [|[_ Hl]]; [done|]. by apply lseg_insert.
  - intros x Hx. cbn. apply is_Some_insert, Hpv. rewrite Eperm. by right.
Qed.

Lemma u32_small z : 0 <= z < 2 ^ 32 -> u32 z = z.
Proof. apply u32_id. Qed.

Section loops.
Variable cmpfcn : ptr -> ptr -> Z.
Let le (p q : ptr) : bool := cmpfcn p q <=? 0.

(** the head [e] of the run [P] or of the rest [Q], of which [n] may be taken, is
    the head of the merge *)
Definition takes (P Q : list ptr) (n : nat) (e : ptr) (P' Q' : list ptr) (n' : nat) : Prop :=
  ((P = e :: P' /\ Q' = Q /\ n' = n) \/ (P' = P /\ Q = e :: Q' /\ n = S n')) /\
  merge_le le P (take n Q) = e :: merge_le le P' (take n' Q').

Lemma srt_take_ok m D P Q p n :
  merging m D P Q -> (P <> [] -> p = hdp P 0) -> zlen P < 2 ^ 32 -> Z.of_nat n < 2 ^ 32 ->
  (P <> [] \/ Q <> [] /\ n <> 0%nat) ->
  exists e P' Q' p' n', srt_take cmpfcn m p (zlen P) (hdp Q 0) (Z.of_nat n) = Ok (e, (p', zlen P'), (hdp Q' 0, Z.of_nat n')) /\
    (P' <> [] -> p' = hdp P' 0) /\ takes P Q n e P' Q' n'.
Proof.
  intros [_ _ [np Hp] Hq _] Hpp Hlen Hn Hc. unfold srt_take, takes.
  assert (forall y Q' n', Q = y :: Q' -> n = S n' ->
    ld (next m) (hdp Q 0) = Ok (hdp Q' 0) /\ u32 (Z.of_nat n - 1) = Z.of_nat n' /\ hdp Q 0 = y) as Eq.
  { intros y Q' n' -> ->. destruct Hq as (? & ? & _). rewrite u32_small by lia. split; [by apply ld_Ok|]. split; [lia|done]. }
  destruct P as [|x P].
  - destruct Hc as [|[HQ Hpos]]; [done|]. destruct Q as [|y Q]; [done|]. destruct n as [|n]; [done|].
    destruct (Eq y Q n eq_refl eq_refl) as (-> & -> & ->). exists y, [], Q, p, n. split; [done|]. split; [done|]. split; [by right|done].
  - rewrite (Hpp ltac:(done)) in *. cbn [hdp]. destruct Hp as (Hx & Hnx & _). rewrite zlen_cons in *. pose proof (zlen_nonneg P).
    rewrite (proj2 (Z.eqb_neq (1 + zlen P) 0)), (proj2 (Z.eqb_neq x 0) Hx) by lia. rewrite (ld_Ok _ x _ Hx Hnx). cbn [res_bind].
    rewrite (u32_small (1 + zlen P - 1)) by lia. replace (1 + zlen P - 1) with (zlen P) by lia.
    assert (P <> [] -> hdp P np = hdp P 0) as Hh by (by destruct P).
    destruct ((Z.of_nat n =? 0) || (hdp Q 0 =? 0)) eqn:Ec.
    + exists x, P, Q, (hdp P np), n. split; [done|]. split; [done|]. split; [by left|].
      assert (take n Q = []) as ->; [|by rewrite !merge_le_nil].
      apply orb_true_iff in Ec as [Ec|Ec]; apply Z.eqb_eq in Ec; [by destruct n|].
      destruct Q as [|y Q]; [by rewrite take_nil|]. by destruct Hq as (? & _).
    + apply orb_false_iff in Ec as [Ec1 Ec2]. apply Z.eqb_neq in Ec1. destruct Q as [|y Q]; [done|]. destruct n as [|n]; [done|].
      cbn [take]. rewrite merge_le_cons. unfold le at 1. destruct (Eq y Q n eq_refl eq_refl) as (-> & -> & ->).
      destruct (cmpfcn x y <=? 0) eqn:El.
      * exists x, P, (y :: Q), (hdp P np), (S n). split; [done|]. split; [done|]. split; [by left|done].
      * exists y, (x :: P), Q, x, n. rewrite zlen_cons. split; [done|]. split; [done|]. split; [by right|done].
Qed.

Lemma srt_merge_ok fuel : forall m D P Q p n,
  merging m D P Q -> (P <> [] -> p = hdp P 0) -> zlen P < 2 ^ 32 -> Z.of_nat n < 2 ^ 32 -> (length (P ++ Q) < fuel)%nat ->
  exists m', srt_merge cmpfcn fuel m p (zlen P) (hdp Q 0) (Z.of_nat n) (hdp D 0) (lastp D 0) =
    Ok (m', hdp (drop n Q) 0, hdp (D ++ merge_le le P (take n Q)) 0, lastp (D ++ merge_le le P (take n Q)) 0) /\
  merging m' (D ++ merge_le le P (take n Q)) [] (drop n Q) /\ relinked (D ++ P ++ Q) m m'.
Proof.
  induction fuel as [|fuel IH]; intros m D P Q p n Hm Hp HlP Hn Hf; [lia|]. cbn [srt_merge].
  destruct ((0 <? zlen P) || ((0 <? Z.of_nat n) && negb (hdp Q 0 =? 0))) eqn:Ec.
  - assert (P <> [] \/ Q <> [] /\ n <> 0%nat) as Hc.
    { destruct P; [|by left]. right. cbn in Ec. apply andb_true_iff in Ec as [E1 E2]. apply Z.ltb_lt in E1.
      split; [by intros ->|lia]. }
    destruct (srt_take_ok m D P Q p n Hm Hp HlP Hn Hc) as (e & P' & Q' & p' & n' & -> & Hp' & Ht & Em). cbn [res_bind].
    destruct (put_merging m D P Q P' Q' e Hm) as (-> & Hm' & Hr); [tauto|]. cbn [res_bind].
    assert (P ++ Q ≡ₚ e :: P' ++ Q') as Eperm by (destruct Ht as [(-> & -> & _)|(-> & -> & _)]; [done|by rewrite Permutation_middle]).
    assert (drop n Q = drop n' Q') as -> by (destruct Ht as [(_ & -> & ->)|(_ & -> & ->)]; done).
    pose proof (Permutation_length Eperm) as El. cbn [length] in El.
    destruct (IH _ (D ++ [e]) P' Q' p' n' Hm' Hp') as (m' & E & Hm'' & Hr').
    { destruct Ht as [(-> & _ & _)|(-> & _ & _)]; [rewrite zlen_cons in HlP; lia|done]. }
    { destruct Ht as [(_ & _ & ->)|(_ & _ & ->)]; lia. }
    { lia. }
    rewrite Em. rewrite lastp_snoc in E. rewrite E. exists m'. rewrite <- app_assoc. cbn [app]. split; [done|].
    rewrite <- app_assoc in Hm''. split; [done|]. eapply relinked_trans; [exact Hr|]. eapply relinked_perm; [|exact Hr'].
    by rewrite Eperm, <- app_assoc.
  - apply orb_false_iff in Ec as [E1 E2]. apply Z.ltb_ge in E1. destruct P as [|x P]; [|rewrite zlen_cons in E1; pose proof (zlen_nonneg P); lia].
    assert (take n Q = [] /\ drop n Q = Q) as [-> ->].
    { apply andb_false_iff in E2 as [E2|E2]; [apply Z.ltb_ge in E2; by replace n with 0%nat by lia|].
      destruct Q as [|y Q]; [by rewrite take_nil, drop_nil|]. cbn in E2. apply negb_false_iff, Z.eqb_eq in E2.
      by destruct (mg_rest _ _ _ _ Hm). }
    exists m. cbn [merge_le]. rewrite app_nil_r. split; [done|]. split; [done|]. apply relinked_refl.
Qed.

Lemma srt_skip_ok m n : forall L k,
  lseg (next m) L -> L <> [] -> 0 <= k -> k + zlen (take n L) < 2 ^ 32 ->
  srt_skip n m (hdp L 0) k = Ok (hdp (drop n L) 0, k + zlen (take n L)).
Proof.
  induction n as [|n IH]; intros L k HL Hne Hk Hlt; [cbn [srt_skip take drop]; change (zlen (@nil ptr)) with 0; by rewrite Z.add_0_r|].
  destruct L as [|x L]; [done|]. destruct HL as (Hx & Hnx & HL). cbn [take drop srt_skip hdp] in *. rewrite zlen_cons in *.
  pose proof (zlen_nonneg (take n L)). rewrite u32_small by lia. rewrite (ld_Ok _ x _ Hx Hnx). cbn [res_bind].
  destruct L as [|y L].
  - cbn [hdp Z.eqb]. rewrite take_nil, drop_nil. done.
  - pose proof HL as (Hy & _). cbn [hdp]. rewrite (proj2 (Z.eqb_neq y 0) Hy). pose proof (IH (y :: L) (k + 1) HL) as E. cbn [hdp] in E.
    rewrite E by (done || lia). do 2 f_equal. lia.
Qed.

(** the rest of the list is cut into the first run and what is behind it *)
Lemma merging_split m D L s : merging m D [] L -> merging m D (take s L) (drop s L).
Proof.
  intros [Hn Hd _ Hq Hp]. cbn [app] in *. rewrite <- (take_drop s L) in Hn, Hq, Hp. split; [done|done| | |done].
  - exists (hdp (drop s L) 0). by apply lseg_split in Hq as [? _].
  - by apply lseg_split in Hq as [_ ?].
Qed.

(** the fuel of [srt_merge] is enough *)
Lemma merging_size m D L : merging m D [] L -> (length L <= size (next m))%nat.
Proof. intros [Hn _ _ Hq _]. apply lseg_length; [|done]. by apply NoDup_app in Hn as (_ & _ & ?). Qed.

Lemma srt_pass_ok s : (0 < s)%nat -> Z.of_nat s < 2 ^ 32 -> forall fuel m D L k,
  merging m D [] L -> 0 <= k -> k + zlen L < 2 ^ 32 -> (length L < fuel)%nat ->
  exists m' L' j, srt_pass cmpfcn fuel m (Z.of_nat s) (hdp L 0) (hdp D 0) (lastp D 0) k =
      Ok (m', hdp (D ++ L') 0, lastp (D ++ L') 0, k + Z.of_nat j) /\
    pass le s L L' j /\ merging m' (D ++ L') [] [] /\ relinked (D ++ L) m m'.
Proof.
  intros Hs Hs32. induction fuel as [|fuel IH]; intros m D L k Hm Hk Hlt Hf; [lia|]. cbn [srt_pass].
  destruct L as [|x L0].
  - cbn [hdp Z.eqb]. exists m, [], 0%nat. rewrite app_nil_r, Z.add_0_r. split; [done|]. split; [constructor|]. split; [done|apply relinked_refl].
  - set (L := x :: L0) in *. assert (L <> []) as HL by done. pose proof (zlen_nonneg L).
    assert (1 <= zlen L) by (subst L; rewrite zlen_cons; pose proof (zlen_nonneg L0); lia).
    assert (hdp L 0 <> 0) as Hx0 by (apply (lseg_not_null (next m) L); [apply Hm|by apply hdp_elem]).
    rewrite (proj2 (Z.eqb_neq _ 0) Hx0), u32_small, Nat2Z.id by lia.
    pose proof (f_equal length (take_drop s L)) as El. rewrite length_app in El.
    assert (zlen (take s L) <= zlen L) by (unfold zlen; lia).
    rewrite srt_skip_ok by (done || apply Hm || lia). cbn [res_bind]. rewrite Z.add_0_l.
    pose proof (merging_split m D L s Hm) as Hm1. pose proof (merging_size m D L Hm).
    destruct (srt_merge_ok (S (size (next m))) m D (take s L) (drop s L) (hdp L 0) s Hm1) as (m1 & E & Hm2 & Hr).
    { subst L. destruct s; [lia|done]. }
    { lia. }
    { done. }
    { rewrite take_drop. lia. }
    rewrite E. cbn [res_bind].
    pose proof (f_equal length (take_drop s (drop s L))) as El'. rewrite length_app, !length_drop in El'.
    assert (length (drop s L) <= length L - 1)%nat by (rewrite length_drop; lia).
    destruct (IH m1 (D ++ merge_le le (take s L) (take s (drop s L))) (drop s (drop s L)) (k + 1) Hm2) as (m2 & L' & j & -> & Hp & Hm3 & Hr').
    { lia. }
    { unfold zlen in *. rewrite !length_drop. lia. }
    { unfold zlen in *. rewrite length_drop. lia. }
    exists m2, (merge_le le (take s L) (take s (drop s L)) ++ L'), (S j). rewrite app_assoc. split; [do 2 f_equal; lia|].
    split; [by constructor|]. split; [done|]. rewrite take_drop in Hr. eapply relinked_trans; [exact Hr|].
    eapply relinked_perm; [|exact Hr']. by rewrite merge_le_perm, <- !app_assoc, (take_drop s (drop s L)), take_drop.
Qed.

Hypothesis cmp_total : forall x y, le x y = true \/ le y x = true.
Hypothesis cmp_trans : forall x y z, le x y = true -> le y z = true -> le x z = true.

(** the list ends with the null pointer again *)
Lemma set_next_last m D :
  D <> [] -> merging m D [] [] ->
  exists m', set_next m (lastp D 0) 0 = Ok m' /\ merging m' [] [] D /\ dll (next m') (prev m') D /\ relinked D m m'.
Proof.
  intros Hne [Hn [nn Hd] _ _ _]. rewrite !app_nil_r in Hn. pose proof (lastp_elem D 0 Hne) as Hl.
  pose proof (dseg_not_null _ _ _ _ _ _ Hd Hl) as H0. pose proof (dseg_is_Some _ _ _ _ _ _ Hd Hl) as Hs.
  unfold set_next. rewrite st_Ok by done. cbn [res_bind]. eexists. split; [done|].
  pose proof (dseg_set_last _ _ _ _ _ 0 Hn Hne Hd) as Hd'. split; [|split; [done|]].
  - split; cbn; [done|by exists 0|by exists 0|by eapply dseg_lseg|]. intros x Hx. by eapply dseg_prev_Some.
  - split; [done|by apply map_size_insert_Some|]. intros x Hx. cbn. rewrite lookup_insert_ne; [done|]. congruence.
Qed.

Lemma srt_loop_ok l : l <> [] -> zlen l < 2 ^ 32 -> forall fuel m L s,
  merging m [] [] L -> runs le s l L -> (0 < s)%nat -> Z.of_nat s < 2 ^ 32 -> (length l < s + fuel)%nat -> (0 < fuel)%nat ->
  exists m', srt_loop cmpfcn fuel m (hdp L 0) (Z.of_nat s) = Ok (m', hdp (isort le l) 0, lastp (isort le l) 0) /\
    dll (next m') (prev m') (isort le l) /\ relinked l m m'.
Proof.
  intros Hl Hl32. induction fuel as [|fuel IH]; intros m L s Hm Hr Hs Hs32 Hf Hpos; [lia|]. cbn [srt_loop].
  pose proof (runs_perm le s l L Hr) as Ep. pose proof (Permutation_length Ep) as El.
  destruct (srt_pass_ok s Hs Hs32 (S (size (next m))) m [] L 0 Hm) as (m1 & L' & j & E & Hp & Hm1 & Hrl).
  { done. }
  { unfold zlen in *. lia. }
  { pose proof (merging_size m [] L Hm). lia. }
  change (lastp [] 0) with 0 in E. change (hdp [] 0) with 0 in E. rewrite E. cbn [res_bind app] in *.
  pose proof (pass_perm le s L L' j Hp) as Ep'. assert (L' <> []) as HL'.
  { intros ->. apply Hl. apply Permutation_nil_r. by rewrite <- Ep, <- Ep'. }
  assert (lastp L' 0 <> 0) as H0.
  { destruct Hm1 as [_ [nn Hdn] _ _ _]. by apply (dseg_not_null _ _ _ _ _ _ Hdn), lastp_elem. }
  rewrite (proj2 (Z.eqb_neq _ 0) H0). cbn [negb].
  destruct (set_next_last m1 L' HL' Hm1) as (m2 & -> & Hm2 & Hd & Hrl').
  cbn [res_bind].
  pose proof (pass_runs le cmp_total cmp_trans s L L' j Hp l Hr) as Hr'. pose proof (pass_count le s L L' j Hp) as Hj.
  assert (relinked l m m2) as Hrl2.
  { eapply relinked_trans; eapply relinked_perm; [|exact Hrl| |exact Hrl']; [done|by rewrite Ep']. }
  destruct (0 + Z.of_nat j <=? 1) eqn:Ej; [apply Z.leb_le in Ej|apply Z.leb_gt in Ej].
  - assert (L' = isort le l) as <- by (eapply runs_sorted; [exact Hr'|lia]). by exists m2.
  - assert (length l > 2 * s)%nat by lia. assert (Z.of_nat s * 2 = Z.of_nat (2 * s)) as E2 by lia.
    rewrite u32_small, E2 by (unfold zlen in *; lia).
    destruct (IH m2 L' (2 * s)%nat Hm2 Hr') as (m3 & -> & Hd3 & Hrl3); [lia..|unfold zlen in *; lia|lia|lia|].
    exists m3. split; [done|]. split; [done|]. by eapply relinked_trans.
Qed.
End loops.

Lemma isort_map {A B} (f : A -> B) (le : B -> B -> bool) (l : list A) :
  map f (isort (fun x y => le (f x) (f y)) l) = isort le (map f l).
Proof.
  induction l as [|x l IH]; [done|]. cbn [isort map]. rewrite <- IH. generalize (isort (fun x y => le (f x) (f y)) l). clear.
  intros l. induction l as [|y l IH]; [done|]. cbn [insert_le map]. destruct (le (f x) (f y)); [done|]. cbn [map]. by rewrite IH.
Qed.

Section theorem.
Context {HF : HashFcn} {HL : HashFcnLaws HF}.

(** a table whose elements are linked in another order *)
Lemma table_ok_perm m m' b items items' f :
  table_ok m b items f -> items' ≡ₚ items -> relinked (ptrs items) m m' -> dll (next m') (prev m') (ptrs items') ->
  table_ok m' (set_tail b (lastp (ptrs items') 0)) items' f.
Proof.
  intros [H1 H2 H3 H4 H5 H6 H7 H8] Ep [(E1 & E2 & E3 & E4 & E5) _ _] Hd. split; cbn; try done.
  - unfold zlen. by rewrite Ep.
  - by rewrite Ep.
  - rewrite Ep. eapply Forall_impl; [exact H6|]. intros it [? ? ? ?]. split; [done|by rewrite E3|by rewrite E4|by rewrite E5].
  - intros j Hj. destruct (H7 j Hj) as [Hn Hin]. split; [done|]. intros p. rewrite Hin.
    by setoid_rewrite Ep.
  - unfold buckets_ok. by rewrite E1, E2.
Qed.

Lemma merging_init m b items f : table_ok m b items f -> merging m [] [] (ptrs items).
Proof.
  intros Hok. pose proof (ok_app _ _ _ _ Hok) as Hd. split; cbn; [apply Hok|by exists 0|by exists 0|by eapply dseg_lseg|].
  intros x Hx. by eapply dseg_prev_Some.
Qed.

(** C8: HASH_SRT sorts: with a comparison that is a total preorder, on a hash
    with any number of elements, it ends, follows no invalid pointer and leaves
    a hash with the same elements, which all other macros find in their buckets,
    in the order of a stable insertion sort: sorted, and in their old order
    where the comparison says they are equal.  Nothing outside of the links of
    the elements is written. *)
Theorem HASH_SRT_sorts (cmpfcn : ptr -> ptr -> Z) t items :
  (forall x y, (cmpfcn x y <=? 0) = true \/ (cmpfcn y x <=? 0) = true) ->
  (forall x y z, (cmpfcn x y <=? 0) = true -> (cmpfcn y z <=? 0) = true -> (cmpfcn x z <=? 0) = true) ->
  represents t items ->
  let le (i j : item) := cmpfcn i.1 j.1 <=? 0 in
  exists t', HASH_SRT cmpfcn t = Ok t' /\ represents t' (isort le items) /\ relinked (ptrs items) (mem t) (mem t') /\
    isort le items ≡ₚ items /\ StronglySorted (fun i j => le i j = true) (isort le items) /\
    forall i, filter (fun j => le i j = true /\ le j i = true) (isort le items) = filter (fun j => le i j = true /\ le j i = true) items.
Proof.
  intros Htot Htr Ht le. assert (forall x y z : item, le x y = true -> le y z = true -> le x z = true) as Htr' by (intros x y z; apply Htr).
  assert (exists t', HASH_SRT cmpfcn t = Ok t' /\ represents t' (isort le items) /\ relinked (ptrs items) (mem t) (mem t')) as (t' & E & Ht' & Hr).
  2:{ exists t'. split; [done|]. split; [done|]. split; [done|]. split; [apply isort_perm|]. split; [|intros i; by apply isort_stable].
      apply isort_sorted; [by intros x y; apply Htot|done]. }
  unfold HASH_SRT. destruct (decide (items = [])) as [->|Hne].
  { exists t. destruct Ht as [Hh Htb]. rewrite Hh. split; [done|]. split; [by split|apply relinked_refl]. }
  destruct (represents_table t items Ht Hne) as (Hhd & Hh & b & f & Htb & -> & Hok). rewrite (proj2 (Z.eqb_neq _ 0) Hh). cbn [res_bind].
  assert (ptrs (isort le items) = isort (fun p q => cmpfcn p q <=? 0) (ptrs items)) as Es
    by apply (isort_map fst (fun p q => cmpfcn p q <=? 0) items).
  pose proof (lseg_length _ _ (ok_nodup _ _ _ _ Hok) (dseg_lseg _ _ _ _ (ok_app _ _ _ _ Hok))) as Hsz.
  destruct (srt_loop_ok cmpfcn Htot Htr (ptrs items)) with (fuel := S (size (next (mem t)))) (m := mem t) (L := ptrs items) (s := 1%nat)
    as (m' & E & Hd & Hr).
  { intros E. apply Hne. by apply fmap_nil_inv in E. }
  { unfold zlen. rewrite length_fmap. apply Hok. }
  { by eapply merging_init. }
  { apply runs_one. }
  { lia. }
  { done. }
  { lia. }
  { lia. }
  rewrite Hhd. change (Z.of_nat 1) with 1 in E. rewrite E. cbn [res_bind]. eexists. split; [done|]. split; [|done].
  pose proof (isort_perm le items) as Ep. rewrite <- Es in Hd |- *.
  pose proof (table_ok_perm _ _ _ _ _ _ Hok Ep Hr Hd) as Hok'. unfold represents.
  destruct (isort le items) as [|[p k] its] eqn:El; [by apply Permutation_nil_l in Ep|]. cbn [hd tbl mem]. split; [done|].
  by exists (set_tail b (lastp (ptrs ((p, k) :: its)) 0)), f.
Qed.
End theorem.

(** ** Witness: three elements, two of which are equal *)
#[local] Existing Instance default_fcn.
#[local] Existing Instance default_laws.

Definition srt_ops : list hash_op := [OpAdd 300 (str "c" ++ [0]); OpAdd 100 (str "a" ++ [0]); OpAdd 200 (str "b" ++ [0])].
Definition by_hundreds (p q : ptr) : Z := p / 200 - q / 200.

Lemma srt_ops_ok : ops_ok (mem hash0) [] srt_ops.
Proof.
  assert (forall s k, cstr s = Ok k -> (zlen k <? 2 ^ 32) = true -> is_key s) as Hk by (intros s k E H; exists k; split; [done|lia]).
  unfold srt_ops.
  repeat (cbn [ops_ok]; split; [cbn [op_ok]; repeat split; first
    [apply (bool_decide_unpack _); vm_compute; exact I | eapply Hk; [vm_compute; reflexivity|reflexivity]
    |apply heap0_allocated; apply (bool_decide_unpack _); vm_compute; exact I]|]). done.
Qed.

Lemma HASH_SRT_sorts_witness :
  exists t ps t', hash_run malloc0 hash0 srt_ops = Ok (t, ps) /\ HASH_SRT by_hundreds t = Ok t' /\
    represents t' [(100, str "a"); (300, str "c"); (200, str "b")].
Proof.
  destruct (hash_run malloc0 hash0 srt_ops) as [[t ps]| |] eqn:E; [|by vm_compute in E..].
  assert (represents t [(300, str "c"); (100, str "a"); (200, str "b")]) as Ht.
  { destruct (run_refines malloc0 malloc0_bound hash0 [] srt_ops) as [E'|(t' & E' & [Ht' _])];
      [by apply hash0_ok|exact srt_ops_ok|by rewrite E in E'|]. rewrite E in E'. injection E' as <- _. exact Ht'. }
  destruct (HASH_SRT_sorts by_hundreds t [(300, str "c"); (100, str "a"); (200, str "b")]) as (t' & Es & Ht' & _).
  - intros x y. unfold by_hundreds. rewrite !Z.leb_le. lia.
  - intros x y z. unfold by_hundreds. rewrite !Z.leb_le. lia.
  - exact Ht.
  - exists t, ps, t'. split; [done|]. split; [exact Es|]. refine (eq_ind _ (represents t') Ht' _ _). vm_compute. reflexivity.
Defined.
