(* ===== verification/ChatTracker.v ===== *)
(** * The chat tracker (src/examples/p2p-chat-example/tracker.c)

    The table of peers is a list in the order of insertion with lookup by the
    string [ip_and_port]; adding appends, replacing deletes the old entry and
    appends.  ChatTable has the operations on the hash table of uthash and the
    theorem that they refine the same specification.  The operations run one at a
    time.  [malloc] leaves the byte
    [junk] everywhere, and a packet is returned with the address it is sent to;
    a field of its header that was not assigned is [None].  Modelled are the
    operations on the table and the bodies of the loops of the three threads;
    sockets, the locks and logging are not. *)
From Stdlib Require Import ZArith Lia Bool String.
From stdpp Require Import base numbers option list gmap.
From S2P Require Import Prelude CStr.

(** ** Data *)
Definition MAX_NUM_ROOMS : Z := 5.
Definition MAX_ROOM_SIZE : Z := 5.

Record peer := mk_peer { ip_and_port : bytes; room : Z; alive : Z }.

Abbreviation addr := (Z * Z)%type.   (* sin_addr.s_addr and sin_port, in the order of the host *)

Record packet := mk_packet {
  type : Z; error : Z; proom : option Z; payload_length : Z; payload : list addr }.

Abbreviation sent := (list (addr * packet)).

(** ** Addresses and their text *)
(** the index of the first [c] among the first [n] bytes, or [i + n] *)
Fixpoint index_of (m : bytes) (c i : Z) (n : nat) : res Z :=
  match n with
  | O => Ok i
  | S n =>
      let* b := deref m in
      if b =? c then Ok i else index_of (tail m) c (i + 1) n
  end.

Definition get_ip (ip_port : bytes) : res Z :=
  let* i := index_of ip_port 58 0 20 in
  let* char_ip := strn ip_port (Z.to_nat i) in
  let* v := strtoul0 (char_ip ++ [0]) in
  Ok (v mod 2 ^ 32).

(** the loop of [get_port]: [start] and [end], -1 as long as they are not found *)
Fixpoint port_bounds (m : bytes) (i start : Z) (n : nat) : res (Z * Z) :=
  match n with
  | O => Ok (start, -1)
  | S n =>
      let* b := deref m in
      let start := if (start =? -1) && (b =? 58) then i + 1 else start in
      if b =? 0 then Ok (start, i) else port_bounds (tail m) (i + 1) start n
  end.

Definition get_port (ip_port : bytes) : res Z :=
  let* (start, end_) := port_bounds ip_port 0 (-1) 20 in
  check* (0 <=? start) && (start <=? end_) else OutOfBounds in
  let* char_short := strn (drop (Z.to_nat start) ip_port) (Z.to_nat (end_ - start)) in
  let* v := strtoul0 (char_short ++ [0]) in
  Ok (wrap_s 16 v).

Definition get_sockaddr_in (ip port : Z) : addr := (ip, port).

Section tracker.
Variable junk : Z.

(** [sprintf(ip_and_port, "%d:%d", ip, port)] into an array of 20 bytes *)
Definition print_addr (ip port : Z) : res bytes :=
  blit (replicate 20 junk) 0 (dec (to_int ip) ++ 58 :: dec port ++ [0]).

(** ** The hash table *)
Fixpoint hash_find (peers : list peer) (key : bytes) : res (option peer) :=
  match peers with
  | [] => Ok None
  | s :: peers =>
      let* d := strcmp (ip_and_port s) key in
      if d =? 0 then Ok (Some s) else hash_find peers key
  end.

Fixpoint hash_del (peers : list peer) (key : bytes) : res (list peer) :=
  match peers with
  | [] => Ok []
  | s :: peers =>
      let* d := strcmp (ip_and_port s) key in
      if d =? 0 then Ok peers else let* peers := hash_del peers key in Ok (s :: peers)
  end.

(** apply [f] to the entry of [key] *)
Fixpoint hash_update (peers : list peer) (key : bytes) (f : peer -> peer) : res (list peer) :=
  match peers with
  | [] => Ok []
  | s :: peers =>
      let* d := strcmp (ip_and_port s) key in
      if d =? 0 then Ok (f s :: peers) else let* peers := hash_update peers key f in Ok (s :: peers)
  end.

(** ** Replies *)
Definition send_error (ip port type error : Z) : sent :=
  [(get_sockaddr_in ip port, mk_packet type error None 0 [])].

Definition peer_addr (s : peer) : res addr :=
  let* peer_ip := get_ip (ip_and_port s) in
  let* peer_port := get_port (ip_and_port s) in
  Ok (get_sockaddr_in peer_ip peer_port).

(** the addresses of the peers of [room_] *)
Fixpoint addrs_in (peers : list peer) (room_ : Z) : res (list addr) :=
  match peers with
  | [] => Ok []
  | s :: peers =>
      if room s =? room_ then
        let* a := peer_addr s in let* l := addrs_in peers room_ in Ok (a :: l)
      else addrs_in peers room_
  end.

Fixpoint send_list (peers : list peer) (join_ip join_port room_ : Z) (l : list addr) : res sent :=
  match peers with
  | [] => Ok []
  | s :: peers =>
      if room s =? room_ then
        let* (peer_ip, peer_port) := peer_addr s in
        let pkt :=
          if negb (join_port =? -1) && negb (join_ip =? 0) && (peer_ip =? join_ip) && (peer_port =? join_port)
          then mk_packet 106 (* 'j' *) 0 (Some room_) (16 * zlen l) l
          else mk_packet 117 (* 'u' *) 0 None (16 * zlen l) l in
        let* out := send_list peers join_ip join_port room_ l in
        Ok ((get_sockaddr_in peer_ip peer_port, pkt) :: out)
      else send_list peers join_ip join_port room_ l
  end.

(** the payload of a packet has 1000 bytes *)
Definition peer_list (peers : list peer) (join_ip join_port room_ : Z) : res sent :=
  let* l := addrs_in peers room_ in
  check* 16 * zlen l <=? 1000 else OutOfBounds in
  send_list peers join_ip join_port room_ l.

(** ** Rooms *)
Fixpoint room_known (rooms room_found : list Z) (r : Z) : bool :=
  match rooms, room_found with
  | x :: rooms, f :: room_found => ((x =? r) && (f =? 1)) || room_known rooms room_found r
  | _, _ => false
  end.

Fixpoint count_rooms (peers : list peer) (rooms room_found : list Z) (total : Z) : res Z :=
  match peers with
  | [] => Ok total
  | s :: peers =>
      if room_known rooms room_found (room s) then count_rooms peers rooms room_found total
      else
        let* room_found := wr room_found total 1 in
        let* rooms := wr rooms total (room s) in
        count_rooms peers rooms room_found (total + 1)
  end.

Definition get_total_num_rooms (peers : list peer) : res Z :=
  count_rooms peers (replicate (Z.to_nat MAX_NUM_ROOMS) 0) (replicate (Z.to_nat MAX_NUM_ROOMS) 0) 0.

(** the first room from [r] on that no peer is in *)
Fixpoint free_room (peers : list peer) (r : Z) (n : nat) : Z :=
  match n with
  | O => r
  | S n => if existsb (fun s => room s =? r) peers then free_room peers (r + 1) n else r
  end.

(** ** Operations *)
Definition peer_create_room (peers : list peer) (ip port : Z) : res (list peer * sent) :=
  let* number_of_rooms := get_total_num_rooms peers in
  if MAX_NUM_ROOMS <=? number_of_rooms then Ok (peers, send_error ip port 99 111)
  else
    let r := free_room peers 1 (Z.to_nat (MAX_NUM_ROOMS * 2 - 1)) in
    let* key := print_addr ip port in
    let new_peer := mk_peer key r 1 in
    let* s := hash_find peers key in
    match s with
    | Some _ => Ok (peers, send_error ip port 99 101)
    | None => Ok (peers ++ [new_peer], [(get_sockaddr_in ip port, mk_packet 99 0 (Some r) 0 [])])
    end.

(** the first loop of [peer_join]: [None] when the room is full *)
Fixpoint room_exists (peers : list peer) (room_ r : Z) (exists_ : bool) : option bool :=
  match peers with
  | [] => Some exists_
  | s :: peers =>
      if room s =? room_ then
        if MAX_ROOM_SIZE <=? r + 1 then None else room_exists peers room_ (r + 1) true
      else room_exists peers room_ r exists_
  end.

Definition peer_join (peers : list peer) (ip port room_ : Z) : res (list peer * sent) :=
  match room_exists peers room_ 0 false with
  | None => Ok (peers, send_error ip port 106 102)
  | Some false => Ok (peers, send_error ip port 106 101)
  | Some true =>
      let* key := print_addr ip port in
      let new_peer := mk_peer key room_ 1 in
      let* s := hash_find peers key in
      match s with
      | None =>
          let peers := peers ++ [new_peer] in
          let* out := peer_list peers ip port room_ in Ok (peers, out)
      | Some s =>
          if room s =? room_ then Ok (peers, send_error ip port 106 97)
          else
            let old_room_update := to_int (room s) in
            let* peers := hash_del peers key in
            let peers := peers ++ [new_peer] in
            let* out1 := peer_list peers ip port room_ in
            if negb (old_room_update =? -1) then
              let* out2 := peer_list peers 0 (-1) (old_room_update mod 2 ^ 32) in Ok (peers, out1 ++ out2)
            else Ok (peers, out1)
      end
  end.

Definition peer_leave (peers : list peer) (ip port : Z) : res (list peer * sent) :=
  let* key := print_addr ip port in
  let* s := hash_find peers key in
  match s with
  | None => Ok (peers, send_error ip port 108 101)
  | Some s =>
      let left_room := room s in
      let* peers := hash_del peers key in
      let* out := peer_list peers 0 (-1) left_room in
      Ok (peers, (get_sockaddr_in ip port, mk_packet 108 0 None 0 []) :: out)
  end.

Definition mark_peer_alive (peers : list peer) (ip port : Z) : res (list peer) :=
  let* key := print_addr ip port in
  hash_update peers key (fun s => mk_peer (ip_and_port s) (room s) 1).

Fixpoint send_pings (peers : list peer) : res (list peer * sent) :=
  match peers with
  | [] => Ok ([], [])
  | s :: peers =>
      let* a := peer_addr s in
      let* (peers, out) := send_pings peers in
      Ok (mk_peer (ip_and_port s) (room s) 0 :: peers, (a, mk_packet 112 0 None 0 []) :: out)
  end.

(** The loop reads [s->hh.next] after [peer_leave] freed the entry it found for
    the address of [s]. *)
Fixpoint delete_dead (all peers : list peer) : res (list peer * sent) :=
  match peers with
  | [] => Ok (all, [])
  | s :: peers =>
      if alive s =? 0 then
        let* (peer_ip, peer_port) := peer_addr s in
        let* key := print_addr peer_ip peer_port in
        let* f := hash_find all key in
        let* (all, out) := peer_leave all peer_ip peer_port in
        match f with
        | Some _ => Fault UseAfterFree
        | None => let* (all, outs) := delete_dead all peers in Ok (all, out ++ outs)
        end
      else delete_dead all peers
  end.

Definition delete_dead_peers (peers : list peer) : res (list peer * sent) := delete_dead peers peers.

(** the loop of [room_list] (lines 425-449): the numbers and the occupation of
    the rooms, [max_occupants] and [max_room_number] *)
Fixpoint index_rooms (peers : list peer) (room_indexed room_nums room_stats : list Z)
    (max_occupants max_room_number num_rooms_indexed : Z) : res (list Z * list Z * Z * Z) :=
  match peers with
  | [] => Ok (room_nums, room_stats, max_occupants, max_room_number)
  | s :: peers =>
      let room_index := match list_find (fun r => r = room s) room_nums with
                        | Some (a, _) => Z.of_nat a | None => -1 end in
      let* i := rd room_indexed room_index in
      let* (room_indexed, room_nums, room_stats, room_index, num_rooms_indexed) :=
        if i =? 0 then
          let room_index := num_rooms_indexed in
          let* room_nums := wr room_nums room_index (room s) in
          let* room_stats := wr room_stats room_index 1 in
          let* room_indexed := wr room_indexed room_index 1 in
          Ok (room_indexed, room_nums, room_stats, room_index, num_rooms_indexed + 1)
        else
          let* n := rd room_stats room_index in
          let* room_stats := wr room_stats room_index (n + 1) in
          Ok (room_indexed, room_nums, room_stats, room_index, num_rooms_indexed) in
      let* n := rd room_stats room_index in
      let* r := rd room_nums room_index in
      index_rooms peers room_indexed room_nums room_stats
        (Z.max max_occupants n) (Z.max max_room_number r) num_rooms_indexed
  end.

(** [(int)floor(log10((float)x)) + 1]: the number of digits of [x], which is
    exact for the numbers a [float] represents; the logarithm of 0 is not an
    [int] *)
Definition log10_len (x : Z) : res Z := if x =? 0 then Fault Overflow else Ok (zlen (udec x)).

Definition list_entry_format : bytes := str "room: %d - %d/%d" ++ [10].

Definition list_entry (room_num room_stat : Z) : bytes :=
  str "room: " ++ dec (to_int room_num) ++ str " - " ++ dec room_stat ++ 47 :: dec MAX_ROOM_SIZE ++ [10].

(** the loop that prints the entries (lines 466-470): [list_entry] has
    [list_entry_size] bytes, [off] is [list_i - list] *)
Fixpoint print_entries (list_entry_size : Z) (rooms : list (Z * Z)) (list_ : bytes) (off : Z) : res bytes :=
  match rooms with
  | [] => Ok list_
  | (room_num, room_stat) :: rooms =>
      let e := list_entry room_num room_stat in
      check* zlen e + 1 <=? list_entry_size else OutOfBounds in
      let* list_ := blit list_ off (e ++ [0]) in
      print_entries list_entry_size rooms list_ (off + zlen e)
  end.

(** [room_list] from line 451 on: the length and the text of the payload *)
Definition room_list_text (room_nums room_stats : list Z) (max_occupants max_room_number : Z) : res (Z * bytes) :=
  let* max_room_num_len := if max_room_number =? 0 then Ok 1 else log10_len max_room_number in
  let* max_room_size_len := log10_len MAX_ROOM_SIZE in
  let* max_num_room_len := log10_len max_occupants in
  let list_entry_size := max_room_num_len + max_num_room_len + max_room_size_len + zlen list_entry_format in
  let list_size := max_num_room_len * list_entry_size in
  let* list_ := print_entries list_entry_size (zip room_nums room_stats) (replicate (Z.to_nat list_size) junk) 0 in
  let* text := cstr list_ in
  check* zlen text + 1 <=? 1000 else OutOfBounds in
  Ok (list_size, text).

(** An array without elements is undefined. *)
Definition room_list (peers : list peer) : res (Z * bytes) :=
  let* number_of_rooms := get_total_num_rooms peers in
  check* 0 <? number_of_rooms else OutOfBounds in
  let zeros := replicate (Z.to_nat number_of_rooms) 0 in
  let* (room_nums, room_stats, max_occupants, max_room_number) := index_rooms peers zeros zeros zeros 0 0 0 in
  room_list_text room_nums room_stats max_occupants max_room_number.

(** ** The threads *)
(** what the main loop sends: packets, or the text of the room list with the
    length in its header *)
Inductive tracker_reply :=
  | Packets (out : sent)
  | RoomList (to : addr) (payload_length : Z) (text : bytes).

(** the body of the loop of [main] for a packet from [ip] and [port] *)
Definition tracker_receive (peers : list peer) (ip port type room_ : Z) : res (list peer * tracker_reply) :=
  if type =? 99 then let* (peers, out) := peer_create_room peers ip port in Ok (peers, Packets out)
  else if type =? 106 then let* (peers, out) := peer_join peers ip port room_ in Ok (peers, Packets out)
  else if type =? 108 then let* (peers, out) := peer_leave peers ip port in Ok (peers, Packets out)
  else if type =? 114 then let* (n, text) := room_list peers in Ok (peers, RoomList (get_sockaddr_in ip port) n text)
  else Ok (peers, Packets []).

(** the body of the loop of [ping_input] *)
Definition ping_input (peers : list peer) (ip port type : Z) : res (list peer) :=
  if type =? 112 then mark_peer_alive peers ip port else Ok peers.

(** the body of the loop of [ping_output], every five seconds *)
Definition ping_output (peers : list peer) : res (list peer * sent) :=
  let* (peers, out) := delete_dead_peers peers in
  let* (peers, out') := send_pings peers in
  Ok (peers, out ++ out').

(** a request to the tracker, the answer to a ping, and a round of pings *)
Inductive chat_op :=
  | OpCreate (ip port : Z)
  | OpJoin (ip port room_ : Z)
  | OpLeave (ip port : Z)
  | OpAlive (ip port : Z)
  | OpPing.

Definition chat_step (peers : list peer) (op : chat_op) : res (list peer * sent) :=
  match op with
  | OpCreate ip port => peer_create_room peers ip port
  | OpJoin ip port r => peer_join peers ip port r
  | OpLeave ip port => peer_leave peers ip port
  | OpAlive ip port => let* peers := mark_peer_alive peers ip port in Ok (peers, [])
  | OpPing => send_pings peers
  end.

Fixpoint chat_run (peers : list peer) (ops : list chat_op) : res (list peer * list sent) :=
  match ops with
  | [] => Ok (peers, [])
  | op :: ops =>
      let* (peers, out) := chat_step peers op in
      let* (peers, outs) := chat_run peers ops in
      Ok (peers, out :: outs)
  end.
End tracker.

(** ** Specification: a list of addresses with their room and ping state *)
Record entry := mk_entry { eaddr : addr; eroom : Z; ealive : Z }.

Definition members (es : list entry) (r : Z) : list addr := eaddr <$> filter (fun e => eroom e = r) es.

Definition spec_list (es : list entry) (join : addr) (r : Z) : sent :=
  map (fun a =>
    (a, if negb (join.2 =? -1) && negb (join.1 =? 0) && bool_decide (a = join)
        then mk_packet 106 0 (Some r) (16 * zlen (members es r)) (members es r)
        else mk_packet 117 0 None (16 * zlen (members es r)) (members es r))) (members es r).

Definition lookup_addr (es : list entry) (a : addr) : option entry :=
  head (filter (fun e => eaddr e = a) es).

Definition without (es : list entry) (a : addr) : list entry := filter (fun e => eaddr e <> a) es.

Definition rooms_of (es : list entry) : gset Z := list_to_set (eroom <$> es).

Definition err (a : addr) (type error : Z) : sent := [(a, mk_packet type error None 0 [])].

(** the smallest room from [r] on that is not in use *)
Fixpoint smallest_free (es : list entry) (r : Z) (n : nat) : Z :=
  match n with
  | O => r
  | S n => if decide (r ∈ rooms_of es) then smallest_free es (r + 1) n else r
  end.

Definition spec_create (es : list entry) (a : addr) : list entry * sent :=
  if 5 <=? Z.of_nat (size (rooms_of es)) then (es, err a 99 111)
  else match lookup_addr es a with
       | Some _ => (es, err a 99 101)
       | None =>
           let r := smallest_free es 1 9 in
           (es ++ [mk_entry a r 1], [(a, mk_packet 99 0 (Some r) 0 [])])
       end.

Definition spec_join (es : list entry) (a : addr) (r : Z) : list entry * sent :=
  if 5 <=? zlen (members es r) then (es, err a 106 102)
  else if zlen (members es r) =? 0 then (es, err a 106 101)
  else match lookup_addr es a with
       | None => let es := es ++ [mk_entry a r 1] in (es, spec_list es a r)
       | Some e =>
           if eroom e =? r then (es, err a 106 97)
           else let es := without es a ++ [mk_entry a r 1] in
                (es, spec_list es a r ++ spec_list es (0, -1) (eroom e))
       end.

Definition spec_leave (es : list entry) (a : addr) : list entry * sent :=
  match lookup_addr es a with
  | None => (es, err a 108 101)
  | Some e =>
      let es := without es a in
      (es, (a, mk_packet 108 0 None 0 []) :: spec_list es (0, -1) (eroom e))
  end.

Definition set_alive (v : Z) (e : entry) : entry := mk_entry (eaddr e) (eroom e) v.

Definition spec_step (es : list entry) (op : chat_op) : list entry * sent :=
  match op with
  | OpCreate ip port => spec_create es (ip, port)
  | OpJoin ip port r => spec_join es (ip, port) r
  | OpLeave ip port => spec_leave es (ip, port)
  | OpAlive ip port => (map (fun e => if decide (eaddr e = (ip, port)) then set_alive 1 e else e) es, [])
  | OpPing => (map (set_alive 0) es, map (fun e => (eaddr e, mk_packet 112 0 None 0 [])) es)
  end.

Fixpoint spec_run (es : list entry) (ops : list chat_op) : list entry * list sent :=
  match ops with
  | [] => (es, [])
  | op :: ops =>
      let '(es, out) := spec_step es op in
      let '(es, outs) := spec_run es ops in
      (es, out :: outs)
  end.

(** an IPv4 address and a [short] *)
Definition valid (a : addr) : Prop := 0 <= a.1 < 2 ^ 32 /\ - 2 ^ 15 <= a.2 < 2 ^ 15.

Definition valid_op (op : chat_op) : Prop :=
  match op with
  | OpCreate ip port | OpJoin ip port _ | OpLeave ip port | OpAlive ip port => valid (ip, port)
  | OpPing => True
  end.

(** The invariant: an address has one entry, the rooms are 1 to 5, and none has
    more than 5 peers. *)
Record wf (es : list entry) : Prop := {
  wf_nodup : NoDup (eaddr <$> es);
  wf_valid : Forall (fun e => valid (eaddr e)) es;
  wf_rooms : Forall (fun e => 1 <= eroom e <= 5) es;
  wf_size : forall r, zlen (members es r) <= 5 }.

(** ** Lemmas: addresses *)
Definition text (a : addr) : bytes := dec (to_int a.1) ++ 58 :: dec a.2.

Definition array (junk : Z) (a : addr) : bytes := text a ++ 0 :: replicate (19 - length (text a)) junk.

Lemma to_int_range z : - 2 ^ 31 <= to_int z < 2 ^ 31.
Proof. apply (wrap_s_range 32). lia. Qed.

Lemma text_length a : valid a -> (length (text a) <= 18)%nat.
Proof.
  intros [_ Hp]. unfold text. rewrite length_app. cbn [length].
  pose proof (dec_length10 9 (to_int a.1)) as H1. pose proof (dec_length10 4 a.2) as H2.
  pose proof (to_int_range a.1). change (10 ^ Z.of_nat 10) with 10000000000 in H1.
  change (10 ^ Z.of_nat 5) with 100000 in H2. lia.
Qed.

Lemma text_no_nul a : no_nul (text a).
Proof.
  unfold text. apply no_nul_app. split; [|constructor; [done|]]; apply dec_no_nul.
Qed.

Lemma print_addr_array junk a : valid a -> print_addr junk a.1 a.2 = Ok (array junk a).
Proof.
  intros Ha. pose proof (text_length a Ha) as Hl. unfold print_addr, array.
  assert (dec (to_int a.1) ++ 58 :: dec a.2 ++ [0] = text a ++ [0]) as -> 
    by (unfold text; by rewrite <- (app_assoc (dec (to_int a.1)) (58 :: dec a.2) [0])).
  rewrite <- (take_drop (S (length (text a))) (replicate 20 junk)).
  rewrite blit_prefix by (unfold zlen; rewrite length_app, length_take, length_replicate; cbn [length]; lia).
  rewrite <- app_assoc, drop_replicate. cbn [app].
  by replace (20 - S (length (text a)))%nat with (19 - length (text a))%nat by lia.
Qed.

Lemma index_of_app s c m i n :
  Forall (fun b => b <> c) s -> (length s < n)%nat -> index_of (s ++ c :: m) c i n = Ok (i + zlen s).
Proof.
  intros Hs. revert i n. induction Hs as [|b s Hb Hs IH]; intros i [|n] Hn; simpl in Hn; [lia| |lia|].
  - cbn [index_of app deref res_bind]. rewrite Z.eqb_refl. change (zlen (@nil Z)) with 0. by rewrite Z.add_0_r.
  - cbn [index_of app deref res_bind tail]. rewrite (proj2 (Z.eqb_neq b c) Hb), IH by lia.
    rewrite zlen_cons. f_equal. lia.
Qed.

Lemma strn_exact s m : no_nul s -> strn (s ++ m) (length s) = Ok s.
Proof.
  induction 1 as [|b s Hb Hs IH]; [done|]. cbn [strn app length]. rewrite (proj2 (Z.eqb_neq b 0) Hb). by rewrite IH.
Qed.

Lemma port_bounds_skip s m i start n :
  Forall (fun b => b <> 0 /\ b <> 58) s -> (length s <= n)%nat ->
  port_bounds (s ++ m) i start n = port_bounds m (i + zlen s) start (n - length s).
Proof.
  intros Hs. revert i n. induction Hs as [|b s [Hb Hc] Hs IH]; intros i n Hn.
  - change (zlen (@nil Z)) with 0. by rewrite Z.add_0_r, Nat.sub_0_r.
  - destruct n as [|n]; simpl in Hn; [lia|]. cbn [port_bounds app deref res_bind tail length].
    rewrite (proj2 (Z.eqb_neq b 58) Hc), andb_false_r, (proj2 (Z.eqb_neq b 0) Hb), IH by lia.
    rewrite zlen_cons. f_equal; lia.
Qed.

Lemma get_ip_text a m : valid a -> get_ip (text a ++ m) = Ok a.1.
Proof.
  intros Ha. pose proof (text_length a Ha) as Hl. unfold text in *. rewrite length_app in Hl. cbn [length] in Hl.
  unfold get_ip. rewrite <- app_assoc. cbn [app].
  rewrite index_of_app; [|apply dec_no_colon|lia]. cbn [res_bind].
  replace (Z.to_nat (0 + zlen (dec (to_int a.1)))) with (length (dec (to_int a.1))) by (unfold zlen; lia).
  rewrite strn_exact by apply dec_no_nul. cbn [res_bind].
  pose proof (to_int_range a.1). rewrite strtoul0_dec by (unfold LLONG_MIN, LLONG_MAX; lia). cbn [res_bind]. f_equal.
  rewrite mod_mod_pow by lia. unfold to_int. rewrite wrap_s_congr by lia. apply Z.mod_small, Ha.
Qed.

Lemma get_port_text a m : valid a -> get_port (text a ++ 0 :: m) = Ok a.2.
Proof.
  intros Ha. pose proof (text_length a Ha) as Hl. unfold text in *. rewrite length_app in Hl. cbn [length] in Hl.
  unfold get_port. rewrite <- app_assoc. cbn [app]. set (s := dec (to_int a.1)) in *. set (t := dec a.2) in *.
  rewrite (port_bounds_skip s) by (apply dec_chars || lia).
  destruct (20 - length s)%nat as [|n] eqn:En; [lia|]. cbn [port_bounds deref res_bind tail]. cbn [Z.eqb Pos.eqb andb].
  rewrite (port_bounds_skip t) by (apply dec_chars || lia).
  destruct (n - length t)%nat as [|k] eqn:Ek; [lia|]. cbn [port_bounds deref res_bind tail].
  pose proof (zlen_nonneg s). pose proof (zlen_nonneg t).
  rewrite (proj2 (Z.eqb_neq (0 + zlen s + 1) (-1))) by lia. cbn [andb Z.eqb res_bind].
  rewrite (proj2 (Z.leb_le 0 _)), (proj2 (Z.leb_le (0 + zlen s + 1) _)) by lia. cbn [andb].
  assert (drop (Z.to_nat (0 + zlen s + 1)) (s ++ 58 :: t ++ 0 :: m) = t ++ 0 :: m) as ->.
  { replace (Z.to_nat (0 + zlen s + 1)) with (length (s ++ [58])) by (rewrite length_app; unfold zlen; cbn [length]; lia).
    change (58 :: t ++ 0 :: m) with ([58] ++ t ++ 0 :: m). by rewrite app_assoc, drop_app_length. }
  replace (Z.to_nat (0 + zlen s + 1 + zlen t - (0 + zlen s + 1))) with (length t) by (unfold zlen; lia).
  rewrite strn_exact by apply dec_no_nul. cbn [res_bind]. destruct Ha as [_ Hp].
  unfold t. rewrite strtoul0_dec by (unfold LLONG_MIN, LLONG_MAX; lia). cbn [res_bind]. f_equal.
  rewrite wrap_s_mod_larger by lia. apply wrap_s_small; simpl in *; lia.
Qed.

(** ** Lemmas: the table *)
Section table.
Variable junk : Z.

Definition conc (e : entry) : peer := mk_peer (array junk (eaddr e)) (eroom e) (ealive e).

Abbreviation all_valid es := (Forall (fun e => valid (eaddr e)) es).

Lemma peer_addr_conc e : valid (eaddr e) -> peer_addr (conc e) = Ok (eaddr e).
Proof.
  intros He. unfold peer_addr, conc. cbn [ip_and_port]. unfold array.
  rewrite get_ip_text by done. cbn [res_bind]. rewrite get_port_text by done. by destruct (eaddr e).
Qed.

(** Different addresses have different texts, since the text can be read back. *)
Lemma text_inj a b : valid a -> valid b -> text a = text b -> a = b.
Proof.
  intros Ha Hb E. pose proof (get_ip_text a [0] Ha) as H1. pose proof (get_ip_text b [0] Hb) as H2.
  pose proof (get_port_text a [] Ha) as H3. pose proof (get_port_text b [] Hb) as H4.
  rewrite E in H1, H3. rewrite H1 in H2. rewrite H3 in H4. destruct a, b. simpl in *. by simplify_eq.
Qed.

Lemma array_cmp a b :
  valid a -> valid b -> exists d, strcmp (array junk a) (array junk b) = Ok d /\ (d = 0 <-> a = b).
Proof.
  intros Ha Hb. unfold array.
  destruct (strcmp_cstr (text a ++ 0 :: replicate (19 - length (text a)) junk) (text b ++ 0 :: replicate (19 - length (text b)) junk)
    (text a) (text b)) as (d & -> & Hd); [apply cstr_app, text_no_nul..|].
  exists d. split; [done|]. rewrite Hd. split; [by apply text_inj|by intros ->].
Qed.

Lemma hash_find_conc es a :
  all_valid es -> valid a -> hash_find (map conc es) (array junk a) = Ok (conc <$> lookup_addr es a).
Proof.
  intros Hes Ha. unfold lookup_addr. induction Hes as [|e es He Hes IH]; [done|]. cbn [map hash_find ip_and_port conc].
  destruct (array_cmp (eaddr e) a He Ha) as (d & -> & Hd). cbn [res_bind]. bdestruct (d =? 0).
  - by rewrite filter_cons_True by tauto.
  - by rewrite filter_cons_False by tauto.
Qed.

Lemma without_absent es a : a ∉ eaddr <$> es -> without es a = es.
Proof.
  unfold without. induction es as [|e es IH]; [done|]. cbn [fmap list_fmap]. intros [Hne Hni]%not_elem_of_cons.
  rewrite filter_cons_True by done. by rewrite IH.
Qed.

Lemma hash_del_conc es a :
  all_valid es -> NoDup (eaddr <$> es) -> valid a ->
  hash_del (map conc es) (array junk a) = Ok (map conc (without es a)).
Proof.
  intros Hes Hn Ha. unfold without. induction Hes as [|e es He Hes IH]; [done|].
  cbn [fmap list_fmap] in Hn. apply NoDup_cons in Hn as [Hni Hn]. cbn [map hash_del ip_and_port conc].
  destruct (array_cmp (eaddr e) a He Ha) as (d & -> & Hd). cbn [res_bind]. bdestruct (d =? 0).
  - rewrite filter_cons_False by tauto. fold (without es a). rewrite without_absent; [done|].
    assert (eaddr e = a) as <- by tauto. done.
  - rewrite filter_cons_True by tauto. cbn [map]. rewrite (IH Hn). done.
Qed.

Lemma hash_update_conc es a :
  all_valid es -> NoDup (eaddr <$> es) -> valid a ->
  hash_update (map conc es) (array junk a) (fun s => mk_peer (ip_and_port s) (room s) 1) =
  Ok (map conc (map (fun e => if decide (eaddr e = a) then set_alive 1 e else e) es)).
Proof.
  intros Hes Hn Ha. induction Hes as [|e es He Hes IH]; [done|].
  cbn [fmap list_fmap] in Hn. apply NoDup_cons in Hn as [Hni Hn]. cbn [map hash_update ip_and_port conc].
  destruct (array_cmp (eaddr e) a He Ha) as (d & -> & Hd). cbn [res_bind]. bdestruct (d =? 0).
  - assert (eaddr e = a) as E by tauto. rewrite decide_True by done. do 2 f_equal.
    rewrite <- (map_id es) at 1. rewrite !map_map. apply map_ext_in. intros e' He'.
    rewrite decide_False; [done|]. intros E'. apply Hni. rewrite E, <- E'. apply list_elem_of_fmap_2. by apply list_elem_of_In.
  - rewrite decide_False by tauto. rewrite (IH Hn). done.
Qed.

Lemma addrs_in_conc es r : all_valid es -> addrs_in (map conc es) r = Ok (members es r).
Proof.
  unfold members. induction 1 as [|e es He Hes IH]; [done|]. cbn [map addrs_in room conc]. bdestruct (eroom e =? r).
  - rewrite filter_cons_True by done. rewrite peer_addr_conc by done. cbn [res_bind]. by rewrite IH.
  - by rewrite filter_cons_False by done.
Qed.

Lemma send_list_conc l es join r :
  all_valid es ->
  send_list (map conc es) join.1 join.2 r l = Ok (map (fun a =>
    (a, if negb (join.2 =? -1) && negb (join.1 =? 0) && bool_decide (a = join)
        then mk_packet 106 0 (Some r) (16 * zlen l) l else mk_packet 117 0 None (16 * zlen l) l)) (members es r)).
Proof.
  intros Hes. destruct join as [ji jp]. cbn [fst snd]. unfold members.
  induction Hes as [|e es He Hes IH]; [done|]. cbn [map send_list room conc]. bdestruct (eroom e =? r).
  - rewrite filter_cons_True by done. rewrite peer_addr_conc by done. cbn [res_bind].
    destruct (eaddr e) as [i q] eqn:E. rewrite IH. cbn [res_bind fmap list_fmap map]. rewrite E. do 3 f_equal.
    rewrite <- !andb_assoc. replace ((i =? ji) && (q =? jp)) with (bool_decide ((i, q) = (ji, jp))); [done|].
    destruct (Z.eqb_spec i ji), (Z.eqb_spec q jp);
      first [rewrite bool_decide_true by congruence | rewrite bool_decide_false by congruence]; done.
  - by rewrite filter_cons_False by done.
Qed.

Lemma peer_list_conc es join r :
  all_valid es -> 16 * zlen (members es r) <= 1000 ->
  peer_list (map conc es) join.1 join.2 r = Ok (spec_list es join r).
Proof.
  intros Hes Hl. unfold peer_list. rewrite addrs_in_conc by done. cbn [res_bind]. rewrite (proj2 (Z.leb_le _ _)) by done.
  by apply send_list_conc.
Qed.
(** ** Lemmas: rooms *)
Lemma members_cons e es r :
  members (e :: es) r = if decide (eroom e = r) then eaddr e :: members es r else members es r.
Proof.
  unfold members. destruct (decide _); [by rewrite filter_cons_True|by rewrite filter_cons_False].
Qed.

Lemma room_exists_conc es r k b :
  0 <= k <= 4 ->
  room_exists (map conc es) r k b =
  if 5 <=? k + zlen (members es r) then None else Some (b || negb (zlen (members es r) =? 0)).
Proof.
  unfold MAX_ROOM_SIZE. revert k b. induction es as [|e es IH]; intros k b Hk.
  - cbn [map room_exists]. change (members [] r) with (@nil addr). change (zlen (@nil addr)) with 0.
    rewrite (proj2 (Z.leb_gt 5 (k + 0))) by lia. cbn. by rewrite orb_false_r.
  - rewrite members_cons. cbn [map room_exists room conc]. bdestruct (eroom e =? r).
    + rewrite decide_True by done. rewrite zlen_cons. pose proof (zlen_nonneg (members es r)). unfold MAX_ROOM_SIZE.
      rewrite (proj2 (Z.eqb_neq (1 + zlen (members es r)) 0)) by lia. rewrite orb_true_r.
      bdestruct (5 <=? k + 1); [by rewrite (proj2 (Z.leb_le 5 _)) by lia|].
      rewrite IH by lia. by rewrite Z.add_assoc.
    + rewrite decide_False by done. by apply IH.
Qed.

Lemma room_known_prefix l m r :
  room_known (l ++ replicate m 0) (replicate (length l) 1 ++ replicate m 0) r = bool_decide (r ∈ l).
Proof.
  induction l as [|x l IH].
  { rewrite bool_decide_false by apply not_elem_of_nil. induction m as [|m IHm]; [done|]. cbn. by rewrite andb_false_r. }
  cbn [length replicate app room_known]. rewrite IH.
  bdestruct (x =? r); cbn [andb orb Z.eqb Pos.eqb].
  - rewrite bool_decide_true; [done|]. subst. by left.
  - apply bool_decide_ext. rewrite elem_of_cons. split; [by right|]. intros [?|?]; [by subst|done].
Qed.

Lemma rooms_le_5 l : NoDup l -> Forall (fun r => 1 <= r <= 5) l -> (length l <= 5)%nat.
Proof.
  intros Hn Hl. apply (submseteq_length l [1; 2; 3; 4; 5]), NoDup_submseteq; [done|].
  intros r Hr. rewrite Forall_forall in Hl. specialize (Hl r Hr). rewrite !elem_of_cons. lia.
Qed.

Lemma wr_prefix l m x :
  wr (l ++ replicate (S m) 0) (zlen l) x = Ok ((l ++ [x]) ++ replicate m 0).
Proof.
  unfold wr. rewrite zlen_app, zlen_replicate. pose proof (zlen_nonneg l).
  rewrite (proj2 (Z.leb_le 0 _)), (proj2 (Z.ltb_lt _ _)) by lia. cbn [andb]. f_equal.
  unfold zlen. rewrite Nat2Z.id, insert_app_r_alt by lia. rewrite Nat.sub_diag, <- app_assoc. done.
Qed.

Lemma count_rooms_conc es : Forall (fun e => 1 <= eroom e <= 5) es -> forall l,
  NoDup l -> Forall (fun r => 1 <= r <= 5) l ->
  count_rooms (map conc es) (l ++ replicate (5 - length l) 0) (replicate (length l) 1 ++ replicate (5 - length l) 0) (zlen l) =
  Ok (Z.of_nat (size (list_to_set l ∪ rooms_of es))).
Proof.
  induction 1 as [|e es He Hes IH]; intros l Hn Hl.
  - cbn [map count_rooms]. unfold rooms_of. cbn [fmap list_fmap list_to_set]. rewrite (right_id_L ∅ (∪)).
    by rewrite size_list_to_set.
  - cbn [map count_rooms room conc]. rewrite room_known_prefix.
    assert (rooms_of (e :: es) = {[eroom e]} ∪ rooms_of es) as -> by done.
    destruct (bool_decide _) eqn:Eb.
    + apply bool_decide_eq_true in Eb. rewrite IH by done. do 3 f_equal. clear -Eb. set_solver.
    + apply bool_decide_eq_false in Eb. assert (NoDup (l ++ [eroom e])) as Hn'.
      { apply NoDup_app. split; [done|]. split; [|apply NoDup_singleton]. intros x Hx Hx'%list_elem_of_singleton. by subst. }
      assert (Forall (fun r => 1 <= r <= 5) (l ++ [eroom e])) as Hl' by (apply Forall_app; split; [done|by constructor]).
      pose proof (rooms_le_5 _ Hn' Hl') as Hlen. rewrite length_app in Hlen. cbn [length] in Hlen.
      destruct (5 - length l)%nat as [|m] eqn:Em; [lia|].
      pose proof (wr_prefix (replicate (length l) 1) m 1) as E. rewrite zlen_replicate in E. fold (zlen l) in E.
      rewrite E. cbn [res_bind]. rewrite wr_prefix. cbn [res_bind].
      specialize (IH (l ++ [eroom e]) Hn' Hl'). rewrite length_app, zlen_app in IH. cbn [length] in IH.
      change (zlen [eroom e]) with 1 in IH. rewrite replicate_add in IH. change (replicate 1 1) with [1] in IH.
      replace (5 - (length l + 1))%nat with m in IH by lia. rewrite IH. do 3 f_equal.
      rewrite list_to_set_app_L. cbn [list_to_set]. set_solver.
Qed.

Lemma get_total_num_rooms_conc es :
  Forall (fun e => 1 <= eroom e <= 5) es ->
  get_total_num_rooms (map conc es) = Ok (Z.of_nat (size (rooms_of es))).
Proof.
  intros Hes. pose proof (count_rooms_conc es Hes [] ltac:(apply NoDup_nil_2) ltac:(constructor)) as E.
  unfold get_total_num_rooms. etrans; [exact E|]. do 3 f_equal. set_solver.
Qed.

Lemma free_room_conc es r n : free_room (map conc es) r n = smallest_free es r n.
Proof.
  revert r. induction n as [|n IH]; intros r; [done|]. cbn [free_room smallest_free].
  replace (existsb (fun s => room s =? r) (map conc es)) with (bool_decide (r ∈ rooms_of es)).
  - rewrite IH. by destruct (decide (r ∈ rooms_of es)); [rewrite bool_decide_true|rewrite bool_decide_false].
  - clear IH. unfold rooms_of. induction es as [|e es IHe]; [done|]. cbn [map existsb room conc]. rewrite <- IHe.
    bdestruct (eroom e =? r); cbn [orb].
    + rewrite bool_decide_true; [done|]. cbn. set_solver.
    + apply bool_decide_ext. cbn. set_solver.
Qed.

Lemma smallest_free_spec es r n :
  r <= smallest_free es r n <= r + Z.of_nat n /\
  (forall q, r <= q < smallest_free es r n -> q ∈ rooms_of es) /\
  (smallest_free es r n < r + Z.of_nat n -> smallest_free es r n ∉ rooms_of es).
Proof.
  revert r. induction n as [|n IH]; intros r; cbn [smallest_free]; [split; [lia|]; split; lia|].
  destruct (decide (r ∈ rooms_of es)) as [Hin|Hout]; [|split; [lia|]; split; [lia|done]].
  destruct (IH (r + 1)) as (H1 & H2 & H3). split; [lia|]. split.
  - intros q Hq. destruct (decide (q = r)) as [->|]; [done|]. apply H2. lia.
  - intros Hlt. apply H3. lia.
Qed.

(** With less than five rooms in use, one of 1 to 5 is free. *)
Lemma smallest_free_small es :
  (size (rooms_of es) < 5)%nat ->
  1 <= smallest_free es 1 9 <= 5 /\ (smallest_free es 1 9 ∉ rooms_of es) /\
  forall q, 1 <= q < smallest_free es 1 9 -> q ∈ rooms_of es.
Proof.
  intros Hs. destruct (smallest_free_spec es 1 9) as (H1 & H2 & H3).
  assert (smallest_free es 1 9 <= 5) as H5.
  { destruct (Z_le_gt_dec (smallest_free es 1 9) 5) as [|Hgt]; [done|exfalso].
    assert (list_to_set [1; 2; 3; 4; 5] ⊆ rooms_of es) as Hsub.
    { intros q Hq%elem_of_list_to_set. apply H2. rewrite !elem_of_cons in Hq.
      destruct Hq as [->|[->|[->|[->|[->|[]%not_elem_of_nil]]]]]; lia. }
    apply subseteq_size in Hsub. change (size (list_to_set [1; 2; 3; 4; 5] : gset Z)) with 5%nat in Hsub. lia. }
  split; [lia|]. split; [apply H3; lia|done].
Qed.

(** ** Lemmas: the invariant *)
Lemma wf_nil : wf [].
Proof. constructor; [apply NoDup_nil_2|constructor..|]. intros r. done. Qed.

Lemma members_app es es' r : members (es ++ es') r = members es r ++ members es' r.
Proof. unfold members. by rewrite filter_app, fmap_app. Qed.

Lemma lookup_addr_Some es a e : lookup_addr es a = Some e -> e ∈ es /\ eaddr e = a.
Proof.
  unfold lookup_addr. destruct (filter _ es) as [|e' l] eqn:E; [done|]. intros [= ->].
  assert (e ∈ filter (fun e => eaddr e = a) es) as H by (rewrite E; by left).
  apply list_elem_of_filter in H as [? ?]. done.
Qed.

Lemma lookup_addr_None es a : lookup_addr es a = None -> a ∉ eaddr <$> es.
Proof.
  unfold lookup_addr. destruct (filter _ es) as [|e' l] eqn:E; [|done]. intros _ Hin.
  apply list_elem_of_fmap in Hin as (e & -> & He).
  assert (e ∈ filter (fun e' => eaddr e' = eaddr e) es) as H by (apply list_elem_of_filter; done).
  rewrite E in H. by apply not_elem_of_nil in H.
Qed.

Lemma without_elem es a e : e ∈ without es a <-> e ∈ es /\ eaddr e <> a.
Proof. unfold without. rewrite list_elem_of_filter. tauto. Qed.

Lemma members_without es a r : zlen (members (without es a) r) <= zlen (members es r).
Proof.
  unfold without. induction es as [|e es IH]; [done|]. rewrite members_cons. destruct (decide (eaddr e = a)).
  - rewrite filter_cons_False by tauto. destruct (decide _); [rewrite zlen_cons|]; lia.
  - rewrite filter_cons_True by done. rewrite members_cons. destruct (decide _); [rewrite !zlen_cons|]; lia.
Qed.

Lemma wf_without es a : wf es -> wf (without es a).
Proof.
  intros [Hn Hv Hr Hs]. constructor.
  - unfold without. clear -Hn. induction es as [|e es IH]; [done|]. cbn [fmap list_fmap] in Hn. apply NoDup_cons in Hn as [Hni Hn].
    destruct (decide (eaddr e = a)); [rewrite filter_cons_False by tauto; by apply IH|].
    rewrite filter_cons_True by done. cbn [fmap list_fmap]. apply NoDup_cons. split; [|by apply IH].
    intros (e' & E & He')%list_elem_of_fmap. apply list_elem_of_filter in He' as [_ He']. apply Hni. rewrite E.
    by apply list_elem_of_fmap_2.
  - apply Forall_forall. intros e [He _]%without_elem. by rewrite Forall_forall in Hv; apply Hv.
  - apply Forall_forall. intros e [He _]%without_elem. by rewrite Forall_forall in Hr; apply Hr.
  - intros r. pose proof (members_without es a r). specialize (Hs r). lia.
Qed.

Lemma wf_add es a r :
  wf es -> a ∉ eaddr <$> es -> valid a -> 1 <= r <= 5 -> zlen (members es r) < 5 -> wf (es ++ [mk_entry a r 1]).
Proof.
  intros [Hn Hv Hr Hs] Ha Hva Hr5 Hlt. constructor.
  - rewrite fmap_app. apply NoDup_app. split; [done|]. split; [|apply NoDup_singleton].
    intros x Hx Hx'%list_elem_of_singleton. cbn in Hx'. by subst.
  - apply Forall_app. split; [done|]. by constructor.
  - apply Forall_app. split; [done|]. by constructor.
  - intros q. rewrite members_app, members_cons, zlen_app. cbn [eroom eaddr]. specialize (Hs q).
    destruct (decide (r = q)) as [->|]; [change (zlen (a :: members [] q)) with 1; lia|change (zlen (members [] q)) with 0; lia].
Qed.

Lemma wf_map_alive f es :
  (forall e, eaddr (f e) = eaddr e /\ eroom (f e) = eroom e) -> wf es -> wf (map f es).
Proof.
  intros Hf [Hn Hv Hr Hs].
  assert (eaddr <$> map f es = eaddr <$> es) as Ea.
  { clear -Hf. induction es as [|e es IH]; [done|]. cbn [map fmap list_fmap]. destruct (Hf e) as [-> _]. f_equal. apply IH. }
  assert (forall r, members (map f es) r = members es r) as Em.
  { intros r. clear -Hf. induction es as [|e es IH]; [done|]. cbn [map]. rewrite !members_cons, IH. by destruct (Hf e) as [-> ->]. }
  constructor; [by rewrite Ea|..].
  - clear -Hf Hv. induction Hv as [|e es He Hv IH]; constructor; [|done]. by destruct (Hf e) as [-> _].
  - clear -Hf Hr. induction Hr as [|e es He Hr IH]; constructor; [|done]. by destruct (Hf e) as [_ ->].
  - intros r. by rewrite Em.
Qed.

(** ** Lemmas: refinement of the operations *)
Definition refines (r : res (list peer * sent)) (sp : list entry * sent) : Prop :=
  r = Ok (map conc sp.1, sp.2) /\ wf sp.1.

Lemma peer_list_wf es join r : wf es -> peer_list (map conc es) join.1 join.2 r = Ok (spec_list es join r).
Proof. intros [_ Hv _ Hs]. apply peer_list_conc; [done|]. specialize (Hs r). lia. Qed.

Lemma create_refines es a : wf es -> valid a -> refines (peer_create_room junk (map conc es) a.1 a.2) (spec_create es a).
Proof.
  intros Hwf Ha. pose proof Hwf as [Hn Hv Hr Hs]. destruct a as [ip port] eqn:Ea. rewrite <- Ea in *.
  unfold peer_create_room, spec_create, MAX_NUM_ROOMS. rewrite get_total_num_rooms_conc by done. cbn [res_bind].
  bdestruct (5 <=? Z.of_nat (size (rooms_of es))); [split; [by subst a|done]|].
  rewrite print_addr_array by done. cbn [res_bind]. rewrite hash_find_conc by done. cbn [res_bind].
  destruct (lookup_addr es a) as [e|] eqn:El; [split; [by subst a|done]|]. cbn [fmap option_fmap option_map].
  destruct (smallest_free_small es) as (H1 & H2 & _); [lia|].
  change (Z.to_nat (5 * 2 - 1)) with 9%nat. rewrite free_room_conc. split; cbn [fst snd].
  - rewrite map_app. by subst a.
  - apply wf_add; [done|by apply lookup_addr_None|done|done|].
    destruct (members es (smallest_free es 1 9)) as [|x l] eqn:Em; [done|]. exfalso. apply H2.
    assert (x ∈ members es (smallest_free es 1 9)) as Hx by (rewrite Em; by left). unfold members in Hx.
    apply list_elem_of_fmap in Hx as (e & _ & He). apply list_elem_of_filter in He as [E He].
    unfold rooms_of. rewrite <- E. apply elem_of_list_to_set. by apply list_elem_of_fmap_2.
Qed.

Lemma join_refines es a r : wf es -> valid a -> refines (peer_join junk (map conc es) a.1 a.2 r) (spec_join es a r).
Proof.
  intros Hwf Ha. pose proof Hwf as [Hn Hv Hr Hs]. unfold peer_join, spec_join. rewrite room_exists_conc by lia.
  rewrite Z.add_0_l. bdestruct (5 <=? zlen (members es r)); [by destruct a|].
  bdestruct (zlen (members es r) =? 0); cbn [negb orb]; [by destruct a|].
  assert (1 <= r <= 5) as Hr5.
  { destruct (members es r) as [|x l] eqn:Em; [done|]. assert (x ∈ members es r) as Hx by (rewrite Em; by left).
    unfold members in Hx. apply list_elem_of_fmap in Hx as (e & _ & He). apply list_elem_of_filter in He as [<- He].
    by rewrite Forall_forall in Hr; apply Hr. }
  rewrite print_addr_array by done. cbn [res_bind]. rewrite hash_find_conc by done. cbn [res_bind].
  destruct (lookup_addr es a) as [e|] eqn:El; cbn [fmap option_fmap option_map room conc].
  - destruct (lookup_addr_Some _ _ _ El) as [He Hea].
    bdestruct (eroom e =? r); [by destruct a|]. rewrite hash_del_conc by done. cbn [res_bind].
    assert (wf (without es a ++ [mk_entry a r 1])) as Hwf'.
    { apply wf_add; [by apply wf_without| |done|done|pose proof (members_without es a r); lia].
      intros (e' & E & He')%list_elem_of_fmap. by apply without_elem in He' as [_ []]. }
    change [mk_peer (array junk a) r 1] with (map conc [mk_entry a r 1]). rewrite <- map_app.
    rewrite (peer_list_wf _ a) by done. cbn [res_bind].
    assert (1 <= eroom e <= 5) as Hre by (by rewrite Forall_forall in Hr; apply Hr).
    rewrite to_int_id by bounds. rewrite (proj2 (Z.eqb_neq (eroom e) (-1))) by lia. cbn [negb].
    rewrite Z.mod_small by lia. by rewrite (peer_list_wf _ (0, -1)).
  - change [mk_peer (array junk a) r 1] with (map conc [mk_entry a r 1]). rewrite <- map_app.
    assert (wf (es ++ [mk_entry a r 1])) as Hwf' by (apply wf_add; [done|by apply lookup_addr_None|done|done|lia]).
    by rewrite (peer_list_wf _ a).
Qed.

Lemma leave_refines es a : wf es -> valid a -> refines (peer_leave junk (map conc es) a.1 a.2) (spec_leave es a).
Proof.
  intros Hwf Ha. pose proof Hwf as [Hn Hv Hr Hs]. unfold peer_leave, spec_leave.
  rewrite print_addr_array by done. cbn [res_bind]. rewrite hash_find_conc by done. cbn [res_bind].
  destruct (lookup_addr es a) as [e|] eqn:El; cbn [fmap option_fmap option_map room conc]; [|by destruct a].
  rewrite hash_del_conc by done. cbn [res_bind]. pose proof (wf_without es a Hwf) as Hwf'.
  rewrite (peer_list_wf _ (0, -1)) by done. by destruct a.
Qed.

Lemma send_pings_conc es :
  Forall (fun e => valid (eaddr e)) es ->
  send_pings (map conc es) = Ok (map conc (map (set_alive 0) es), map (fun e => (eaddr e, mk_packet 112 0 None 0 [])) es).
Proof.
  induction 1 as [|e es He Hes IH]; [done|]. cbn [map send_pings]. rewrite peer_addr_conc by done. cbn [res_bind].
  by rewrite IH.
Qed.

Lemma chat_step_refines es op : wf es -> valid_op op -> refines (chat_step junk (map conc es) op) (spec_step es op).
Proof.
  intros Hwf Hop. destruct op as [ip port|ip port r|ip port|ip port|]; cbn [chat_step spec_step valid_op] in *.
  - by apply (create_refines es (ip, port)).
  - by apply (join_refines es (ip, port)).
  - by apply (leave_refines es (ip, port)).
  - pose proof Hwf as [Hn Hv Hr Hs]. unfold mark_peer_alive. pose proof (print_addr_array junk (ip, port) Hop) as E. cbn [fst snd] in E.
    rewrite E. cbn [res_bind].
    rewrite hash_update_conc by done. split; [done|]. cbn [fst]. apply wf_map_alive; [|done].
    intros e. by destruct (decide _).
  - rewrite send_pings_conc by apply Hwf. split; [done|]. by apply wf_map_alive.
Qed.

Lemma chat_run_refines es ops :
  wf es -> Forall valid_op ops ->
  chat_run junk (map conc es) ops = Ok (map conc (spec_run es ops).1, (spec_run es ops).2) /\ wf (spec_run es ops).1.
Proof.
  intros Hwf Hops. revert es Hwf. induction Hops as [|op ops Hop Hops IH]; intros es Hwf; [done|].
  destruct (chat_step_refines es op Hwf Hop) as [E Hwf']. cbn [chat_run spec_run]. rewrite E. cbn [res_bind].
  destruct (spec_step es op) as [es' out]. cbn [fst snd] in *. destruct (IH es' Hwf') as [-> Hwf''].
  by destruct (spec_run es' ops).
Qed.

(** ** Lemmas: dead peers and the room list *)
Lemma delete_dead_conc all es :
  wf all -> (forall e, e ∈ es -> e ∈ all) ->
  delete_dead junk (map conc all) (map conc es) =
  if forallb (fun e => negb (ealive e =? 0)) es then Ok (map conc all, []) else Fault UseAfterFree.
Proof.
  intros Hwf. induction es as [|e es IH]; intros Hin; [done|]. cbn [map delete_dead alive conc forallb].
  destruct (ealive e =? 0); cbn [negb andb]; [|apply IH; intros e' He'; apply Hin; by right].
  assert (e ∈ all) as He by (apply Hin; by left). pose proof Hwf as [Hn Hv _ _].
  assert (valid (eaddr e)) as Hve by (by rewrite Forall_forall in Hv; apply Hv).
  fold (conc e). rewrite peer_addr_conc by done. cbn [res_bind]. pose proof (print_addr_array junk (eaddr e) Hve) as Ep.
  pose proof (leave_refines all (eaddr e) Hwf Hve) as [El _].
  destruct (eaddr e) as [ip port] eqn:Ea. cbn [fst snd] in Ep, El. rewrite Ep. cbn [res_bind].
  rewrite hash_find_conc by done. cbn [res_bind]. rewrite El. cbn [res_bind].
  destruct (lookup_addr all (ip, port)) as [e'|] eqn:Ef; [done|]. exfalso.
  apply lookup_addr_None in Ef. apply Ef. rewrite <- Ea. by apply list_elem_of_fmap_2.
Qed.

Lemma room_list_conc es : wf es -> room_list junk (map conc es) = Fault OutOfBounds.
Proof.
  intros [_ _ Hr _]. unfold room_list. rewrite get_total_num_rooms_conc by done. cbn [res_bind].
  destruct es as [|e es]; [done|]. set (n := Z.of_nat _). destruct (0 <? n); [|done].
  cbn [map index_rooms room conc].
  assert (forall m, list_find (fun r => r = eroom e) (replicate m 0) = None) as ->; [|done].
  intros m. apply list_find_None, Forall_replicate. apply Forall_cons in Hr as [? _]. lia.
Qed.

(** a number of one digit *)
Lemma dec_digit z : 1 <= z <= 5 -> to_int z = z /\ exists d, dec z = [d] /\ udec z = [d].
Proof.
  intros Hz. split; [apply to_int_id; bounds|].
  assert (z = 1 \/ z = 2 \/ z = 3 \/ z = 4 \/ z = 5) as [E|[E|[E|[E|E]]]] by lia; subst z; eexists; split; reflexivity.
Qed.

Lemma list_entry_length r n : 1 <= r <= 5 -> 1 <= n <= 5 -> zlen (list_entry r n) = 14.
Proof.
  intros Hr Hn. unfold list_entry. destruct (dec_digit r Hr) as (-> & d & -> & _). by destruct (dec_digit n Hn) as (_ & e & -> & _).
Qed.

Lemma room_list_text_overflow r r' nums n n' stats occ room_ :
  1 <= r <= 5 -> 1 <= r' <= 5 -> 1 <= n <= 5 -> 1 <= n' <= 5 -> 1 <= occ <= 5 -> 1 <= room_ <= 5 ->
  room_list_text junk (r :: r' :: nums) (n :: n' :: stats) occ room_ = Fault OutOfBounds.
Proof.
  intros Hr Hr' Hn Hn' Ho Hm. unfold room_list_text, log10_len. rewrite !(proj2 (Z.eqb_neq _ 0)) by (unfold MAX_ROOM_SIZE; lia).
  destruct (dec_digit room_ Hm) as (_ & d & _ & ->). destruct (dec_digit occ Ho) as (_ & e & _ & ->).
  change (zlen [d]) with 1. change (zlen [e]) with 1. change (zlen (udec MAX_ROOM_SIZE)) with 1.
  assert (zlen list_entry_format = 17) as -> by reflexivity. cbn [res_bind zip zip_with print_entries].
  rewrite (list_entry_length r n) by done. cbn [res_bind]. change (14 + 1 <=? 1 + 1 + 1 + 17) with true. cbn match.
  destruct (blit _ 0 _) as [m| |] eqn:Eb; cbn [res_bind].
  - apply blit_Ok_len in Eb. rewrite zlen_replicate in Eb. rewrite list_entry_length by done.
    change (14 + 1 <=? 1 + 1 + 1 + 17) with true. cbn match.
    unfold blit. rewrite zlen_app, list_entry_length, Eb by done. reflexivity.
  - revert Eb. unfold blit. case_match; [done|]. by intros [= <-].
  - revert Eb. unfold blit. by case_match.
Qed.
End table.

(** ** Properties *)
(** C19: The text of an address is printed within its 20 bytes, and [get_ip] and
    [get_port] read the address back from it, for every IPv4 address (printed as
    a signed number) and every port (a [short]). *)
Theorem address_roundtrip junk ip port :
  0 <= ip < 2 ^ 32 -> - 2 ^ 15 <= port < 2 ^ 15 ->
  exists t, print_addr junk ip port = Ok t /\ zlen t = 20 /\ get_ip t = Ok ip /\ get_port t = Ok port.
Proof.
  intros Hi Hp. assert (valid (ip, port)) as Hv by done. pose proof (print_addr_array junk (ip, port) Hv) as E.
  pose proof (text_length (ip, port) Hv) as Hl.
  exists (array junk (ip, port)). split; [exact E|]. unfold array. split; [|split].
  - unfold zlen. rewrite length_app. cbn [length]. rewrite length_replicate. lia.
  - by rewrite get_ip_text.
  - by rewrite get_port_text.
Qed.

Lemma address_roundtrip_witness :
  exists t, print_addr 204 4294967295 (-1) = Ok t /\ zlen t = 20 /\ get_ip t = Ok 4294967295 /\ get_port t = Ok (-1).
Proof. apply address_roundtrip; split; (discriminate || reflexivity). Defined.

(** C11: The tracker refines its specification: over any sequence of requests to
    create, join and leave rooms, answers to pings and rounds of pings, from any
    table in which an address has one entry, the rooms are 1 to 5 and have at
    most 5 peers, the same holds again, no access is out of bounds, and the
    packets are the ones of the specification: a member of a room that changed
    is sent the list of its members. *)
Theorem chat_tracker_refines junk es ops :
  wf es -> Forall valid_op ops ->
  chat_run junk (map (conc junk) es) ops = Ok (map (conc junk) (spec_run es ops).1, (spec_run es ops).2) /\
  wf (spec_run es ops).1.
Proof. apply chat_run_refines. Qed.

Lemma chat_tracker_refines_witness :
  exists peers, chat_run 204 [] [OpCreate 16777343 4000; OpJoin 33554559 4000 1; OpJoin 33554559 4000 7; OpLeave 16777343 4000] =
  Ok (peers, [ [((16777343, 4000), mk_packet 99 0 (Some 1) 0 [])];
      [((16777343, 4000), mk_packet 117 0 None 32 [(16777343, 4000); (33554559, 4000)]);
       ((33554559, 4000), mk_packet 106 0 (Some 1) 32 [(16777343, 4000); (33554559, 4000)])];
      [((33554559, 4000), mk_packet 106 101 None 0 [])];
      [((16777343, 4000), mk_packet 108 0 None 0 []); ((33554559, 4000), mk_packet 117 0 None 16 [(33554559, 4000)])] ]).
Proof.
  destruct (chat_tracker_refines 204 [] [OpCreate 16777343 4000; OpJoin 33554559 4000 1; OpJoin 33554559 4000 7; OpLeave 16777343 4000]) as [E _].
  - apply wf_nil.
  - repeat (apply Forall_cons; split; [split; split; (discriminate || reflexivity)|]). apply Forall_nil. exact I.
  - eexists. etransitivity; [exact E|]. reflexivity.
Defined.

(** A room is created with the smallest number that is not in use, which is
    at most 5, exactly if less than 5 rooms exist and the address is in none;
    otherwise the answer is the error 'o' or 'e' and nothing changes. *)
Theorem create_room_smallest junk es ip port :
  wf es -> valid (ip, port) ->
  exists peers out, peer_create_room junk (map (conc junk) es) ip port = Ok (peers, out) /\
  if 5 <=? Z.of_nat (size (rooms_of es)) then peers = map (conc junk) es /\ out = err (ip, port) 99 111
  else if decide ((ip, port) ∈ eaddr <$> es) then peers = map (conc junk) es /\ out = err (ip, port) 99 101
  else exists r, peers = map (conc junk) (es ++ [mk_entry (ip, port) r 1]) /\
         out = [((ip, port), mk_packet 99 0 (Some r) 0 [])] /\ 1 <= r <= 5 /\ (r ∉ rooms_of es) /\
         forall q, 1 <= q < r -> q ∈ rooms_of es.
Proof.
  intros Hwf Ha. destruct (create_refines junk es (ip, port) Hwf Ha) as [E _]. cbn [fst snd] in E. rewrite E.
  eexists. eexists. split; [done|]. unfold spec_create. bdestruct (5 <=? Z.of_nat (size (rooms_of es))); [done|].
  destruct (lookup_addr es (ip, port)) as [e|] eqn:El.
  - apply lookup_addr_Some in El as [He E']. rewrite decide_True; [done|]. rewrite <- E'. by apply list_elem_of_fmap_2.
  - rewrite decide_False by (by apply lookup_addr_None). exists (smallest_free es 1 9).
    split; [done|]. split; [done|]. apply smallest_free_small. lia.
Qed.

Lemma create_room_smallest_witness :
  exists peers out, peer_create_room 204 (map (conc 204) [mk_entry (1, 1) 1 1; mk_entry (2, 2) 3 1]) 3 3 = Ok (peers, out) /\
    exists r, out = [((3, 3), mk_packet 99 0 (Some r) 0 [])] /\ 1 <= r <= 5.
Proof.
  destruct (create_room_smallest 204 [mk_entry (1, 1) 1 1; mk_entry (2, 2) 3 1] 3 3) as (peers & out & E & r & _ & Ho & Hr & _).
  - apply (wf_add [mk_entry (1, 1) 1 1]).
    + apply (wf_add []); [apply wf_nil|apply not_elem_of_nil|split; split; (discriminate || reflexivity)|split; discriminate|reflexivity].
    + intros [=]%list_elem_of_singleton.
    + split; split; (discriminate || reflexivity).
    + split; discriminate.
    + reflexivity.
  - split; split; (discriminate || reflexivity).
  - exists peers, out. split; [exact E|]. exists r. split; [exact Ho|exact Hr].
Defined.

(** The two operations that are undefined.  [delete_dead_peers] follows the
    link of an entry it has freed as soon as a peer did not answer the last
    round of pings, and does nothing when all did; [room_list] reads element -1
    of an array at the first peer, or declares arrays without elements when
    there is none, and the buffer for its text is too short for two rooms. *)
Theorem dead_peers_and_room_list_undefined junk es :
  wf es ->
  delete_dead_peers junk (map (conc junk) es) =
    (if forallb (fun e => negb (ealive e =? 0)) es then Ok (map (conc junk) es, []) else Fault UseAfterFree) /\
  room_list junk (map (conc junk) es) = Fault OutOfBounds /\
  forall r r' nums n n' stats occ room_,
    1 <= r <= 5 -> 1 <= r' <= 5 -> 1 <= n <= 5 -> 1 <= n' <= 5 -> 1 <= occ <= 5 -> 1 <= room_ <= 5 ->
    room_list_text junk (r :: r' :: nums) (n :: n' :: stats) occ room_ = Fault OutOfBounds.
Proof.
  intros Hwf. split; [by apply delete_dead_conc|]. split; [by apply room_list_conc|]. apply room_list_text_overflow.
Qed.

Lemma dead_peers_and_room_list_undefined_witness :
  delete_dead_peers 0 (map (conc 0) [mk_entry (1, 1) 1 0]) = Fault UseAfterFree /\
  room_list 0 (map (conc 0) [mk_entry (1, 1) 1 0]) = Fault OutOfBounds /\
  room_list_text 0 [1; 2] [2; 1] 2 2 = Fault OutOfBounds.
Proof.
  destruct (dead_peers_and_room_list_undefined 0 [mk_entry (1, 1) 1 0]) as (H1 & H2 & H3);
  [|split; [exact H1|split; [exact H2|apply H3; split; discriminate]]].
  constructor; [apply NoDup_singleton|apply Forall_cons; split; [split; split; (discriminate || reflexivity)|apply Forall_nil; exact I]
    |apply Forall_cons; split; [split; discriminate|apply Forall_nil; exact I]|].
  intros r. unfold members. rewrite filter_cons. destruct (decide _); discriminate.
Defined.
