(* ===== verification/ChatStart.v ===== *)
(** * The start and the loop of the chat tracker (src/examples/p2p-chat-example/tracker.c)

    [parse_args] with its [strtoul], [main] up to its loop, and the loop itself
    on the body of ChatTracker.  The results of [socket] and [bind] are
    arguments, and so is each result of [recvfrom]: [None] for an error, or the
    sender's address, its port in host byte order, and the type and the room of
    the header.  The loop runs for as long as there are results.  [abort] is
    exit code 134. *)
From Stdlib Require Import ZArith Lia Bool String.
From stdpp Require Import base numbers option list.
From S2P Require Import Prelude CStr ChatTracker.

(** [strtoul(p, &endp, 10)]: the value, [endp], and whether [errno] is ERANGE *)
Definition strtoul10 (p : bytes) : res (Z * bytes * bool) :=
  let q := skip_space p in
  let* c := deref q in
  let '(neg, q) := if c =? 45 then (true, tail q) else if c =? 43 then (false, tail q) else (false, q) in
  let* d := deref q in
  if isdigit d then
    let* (v, endp) := scan_digits q 0 in
    if ULONG_MAX <? v then Ok (ULONG_MAX, endp, true) else Ok (if neg then (- v) mod 2 ^ 64 else v, endp, false)
  else Ok (0, p, false).

Definition USHRT_MAX : Z := 65535.

Definition parse_args (argv : list bytes) : res Z :=
  match argv with
  | _ :: argv1 :: _ =>
      let* (v, range) := strtoul10 argv1 in
      let '(ulPort, endptr) := v in
      let* c := deref endptr in
      if range || negb (c =? 0) || (USHRT_MAX <? ulPort) then Exit 134 else Ok (wrap_s 16 ulPort)
  | _ => Ok 8080
  end.

(** [main] up to its loop: what it prints, and the ports it binds *)
Definition main_start (argv : list bytes) (sock ping_sock bind_ret ping_bind_ret : Z) : res (bytes * (Z * Z)) :=
  let* port := parse_args argv in
  let out := str "Hashtable created" ++ [10] ++ str "Starting server on ports: " ++ dec port ++ str ", " ++ dec (port + 1) ++ [10] in
  if sock <? 0 then Exit 134
  else if ping_sock <? 0 then Exit 134
  else if negb (bind_ret =? 0) then Exit 134
  else if negb (ping_bind_ret =? 0) then Exit 134
  else Ok (out, (port mod 2 ^ 16, (port + 1) mod 2 ^ 16)).

(** a result of [recvfrom] *)
Record received := mk_received { from_ip : Z; from_port : Z; header_type : Z; header_room : Z }.

Fixpoint main_loop (junk : Z) (peers : list peer) (packets : list (option received)) : res (list peer * list tracker_reply) :=
  match packets with
  | [] => Ok (peers, [])
  | None :: packets => main_loop junk peers packets
  | Some p :: packets =>
      let* (peers, out) := tracker_receive junk peers (from_ip p) (wrap_s 16 (from_port p)) (header_type p) (header_room p) in
      let* (peers, outs) := main_loop junk peers packets in
      Ok (peers, out :: outs)
  end.

Definition main (junk : Z) (argv : list bytes) (sock ping_sock bind_ret ping_bind_ret : Z) (packets : list (option received))
    : res (bytes * (Z * Z) * (list peer * list tracker_reply)) :=
  let* start := main_start argv sock ping_sock bind_ret ping_bind_ret in
  let* end_ := main_loop junk [] packets in
  Ok (start, end_).

(** ** Specification *)
(** the operation a packet asks for; errors and unknown types ask for none *)
Definition op_of (p : option received) : option chat_op :=
  match p with
  | None => None
  | Some p =>
      let port := wrap_s 16 (from_port p) in
      if header_type p =? 99 then Some (OpCreate (from_ip p) port)
      else if header_type p =? 106 then Some (OpJoin (from_ip p) port (header_room p))
      else if header_type p =? 108 then Some (OpLeave (from_ip p) port)
      else None
  end.

(** from an address, and no request for the list of rooms (see ChatTracker) *)
Definition plain (p : option received) : Prop :=
  match p with None => True | Some p => 0 <= from_ip p < 2 ^ 32 /\ header_type p <> 114 end.

(** the replies that hold packets *)
Fixpoint replies (outs : list tracker_reply) : list sent :=
  match outs with
  | [] => []
  | Packets [] :: outs => replies outs
  | Packets s :: outs => s :: replies outs
  | RoomList _ _ _ :: outs => replies outs
  end.

Definition nonempty (outs : list sent) : list sent := filter (fun s => s <> []) outs.

(** ** Lemmas *)
Lemma isdigit_sign d : isdigit d = true -> (d =? 45) = false /\ (d =? 43) = false.
Proof. intros H%isdigit_range. split; apply Z.eqb_neq; lia. Qed.

Lemma digits_val_nonneg s acc : all_digits s -> 0 <= acc -> 0 <= digits_val acc s.
Proof.
  intros Hs. revert acc. induction Hs as [|d s Hd _ IH]; intros acc Ha; [done|]. apply isdigit_range in Hd.
  change (digits_val acc (d :: s)) with (digits_val (10 * acc + (d - 48)) s). apply IH. lia.
Qed.

(** digits and what follows them *)
Lemma strtoul10_digits d s c m : all_digits (d :: s) -> isdigit c = false ->
  strtoul10 ((d :: s) ++ c :: m) =
  Ok (Z.min ULONG_MAX (digits_val 0 (d :: s)), c :: m, ULONG_MAX <? digits_val 0 (d :: s)).
Proof.
  intros Hs Hc. inversion Hs as [|? ? Hd Hs']; subst. destruct (isdigit_sign d Hd) as [E1 E2].
  assert (skip_space ((d :: s) ++ c :: m) = (d :: s) ++ c :: m) as E by (cbn [app skip_space]; by rewrite (isdigit_not_space d Hd)).
  unfold strtoul10. rewrite E. change (deref ((d :: s) ++ c :: m)) with (Ok d : res Z). cbn [res_bind]. rewrite E1, E2.
  change (deref ((d :: s) ++ c :: m)) with (Ok d : res Z). cbn [res_bind]. rewrite Hd, scan_digits_app by done. cbn [res_bind].
  bdestruct (ULONG_MAX <? digits_val 0 (d :: s)); [by rewrite Z.min_l by lia|]. by rewrite Z.min_r by lia.
Qed.

Lemma parse_args_digits prog d s c m rest : all_digits (d :: s) -> isdigit c = false ->
  parse_args (prog :: ((d :: s) ++ c :: m) :: rest) =
  if (c =? 0) && (digits_val 0 (d :: s) <=? USHRT_MAX) then Ok (wrap_s 16 (digits_val 0 (d :: s))) else Exit 134.
Proof.
  intros Hs Hc. unfold parse_args. rewrite strtoul10_digits by done. cbn [res_bind deref]. set (v := digits_val 0 (d :: s)).
  bdestruct (c =? 0); cbn [negb andb orb]; [|by rewrite orb_true_r]. rewrite orb_false_r. unfold USHRT_MAX, ULONG_MAX.
  bdestruct (v <=? 65535).
  - rewrite Z.min_r by lia. rewrite (proj2 (Z.ltb_ge _ v)), (proj2 (Z.ltb_ge 65535 v)) by lia. done.
  - rewrite (proj2 (Z.ltb_lt 65535 _)) by lia. by rewrite orb_true_r.
Qed.

Lemma udec_parse n prog m rest : 0 <= n ->
  parse_args (prog :: (udec n ++ 0 :: m) :: rest) = if n <=? USHRT_MAX then Ok (wrap_s 16 n) else Exit 134.
Proof. intros Hn. destruct (udec_spec n Hn) as (d & s & -> & Hs & Hv). by rewrite parse_args_digits, Hv by done. Qed.

Lemma main_loop_run junk packets : forall es,
  wf es -> Forall plain packets ->
  let ops := omap op_of packets in
  exists outs, main_loop junk (map (conc junk) es) packets = Ok (map (conc junk) (spec_run es ops).1, outs) /\
    nonempty (replies outs) = nonempty (spec_run es ops).2 /\ wf (spec_run es ops).1.
Proof.
  induction packets as [|p packets IH]; intros es Hwf Hp; [by exists []|]. apply Forall_cons in Hp as [Hp Hps].
  destruct p as [p|]; cbn [main_loop omap list_omap op_of]; [|by apply IH]. destruct Hp as [Hip Ht].
  set (port := wrap_s 16 (from_port p)).
  assert (valid (from_ip p, port)) as Hv by (split; [done|apply (wrap_s_range 16); lia]).
  unfold tracker_receive. rewrite (proj2 (Z.eqb_neq (header_type p) 114) Ht).
  assert (forall op, valid_op op ->
    (exists outs, (let* (ps, out) := (let* (ps, out) := chat_step junk (map (conc junk) es) op in Ok (ps, Packets out)) in
        let* (ps, outs) := main_loop junk ps packets in Ok (ps, out :: outs)) =
      Ok (map (conc junk) (spec_run es (op :: omap op_of packets)).1, outs) /\
      nonempty (replies outs) = nonempty (spec_run es (op :: omap op_of packets)).2 /\ wf (spec_run es (op :: omap op_of packets)).1)) as G.
  { intros op Hop. destruct (chat_step_refines junk es op Hwf Hop) as [E Hwf']. cbn [spec_run]. rewrite E. cbn [res_bind].
    destruct (spec_step es op) as [es' out]. cbn [fst snd res_bind] in *. destruct (IH es' Hwf' Hps) as (outs & El & En & Hw).
    rewrite El. cbn [res_bind]. destruct (spec_run es' _) as [es'' outs']. cbn [fst snd] in *. eexists. split; [done|]. split; [|done].
    destruct out as [|o out]; [done|]. cbn [replies]. unfold nonempty in *. rewrite !filter_cons_True by done. by f_equal. }
  bdestruct (header_type p =? 99); [by apply (G (OpCreate (from_ip p) port))|].
  bdestruct (header_type p =? 106); [by apply (G (OpJoin (from_ip p) port (header_room p)))|].
  bdestruct (header_type p =? 108); [by apply (G (OpLeave (from_ip p) port))|].
  cbn [res_bind]. destruct (IH es Hwf Hps) as (outs & El & En & Hw). rewrite El. cbn [res_bind]. eexists. split; [done|]. done.
Qed.

(** ** Properties *)
(** The ports of the tracker: without an argument 8080 and 8081; for a decimal
    number of at most 65535 that port and the next one, where the one after
    65535 is 0, printed as [short]s; anything else that begins with a digit ends
    the program.  The empty argument is port 0, and a large number with a minus
    sign port 1. *)
Theorem chat_start_ports prog n m rest d s c :
  0 <= n -> all_digits (d :: s) -> isdigit c = false -> c <> 0 ->
  main_start [prog] 3 4 0 0 = Ok (str "Hashtable created" ++ [10] ++ str "Starting server on ports: 8080, 8081" ++ [10], (8080, 8081)) /\
  main_start (prog :: (udec n ++ 0 :: m) :: rest) 3 4 0 0 =
    (if n <=? 65535 then
       Ok (str "Hashtable created" ++ [10] ++ str "Starting server on ports: " ++ dec (wrap_s 16 n) ++ str ", " ++ dec (wrap_s 16 n + 1) ++ [10],
           (n, if n =? 65535 then 0 else n + 1))
     else Exit 134) /\
  main_start (prog :: ((d :: s) ++ c :: m) :: rest) 3 4 0 0 = Exit 134 /\
  parse_args [prog; [0]] = Ok 0 /\ parse_args [prog; str "-18446744073709551615" ++ [0]] = Ok 1.
Proof.
  intros Hn Hs Hc Hc0. split; [done|]. split; [|split; [|done]].
  - unfold main_start. rewrite udec_parse by done. unfold USHRT_MAX. bdestruct (n <=? 65535); [|done].
    cbn [res_bind Z.ltb Z.compare Z.eqb negb]. do 3 f_equal; [|].
    + rewrite wrap_s_congr by done. by rewrite Z.mod_small by lia.
    + rewrite <- Zplus_mod_idemp_l, wrap_s_congr, Zplus_mod_idemp_l by done. bdestruct (n =? 65535); [by subst n|].
      by rewrite Z.mod_small by lia.
  - unfold main_start. rewrite parse_args_digits by done. by rewrite (proj2 (Z.eqb_neq c 0) Hc0).
Qed.

Lemma chat_start_ports_witness :
  main_start [str "tracker" ++ [0]; udec 65535 ++ 0 :: []] 3 4 0 0 =
    Ok (str "Hashtable created" ++ [10] ++ str "Starting server on ports: -1, 0" ++ [10], (65535, 0)) /\
  main_start [str "tracker" ++ [0]; str "80" ++ 120 :: []] 3 4 0 0 = Exit 134.
Proof.
  destruct (chat_start_ports (str "tracker" ++ [0]) 65535 [] [] 56 (str "0") 120) as (_ & H & H' & _);
    [discriminate|repeat constructor|reflexivity|discriminate|]. split; [exact H|exact H'].
Defined.


