(* ===== verification/ChatTable.v ===== *)
(** * The chat tracker on its hash table (src/examples/p2p-chat-example/tracker.c with uthash.h)

    The operations of ChatTracker as the program runs them: the [struct peer]s
    are in memory, their handles in the heap of UtHash, and the table of peers is
    changed by the macros of uthash.  [alloc] is the address [malloc] returns for
    a peer.  A string that is the key of an element is in the element; since no
    element changes its [ip_and_port], the memory its handle points to is the
    array as it was when the element was added.  A loop that only reads the
    table is the function of ChatTracker on the peers the loop visits. *)
From Stdlib Require Import ZArith Lia Bool String.
From stdpp Require Import base numbers option list gmap fin_maps.
From S2P Require Import Prelude CStr HashFcns UtHash LinkedList UtHashSpec UtHashRefine ChatTracker.

(** the hash function of uthash.h without HASH_FUNCTION *)
#[export] Instance HASH_FCN_default : HashFcn := HASH_JEN.
#[export] Instance HASH_FCN_default_laws : HashFcnLaws HASH_FCN_default := jen_laws.

(** ** Memory *)
(** the global [peers] with the heap of the handles, and the other fields of
    every [struct peer] that was allocated *)
Record memory := mk_memory { table : hash; structs : gmap ptr peer }.

Definition set_table (w : memory) (t : hash) : memory := mk_memory t (structs w).
Definition set_struct (w : memory) (p : ptr) (v : peer) : res memory :=
  let* f := st (structs w) p v in Ok (mk_memory (table w) f).

(** What the operations rely on of [malloc]: the address of a new peer is not
    null and not in use. *)
Class PeerAllocator (alloc : gmap ptr peer -> ptr) : Prop :=
  peer_fresh : forall m, alloc m <> 0 /\ m !! alloc m = None.

Section program.
Variable malloc_ok : Z -> bool.
Variable alloc : gmap ptr peer -> ptr.
(** the byte new memory is filled with *)
Variable junk : Z.

Definition new_handle (m : heap) (p : ptr) : heap :=
  mk_heap (<[p := junk]> (prev m)) (<[p := junk]> (next m)) (<[p := junk]> (hh_prev m)) (<[p := junk]> (hh_next m))
    (<[p := []]> (key m)) (<[p := junk]> (keylen m)) (<[p := junk]> (hashv m)).

Definition free_handle (m : heap) (p : ptr) : heap :=
  mk_heap (delete p (prev m)) (delete p (next m)) (delete p (hh_prev m)) (delete p (hh_next m))
    (delete p (key m)) (delete p (keylen m)) (delete p (hashv m)).

Definition set_mem (t : hash) (m : heap) : hash := mk_hash (hd t) (tbl t) m.

Definition malloc_peer (w : memory) : memory * ptr :=
  let p := alloc (structs w) in
  (mk_memory (set_mem (table w) (new_handle (mem (table w)) p))
     (<[p := mk_peer (replicate 20 junk) junk junk]> (structs w)), p).

Definition free_peer (w : memory) (p : ptr) : res memory :=
  let* _ := ld (structs w) p in
  Ok (mk_memory (set_mem (table w) (free_handle (mem (table w)) p)) (delete p (structs w))).

(** the peers the loop [for(s=peers; s != NULL; s=s->hh.next)] visits from [s]
    on *)
Fixpoint visited (fuel : nat) (w : memory) (s : ptr) : res (list peer) :=
  match fuel with
  | O => Fault NoFuel
  | S fuel =>
      if s =? 0 then Ok [] else
      let* v := ld (structs w) s in
      let* n := ld (next (mem (table w))) s in
      let* l := visited fuel w n in
      Ok (v :: l)
  end.

Definition loop_fuel (w : memory) : nat := S (size (next (mem (table w)))).

Definition all_peers (w : memory) : res (list peer) := visited (loop_fuel w) w (hd (table w)).

(** ** Operations *)
Definition get_total_num_rooms (w : memory) : res Z :=
  let* l := all_peers w in ChatTracker.get_total_num_rooms l.

Definition peer_list (w : memory) (join_ip join_port room_ : Z) : res sent :=
  let* l := all_peers w in ChatTracker.peer_list l join_ip join_port room_.

Definition room_list (w : memory) : res (Z * bytes) :=
  let* l := all_peers w in ChatTracker.room_list junk l.

(** a new entry for the table *)
Definition create_entry (w : memory) (ip port room_ : Z) : res (memory * ptr * bytes) :=
  let (w, new_peer) := malloc_peer w in
  let* ip_and_port := print_addr junk ip port in
  let* w := set_struct w new_peer (mk_peer ip_and_port room_ 1) in
  Ok (w, new_peer, ip_and_port).

Definition peer_create_room (w : memory) (ip port : Z) : res (memory * sent) :=
  let* number_of_rooms := get_total_num_rooms w in
  if MAX_NUM_ROOMS <=? number_of_rooms then Ok (w, send_error ip port 99 111)
  else
    let* l := all_peers w in
    let r := free_room l 1 (Z.to_nat (MAX_NUM_ROOMS * 2 - 1)) in
    let* (w, new_peer, ip_and_port) := create_entry w ip port r in
    let* s := HASH_FIND_STR (table w) ip_and_port in
    if negb (s =? 0) then Ok (w, send_error ip port 99 101)
    else
      let* t := HASH_ADD_STR malloc_ok (table w) ip_and_port new_peer in
      Ok (set_table w t, [(get_sockaddr_in ip port, mk_packet 99 0 (Some r) 0 [])]).

Definition peer_join (w : memory) (ip port room_ : Z) : res (memory * sent) :=
  let* l := all_peers w in
  match room_exists l room_ 0 false with
  | None => Ok (w, send_error ip port 106 102)
  | Some false => Ok (w, send_error ip port 106 101)
  | Some true =>
      let* (w, new_peer, ip_and_port) := create_entry w ip port room_ in
      let* s := HASH_FIND_STR (table w) ip_and_port in
      let* same := if negb (s =? 0) then let* v := ld (structs w) s in Ok (room v =? room_) else Ok false in
      if (same : bool) then Ok (w, send_error ip port 106 97)
      else
        let* (w, old_room_update) :=
          if s =? 0 then
            let* t := HASH_ADD_STR malloc_ok (table w) ip_and_port new_peer in Ok (set_table w t, -1)
          else
            let* v := ld (structs w) s in
            let* (t, s) := HASH_REPLACE_STR malloc_ok (table w) ip_and_port new_peer in
            Ok (set_table w t, to_int (room v)) in
        let* out1 := peer_list w ip port room_ in
        if negb (old_room_update =? -1) then
          let* out2 := peer_list w 0 (-1) (old_room_update mod 2 ^ 32) in Ok (w, out1 ++ out2)
        else Ok (w, out1)
  end.

(** the array [ip_port] is cleared before it is printed to *)
Definition peer_leave (w : memory) (ip port : Z) : res (memory * sent) :=
  let* ip_port := print_addr 0 ip port in
  let* s := HASH_FIND_STR (table w) ip_port in
  if negb (s =? 0) then
    let* v := ld (structs w) s in
    let left_room := room v in
    let* t := HASH_DEL (table w) s in
    let* w := free_peer (set_table w t) s in
    let* out := peer_list w 0 (-1) left_room in
    Ok (w, (get_sockaddr_in ip port, mk_packet 108 0 None 0 []) :: out)
  else Ok (w, send_error ip port 108 101).

Definition mark_peer_alive (w : memory) (ip port : Z) : res memory :=
  let* ip_port := print_addr 0 ip port in
  let* s := HASH_FIND_STR (table w) ip_port in
  if negb (s =? 0) then
    let* v := ld (structs w) s in set_struct w s (mk_peer (ip_and_port v) (room v) 1)
  else Ok w.

Fixpoint pings_loop (fuel : nat) (w : memory) (s : ptr) : res (memory * sent) :=
  match fuel with
  | O => Fault NoFuel
  | S fuel =>
      if s =? 0 then Ok (w, []) else
      let* v := ld (structs w) s in
      let* w := set_struct w s (mk_peer (ip_and_port v) (room v) 0) in
      let* a := peer_addr v in
      let* n := ld (next (mem (table w))) s in
      let* (w, out) := pings_loop fuel w n in
      Ok (w, (a, mk_packet 112 0 None 0 []) :: out)
  end.

Definition send_pings (w : memory) : res (memory * sent) := pings_loop (loop_fuel w) w (hd (table w)).

Fixpoint dead_loop (fuel : nat) (w : memory) (s : ptr) : res (memory * sent) :=
  match fuel with
  | O => Fault NoFuel
  | S fuel =>
      if s =? 0 then Ok (w, []) else
      let* v := ld (structs w) s in
      let* (w, out) :=
        if alive v =? 0 then let* (peer_ip, peer_port) := peer_addr v in peer_leave w peer_ip peer_port
        else Ok (w, []) in
      let* n := ld (next (mem (table w))) s in
      let* (w, outs) := dead_loop fuel w n in
      Ok (w, out ++ outs)
  end.

Definition delete_dead_peers (w : memory) : res (memory * sent) := dead_loop (loop_fuel w) w (hd (table w)).

(** an operation of ChatTracker, and a sequence of them *)
Definition table_step (w : memory) (op : chat_op) : res (memory * sent) :=
  match op with
  | OpCreate ip port => peer_create_room w ip port
  | OpJoin ip port r => peer_join w ip port r
  | OpLeave ip port => peer_leave w ip port
  | OpAlive ip port => let* w := mark_peer_alive w ip port in Ok (w, [])
  | OpPing => send_pings w
  end.

Fixpoint table_run (w : memory) (ops : list chat_op) : res (memory * list sent) :=
  match ops with
  | [] => Ok (w, [])
  | op :: ops =>
      let* (w, out) := table_step w op in
      let* (w, outs) := table_run w ops in
      Ok (w, out :: outs)
  end.
End program.

(** ** The memory holds the entries of the table *)
Abbreviation located := (list (ptr * entry)).

Definition items_of (pes : located) : list item := (fun pe => (pe.1, text (eaddr pe.2))) <$> pes.

Section holds.
Variable junk : Z.

Record holds (w : memory) (pes : located) : Prop := {
  holds_table : represents (table w) (items_of pes);
  holds_structs : forall p e, (p, e) ∈ pes -> structs w !! p = Some (conc junk e);
  holds_alloc : forall p, is_Some (structs w !! p) -> allocated (mem (table w)) p }.

Lemma ptrs_items pes : ptrs (items_of pes) = pes.*1.
Proof. unfold items_of. rewrite <- list_fmap_compose. by apply list_fmap_ext. Qed.

Lemma keys_items pes : snd <$> items_of pes = text <$> (eaddr <$> pes.*2).
Proof. unfold items_of. rewrite <- !list_fmap_compose. by apply list_fmap_ext. Qed.

Lemma items_elem pes p k : (p, k) ∈ items_of pes <-> exists e, (p, e) ∈ pes /\ k = text (eaddr e).
Proof.
  unfold items_of. rewrite list_elem_of_fmap. split.
  - intros ([q e] & [= -> ->] & H). by exists e.
  - intros (e & H & ->). by exists (p, e).
Qed.

(** ** Lemmas: loops over the table *)
Lemma visited_ok w pes : forall fuel,
  (length pes < fuel)%nat -> lseg (next (mem (table w))) pes.*1 -> (forall p e, (p, e) ∈ pes -> structs w !! p = Some (conc junk e)) ->
  visited fuel w (hdp pes.*1 0) = Ok (map (conc junk) pes.*2).
Proof.
  induction pes as [|[p e] pes IH]; intros [|fuel] Hf Hl Hs; simpl in Hf; [lia|done|lia|].
  cbn [fmap list_fmap lseg fst] in Hl. destruct Hl as (Hp & Hn & Hl).
  cbn [visited fmap list_fmap fst snd hdp map]. rewrite (proj2 (Z.eqb_neq p 0) Hp).
  rewrite (ld_Ok _ _ _ Hp (Hs p e ltac:(by left))). cbn [res_bind]. rewrite (ld_Ok _ _ _ Hp Hn). cbn [res_bind].
  rewrite IH; [done|lia|done|]. intros q e' H. apply Hs. by right.
Qed.

Lemma all_peers_ok w pes : holds w pes -> all_peers w = Ok (map (conc junk) pes.*2).
Proof.
  intros [Ht Hs _]. destruct (represents_app _ _ Ht) as (Hh & Hl & Hlen). rewrite ptrs_items in *. unfold all_peers. rewrite Hh.
  apply visited_ok; [|done..]. unfold loop_fuel. by rewrite length_fmap in Hlen.
Qed.

(** ** Lemmas: keys *)
Lemma array_key j a : valid a -> is_key (array j a) /\ str_of (array j a) = text a.
Proof.
  intros Ha. assert (cstr (array j a) = Ok (text a)) as E by (apply cstr_app, text_no_nul). split.
  - exists (text a). split; [done|]. pose proof (text_length a Ha). unfold zlen. lia.
  - unfold str_of. by rewrite E.
Qed.

Lemma keys_nodup pes : wf pes.*2 -> NoDup (snd <$> items_of pes).
Proof.
  intros [Hn Hv _ _]. rewrite keys_items. apply NoDup_fmap_2_strong; [|done].
  rewrite Forall_forall in Hv. intros a b (e & -> & He)%list_elem_of_fmap (e' & -> & He')%list_elem_of_fmap.
  apply text_inj; by apply Hv.
Qed.

Lemma elem_valid (pes : located) p e : wf pes.*2 -> (p, e) ∈ pes -> valid (eaddr e).
Proof.
  intros [_ Hv _ _] H. rewrite Forall_forall in Hv. apply Hv, (list_elem_of_fmap_2 snd _ _ H).
Qed.

(** the entries without an address *)
Definition drop_addr (pes : located) (a : addr) : located := filter (fun pe => eaddr pe.2 <> a) pes.

Lemma drop_addr_entries pes a : (drop_addr pes a).*2 = without pes.*2 a.
Proof.
  unfold drop_addr, without. induction pes as [|[p e] pes IH]; [done|]. cbn [fmap list_fmap snd].
  destruct (decide (eaddr e = a)).
  - by rewrite !filter_cons_False by (cbn; tauto).
  - rewrite !filter_cons_True by done. cbn [fmap list_fmap snd]. by rewrite <- IH.
Qed.

Lemma drop_addr_items pes a :
  Forall (fun e => valid (eaddr e)) pes.*2 -> valid a -> remove_key (items_of pes) (text a) = items_of (drop_addr pes a).
Proof.
  intros Hv Ha. unfold drop_addr, remove_key, items_of. induction pes as [|[p e] pes IH]; [done|].
  cbn [fmap list_fmap fst snd] in Hv |- *. apply Forall_cons in Hv as [He Hv]. destruct (decide (eaddr e = a)) as [E|E].
  - rewrite !filter_cons_False by (cbn; rewrite ?E; tauto). by apply IH.
  - rewrite !filter_cons_True by (done || (cbn; intros E'; apply E; by apply text_inj)).
    cbn [fmap list_fmap fst snd]. f_equal. by apply IH.
Qed.

Lemma drop_addr_elem pes a p e : (p, e) ∈ drop_addr pes a -> (p, e) ∈ pes /\ eaddr e <> a.
Proof. unfold drop_addr. rewrite list_elem_of_filter. cbn. tauto. Qed.

Lemma lookup_addr_elem es e : NoDup (eaddr <$> es) -> e ∈ es -> lookup_addr es (eaddr e) = Some e.
Proof.
  intros Hn He. destruct (lookup_addr es (eaddr e)) as [e'|] eqn:E.
  - apply lookup_addr_Some in E as [He' E]. f_equal. apply list_elem_of_lookup in He as [i Hi], He' as [j Hj].
    assert (i = j) as ->; [|congruence]. apply (NoDup_lookup _ _ _ (eaddr e) Hn); rewrite list_lookup_fmap; [by rewrite Hi|by rewrite Hj; cbn; rewrite E].
  - apply lookup_addr_None in E. destruct E. by apply list_elem_of_fmap_2.
Qed.

(** with the rooms 1 to 5 of at most 5 peers there are at most 25 *)
Lemma wf_length es : wf es -> zlen es <= 25.
Proof.
  intros [_ _ Hr Hs].
  assert (zlen es <= zlen (members es 1) + zlen (members es 2) + zlen (members es 3) + zlen (members es 4) + zlen (members es 5)) as H.
  { clear Hs. induction Hr as [|e es He Hr IH]; [done|]. rewrite !members_cons, zlen_cons.
    repeat case_decide; rewrite ?zlen_cons; lia. }
  pose proof (Hs 1). pose proof (Hs 2). pose proof (Hs 3). pose proof (Hs 4). pose proof (Hs 5). lia.
Qed.

Lemma items_few (pes : located) : wf pes.*2 -> zlen (items_of pes) + 1 < 2 ^ 32.
Proof. intros Hwf. pose proof (wf_length _ Hwf). unfold zlen, items_of in *. rewrite !length_fmap in *. lia. Qed.

(** ** Lemmas: finding *)
Lemma find_table w pes j a :
  holds w pes -> wf pes.*2 -> valid a ->
  exists s, HASH_FIND_STR (table w) (array j a) = Ok s /\
    (s = 0 /\ lookup_addr pes.*2 a = None /\ (text a ∉ (snd <$> items_of pes)) \/
     s <> 0 /\ exists e, (s, e) ∈ pes /\ eaddr e = a /\ lookup_addr pes.*2 a = Some e /\ ld (structs w) s = Ok (conc junk e)).
Proof.
  intros [Ht Hs _] Hwf Ha. destruct (array_key j a Ha) as [(k & Ek & Hk) Es]. destruct (str_of_Ok _ _ Ek) as (Es' & Hnn & r & Er).
  rewrite Es in Es'. subst k. exists (lookup_key (items_of pes) (text a)). unfold HASH_FIND_STR. rewrite Er, strlen_app by done.
  cbn [res_bind]. destruct (find_step (table w) _ (text a) (0 :: r) Ht (keys_nodup _ Hwf) Hk) as [-> [[H0 Hni]|[H0 Hin]]].
  - split; [done|]. left. split; [done|]. split; [|done]. destruct (lookup_addr pes.*2 a) as [e|] eqn:El; [|done].
    apply lookup_addr_Some in El as [He <-]. destruct Hni. rewrite keys_items. by do 2 apply list_elem_of_fmap_2.
  - split; [done|]. right. split; [done|]. apply items_elem in Hin as (e & He & Et). exists e. split; [done|].
    assert (eaddr e = a) as E by (symmetry; apply text_inj; [done|by eapply elem_valid|done]). split; [done|]. split.
    + rewrite <- E. apply lookup_addr_elem; [apply Hwf|]. by apply (list_elem_of_fmap_2 snd _ _ He).
    + apply ld_Ok; [done|]. by apply Hs.
Qed.
End holds.

Lemma same_insert m p q junk : q <> p -> same_at m (new_handle junk m p) q.
Proof. intros H. unfold same_at, new_handle. cbn. by rewrite !lookup_insert_ne by congruence. Qed.

Lemma same_delete m p q : q <> p -> same_at m (free_handle m p) q.
Proof. intros H. unfold same_at, free_handle. cbn. by rewrite !lookup_delete_ne by congruence. Qed.

Lemma new_allocated m p junk : p <> 0 -> allocated (new_handle junk m p) p.
Proof. intros H. unfold allocated, new_handle. cbn. rewrite !lookup_insert_eq. repeat split; by try eexists. Qed.

(** ** Lemmas: changing the table *)
Section program_spec.
Variable malloc_ok : Z -> bool.
Hypothesis Hmalloc : forall n, malloc_ok n = true -> n < 2 ^ 35.
Context (alloc : gmap ptr peer -> ptr) `{!PeerAllocator alloc}.
Variable junk : Z.

Abbreviation holds := (holds junk).

Lemma create_entry_ok w pes a r :
  holds w pes -> valid a ->
  exists w' p, create_entry alloc junk w a.1 a.2 r = Ok (w', p, array junk a) /\ holds w' pes /\ (p ∉ pes.*1) /\ p <> 0 /\
    structs w' !! p = Some (conc junk (mk_entry a r 1)) /\ size (structs w') = S (size (structs w)).
Proof.
  intros [Ht Hs Ha] Hva. destruct (peer_fresh (structs w)) as [H0 Hnew]. unfold create_entry, malloc_peer.
  set (p := alloc (structs w)) in *. rewrite print_addr_array by done. cbn [res_bind].
  unfold set_struct. cbn [structs table]. rewrite st_Ok by (done || (rewrite lookup_insert_eq; by eexists)). cbn [res_bind].
  rewrite insert_insert_eq. eexists _, p. split; [done|].
  assert (p ∉ pes.*1) as Hp.
  { intros ([q e] & -> & H)%list_elem_of_fmap. cbn [fst] in *. rewrite (Hs _ _ H) in Hnew. done. }
  split; [constructor; cbn [table structs]|].
  - apply represents_frame; [done|]. intros q. rewrite ptrs_items. intros Hq. apply same_insert. by intros ->.
  - intros q e H. rewrite lookup_insert_ne; [by apply Hs|]. intros <-. apply Hp, (list_elem_of_fmap_2 fst _ _ H).
  - intros q Hq. destruct (decide (q = p)) as [->|Hne]; [by apply new_allocated|].
    rewrite lookup_insert_ne in Hq by done. by apply (allocated_same (mem (table w))); [apply same_insert|apply Ha].
  - split; [done|]. split; [done|]. cbn [structs]. rewrite lookup_insert_eq. split; [done|]. by rewrite map_size_insert_None.
Qed.

(** a step of the table that leaves the elements [pes'] *)
Lemma holds_step w pes pes' r items' q :
  holds w pes -> step_ok (table w) (items_of pes) r items' q -> items' = items_of pes' ->
  (forall p e, (p, e) ∈ pes' -> structs w !! p = Some (conc junk e)) ->
  r = Exit (-1) \/ exists t, r = Ok (t, q) /\ holds (set_table w t) pes'.
Proof.
  intros [Ht Hs Ha] [->|(t & -> & Ht' & Hal)] -> Hs'; [by left|right]. exists t. split; [done|].
  constructor; cbn [table structs set_table]; [done|done|]. intros p Hp. by apply Hal, Ha.
Qed.

Lemma add_entry w pes p e j :
  holds w pes -> wf pes.*2 -> valid (eaddr e) -> (p ∉ pes.*1) -> structs w !! p = Some (conc junk e) ->
  (text (eaddr e) ∉ (snd <$> items_of pes)) ->
  HASH_ADD_STR malloc_ok (table w) (array j (eaddr e)) p = Exit (-1) \/
  exists t, HASH_ADD_STR malloc_ok (table w) (array j (eaddr e)) p = Ok t /\ holds (set_table w t) (pes ++ [(p, e)]).
Proof.
  intros Hh Hwf Hv Hp He Hk. pose proof Hh as [Ht Hs Ha]. destruct (array_key j (eaddr e) Hv) as [Hkey Es].
  destruct (step_refines malloc_ok Hmalloc (table w) _ (OpAdd p (array j (eaddr e))) _ Ht (keys_nodup _ Hwf) (fun _ H => H)) as [Hst _].
  { cbn [op_ok]. rewrite ptrs_items, Es. pose proof (items_few _ Hwf). assert (allocated (mem (table w)) p) by (apply Ha; by eexists). done. }
  cbn [hash_step UtHashRefine.spec_step fst snd] in Hst. rewrite Es in Hst.
  destruct (holds_step w pes (pes ++ [(p, e)]) _ _ _ Hh Hst) as [E|(t & E & Ht')].
  - unfold items_of. by rewrite fmap_app.
  - intros q e' [H|H]%elem_of_app; [by apply Hs|]. apply list_elem_of_singleton in H as [= -> ->]. done.
  - left. destruct (HASH_ADD_STR _ _ _ _); cbn [res_bind] in E; congruence.
  - right. exists t. split; [|done]. destruct (HASH_ADD_STR _ _ _ _); cbn [res_bind] in E; congruence.
Qed.

Lemma replace_entry w pes p e j :
  holds w pes -> wf pes.*2 -> valid (eaddr e) -> (p ∉ pes.*1) -> structs w !! p = Some (conc junk e) ->
  HASH_REPLACE_STR malloc_ok (table w) (array j (eaddr e)) p = Exit (-1) \/
  exists t q, HASH_REPLACE_STR malloc_ok (table w) (array j (eaddr e)) p = Ok (t, q) /\
    holds (set_table w t) (drop_addr pes (eaddr e) ++ [(p, e)]).
Proof.
  intros Hh Hwf Hv Hp He. pose proof Hh as [Ht Hs Ha]. destruct (array_key j (eaddr e) Hv) as [Hkey Es].
  destruct (step_refines malloc_ok Hmalloc (table w) _ (OpReplace p (array j (eaddr e))) _ Ht (keys_nodup _ Hwf) (fun _ H => H)) as [Hst _].
  { cbn [op_ok]. rewrite ptrs_items. pose proof (items_few _ Hwf). assert (allocated (mem (table w)) p) by (apply Ha; by eexists). done. }
  cbn [hash_step UtHashRefine.spec_step fst snd] in Hst. rewrite Es in Hst.
  destruct (holds_step w pes (drop_addr pes (eaddr e) ++ [(p, e)]) _ _ _ Hh Hst) as [E|(t & E & Ht')].
  - rewrite drop_addr_items by (done || apply Hwf). unfold items_of. by rewrite fmap_app.
  - intros q e' [[H _]%drop_addr_elem|H]%elem_of_app; [by apply Hs|]. apply list_elem_of_singleton in H as [= -> ->]. done.
  - by left.
  - right. by exists t, (lookup_key (items_of pes) (text (eaddr e))).
Qed.

(** a pointer and an address each identify an entry *)
Lemma holds_unique w pes p e q e' :
  holds w pes -> wf pes.*2 -> (p, e) ∈ pes -> (q, e') ∈ pes ->
  (p = q -> e = e') /\ (eaddr e = eaddr e' -> p = q /\ e = e').
Proof.
  intros [Ht _ _] [Hn _ _ _] [i Hi]%list_elem_of_lookup [j Hj]%list_elem_of_lookup.
  pose proof (represents_nodup _ _ Ht) as Hnp. rewrite ptrs_items in Hnp. split.
  - intros <-. assert (i = j) as ->; [|congruence]. apply (NoDup_lookup _ _ _ p Hnp); rewrite list_lookup_fmap; [by rewrite Hi|by rewrite Hj].
  - intros E. assert (i = j) as ->; [|split; congruence].
    apply (NoDup_lookup _ _ _ (eaddr e) Hn); rewrite !list_lookup_fmap; [by rewrite Hi|by rewrite Hj; cbn; rewrite E].
Qed.

Lemma remove_entry w pes p e :
  holds w pes -> wf pes.*2 -> (p, e) ∈ pes ->
  exists t w', HASH_DEL (table w) p = Ok t /\ free_peer (set_table w t) p = Ok w' /\ holds w' (drop_addr pes (eaddr e)) /\
    structs w' = delete p (structs w) /\ next (mem (table w')) !! p = None.
Proof.
  intros Hh Hwf Hin. pose proof Hh as [Ht Hs Ha]. pose proof (elem_valid _ _ _ Hwf Hin) as Hv.
  destruct (remove_step (table w) _ p (text (eaddr e)) Ht (keys_nodup _ Hwf)) as (Er & t & Et & Ht' & Hal).
  { apply items_elem. by exists e. }
  rewrite <- Er, drop_addr_items in Ht' by (done || apply Hwf). pose proof (Hs _ _ Hin) as Ep.
  assert (p <> 0) as Hp0 by (apply (Ha p); by eexists). unfold HASH_DEL. exists t.
  assert (forall q e', (q, e') ∈ drop_addr pes (eaddr e) -> q <> p) as Hne.
  { intros q e' [H1 H2]%drop_addr_elem ->. apply H2. by destruct (holds_unique w pes p e' p e Hh Hwf H1 Hin) as [->]. }
  eexists. split; [done|]. unfold free_peer. cbn [set_table structs table]. rewrite (ld_Ok _ _ _ Hp0 Ep). cbn [res_bind].
  split; [done|]. split; [constructor; cbn [table structs]|split; [done|by apply lookup_delete_eq]].
  - apply represents_frame; [done|]. intros q. rewrite ptrs_items. intros ([q' e'] & -> & H)%list_elem_of_fmap.
    apply same_delete. by apply Hne in H.
  - intros q e' H. rewrite lookup_delete_ne by (intros <-; by apply Hne in H). apply Hs. by apply drop_addr_elem in H as [? _].
  - intros q [v Hq]. apply lookup_delete_Some in Hq as [Hne' Hq]. apply (allocated_same (mem t)); [by apply same_delete|].
    apply Hal, Ha. by eexists.
Qed.

(** ** Lemmas: the operations *)
(** the memory holds the entries of the specification, which are well-formed *)
Definition agrees (w : memory) (es : list entry) : Prop := wf es /\ exists pes, pes.*2 = es /\ holds w pes.

(** the addresses with the places of their entries *)
Definition places (pes : located) : list (ptr * addr) := (fun pe => (pe.1, eaddr pe.2)) <$> pes.

(** the table exits when memory is short, or refines the specification; if
    [keep], no entry is moved or removed *)
Definition table_refines (keep : Prop) (pes : located) (r : res (memory * sent)) (sp : list entry * sent) : Prop :=
  r = Exit (-1) \/
  exists w' pes', r = Ok (w', sp.2) /\ wf sp.1 /\ pes'.*2 = sp.1 /\ holds w' pes' /\
    (keep -> places pes `prefix_of` places pes').

Lemma table_refines_same keep w pes out : holds w pes -> wf pes.*2 -> table_refines keep pes (Ok (w, out)) (pes.*2, out).
Proof. intros Hh Hwf. right. exists w, pes. split; [done|]. split; [done|]. split; [done|]. split; [done|]. by intros _. Qed.

Lemma get_total_num_rooms_ok w pes :
  holds w pes -> wf pes.*2 -> get_total_num_rooms w = Ok (Z.of_nat (size (rooms_of pes.*2))).
Proof.
  intros Hh Hwf. unfold get_total_num_rooms. rewrite (all_peers_ok junk w pes) by done. cbn [res_bind].
  apply get_total_num_rooms_conc, Hwf.
Qed.

Lemma peer_list_ok w pes join r : holds w pes -> wf pes.*2 -> peer_list w join.1 join.2 r = Ok (spec_list pes.*2 join r).
Proof.
  intros Hh Hwf. unfold peer_list. rewrite (all_peers_ok junk w pes) by done. cbn [res_bind]. by apply peer_list_wf.
Qed.

Lemma create_table w pes a :
  holds w pes -> wf pes.*2 -> valid a ->
  table_refines True pes (peer_create_room malloc_ok alloc junk w a.1 a.2) (spec_create pes.*2 a).
Proof.
  intros Hh Hwf Ha. destruct (create_refines junk _ a Hwf Ha) as [_ Hwf'].
  unfold peer_create_room, spec_create, MAX_NUM_ROOMS in *. rewrite (get_total_num_rooms_ok w pes) by done. cbn [res_bind].
  bdestruct (5 <=? Z.of_nat (size (rooms_of pes.*2))).
  { destruct a. by apply table_refines_same. }
  rewrite (all_peers_ok junk w pes) by done. cbn [res_bind]. rewrite free_room_conc. change (Z.to_nat (5 * 2 - 1)) with 9%nat.
  set (r := smallest_free _ _ _) in *. destruct (create_entry_ok w pes a r Hh Ha) as (w' & p & -> & Hh' & Hp & _ & Es & _). cbn [res_bind].
  destruct (find_table junk w' pes junk a Hh' Hwf Ha) as (s & -> & [(-> & El & Hk)|(Hs & e & _ & _ & El & _)]); rewrite El in *; cbn [res_bind].
  - cbn [Z.eqb negb]. destruct (add_entry w' pes p (mk_entry a r 1) junk Hh' Hwf Ha Hp Es Hk) as [E|(t & E & Ht)]; cbn [eaddr] in E; rewrite E; [by left|].
    right. cbn [res_bind]. eexists _, (pes ++ [(p, mk_entry a r 1)]). split; [by destruct a|]. split; [done|].
    split; [by rewrite fmap_app|]. split; [done|]. intros _. unfold places. rewrite fmap_app. by apply prefix_app_r.
  - rewrite (proj2 (Z.eqb_neq s 0) Hs). destruct a. by apply table_refines_same.
Qed.

(** the end of [peer_join]: both rooms get their list *)
Lemma lists_ok w pes a r old :
  holds w pes -> wf pes.*2 -> 1 <= old <= 5 ->
  (let* out1 := peer_list w a.1 a.2 r in
   if negb (to_int old =? -1) then let* out2 := peer_list w 0 (-1) (to_int old mod 2 ^ 32) in Ok (w, out1 ++ out2)
   else Ok (w, out1)) = Ok (w, spec_list pes.*2 a r ++ spec_list pes.*2 (0, -1) old).
Proof.
  intros Hh Hwf Ho. rewrite (peer_list_ok w pes a) by done. cbn [res_bind]. rewrite to_int_id by bounds.
  rewrite (proj2 (Z.eqb_neq old (-1))) by lia. cbn [negb]. rewrite Z.mod_small by lia.
  by rewrite (peer_list_ok w pes (0, -1)).
Qed.

Lemma join_table w pes a r :
  holds w pes -> wf pes.*2 -> valid a ->
  table_refines (lookup_addr pes.*2 a = None) pes (peer_join malloc_ok alloc junk w a.1 a.2 r) (spec_join pes.*2 a r).
Proof.
  intros Hh Hwf Ha. destruct (join_refines junk _ a r Hwf Ha) as [_ Hwf'].
  unfold peer_join, spec_join in *. rewrite (all_peers_ok junk w pes) by done. cbn [res_bind]. rewrite room_exists_conc by lia.
  rewrite Z.add_0_l. bdestruct (5 <=? zlen (members pes.*2 r)).
  { destruct a. by apply table_refines_same. }
  bdestruct (zlen (members pes.*2 r) =? 0); cbn [negb orb].
  { destruct a. by apply table_refines_same. }
  destruct (create_entry_ok w pes a r Hh Ha) as (w' & p & -> & Hh' & Hp & _ & Es & _). cbn [res_bind].
  destruct (find_table junk w' pes junk a Hh' Hwf Ha) as (s & -> & [(-> & El & Hk)|(Hs & e & Hin & Ea & El & Eld)]); rewrite El in *; cbn [res_bind].
  - cbn [Z.eqb negb res_bind]. destruct (add_entry w' pes p (mk_entry a r 1) junk Hh' Hwf Ha Hp Es Hk) as [E|(t & E & Ht)]; cbn [eaddr] in E; rewrite E; [by left|].
    assert ((pes ++ [(p, mk_entry a r 1)]).*2 = pes.*2 ++ [mk_entry a r 1]) as Ee by (by rewrite fmap_app).
    right. eexists _, (pes ++ [(p, mk_entry a r 1)]). cbn [res_bind]. rewrite (peer_list_ok _ _ a r Ht) by (by rewrite Ee).
    cbn [res_bind Z.eqb Pos.eqb negb]. rewrite Ee. split; [done|]. split; [done|]. split; [done|]. split; [done|].
    intros _. unfold places. rewrite fmap_app. by apply prefix_app_r.
  - rewrite (proj2 (Z.eqb_neq s 0) Hs). cbn [negb]. rewrite Eld. cbn [res_bind room conc].
    bdestruct (eroom e =? r); [destruct a; by apply table_refines_same|].
    destruct (replace_entry w' pes p (mk_entry a r 1) junk Hh' Hwf Ha Hp Es) as [E|(t & q & E & Ht)]; cbn [eaddr] in E; rewrite E; [by left|].
    cbn [eaddr] in Ht. assert ((drop_addr pes a ++ [(p, mk_entry a r 1)]).*2 = without pes.*2 a ++ [mk_entry a r 1]) as Ee
      by (by rewrite fmap_app, drop_addr_entries).
    right. eexists _, (drop_addr pes a ++ [(p, mk_entry a r 1)]). cbn [res_bind].
    rewrite (lists_ok _ _ a r (eroom e) Ht); [|by rewrite Ee|].
    + rewrite Ee. by split.
    + destruct Hwf as [_ _ Hr _]. rewrite Forall_forall in Hr. by apply Hr, (list_elem_of_fmap_2 snd _ _ Hin).
Qed.

Lemma leave_present w pes p e :
  holds w pes -> wf pes.*2 -> (p, e) ∈ pes ->
  exists w', peer_leave w (eaddr e).1 (eaddr e).2 =
      Ok (w', (eaddr e, mk_packet 108 0 None 0 []) :: spec_list (without pes.*2 (eaddr e)) (0, -1) (eroom e)) /\
    holds w' (drop_addr pes (eaddr e)) /\ structs w' = delete p (structs w) /\ next (mem (table w')) !! p = None.
Proof.
  intros Hh Hwf Hin. pose proof (elem_valid _ _ _ Hwf Hin) as Ha. pose proof (wf_without _ (eaddr e) Hwf) as Hwf'.
  unfold peer_leave. rewrite print_addr_array by done. cbn [res_bind].
  destruct (find_table junk w pes 0 (eaddr e) Hh Hwf Ha) as (s & -> & [(_ & El & _)|(Hs & e' & Hin' & Ea & El & Eld)]).
  { rewrite (lookup_addr_elem _ e) in El; [done|apply Hwf|apply (list_elem_of_fmap_2 snd _ _ Hin)]. }
  destruct (holds_unique w pes s e' p e Hh Hwf Hin' Hin) as [_ [-> ->]]; [done|]. cbn [res_bind].
  rewrite (proj2 (Z.eqb_neq p 0) Hs). cbn [negb]. rewrite Eld. cbn [res_bind room conc].
  destruct (remove_entry w pes p e Hh Hwf Hin) as (t & w' & -> & E & Hh' & ? & ?). cbn [res_bind]. rewrite E. cbn [res_bind].
  rewrite (peer_list_ok w' _ (0, -1) _ Hh') by (by rewrite drop_addr_entries). cbn [res_bind].
  rewrite drop_addr_entries. exists w'. split; [by destruct (eaddr e)|done].
Qed.

Lemma leave_table w pes a :
  holds w pes -> wf pes.*2 -> valid a ->
  table_refines (lookup_addr pes.*2 a = None) pes (peer_leave w a.1 a.2) (spec_leave pes.*2 a).
Proof.
  intros Hh Hwf Ha. destruct (leave_refines junk _ a Hwf Ha) as [_ Hwf']. unfold spec_leave in *.
  destruct (find_table junk w pes 0 a Hh Hwf Ha) as (s & E & [(-> & El & Hk)|(Hs & e & Hin & <- & El & _)]); rewrite El in *.
  - unfold peer_leave. rewrite print_addr_array by done. cbn [res_bind]. rewrite E. destruct a. by apply table_refines_same.
  - destruct (leave_present w pes s e Hh Hwf Hin) as (w' & -> & Hh' & _). right. exists w', (drop_addr pes (eaddr e)).
    rewrite drop_addr_entries. by split.
Qed.

Lemma entries_middle (l1 l2 : located) p e : (l1 ++ (p, e) :: l2).*2 = l1.*2 ++ e :: l2.*2.
Proof. by rewrite fmap_app. Qed.

Lemma wf_set_alive l1 e v l2 : wf (l1 ++ e :: l2) -> wf (l1 ++ set_alive v e :: l2).
Proof.
  intros [Hn Hv Hr Hs]. constructor.
  - by rewrite fmap_app, fmap_cons in Hn |- *.
  - by rewrite Forall_app, Forall_cons in Hv |- *.
  - by rewrite Forall_app, Forall_cons in Hr |- *.
  - intros r. specialize (Hs r). by rewrite members_app, members_cons in Hs |- *.
Qed.

(** the state of a peer is changed *)
Lemma set_entry w l1 p e e' l2 :
  holds w (l1 ++ (p, e) :: l2) -> eaddr e' = eaddr e ->
  exists w', set_struct w p (conc junk e') = Ok w' /\ holds w' (l1 ++ (p, e') :: l2) /\ table w' = table w.
Proof.
  intros [Ht Hs Ha] Ee. assert ((p, e) ∈ l1 ++ (p, e) :: l2) as Hin by (apply elem_of_app; right; by left).
  pose proof (represents_nodup _ _ Ht) as Hn. rewrite ptrs_items, fmap_app in Hn. apply NoDup_middle in Hn as [Hni _].
  apply not_elem_of_app in Hni as [H1 H2]. unfold set_struct.
  rewrite st_Ok; [|by apply (Ha p); rewrite (Hs _ _ Hin); eexists|rewrite (Hs _ _ Hin); by eexists]. cbn [res_bind].
  eexists. split; [done|]. split; [|done]. constructor; cbn [table structs].
  - replace (items_of (l1 ++ (p, e') :: l2)) with (items_of (l1 ++ (p, e) :: l2)); [done|].
    unfold items_of. rewrite !fmap_app, !fmap_cons. cbn [fst snd]. by rewrite Ee.
  - intros q e0 [Hq|[Hq|Hq]%elem_of_cons]%elem_of_app.
    + rewrite lookup_insert_ne; [by apply Hs, elem_of_app; left|]. intros <-. apply H1, (list_elem_of_fmap_2 fst _ _ Hq).
    + injection Hq as -> ->. apply lookup_insert_eq.
    + rewrite lookup_insert_ne; [by apply Hs, elem_of_app; right; right|]. intros <-. apply H2, (list_elem_of_fmap_2 fst _ _ Hq).
  - intros q [v Hq]. apply Ha. destruct (decide (q = p)) as [->|Hne]; [rewrite (Hs _ _ Hin); by eexists|].
    rewrite lookup_insert_ne in Hq by done. by eexists.
Qed.

Lemma alive_table w pes a :
  holds w pes -> wf pes.*2 -> valid a ->
  exists w' pes', mark_peer_alive w a.1 a.2 = Ok w' /\ holds w' pes' /\
    pes'.*2 = map (fun e => if decide (eaddr e = a) then set_alive 1 e else e) pes.*2 /\ places pes' = places pes.
Proof.
  intros Hh Hwf Ha. set (f e := if decide (eaddr e = a) then set_alive 1 e else e).
  assert (forall l, a ∉ eaddr <$> l -> map f l = l) as Hf.
  { intros l. induction l as [|e l IH]; [done|]. rewrite fmap_cons. intros [Hne Hni]%not_elem_of_cons. cbn [map]. unfold f at 1.
    rewrite decide_False by done. by rewrite IH. }
  unfold mark_peer_alive. rewrite print_addr_array by done. cbn [res_bind].
  destruct (find_table junk w pes 0 a Hh Hwf Ha) as (s & -> & [(-> & El & Hk)|(Hs & e & Hin & Ea & El & Eld)]); cbn [res_bind].
  - exists w, pes. split; [done|]. by rewrite Hf by (by apply lookup_addr_None).
  - rewrite (proj2 (Z.eqb_neq s 0) Hs). cbn [negb]. rewrite Eld. cbn [res_bind].
    apply list_elem_of_split in Hin as (l1 & l2 & ->). destruct (set_entry w l1 s e (set_alive 1 e) l2 Hh) as (w' & E & Hh' & _); [done|].
    exists w', (l1 ++ (s, set_alive 1 e) :: l2). split; [exact E|]. split; [done|]. split; [|unfold places; by rewrite !fmap_app].
    pose proof (wf_nodup _ Hwf) as Hn. rewrite !entries_middle in *. rewrite fmap_app, fmap_cons in Hn. apply NoDup_middle in Hn as [Hni _].
    rewrite Ea in Hni. apply not_elem_of_app in Hni as [H1 H2]. rewrite map_app. cbn [map]. rewrite !Hf by done. unfold f.
    by rewrite decide_True.
Qed.

Lemma pings_loop_ok rest : forall fuel w before,
  holds w (before ++ rest) -> wf (before ++ rest).*2 -> (length rest < fuel)%nat -> lseg (next (mem (table w))) rest.*1 ->
  exists w', pings_loop fuel w (hdp rest.*1 0) = Ok (w', map (fun e => (eaddr e, mk_packet 112 0 None 0 [])) rest.*2) /\
    holds w' (before ++ map (fun pe => (pe.1, set_alive 0 pe.2)) rest).
Proof.
  induction rest as [|[p e] rest IH]; intros [|fuel] w before Hh Hwf Hf Hl; simpl in Hf; [lia|by exists w|lia|].
  cbn [fmap list_fmap lseg fst] in Hl. destruct Hl as (Hp & Hn & Hl).
  assert (holds w (before ++ (p, e) :: rest)) as Hh0 by done. destruct Hh as [_ Hs _].
  destruct (set_entry w before p e (set_alive 0 e) rest Hh0) as (w1 & E1 & Hh1 & Et); [done|].
  cbn [pings_loop fmap list_fmap fst snd hdp map]. rewrite (proj2 (Z.eqb_neq p 0) Hp).
  rewrite (ld_Ok _ _ _ Hp (Hs p e ltac:(by apply elem_of_app; right; left))). cbn [res_bind].
  change (mk_peer (ip_and_port (conc junk e)) (room (conc junk e)) 0) with (conc junk (set_alive 0 e)). rewrite E1. cbn [res_bind].
  rewrite peer_addr_conc by (eapply elem_valid; [exact Hwf|]; apply elem_of_app; right; by left). cbn [res_bind].
  rewrite Et, (ld_Ok _ _ _ Hp Hn). cbn [res_bind]. rewrite <- Et in Hl.
  assert (before ++ (p, set_alive 0 e) :: rest = (before ++ [(p, set_alive 0 e)]) ++ rest) as Ea by (by rewrite <- app_assoc). rewrite Ea in Hh1.
  destruct (IH fuel w1 (before ++ [(p, set_alive 0 e)])) as (w2 & -> & Hh2); [done| |lia|done|].
  - rewrite <- Ea. rewrite entries_middle in Hwf |- *. by apply wf_set_alive.
  - exists w2. split; [done|]. by rewrite <- app_assoc in Hh2.
Qed.

Lemma pings_table w pes : holds w pes -> wf pes.*2 -> table_refines True pes (send_pings w) (spec_step pes.*2 OpPing).
Proof.
  intros Hh Hwf. destruct (chat_step_refines junk _ OpPing Hwf I) as [_ Hwf']. pose proof Hh as [Ht _ _].
  destruct (represents_app _ _ Ht) as (Hd & Hl & Hlen). rewrite ptrs_items, length_fmap in *. unfold send_pings. rewrite Hd.
  destruct (pings_loop_ok pes (loop_fuel w) w [] Hh Hwf Hlen Hl) as (w' & -> & Hh'). right. eexists w', _. split; [done|]. split; [done|].
  split; [|split; [exact Hh'|intros _]]; clear; cbn [app spec_step fst].
  - induction pes as [|[p e] pes IH]; [done|]. cbn. by f_equal.
  - unfold places. induction pes as [|[p e] pes IH]; [done|]. by apply prefix_cons.
Qed.

(** an operation that neither moves nor removes an entry *)
Definition keeps (es : list entry) (op : chat_op) : Prop :=
  match op with
  | OpJoin ip port _ | OpLeave ip port => lookup_addr es (ip, port) = None
  | _ => True
  end.

Lemma table_step_places w pes op :
  holds w pes -> wf pes.*2 -> valid_op op ->
  table_refines (keeps pes.*2 op) pes (table_step malloc_ok alloc junk w op) (spec_step pes.*2 op).
Proof.
  intros Hh Hwf Hop. destruct op as [ip port|ip port r|ip port|ip port|]; cbn [table_step valid_op] in *.
  - by apply (create_table w pes (ip, port)).
  - by apply (join_table w pes (ip, port)).
  - by apply (leave_table w pes (ip, port)).
  - destruct (alive_table w pes (ip, port) Hh Hwf Hop) as (w' & pes' & E & Hh' & Ees & Ep). cbn [fst snd] in E. rewrite E.
    right. exists w', pes'. split; [done|]. split; [|split; [done|split; [done|by rewrite Ep]]].
    apply wf_map_alive; [|done]. intros e. by destruct (decide _).
  - by apply pings_table.
Qed.

Lemma table_step_refines w es op :
  agrees w es -> valid_op op ->
  table_step malloc_ok alloc junk w op = Exit (-1) \/
  exists w', table_step malloc_ok alloc junk w op = Ok (w', (spec_step es op).2) /\ agrees w' (spec_step es op).1.
Proof.
  intros (Hwf & pes & <- & Hh) Hop. destruct (table_step_places w pes op Hh Hwf Hop) as [E|(w' & pes' & E & Hwf' & E' & Hh' & _)]; [by left|].
  right. exists w'. split; [done|]. split; [done|]. by exists pes'.
Qed.

(** The first peer that is dead is taken out, and then its link is read. *)
Lemma dead_loop_ok w pes : forall rest fuel,
  holds w pes -> wf pes.*2 -> (forall p e, (p, e) ∈ rest -> (p, e) ∈ pes) ->
  (length rest < fuel)%nat -> lseg (next (mem (table w))) rest.*1 ->
  dead_loop fuel w (hdp rest.*1 0) =
  if forallb (fun e => negb (ealive e =? 0)) rest.*2 then Ok (w, []) else Fault UseAfterFree.
Proof.
  intros rest. induction rest as [|[p e] rest IH]; intros [|fuel] Hh Hwf Hin Hf Hl; simpl in Hf; [lia|done|lia|].
  cbn [fmap list_fmap lseg fst] in Hl. destruct Hl as (Hp & Hn & Hl). assert ((p, e) ∈ pes) as Hpe by (apply Hin; by left).
  cbn [dead_loop fmap list_fmap fst snd hdp forallb]. rewrite (proj2 (Z.eqb_neq p 0) Hp).
  rewrite (ld_Ok _ _ _ Hp (holds_structs _ _ _ Hh p e Hpe)). cbn [res_bind alive conc].
  destruct (ealive e =? 0); cbn [negb andb].
  - fold (conc junk e). rewrite peer_addr_conc by (by eapply elem_valid). cbn [res_bind].
    destruct (leave_present w pes p e Hh Hwf Hpe) as (w' & E & _ & _ & En). destruct (eaddr e) as [ip port]. cbn [fst snd] in E.
    rewrite E. cbn [res_bind]. unfold ld. by rewrite (proj2 (Z.eqb_neq p 0) Hp), En.
  - cbn [res_bind]. rewrite (ld_Ok _ _ _ Hp Hn). cbn [res_bind]. rewrite IH; [by destruct (forallb _ _)|done|done| |lia|done].
    intros q e' H. apply Hin. by right.
Qed.

(** a request to create a room from a peer that has one *)
Lemma create_leaks w es a e :
  agrees w es -> valid a -> lookup_addr es a = Some e -> (size (rooms_of es) < 5)%nat ->
  exists w', peer_create_room malloc_ok alloc junk w a.1 a.2 = Ok (w', send_error a.1 a.2 99 101) /\ agrees w' es /\
    size (structs w') = S (size (structs w)).
Proof.
  intros (Hwf & pes & <- & Hh) Ha El Hlt. unfold peer_create_room, MAX_NUM_ROOMS. rewrite (get_total_num_rooms_ok w pes) by done.
  cbn [res_bind]. rewrite (proj2 (Z.leb_gt 5 _)) by lia. rewrite (all_peers_ok junk w pes) by done. cbn [res_bind].
  destruct (create_entry_ok w pes a (free_room (map (conc junk) pes.*2) 1 (Z.to_nat (5 * 2 - 1))) Hh Ha)
    as (w' & p & -> & Hh' & _ & _ & _ & Hsz). cbn [res_bind].
  destruct (find_table junk w' pes junk a Hh' Hwf Ha) as (s & -> & [(_ & El' & _)|(Hs & _)]); [congruence|]. cbn [res_bind].
  rewrite (proj2 (Z.eqb_neq s 0) Hs). exists w'. split; [done|]. split; [|done]. split; [done|]. by exists pes.
Qed.

Lemma table_run_refines w es ops :
  agrees w es -> Forall valid_op ops ->
  table_run malloc_ok alloc junk w ops = Exit (-1) \/
  exists w', table_run malloc_ok alloc junk w ops = Ok (w', (spec_run es ops).2) /\ agrees w' (spec_run es ops).1.
Proof.
  intros Hw Hops. revert w es Hw. induction Hops as [|op ops Hop Hops IH]; intros w es Hw; [right; by exists w|].
  cbn [table_run spec_run]. destruct (table_step_refines w es op Hw Hop) as [->|(w' & -> & Hw')]; [by left|]. cbn [res_bind].
  destruct (spec_step es op) as [es' out]. cbn [fst snd] in *. destruct (IH w' es' Hw') as [->|(w'' & -> & Hw'')]; [by left|right].
  exists w''. by destruct (spec_run es' ops).
Qed.

(** ** Properties *)
(** C12: The chat tracker with its peers in memory and its table in uthash refines
    the specification on addresses and rooms: from a memory that holds the
    entries, every sequence of requests, answers and rounds of pings has the
    packets of the specification and leaves a memory that holds its entries, or
    uthash exits because an allocation failed.  So no operation but
    [delete_dead_peers] accesses freed memory, and the list of ChatTracker is
    the table it stands for. *)
Theorem chat_table_refines w es ops :
  agrees w es -> Forall valid_op ops ->
  table_run malloc_ok alloc junk w ops = Exit (-1) \/
  exists w', table_run malloc_ok alloc junk w ops = Ok (w', (spec_run es ops).2) /\ agrees w' (spec_run es ops).1.
Proof. apply table_run_refines. Qed.

(** C39: [delete_dead_peers] reads the link of an entry that was freed whenever a
    peer has not answered its ping, and does nothing otherwise. *)
Theorem dead_peers_use_after_free w es :
  agrees w es ->
  delete_dead_peers w = if forallb (fun e => negb (ealive e =? 0)) es then Ok (w, []) else Fault UseAfterFree.
Proof.
  intros (Hwf & pes & <- & Hh). pose proof Hh as [Ht _ _]. destruct (represents_app _ _ Ht) as (Hd & Hl & Hlen).
  rewrite ptrs_items, length_fmap in *. unfold delete_dead_peers. rewrite Hd. by apply (dead_loop_ok w pes).
Qed.

(** Every request to create a room from a peer that is in a room is answered
    with an error, changes no entry, and leaks a [struct peer]: [n] of them
    allocate [n] that are never freed. *)
Theorem create_requests_leak w es ip port e n :
  agrees w es -> valid (ip, port) -> lookup_addr es (ip, port) = Some e -> (size (rooms_of es) < 5)%nat ->
  exists w', table_run malloc_ok alloc junk w (replicate n (OpCreate ip port)) =
      Ok (w', replicate n (send_error ip port 99 101)) /\
    agrees w' es /\ size (structs w') = (n + size (structs w))%nat.
Proof.
  intros Hw Ha El Hlt. revert w Hw. induction n as [|n IH]; intros w Hw; [by exists w|].
  cbn [replicate table_run table_step]. destruct (create_leaks w es (ip, port) e Hw Ha El Hlt) as (w1 & E & Hw1 & Hs1).
  cbn [fst snd] in E. rewrite E. cbn [res_bind]. destruct (IH w1 Hw1) as (w2 & -> & Hw2 & Hs2). exists w2. split; [done|].
  split; [done|]. rewrite Hs2, Hs1. lia.
Qed.
End program_spec.

(** ** Witnesses *)
(** an allocator, and the memory at the start of the program *)
Definition fresh_peer (m : gmap ptr peer) : ptr := fresh (({[0]} : gset ptr) ∪ dom m).

#[export] Instance fresh_peer_ok : PeerAllocator fresh_peer.
Proof.
  intros m. pose proof (is_fresh (({[0]} : gset ptr) ∪ dom m)) as [H1 H2]%not_elem_of_union. fold (fresh_peer m) in *.
  split; [by intros E; apply H1; rewrite E; apply elem_of_singleton|by apply not_elem_of_dom].
Qed.

Definition memory0 : memory := mk_memory (mk_hash 0 None (mk_heap ∅ ∅ ∅ ∅ ∅ ∅ ∅)) ∅.

Lemma memory0_agrees junk : agrees junk memory0 [].
Proof.
  split; [by apply wf_nil|]. exists []. split; [done|]. constructor; [done| |].
  - intros p e H. by apply elem_of_nil in H.
  - intros p [v H]. unfold memory0 in H. cbn [structs] in H. by rewrite lookup_empty in H.
Qed.

Definition ops1 : list chat_op := [OpCreate 16777343 4000; OpPing].
Definition ops2 : list chat_op := [OpCreate 16777343 4000; OpJoin 16777343 4001 1; OpLeave 16777343 4000].

Lemma chat_table_refines_witness :
  table_run malloc0 fresh_peer 85 memory0 ops2 = Exit (-1) \/
  exists w', table_run malloc0 fresh_peer 85 memory0 ops2 = Ok (w', (spec_run [] ops2).2) /\
    agrees 85 w' [mk_entry (16777343, 4001) 1 1].
Proof.
  apply (chat_table_refines malloc0 malloc0_bound fresh_peer 85 memory0 [] ops2); [apply memory0_agrees|].
  repeat constructor; cbn; (discriminate || reflexivity).
Defined.

(** the memory after a room was created and a round of pings *)
Definition memory1 : memory :=
  match table_run malloc0 fresh_peer 85 memory0 ops1 with Ok (w, _) => w | _ => memory0 end.

Lemma memory1_agrees : agrees 85 memory1 [mk_entry (16777343, 4000) 1 0].
Proof.
  assert (Forall valid_op ops1) as Hops by (repeat constructor; cbn; (discriminate || reflexivity)).
  destruct (table_run_refines malloc0 malloc0_bound fresh_peer 85 memory0 [] ops1 (memory0_agrees 85) Hops) as [E|(w' & E & Hw)].
  - by vm_compute in E.
  - unfold memory1. by rewrite E.
Qed.

Lemma dead_peers_use_after_free_witness : delete_dead_peers memory1 = Fault UseAfterFree.
Proof. apply (dead_peers_use_after_free 85 memory1 [mk_entry (16777343, 4000) 1 0]). apply memory1_agrees. Defined.

Lemma create_requests_leak_witness :
  exists w', table_run malloc0 fresh_peer 85 memory1 (replicate 100 (OpCreate 16777343 4000)) =
      Ok (w', replicate 100 (send_error 16777343 4000 99 101)) /\
    agrees 85 w' [mk_entry (16777343, 4000) 1 0] /\ size (structs w') = 101%nat.
Proof.
  apply (create_requests_leak malloc0 fresh_peer 85 memory1 [mk_entry (16777343, 4000) 1 0] 16777343 4000 (mk_entry (16777343, 4000) 1 0) 100).
  - apply memory1_agrees.
  - repeat constructor; cbn; (discriminate || reflexivity).
  - vm_compute. reflexivity.
  - apply Nat.ltb_lt. vm_compute. reflexivity.
Defined.
