(* ===== verification/ChatThreads.v ===== *)
(** * The threads of the chat tracker (src/examples/p2p-chat-example/tracker.c)

    The main thread serves requests, [ping_input] marks the peers that answer
    pings, and [ping_output] removes the peers that are dead and sends new pings;
    [peers_lock] is held for single assignments and macro calls, not for the
    loops, nor from finding a peer to marking it.  The loops of
    [delete_dead_peers] and [send_pings] are cut at the two places where other
    threads may run, before the body for a peer and before [s->hh.next] is read;
    [mark_peer_alive] is cut between its search and its store.  The requests of
    ChatTable run between these steps, each at once, and so does [peer_leave] of
    a dead peer.  Runs are sequences of steps in any order. *)
From Stdlib Require Import ZArith Lia Bool String.
From stdpp Require Import base numbers option list gmap fin_maps relations.
From S2P Require Import Prelude CStr HashFcns UtHash LinkedList UtHashSpec UtHashRefine ChatTracker ChatTable.

(** where [ping_output] is: [Check s] and [Body s] before the test of [s] in
    [delete_dead_peers] and [send_pings], [Checked s] and [Advance s] behind the
    body for [s]; [Idle] until the next round *)
Inductive ping_pc := Idle | Check (s : ptr) | Checked (s : ptr) | Body (s : ptr) | Advance (s : ptr).

(** where [ping_input] is: at [recvfrom], or about to mark the peer it found *)
Inductive input_pc := Waiting | Found (s : ptr).

(** the memory all threads share, both threads, and the pings of this round *)
Record threads := mk_threads { shared : memory; pc : ping_pc; pinged : sent; input : input_pc }.

(** a request, a step of [ping_output], and the two steps of [ping_input] *)
Inductive turn := Main (op : chat_op) | Ping | Answer (ip port : Z) | Mark.

Definition ping_packet : packet := mk_packet 112 0 None 0 [].

Section threads.
Variable malloc_ok : Z -> bool.
Variable alloc : gmap ptr peer -> ptr.
Variable junk : Z.

Definition ping_step (t : threads) : res threads :=
  let w := shared t in
  match pc t with
  | Idle => Ok (mk_threads w (Check (hd (table w))) [] (input t))
  | Check s =>
      if s =? 0 then Ok (mk_threads w (Body (hd (table w))) (pinged t) (input t))
      else
        let* v := ld (structs w) s in
        let* (w, _) :=
          if alive v =? 0 then let* (peer_ip, peer_port) := peer_addr v in peer_leave w peer_ip peer_port
          else Ok (w, []) in
        Ok (mk_threads w (Checked s) (pinged t) (input t))
  | Checked s =>
      let* n := ld (next (mem (table w))) s in
      Ok (mk_threads w (Check n) (pinged t) (input t))
  | Body s =>
      if s =? 0 then Ok (mk_threads w Idle (pinged t) (input t))
      else
        let* v := ld (structs w) s in
        let* w := set_struct w s (mk_peer (ip_and_port v) (room v) 0) in
        let* a := peer_addr v in
        Ok (mk_threads w (Advance s) (pinged t ++ [(a, ping_packet)]) (input t))
  | Advance s =>
      let* n := ld (next (mem (table w))) s in
      Ok (mk_threads w (Body n) (pinged t) (input t))
  end.

(** a ping is answered: [mark_peer_alive] up to its lock; while it is there, the
    next answer waits in the socket *)
Definition answer_step (t : threads) (ip port : Z) : res threads :=
  match input t with
  | Found _ => Ok t
  | Waiting =>
      let* ip_port := print_addr 0 ip port in
      let* s := HASH_FIND_STR (table (shared t)) ip_port in
      Ok (mk_threads (shared t) (pc t) (pinged t) (if negb (s =? 0) then Found s else Waiting))
  end.

(** the store under the lock *)
Definition mark_step (t : threads) : res threads :=
  match input t with
  | Waiting => Ok t
  | Found s =>
      let* v := ld (structs (shared t)) s in
      let* w := set_struct (shared t) s (mk_peer (ip_and_port v) (room v) 1) in
      Ok (mk_threads w (pc t) (pinged t) Waiting)
  end.

Definition thread_step (t : threads) (ev : turn) : res threads :=
  match ev with
  | Main op =>
      let* (w, _) := table_step malloc_ok alloc junk (shared t) op in Ok (mk_threads w (pc t) (pinged t) (input t))
  | Ping => ping_step t
  | Answer ip port => answer_step t ip port
  | Mark => mark_step t
  end.

Fixpoint thread_run (t : threads) (evs : list turn) : res threads :=
  match evs with
  | [] => Ok t
  | ev :: evs => let* t := thread_step t ev in thread_run t evs
  end.

(** what the main thread does to the table *)
Definition is_request (op : chat_op) : Prop :=
  match op with OpCreate _ _ | OpJoin _ _ _ | OpLeave _ _ => True | _ => False end.

(** The events of a round in which nobody leaves, changes the room or is found
    dead: [ping_output] goes on until it is through, and no request moves or
    removes an entry. *)
Definition quiet (t : threads) (ev : turn) : Prop :=
  match ev with
  | Ping => pc t <> Idle /\ forall s v, pc t = Check s -> structs (shared t) !! s = Some v -> alive v <> 0
  | Main op => valid_op op /\ is_request op /\ forall es, agrees junk (shared t) es -> keeps es op
  | Answer ip port => valid (ip, port)
  | Mark => True
  end.

Definition quiet_step (t t' : threads) : Prop := exists ev, quiet t ev /\ thread_step t ev = Ok t'.

(** the same while [ping_input] is not scheduled *)
Definition quiet_other (t t' : threads) : Prop :=
  exists ev, quiet t ev /\ thread_step t ev = Ok t' /\ match ev with Answer _ _ | Mark => False | _ => True end.
End threads.

Definition ping_all (l : list (ptr * addr)) : sent := (fun pa => (pa.2, ping_packet)) <$> l.

(** ** Lemmas *)
Lemma lseg_lookup nx l n p : lseg nx l -> l !! n = Some p -> nx !! p = Some (default 0 (l !! S n)).
Proof.
  revert n. induction l as [|q l IH]; intros [|n] Hl Hp; try done; destruct Hl as (Hq & Hn & Hl); cbn in Hp.
  - injection Hp as ->. rewrite Hn. by destruct l.
  - by apply IH.
Qed.

Lemma places_ptrs pes : (places pes).*1 = pes.*1.
Proof. unfold places. rewrite <- list_fmap_compose. by apply list_fmap_ext. Qed.

Lemma places_addrs pes : (places pes).*2 = eaddr <$> pes.*2.
Proof. unfold places. rewrite <- !list_fmap_compose. by apply list_fmap_ext. Qed.

Section invariant.
Variable malloc_ok : Z -> bool.
Hypothesis Hmalloc : forall n, malloc_ok n = true -> n < 2 ^ 35.
Context (alloc : gmap ptr peer -> ptr) `{!PeerAllocator alloc}.
Variable junk : Z.

(** the memory determines the entries it holds *)
Lemma agrees_unique w es es' : agrees junk w es -> agrees junk w es' -> es = es'.
Proof.
  intros (Hwf & pes & <- & Hh) (Hwf' & pes' & <- & Hh'). pose proof (all_peers_ok junk w pes Hh) as E.
  rewrite (all_peers_ok junk w pes' Hh') in E. injection E as E. destruct Hwf as [_ Hv _ _], Hwf' as [_ Hv' _ _].
  revert E Hv Hv'. generalize (pes'.*2) (pes.*2). clear. intros es es'. revert es'.
  induction es as [|e es IH]; intros [|e' es'] E Hv Hv'; try discriminate; [done|]. cbn [map] in E.
  injection E as Ea Er Eal E. apply Forall_cons in Hv as [Hv1 Hv]. apply Forall_cons in Hv' as [Hv1' Hv']. f_equal; [|by apply IH].
  destruct e as [a r al], e' as [a' r' al']. cbn in *. f_equal; [|done|done]. apply text_inj; [done|done|].
  unfold array in Ea. apply (f_equal cstr) in Ea. rewrite !cstr_app in Ea by apply text_no_nul. by injection Ea.
Qed.

(** [ping_output] has pinged the first [n] entries; [start] is at the front of
    the table and is reached by the round *)
Definition at_pc (start : list (ptr * addr)) (pes : located) (n : nat) (c : ping_pc) : Prop :=
  match c with
  | Idle => (length start <= n)%nat
  | Check s => n = 0%nat /\ (s = 0 \/ exists m a, places pes !! m = Some (s, a))
  | Checked s => n = 0%nat /\ exists m a, places pes !! m = Some (s, a)
  | Body s => (exists a, places pes !! n = Some (s, a)) \/ s = 0 /\ (length start <= n)%nat
  | Advance s => exists m a, n = S m /\ places pes !! m = Some (s, a)
  end.

Definition at_input (pes : located) (c : input_pc) : Prop :=
  match c with Waiting => True | Found s => exists a, (s, a) ∈ places pes end.

Definition round_at (start : list (ptr * addr)) (pes : located) (t : threads) : Prop :=
  holds junk (shared t) pes /\ wf pes.*2 /\ start `prefix_of` places pes /\ at_input pes (input t) /\
  exists n, (n <= length pes)%nat /\ pinged t = ping_all (take n (places pes)) /\ at_pc start pes n (pc t).

(** a step that leaves the entries at their places *)
Definition goes_on (start : list (ptr * addr)) (pes : located) (r : res threads) : Prop :=
  exists t' pes', r = Ok t' /\ round_at start pes' t' /\ places pes `prefix_of` places pes'.

Lemma places_length pes : length (places pes) = length pes.
Proof. unfold places. by rewrite length_fmap. Qed.

Lemma prefix_take {A} (l l' : list A) n : l `prefix_of` l' -> (n <= length l)%nat -> take n l' = take n l.
Proof. intros [k ->] Hn. by apply take_app_le. Qed.

Lemma prefix_lookup_Some' {A} (l l' : list A) i x : l `prefix_of` l' -> l !! i = Some x -> l' !! i = Some x.
Proof. intros [k ->] Hi. by apply lookup_app_l_Some. Qed.

(** entries added behind the others move neither thread *)
Lemma at_pc_prefix start pes pes' n c :
  places pes `prefix_of` places pes' -> at_pc start pes n c -> at_pc start pes' n c.
Proof.
  intros Hpl Hpc. destruct c as [|s|s|s|s]; cbn [at_pc] in *; [done| | | |].
  - destruct Hpc as [-> [?|(m & a & Ha)]]; (split; [done|]); [by left|right]. exists m, a. by eapply prefix_lookup_Some'.
  - destruct Hpc as (-> & m & a & Ha). split; [done|]. exists m, a. by eapply prefix_lookup_Some'.
  - destruct Hpc as [[a Ha]|?]; [left; exists a; by eapply prefix_lookup_Some'|by right].
  - destruct Hpc as (m & a & -> & Ha). exists m, a. split; [done|]. by eapply prefix_lookup_Some'.
Qed.

Lemma at_input_prefix pes pes' c : places pes `prefix_of` places pes' -> at_input pes c -> at_input pes' c.
Proof. intros [k E]. destruct c as [|s]; [done|]. intros [a Ha]. exists a. rewrite E. apply elem_of_app. by left. Qed.

(** the same places *)
Lemma round_at_places start pes pes' t w :
  round_at start pes t -> places pes' = places pes -> holds junk w pes' -> wf pes'.*2 ->
  round_at start pes' (mk_threads w (pc t) (pinged t) (input t)).
Proof.
  intros (_ & _ & Hs & Hi & n & Hn & Hp & Hpc) E Hh Hwf. assert (places pes `prefix_of` places pes') as Hpl by by rewrite E.
  split; [done|]. split; [done|]. rewrite E. split; [done|]. split; [by eapply at_input_prefix|]. exists n.
  rewrite <- places_length, E, places_length. split; [done|]. split; [done|]. by eapply at_pc_prefix.
Qed.

(** a request while the other threads are somewhere *)
Lemma main_inv start pes t op :
  round_at start pes t -> quiet junk t (Main op) ->
  thread_step malloc_ok alloc junk t (Main op) = Exit (-1) \/ goes_on start pes (thread_step malloc_ok alloc junk t (Main op)).
Proof.
  intros (Hh & Hwf & Hs & Hi & n & Hn & Hp & Hpc) (Hop & _ & Hk). cbn [thread_step].
  assert (keeps pes.*2 op) as Hkeep by (apply Hk; split; [done|by exists pes]).
  destruct (table_step_places malloc_ok Hmalloc alloc junk (shared t) pes op Hh Hwf Hop) as [->|(w' & pes' & -> & Hwf' & E & Hh' & Hpl)]; [by left|].
  right. specialize (Hpl Hkeep). pose proof (prefix_length _ _ Hpl) as Hlen. rewrite !places_length in Hlen.
  eexists _, pes'. split; [done|]. split; [|done]. split; [done|]. split; [by rewrite E|]. split; [by etrans|].
  split; [by eapply at_input_prefix|]. exists n. cbn [shared pc pinged]. split; [lia|].
  split; [by rewrite (prefix_take _ _ _ Hpl) by (by rewrite places_length)|]. by eapply at_pc_prefix.
Qed.

(** the entry at a place *)
Lemma place_split pes m s a :
  places pes !! m = Some (s, a) -> exists e l1 l2, pes = l1 ++ (s, e) :: l2 /\ eaddr e = a /\ length l1 = m.
Proof.
  unfold places. rewrite list_lookup_fmap. destruct (pes !! m) as [[p e]|] eqn:E; [|done]. intros [= -> <-].
  exists e, (take m pes), (drop (S m) pes). split; [symmetry; by apply take_drop_middle|]. split; [done|].
  apply lookup_lt_Some in E. rewrite length_take. lia.
Qed.

Lemma place_entry w pes m s a :
  holds junk w pes -> places pes !! m = Some (s, a) ->
  exists e l1 l2, pes = l1 ++ (s, e) :: l2 /\ eaddr e = a /\ length l1 = m /\ s <> 0 /\
    structs w !! s = Some (conc junk e) /\ ld (structs w) s = Ok (conc junk e).
Proof.
  intros Hh Ha. destruct (place_split _ _ _ _ Ha) as (e & l1 & l2 & -> & <- & Hl1). pose proof Hh as [_ Hst Hal].
  assert ((s, e) ∈ l1 ++ (s, e) :: l2) as Hin by (apply elem_of_app; right; by left). pose proof (Hst _ _ Hin) as Es.
  assert (s <> 0) as Hs0 by (apply (Hal s); by eexists). exists e, l1, l2. split_and!; [done..|]. by apply ld_Ok.
Qed.

(** the place behind it *)
Lemma place_next w pes m s a :
  holds junk w pes -> places pes !! m = Some (s, a) ->
  exists n, ld (next (mem (table w))) s = Ok n /\
    ((exists b, places pes !! S m = Some (n, b)) \/ n = 0 /\ (length pes <= S m)%nat).
Proof.
  intros Hh Ha. destruct (place_entry _ _ _ _ _ Hh Ha) as (_ & _ & _ & _ & _ & _ & Hs0 & _). pose proof Hh as [Ht _ _].
  destruct (represents_app _ _ Ht) as (_ & Hl & _). rewrite ptrs_items in Hl.
  assert (pes.*1 !! m = Some s) as Hm by (by rewrite <- places_ptrs, list_lookup_fmap, Ha).
  eexists. split; [exact (ld_Ok _ _ _ Hs0 (lseg_lookup _ _ _ _ Hl Hm))|].
  rewrite <- places_ptrs, list_lookup_fmap. destruct (places pes !! S m) as [[p b]|] eqn:E; [left; by exists b|right].
  split; [done|]. apply lookup_ge_None in E. by rewrite places_length in E.
Qed.

(** the store to [alive] of an entry *)
Lemma store_alive start pes t m s a v :
  round_at start pes t -> places pes !! m = Some (s, a) ->
  exists e l1 l2 w, pes = l1 ++ (s, e) :: l2 /\ eaddr e = a /\ ld (structs (shared t)) s = Ok (conc junk e) /\
    set_struct (shared t) s (conc junk (set_alive v e)) = Ok w /\
    let pes' := l1 ++ (s, set_alive v e) :: l2 in
    places pes' = places pes /\ round_at start pes' (mk_threads w (pc t) (pinged t) (input t)).
Proof.
  intros Ht Ha. pose proof Ht as (Hh & Hwf & _). destruct (place_entry _ _ _ _ _ Hh Ha) as (e & l1 & l2 & -> & <- & _ & _ & _ & El).
  destruct (set_entry junk (shared t) l1 s e (set_alive v e) l2 Hh) as (w' & E & Hh' & _); [done|].
  assert (places (l1 ++ (s, set_alive v e) :: l2) = places (l1 ++ (s, e) :: l2)) as Epl by (unfold places; by rewrite !fmap_app).
  exists e, l1, l2, w'. do 4 (split; [done|]). split; [done|]. eapply round_at_places; [exact Ht|done..|].
  rewrite entries_middle in Hwf |- *. by apply wf_set_alive.
Qed.

(** where both loops start *)
Lemma first_place w pes : holds junk w pes -> hd (table w) = 0 /\ pes = [] \/ exists a, places pes !! 0%nat = Some (hd (table w), a).
Proof.
  intros Hh. pose proof Hh as [Ht _ _]. destruct (represents_app _ _ Ht) as (-> & _ & _). rewrite ptrs_items.
  destruct pes as [|[p e] pes]; [by left|right]. by exists (eaddr e).
Qed.

Lemma ping_inv start pes t : round_at start pes t -> quiet junk t Ping -> goes_on start pes (ping_step t).
Proof.
  intros Ht [Hni Hal]. pose proof Ht as (Hh & Hwf & Hs & Hi & n & Hn & Hp & Hpc). pose proof (prefix_length _ _ Hs) as Hls.
  rewrite places_length in Hls. unfold ping_step. destruct (pc t) as [|s|s|s|s] eqn:Epc; [done|..]; cbn [at_pc] in Hpc.
  - destruct Hpc as [-> [->|(m & a & Ha)]].
    + eexists _, pes. split; [done|]. split; [|done]. split_and!; [done..|]. exists 0%nat. split_and!; [lia|done|]. cbn [pc at_pc shared].
      destruct (first_place _ _ Hh) as [[-> ->]|?]; [right; split; [done|]|by left]. exact Hls.
    + destruct (place_entry _ _ _ _ _ Hh Ha) as (e & l1 & l2 & Ep & _ & _ & Hs0 & Es & ->).
      rewrite (proj2 (Z.eqb_neq s 0) Hs0). cbn [res_bind]. rewrite (proj2 (Z.eqb_neq _ 0) (Hal s _ eq_refl Es)). cbn [res_bind].
      eexists _, pes. split; [done|]. split; [|done]. split_and!; [done..|]. exists 0%nat. split_and!; [lia|done|]. split; [done|]. by exists m, a.
  - destruct Hpc as (-> & m & a & Ha). destruct (place_next _ _ _ _ _ Hh Ha) as (q & -> & Hq). cbn [res_bind].
    eexists _, pes. split; [done|]. split; [|done]. split_and!; [done..|]. exists 0%nat. split_and!; [lia|done|]. split; [done|].
    destruct Hq as [[b Hb]|[-> _]]; [right; by exists (S m), b|by left].
  - destruct Hpc as [[a Ha]|[-> Hl]].
    + destruct (store_alive start pes t n s a 0 Ht Ha) as (e & l1 & l2 & w & -> & <- & El & E & Epl & Ht').
      destruct (place_entry _ _ _ _ _ Hh Ha) as (_ & _ & _ & _ & _ & _ & Hs0 & _). rewrite (proj2 (Z.eqb_neq s 0) Hs0), El.
      cbn [res_bind]. change (mk_peer (ip_and_port (conc junk e)) (room (conc junk e)) 0) with (conc junk (set_alive 0 e)).
      rewrite E. cbn [res_bind]. rewrite peer_addr_conc by (by eapply (elem_valid _ s), elem_of_app; [done|right; left]). cbn [res_bind].
      destruct Ht' as (Hh' & Hwf' & Hs' & Hi' & _). eexists _, _. split; [done|]. rewrite Epl. split; [|done]. split_and!; [done..|].
      apply lookup_lt_Some in Ha as Hlt. rewrite places_length in Hlt. exists (S n). rewrite Epl. split; [rewrite length_app in *; cbn in *; lia|].
      split; [|exists n, (eaddr e); by rewrite Epl]. cbn [pinged]. rewrite (take_S_r _ _ _ Ha), Hp. unfold ping_all. by rewrite fmap_app.
    + eexists _, pes. split; [done|]. split; [|done]. split_and!; [done..|]. by exists n.
  - destruct Hpc as (m & a & -> & Ha). destruct (place_next _ _ _ _ _ Hh Ha) as (q & -> & Hq). cbn [res_bind].
    eexists _, pes. split; [done|]. split; [|done]. split_and!; [done..|]. exists (S m). split_and!; [done..|]. cbn [pc at_pc].
    destruct Hq as [?|[-> ?]]; [by left|right]. split; [done|lia].
Qed.

(** the steps of [ping_input] *)
Lemma answer_find start pes t a :
  round_at start pes t -> input t = Waiting -> valid a ->
  exists s, answer_step t a.1 a.2 = Ok (mk_threads (shared t) (pc t) (pinged t) s) /\
    (s = Waiting /\ lookup_addr pes.*2 a = None \/ exists p, s = Found p /\ (p, a) ∈ places pes).
Proof.
  intros (Hh & Hwf & _) Hi Ha. unfold answer_step. rewrite Hi, print_addr_array by done. cbn [res_bind].
  destruct (find_table junk (shared t) pes 0 a Hh Hwf Ha) as (s & -> & [(-> & El & _)|(Hs & e & Hin & <- & _)]); cbn [res_bind].
  - eexists. split; [done|]. by left.
  - rewrite (proj2 (Z.eqb_neq s 0) Hs). eexists. split; [done|]. right. exists s. split; [done|].
    by apply (list_elem_of_fmap_2 (fun pe => (pe.1, eaddr pe.2)) pes (s, e)).
Qed.

Lemma answer_inv start pes t a : round_at start pes t -> valid a -> goes_on start pes (answer_step t a.1 a.2).
Proof.
  intros Ht Ha. pose proof Ht as (Hh & Hwf & Hs & Hi & Hn). destruct (input t) as [|s] eqn:Ei.
  - destruct (answer_find start pes t a Ht Ei Ha) as (i & -> & Hin). eexists _, pes. split; [done|]. split; [|done]. split_and!; [done..| |done].
    destruct Hin as [[-> _]|(p & -> & Hin)]; [done|]. by exists a.
  - unfold answer_step. rewrite Ei. by exists t, pes.
Qed.

Lemma mark_inv start pes t : round_at start pes t -> goes_on start pes (mark_step t).
Proof.
  intros Ht. pose proof Ht as (_ & _ & _ & Hi & _). unfold mark_step. destruct (input t) as [|s]; [by exists t, pes|].
  destruct Hi as [a [m Ha]%list_elem_of_lookup]. destruct (store_alive start pes t m s a 1 Ht Ha) as (e & l1 & l2 & w & Ep & _ & -> & E & Epl & Ht').
  cbn [res_bind]. change (mk_peer (ip_and_port (conc junk e)) (room (conc junk e)) 1) with (conc junk (set_alive 1 e)). rewrite E.
  cbn [res_bind]. destruct Ht' as (Hh' & Hwf' & Hs' & _ & Hn'). eexists _, _. split; [done|]. rewrite Epl. split; [|done]. by split_and!.
Qed.

(** a step of any thread *)
Lemma step_inv start pes t ev :
  round_at start pes t -> quiet junk t ev ->
  thread_step malloc_ok alloc junk t ev = Exit (-1) \/ goes_on start pes (thread_step malloc_ok alloc junk t ev).
Proof.
  intros Ht Hq. destruct ev as [op| |ip port|]; [by apply main_inv|right..]; cbn [thread_step].
  - by apply ping_inv.
  - by apply (answer_inv start pes t (ip, port)).
  - by apply mark_inv.
Qed.

(** the start of a round *)
Lemma round_start w pes ps t :
  holds junk w pes -> wf pes.*2 -> ping_step (mk_threads w Idle ps Waiting) = Ok t -> round_at (places pes) pes t.
Proof.
  intros Hh Hwf [= <-]. split_and!; [done..|]. exists 0%nat. split_and!; [lia|done|]. split; [done|]. cbn [shared].
  destruct (first_place _ _ Hh) as [[-> _]|[a Ha]]; [by left|right]. by exists 0%nat, a.
Qed.

Lemma rounds_inv start t t' : rtc (quiet_step malloc_ok alloc junk) t t' -> forall pes, round_at start pes t ->
  exists pes', round_at start pes' t' /\ places pes `prefix_of` places pes'.
Proof.
  induction 1 as [t|t1 t2 t3 (ev & Hq & E) _ IH]; intros pes Ht; [by exists pes|].
  destruct (step_inv start pes t1 ev Ht Hq) as [E'|(t' & pes' & E' & Ht' & Hp)]; rewrite E in E'; [done|injection E' as <-].
  destruct (IH pes' Ht') as (pes'' & Ht'' & Hp'). exists pes''. split; [done|]. by etrans.
Qed.

Lemma other_quiet t t' : rtc (quiet_other malloc_ok alloc junk) t t' ->
  rtc (quiet_step malloc_ok alloc junk) t t' /\ input t' = input t.
Proof.
  induction 1 as [t|t1 t2 t3 (ev & Hq & E & Hev) _ [IH1 IH2]]; [done|]. split; [eapply rtc_l; [by exists ev|done]|]. rewrite IH2.
  destruct ev as [op| | |]; try done; cbn [thread_step] in E.
  - step_res E. destruct a as [w out]. by injection E as <-.
  - clear Hq. unfold ping_step in E. destruct (pc t1) as [|s|s|s|s]; [by injection E as <-|..]; try (destruct (s =? 0); [by injection E as <-|]);
      repeat (step_res E); repeat match type of E with context [let (_, _) := ?p in _] => destruct p end; by injection E as <-.
Qed.



(** C40: The races: if [ping_output] stands at a peer, in either of its loops,
    or [ping_input] has found it, and its request to leave is served before the
    thread goes on, the next step of the thread accesses freed memory. *)
Theorem ping_race w pes p e c i ps :
  holds junk w pes -> wf pes.*2 -> (p, e) ∈ pes ->
  let leave := Main (OpLeave (eaddr e).1 (eaddr e).2) in
  (c = Check p \/ c = Checked p \/ c = Body p \/ c = Advance p ->
   thread_run malloc_ok alloc junk (mk_threads w c ps i) [leave; Ping] = Fault UseAfterFree) /\
  (i = Found p -> thread_run malloc_ok alloc junk (mk_threads w c ps i) [leave; Mark] = Fault UseAfterFree).
Proof.
  intros Hh Hwf Hin leave. subst leave. cbn [thread_run thread_step table_step shared].
  destruct (leave_present junk w pes p e Hh Hwf Hin) as (w' & -> & Hh' & Es & En). cbn [res_bind].
  assert (p <> 0) as Hp by (apply (holds_alloc _ _ _ Hh); eexists; by apply (holds_structs _ _ _ Hh)).
  assert (forall B (k : peer -> res B), (let* v := ld (structs w') p in k v) = Fault UseAfterFree) as H1.
  { intros B k. unfold ld. by rewrite (proj2 (Z.eqb_neq p 0) Hp), Es, lookup_delete_eq. }
  assert (forall B (k : ptr -> res B), (let* v := ld (next (mem (table w'))) p in k v) = Fault UseAfterFree) as H2.
  { intros B k. unfold ld. by rewrite (proj2 (Z.eqb_neq p 0) Hp), En. }
  split.
  - unfold ping_step. intros [-> | [-> | [-> | ->]]]; cbn [pc shared]; rewrite ?(proj2 (Z.eqb_neq p 0) Hp), ?H1, ?H2; done.
  - intros ->. unfold mark_step. cbn [input shared]. by rewrite H1.
Qed.
End invariant.

(** ** Witnesses *)
(** an address that no peer in memory has *)
Lemma not_listed junk w es a l :
  agrees junk w es -> all_peers w = Ok l -> forallb (fun p => negb (bool_decide (ip_and_port p = array junk a))) l = true ->
  lookup_addr es a = None.
Proof.
  intros (_ & pes & <- & Hh) El Hl. rewrite (all_peers_ok junk w pes Hh) in El. injection El as <-.
  destruct (lookup_addr pes.*2 a) as [e|] eqn:E; [|done]. apply lookup_addr_Some in E as [He <-].
  rewrite forallb_forall in Hl. specialize (Hl (conc junk e) (in_map _ _ _ (proj1 (list_elem_of_In _ _) He))).
  by rewrite bool_decide_true in Hl.
Qed.

(** a run of quiet events *)
Fixpoint quiet_run malloc_ok alloc junk (t : threads) (evs : list turn) : Prop :=
  match evs with
  | [] => True
  | ev :: evs => quiet junk t ev /\ forall t', thread_step malloc_ok alloc junk t ev = Ok t' -> quiet_run malloc_ok alloc junk t' evs
  end.

Lemma quiet_run_rtc malloc_ok alloc junk evs : forall t t',
  quiet_run malloc_ok alloc junk t evs -> thread_run malloc_ok alloc junk t evs = Ok t' ->
  rtc (quiet_step malloc_ok alloc junk) t t'.
Proof.
  induction evs as [|ev evs IH]; intros t t' Hq E; [by injection E as ->|]. destruct Hq as [Hq Hr]. cbn [thread_run] in E.
  destruct (thread_step _ _ _ t ev) as [t1| |] eqn:E1; [|done..]. eapply rtc_l; [by exists ev|]. apply IH; [by apply Hr|done].
Qed.

(** the next event of a run of quiet events, which is not a request *)
Ltac next_event :=
  let s := fresh in let v := fresh in let E1 := fresh in let E2 := fresh in let t := fresh "t" in let E := fresh in
  cbn [quiet_run]; split;
  [ cbn [quiet pc]; first [ exact I | repeat split; vm_compute; discriminate
      | split; [discriminate|]; intros s v E1 E2;
        first [ discriminate E1 | injection E1 as <-; vm_compute in E2; first [ discriminate E2 | injection E2 as <-; discriminate ] ] ]
  | intros t E; vm_compute in E; injection E as <- ].

(** a round during which a peer answers the last ping and a second one joins *)
Definition round0 : threads := mk_threads memory1 (Check (hd (table memory1))) [] Waiting.
Definition answered : list turn := [Answer 16777343 4000; Mark; Ping; Ping; Ping].
Definition round1 : list turn := answered ++ Main (OpJoin 16777343 4001 1) :: [Ping; Ping; Ping; Ping; Ping].

Lemma round1_quiet : quiet_run malloc0 fresh_peer 85 round0 round1.
Proof.
  unfold round1, answered, round0. cbn [app]. do 5 next_event. split.
  { split; [repeat split; vm_compute; discriminate|]. split; [exact I|]. intros es Hes. cbn [keeps].
    eapply (not_listed _ _ _ (16777343, 4001)); [exact Hes|vm_compute; reflexivity|vm_compute; reflexivity]. }
  intros t E. vm_compute in E. injection E as <-. do 5 next_event. exact I.
Qed.



Lemma ping_race_witness :
  thread_run malloc0 fresh_peer 85 (mk_threads memory1 (Advance (hd (table memory1))) [] (Found (hd (table memory1))))
    [Main (OpLeave 16777343 4000); Ping] = Fault UseAfterFree /\
  thread_run malloc0 fresh_peer 85 (mk_threads memory1 (Advance (hd (table memory1))) [] (Found (hd (table memory1))))
    [Main (OpLeave 16777343 4000); Mark] = Fault UseAfterFree.
Proof.
  destruct memory1_agrees as (Hwf & pes & E & Hh).
  destruct pes as [|[p e] [|? ?]]; try discriminate. injection E as E. subst e.
  assert (p = hd (table memory1)) as <- by (destruct Hh as [Ht _ _]; symmetry; apply Ht).
  destruct (ping_race malloc0 fresh_peer 85 memory1 [(p, mk_entry (16777343, 4000) 1 0)] p (mk_entry (16777343, 4000) 1 0)
    (Advance p) (Found p) [] Hh Hwf) as [H1 H2]; [by left|].
  split; [apply H1; by do 3 right|by apply H2].
Defined.
