(* ===== verification/ChatMarks.v ===== *)
(** * Requests and marks (src/examples/p2p-chat-example/tracker.c)

    [ping_output] and [ping_input] store to [alive] while the main thread serves
    requests.  Two memories are the same up to their marks if they differ only
    in these fields.  Every operation of the main thread respects this
    equivalence, so that its replies do not depend on when the other threads run;
    this is what lets a request be one step in ChatThreads. *)
From Stdlib Require Import ZArith Lia Bool String.
From stdpp Require Import base numbers option list gmap fin_maps.
From S2P Require Import Prelude CStr HashFcns UtHash UtHashRefine ChatTracker ChatTable ChatThreads.

(** What the operations rely on of [malloc] besides ChatTable: the address does
    not depend on what the blocks in use contain. *)
Class BlindAllocator (alloc : gmap ptr peer -> ptr) : Prop :=
  alloc_blind : forall m m', dom m = dom m' -> alloc m = alloc m'.

(** ** Results related by a relation on values *)
Inductive res_rel {A : Type} (R : relation A) : relation (res A) :=
  | rel_Ok a a' : R a a' -> res_rel R (Ok a) (Ok a')
  | rel_Fault f : res_rel R (Fault f) (Fault f)
  | rel_Exit n : res_rel R (Exit n) (Exit n).

#[export] Instance res_bind_proper {A B} (R : relation A) (S : relation B) :
  Proper (res_rel R ==> (R ==> res_rel S) ==> res_rel S) res_bind.
Proof. intros m m' [a a' Ha| |] k k' Hk; cbn; [by apply Hk|constructor..]. Qed.

Lemma res_rel_bind {A B} (R : relation A) (S : relation B) m m' k k' :
  res_rel R m m' -> (forall a a', R a a' -> res_rel S (k a) (k' a')) -> res_rel S (res_bind m k) (res_bind m' k').
Proof. intros Hm Hk. by apply (res_bind_proper R S m m' Hm). Qed.

Lemma res_rel_refl {A} (R : relation A) `{!Reflexive R} m : res_rel R m m.
Proof. destruct m; by constructor. Qed.

Lemma res_rel_eq {A} (m m' : res A) : res_rel eq m m' -> m = m'.
Proof. by intros [a a' ->| |]. Qed.

(** a result that does not depend on the marks *)
Lemma res_rel_same {A B} (S : relation B) (m : res A) k k' :
  (forall a, res_rel S (k a) (k' a)) -> res_rel S (res_bind m k) (res_bind m k').
Proof. intros Hk. apply (res_rel_bind eq); [apply res_rel_refl; apply _|]. by intros a a' ->. Qed.

(** ** Memories up to the marks *)
Definition same_peer (v v' : peer) : Prop := ip_and_port v = ip_and_port v' /\ room v = room v'.

Definition same_marks (w w' : memory) : Prop :=
  table w = table w' /\ forall p, option_Forall2 same_peer (structs w !! p) (structs w' !! p).

#[export] Instance same_peer_equiv : Equivalence same_peer.
Proof. split; [done|by intros v v' [? ?]|intros v1 v2 v3 [? ?] [? ?]; split; congruence]. Qed.

#[export] Instance same_marks_equiv : Equivalence same_marks.
Proof.
  split.
  - intros w. by split.
  - intros w w' [E H]. split; [done|]. intros p. by symmetry.
  - intros w1 w2 w3 [E1 H1] [E2 H2]. split; [by etrans|]. intros p. exact (transitivity (H1 p) (H2 p)).
Qed.

(** a memory and what an operation returns with it *)
Definition same_result {A} : relation (memory * A) := fun r r' => same_marks r.1 r'.1 /\ r.2 = r'.2.

Lemma same_dom w w' : same_marks w w' -> dom (structs w) = dom (structs w').
Proof.
  intros [_ H]. apply set_eq. intros p. rewrite !elem_of_dom. by destruct (H p) as [v v' _|]; split; intros [? ?]; eauto.
Qed.

Lemma same_insert_struct (f f' : gmap ptr peer) p v v' :
  (forall q, option_Forall2 same_peer (f !! q) (f' !! q)) -> same_peer v v' ->
  forall q, option_Forall2 same_peer (<[p := v]> f !! q) (<[p := v']> f' !! q).
Proof.
  intros H Hv q. destruct (decide (q = p)) as [->|Hq]; [rewrite !lookup_insert_eq; by constructor|].
  by rewrite !lookup_insert_ne by done.
Qed.

Lemma ld_same w w' p : same_marks w w' -> res_rel same_peer (ld (structs w) p) (ld (structs w') p).
Proof. intros [_ H]. unfold ld. destruct (p =? 0); [constructor|]. destruct (H p); by constructor. Qed.

Lemma set_struct_same w w' p v v' :
  same_marks w w' -> same_peer v v' -> res_rel same_marks (set_struct w p v) (set_struct w' p v').
Proof.
  intros Hw Hv. unfold set_struct, st. rewrite !res_bind_assoc. apply (res_rel_bind same_peer); [by apply ld_same|].
  intros _ _ _. constructor. destruct Hw as [Ht Hs]. split; [done|]. by apply same_insert_struct.
Qed.

Lemma set_table_same w w' t : same_marks w w' -> same_marks (set_table w t) (set_table w' t).
Proof. by intros [_ H]. Qed.

(** ** Loops that read the table *)
Lemma visited_same w w' : same_marks w w' -> forall fuel s, res_rel (Forall2 same_peer) (visited fuel w s) (visited fuel w' s).
Proof.
  intros Hw fuel. induction fuel as [|fuel IH]; intros s; cbn [visited]; [constructor|].
  destruct (s =? 0); [by do 2 constructor|]. apply (res_rel_bind same_peer); [by apply ld_same|]. intros v v' Hv.
  rewrite (proj1 Hw). apply res_rel_same. intros n. apply (res_rel_bind (Forall2 same_peer)); [apply IH|].
  intros l l' Hl. by do 2 constructor.
Qed.

Lemma all_peers_same w w' : same_marks w w' -> res_rel (Forall2 same_peer) (all_peers w) (all_peers w').
Proof. intros Hw. unfold all_peers, loop_fuel. rewrite <- (proj1 Hw). by apply visited_same. Qed.

(** a function of the peers that does not look at the marks *)
Definition blind {A} (f : list peer -> A) : Prop := forall l l', Forall2 same_peer l l' -> f l = f l'.

Lemma peer_addr_same v v' : same_peer v v' -> peer_addr v = peer_addr v'.
Proof. intros [E _]. unfold peer_addr. by rewrite E. Qed.

Lemma addrs_in_blind r : blind (fun l => addrs_in l r).
Proof.
  intros l l' Hl. induction Hl as [|v v' l l' Hv _ IH]; [done|]. cbn [addrs_in].
  by rewrite (proj2 Hv), (peer_addr_same _ _ Hv), IH.
Qed.

Lemma send_list_blind ip port r as_ : blind (fun l => send_list l ip port r as_).
Proof.
  intros l l' Hl. induction Hl as [|v v' l l' Hv _ IH]; [done|]. cbn [send_list].
  by rewrite (proj2 Hv), (peer_addr_same _ _ Hv), IH.
Qed.

Lemma peer_list_blind ip port r : blind (fun l => ChatTracker.peer_list l ip port r).
Proof.
  intros l l' Hl. unfold ChatTracker.peer_list. rewrite (addrs_in_blind r l l' Hl).
  destruct (addrs_in l' r) as [as_| |]; cbn [res_bind]; [|done..]. destruct (_ <=? _); [|done]. by apply send_list_blind.
Qed.

Lemma count_rooms_blind l l' : Forall2 same_peer l l' -> forall rooms found n, count_rooms l rooms found n = count_rooms l' rooms found n.
Proof.
  induction 1 as [|v v' l l' Hv _ IH]; intros rooms found n; [done|]. cbn [count_rooms]. rewrite (proj2 Hv).
  destruct (room_known _ _ _); [apply IH|]. destruct (wr found n 1); cbn [res_bind]; [|done..].
  destruct (wr rooms n (room v')); cbn [res_bind]; [apply IH|done..].
Qed.

Lemma free_room_blind n : forall r, blind (fun l => free_room l r n).
Proof.
  induction n as [|n IH]; intros r l l' Hl; [done|]. cbn [free_room].
  assert (existsb (fun s => room s =? r) l = existsb (fun s => room s =? r) l') as ->.
  { clear IH. induction Hl as [|v v' l l' Hv _ IHl]; [done|]. cbn [existsb]. by rewrite (proj2 Hv), IHl. }
  by rewrite (IH _ l l' Hl).
Qed.

Lemma room_exists_blind r l l' : Forall2 same_peer l l' -> forall n b, room_exists l r n b = room_exists l' r n b.
Proof.
  induction 1 as [|v v' l l' Hv _ IH]; intros n b; [done|]. cbn [room_exists]. rewrite (proj2 Hv), !IH. done.
Qed.

Lemma index_rooms_blind l l' : Forall2 same_peer l l' ->
  forall a b c x y z, index_rooms l a b c x y z = index_rooms l' a b c x y z.
Proof.
  induction 1 as [|v v' l l' Hv _ IH]; intros a b c x y z; [done|]. cbn [index_rooms]. rewrite (proj2 Hv).
  repeat (match goal with |- res_bind ?m _ = res_bind ?m _ => destruct m as [?|?|?]; cbn [res_bind]; [|done..] end).
  repeat (match goal with |- context [let '(_, _) := ?q in _] => destruct q end).
  repeat (match goal with |- res_bind ?m _ = res_bind ?m _ => destruct m as [?|?|?]; cbn [res_bind]; [|done..] end). apply IH.
Qed.

Lemma room_list_blind junk : blind (ChatTracker.room_list junk).
Proof.
  intros l l' Hl. unfold ChatTracker.room_list, ChatTracker.get_total_num_rooms. rewrite (count_rooms_blind l l' Hl).
  destruct (count_rooms l' _ _ _) as [n| |]; cbn [res_bind]; [|done..]. destruct (0 <? n); [|done].
  by rewrite (index_rooms_blind l l' Hl).
Qed.

(** such a function of the table *)
Lemma reads_same {A} (f : list peer -> res A) w w' : blind f -> same_marks w w' ->
  (let* l := all_peers w in f l) = (let* l := all_peers w' in f l).
Proof.
  intros Hf Hw. apply res_rel_eq. apply (res_rel_bind (Forall2 same_peer)); [by apply all_peers_same|].
  intros l l' Hl. rewrite (Hf l l' Hl). apply res_rel_refl. apply _.
Qed.

(** ** Operations *)
Section operations.
Variable malloc_ok : Z -> bool.
Context (alloc : gmap ptr peer -> ptr) `{!BlindAllocator alloc}.
Variable junk : Z.

Lemma create_entry_same w w' ip port r :
  same_marks w w' ->
  res_rel (fun x x' => same_marks x.1.1 x'.1.1 /\ x.1.2 = x'.1.2 /\ x.2 = x'.2)
    (create_entry alloc junk w ip port r) (create_entry alloc junk w' ip port r).
Proof.
  intros Hw. unfold create_entry, malloc_peer. rewrite <- (alloc_blind _ _ (same_dom w w' Hw)).
  apply res_rel_same. intros k. destruct Hw as [Et Hs]. rewrite <- Et.
  apply (res_rel_bind same_marks); [|intros w1 w1' Hw1; constructor; by split].
  apply set_struct_same; [|done]. split; [done|]. by apply same_insert_struct.
Qed.

Lemma peer_list_same w w' ip port r : same_marks w w' -> peer_list w ip port r = peer_list w' ip port r.
Proof. apply reads_same, peer_list_blind. Qed.

Lemma same_ret {A} w w' (out : A) : same_marks w w' -> res_rel same_result (Ok (w, out)) (Ok (w', out)).
Proof. intros Hw. constructor. by split. Qed.

Lemma create_same w w' ip port :
  same_marks w w' -> res_rel same_result (peer_create_room malloc_ok alloc junk w ip port) (peer_create_room malloc_ok alloc junk w' ip port).
Proof.
  intros Hw. unfold peer_create_room. assert (get_total_num_rooms w = get_total_num_rooms w') as ->.
  { apply reads_same; [|done]. intros l l' Hl. by apply count_rooms_blind. }
  apply res_rel_same. intros n. destruct (_ <=? _); [by apply same_ret|].
  apply (res_rel_bind (Forall2 same_peer)); [by apply all_peers_same|]. intros l l' Hl. rewrite (free_room_blind _ _ l l' Hl).
  eapply res_rel_bind; [by apply create_entry_same|]. intros [[w1 p] k] [[w1' p'] k'] (Hw1 & Ep & Ek). cbn [fst snd] in *. subst p' k'.
  rewrite <- (proj1 Hw1). apply res_rel_same. intros s. destruct (negb _); [by apply same_ret|].
  apply res_rel_same. intros t. by apply same_ret, set_table_same.
Qed.

Lemma leave_same w w' ip port : same_marks w w' -> res_rel same_result (peer_leave w ip port) (peer_leave w' ip port).
Proof.
  intros Hw. unfold peer_leave. apply res_rel_same. intros k. rewrite <- (proj1 Hw). apply res_rel_same. intros s.
  destruct (negb _); [|by apply same_ret]. apply (res_rel_bind same_peer); [by apply ld_same|]. intros v v' [_ Er]. rewrite Er.
  apply res_rel_same. intros t. apply (res_rel_bind same_marks).
  - unfold free_peer. apply (res_rel_bind same_peer); [by apply (ld_same (set_table w t) (set_table w' t)), set_table_same|]. intros _ _ _.
    constructor. split; [done|]. intros q. cbn [structs set_table]. destruct (decide (q = s)) as [->|Hq].
    + rewrite !lookup_delete_eq. constructor.
    + rewrite !lookup_delete_ne by done. apply Hw.
  - intros w1 w1' Hw1. rewrite (peer_list_same w1 w1') by done. apply res_rel_same. intros out. by apply same_ret.
Qed.

Lemma join_same w w' ip port r :
  same_marks w w' -> res_rel same_result (peer_join malloc_ok alloc junk w ip port r) (peer_join malloc_ok alloc junk w' ip port r).
Proof.
  intros Hw. unfold peer_join. apply (res_rel_bind (Forall2 same_peer)); [by apply all_peers_same|]. intros l l' Hl.
  rewrite (room_exists_blind r l l' Hl). destruct (room_exists l' r 0 false) as [[]|]; [|by apply same_ret..].
  eapply res_rel_bind; [by apply create_entry_same|]. intros [[w1 p] k] [[w1' p'] k'] (Hw1 & Ep & Ek). cbn [fst snd] in *. subst p' k'.
  rewrite <- (proj1 Hw1). apply res_rel_same. intros s. apply (res_rel_bind eq).
  { destruct (negb _); [|by constructor]. apply (res_rel_bind same_peer); [by apply ld_same|]. intros v v' [_ Er]. rewrite Er. by constructor. }
  intros b _ <-. destruct b; [by apply same_ret|]. apply (res_rel_bind same_result).
  { destruct (s =? 0); [apply res_rel_same; intros t; by apply same_ret, set_table_same|].
    apply (res_rel_bind same_peer); [by apply ld_same|]. intros v v' [_ Er]. rewrite Er. apply res_rel_same. intros [t q].
    by apply same_ret, set_table_same. }
  intros [w2 old] [w2' old'] [Hw2 Eo]. cbn [fst snd] in *. subst old'. rewrite (peer_list_same w2 w2') by done.
  apply res_rel_same. intros out1. destruct (negb _); [|by apply same_ret]. rewrite (peer_list_same w2 w2') by done.
  apply res_rel_same. intros out2. by apply same_ret.
Qed.

(** a request, and what it replies *)
Lemma request_same w w' op :
  same_marks w w' -> is_request op -> res_rel same_result (table_step malloc_ok alloc junk w op) (table_step malloc_ok alloc junk w' op).
Proof.
  intros Hw Hop. destruct op as [ip port|ip port r|ip port|ip port|]; [| | |done..]; cbn [table_step].
  - by apply create_same.
  - by apply join_same.
  - by apply leave_same.
Qed.
(** ** Runs *)
(** the replies to the requests of a run of the threads *)
Fixpoint thread_replies (t : threads) (evs : list turn) : res (threads * list sent) :=
  match evs with
  | [] => Ok (t, [])
  | ev :: evs =>
      let* t1 := thread_step malloc_ok alloc junk t ev in
      let* out := match ev with
                  | Main op => let* (_, out) := table_step malloc_ok alloc junk (shared t) op in Ok [out]
                  | _ => Ok []
                  end in
      let* (t2, outs) := thread_replies t1 evs in
      Ok (t2, out ++ outs)
  end.

Definition requests (evs : list turn) : list chat_op :=
  omap (fun ev => match ev with Main op => Some op | _ => None end) evs.

(** the main thread serves requests, and [delete_dead_peers] finds nobody dead *)
Fixpoint spared (t : threads) (evs : list turn) : Prop :=
  match evs with
  | [] => True
  | ev :: evs =>
      match ev with
      | Main op => is_request op
      | Ping => forall s v, pc t = Check s -> structs (shared t) !! s = Some v -> alive v <> 0
      | _ => True
      end /\
      forall t1, thread_step malloc_ok alloc junk t ev = Ok t1 -> spared t1 evs
  end.

Lemma marked_same w p v n w' :
  ld (structs w) p = Ok v -> set_struct w p (mk_peer (ip_and_port v) (room v) n) = Ok w' -> same_marks w w'.
Proof.
  intros Hv H. unfold set_struct, st in H. rewrite Hv in H. injection H as <-. split; [done|]. intros q. cbn [structs].
  unfold ld in Hv. destruct (p =? 0); [done|]. destruct (structs w !! p) as [v'|] eqn:E; [|done]. injection Hv as ->.
  destruct (decide (q = p)) as [->|Hq]; [rewrite lookup_insert_eq, E; by repeat constructor|].
  rewrite lookup_insert_ne by done. reflexivity.
Qed.

Lemma mark_peer_alive_marks w ip port w' : mark_peer_alive w ip port = Ok w' -> same_marks w w'.
Proof.
  intros H. unfold mark_peer_alive in H. step_res H. step_res H. destruct (negb _); [|by injection H as <-].
  step_res H. by eapply marked_same.
Qed.

(** the steps of the other threads only mark *)
Lemma other_step t ev t1 :
  (forall op, ev <> Main op) ->
  (ev = Ping -> forall s v, pc t = Check s -> structs (shared t) !! s = Some v -> alive v <> 0) ->
  thread_step malloc_ok alloc junk t ev = Ok t1 -> same_marks (shared t) (shared t1).
Proof.
  intros Hev Hs H. destruct ev as [op| |ip port|]; [by destruct (Hev op)|..]; cbn [thread_step] in H.
  - unfold ping_step in H. destruct (pc t) as [|s|s|s|s] eqn:Ep.
    + by injection H as <-.
    + destruct (s =? 0) eqn:E0; [by injection H as <-|]. step_res H. unfold ld in Ha. rewrite E0 in Ha.
      destruct (structs (shared t) !! s) as [v|] eqn:Ev; [|done]. injection Ha as <-.
      rewrite (proj2 (Z.eqb_neq _ 0) (Hs eq_refl s v eq_refl Ev)) in H. by injection H as <-.
    + step_res H. by injection H as <-.
    + destruct (s =? 0); [by injection H as <-|]. step_res H. step_res H. step_res H. injection H as <-.
      by eapply marked_same.
    + step_res H. by injection H as <-.
  - unfold answer_step in H. destruct (input t); [|by injection H as <-]. step_res H. step_res H. by injection H as <-.
  - unfold mark_step in H. destruct (input t) as [|s]; [by injection H as <-|]. step_res H. step_res H. injection H as <-.
    by eapply marked_same.
Qed.

(** ** Properties *)
(** C18: The replies of the main thread do not depend on the scheduling.  In any run
    of the three threads in which [delete_dead_peers] removes nobody, whatever
    requests are served, peers leaving included, the replies are those of the
    same requests served alone, from a memory with any marks, and the memories at
    the end differ only in their marks. *)
Theorem replies_ignore_threads t evs t' outs w :
  same_marks (shared t) w -> spared t evs -> thread_replies t evs = Ok (t', outs) ->
  exists w', table_run malloc_ok alloc junk w (requests evs) = Ok (w', outs) /\ same_marks (shared t') w'.
Proof.
  revert t w t' outs. induction evs as [|ev evs IH]; intros t w t' outs Hw Hs H; [injection H as <- <-; by exists w|].
  destruct Hs as [Hev Hsp].
  cbn [thread_replies] in H. step_res H. rename a into t1. specialize (Hsp t1 Ha).
  destruct ev as [op| |ip port|].
  2-4: cbn [res_bind] in H; step_res H; destruct a as [t2 outs2]; injection H as <- <-;
    refine (IH t1 w t2 outs2 _ Hsp Ha0); etransitivity; [symmetry|exact Hw];
    refine (other_step t _ t1 _ _ Ha); [done|intros E; first [discriminate E|exact Hev]].
  cbn [thread_step] in Ha. step_res Ha. destruct a as [w1 out]. injection Ha as <-. rewrite Ha0 in H. cbn [res_bind] in H.
  step_res H. destruct a as [t2 outs2]. injection H as <- <-.
  pose proof (request_same (shared t) w op Hw Hev) as Hr. rewrite Ha0 in Hr.
  inversion Hr as [r r' [Hw1 Eo] E1 E2| |]. subst r. destruct r' as [w1' out']. cbn [fst snd] in *. subst out'.
  destruct (IH (mk_threads w1 (pc t) (pinged t) (input t)) w1' t2 outs2 Hw1 Hsp Ha) as (w2 & E & Hw2). exists w2. split; [|done].
  change (requests (Main op :: evs)) with (op :: requests evs). cbn [table_run]. rewrite <- E2. cbn [res_bind]. by rewrite E.
Qed.

(** In the same way the text of the list of rooms depends on the rooms only. *)
Theorem room_list_ignores_marks w w' : same_marks w w' -> ChatTable.room_list junk w = ChatTable.room_list junk w'.
Proof. apply reads_same, room_list_blind. Qed.
End operations.

(** ** Witnesses *)
#[export] Instance fresh_peer_blind : BlindAllocator fresh_peer.
Proof. intros m m' E. unfold fresh_peer. by rewrite E. Qed.

(** a peer joins and leaves while the other one is pinged and answers *)
Definition run2 : list turn :=
  [Answer 16777343 4000; Main (OpJoin 16777343 4001 1); Ping; Mark; Main (OpLeave 16777343 4001)].

Lemma replies_ignore_threads_witness :
  exists t' outs w', thread_replies malloc0 fresh_peer 85 (mk_threads memory1 (Body (hd (table memory1))) [] Waiting) run2 = Ok (t', outs) /\
    table_run malloc0 fresh_peer 85 memory1 [OpJoin 16777343 4001 1; OpLeave 16777343 4001] = Ok (w', outs) /\
    same_marks (shared t') w' /\ length outs = 2%nat.
Proof.
  destruct (thread_replies malloc0 fresh_peer 85 (mk_threads memory1 (Body (hd (table memory1))) [] Waiting) run2) as [[t' outs]| |] eqn:E;
    [|by vm_compute in E..].
  destruct (replies_ignore_threads malloc0 fresh_peer 85 (mk_threads memory1 (Body (hd (table memory1))) [] Waiting) run2 t' outs memory1)
    as (w' & Ew & Hw); [reflexivity| |exact E|].
  - unfold run2. cbn [spared]. split; [exact I|]. intros t1 E1. vm_compute in E1. injection E1 as <-. split; [exact I|].
    intros t2 E2. vm_compute in E2. injection E2 as <-. split; [intros s v [=]|]. intros t3 E3. vm_compute in E3. injection E3 as <-.
    split; [exact I|]. intros t4 E4. vm_compute in E4. injection E4 as <-. split; [exact I|]. intros t5 _. exact I.
  - exists t', outs, w'. split; [reflexivity|]. split; [exact Ew|]. split; [exact Hw|]. vm_compute in E. by injection E as <- <-.
Defined.

Lemma room_list_ignores_marks_witness :
  exists w, mark_peer_alive memory1 16777343 4000 = Ok w /\ ChatTable.room_list 85 memory1 = ChatTable.room_list 85 w.
Proof.
  destruct (mark_peer_alive memory1 16777343 4000) as [w| |] eqn:E; [|by vm_compute in E..].
  exists w. split; [exact eq_refl|]. apply room_list_ignores_marks.
  exact (mark_peer_alive_marks memory1 16777343 4000 w E).
Defined.
