(* ===== verification/ChatClient.v ===== *)
(** * The chat client (src/examples/p2p-chat-example/client.c) and the network

    The client keeps the number of its room and the addresses of its members,
    as they are in memory: an array of 1600 bytes for 100 [sockaddr_in].  A
    datagram is its header and the bytes of the payload that were sent; the
    packet of [receive_packet] keeps the bytes of earlier datagrams behind a
    shorter one ([inbox]).  [junk] is the byte or number of everything that is not
    assigned.  Errors that are only printed are not modelled, and [sendto] is the
    event [Send].

    The second half composes the clients with the tracker of ChatTracker: a
    request of a client is handled by the tracker and the packets it sends are
    delivered in order, without loss, to the clients at their addresses. *)
From Stdlib Require Import ZArith Lia Bool String.
From stdpp Require Import base numbers option list gmap.
From S2P Require Import Prelude CStr ChatTracker.

(** ** Data *)
Record datagram := mk_datagram { dtype : Z; derror : Z; droom : Z; dlength : Z; dpayload : bytes }.

Record chat_client := mk_client {
  self_addr : addr; room_num : Z; peer_num : Z; peer_list : bytes; inbox : bytes }.

(** what a client does: it sends a datagram to an address, or to the tracker;
    prints a message with its sender, the room list, or the members of its room *)
Inductive event :=
  | Send (to : addr) (d : datagram)
  | SendTracker (d : datagram)
  | Message (from : addr) (text : bytes)
  | Rooms (text : bytes)
  | Info (room_ : Z) (members : list addr).

Definition sizeof_sockaddr_in : Z := 16.

(** [sin_family] is AF_INET, [sin_port] in network order, [sin_addr] as it is in
    memory, and 8 bytes of [sin_zero] *)
Definition sockaddr (junk : Z) (a : addr) : bytes :=
  le 2 2 ++ rev (le 2 a.2) ++ le 4 a.1 ++ replicate 8 junk.

Definition read_sockaddr (m : bytes) : addr :=
  (le_val (take 4 (drop 4 m)), wrap_s 16 (le_val (rev (take 2 (drop 2 m))))).

Definition atoi (m : bytes) : res Z := let* (v, _) := strtoll m in Ok (to_int v).

Section chat_client.
Variable junk : Z.

(** The start of [main]: the port of [self_addr], and the text that is given to
    [inet_aton] for the tracker. *)
Definition parse_args (argv1 argv3 : bytes) : res (addr * bytes) :=
  let* self_port := atoi argv3 in
  let* n := strlen argv1 in
  let* src := slice argv1 0 (if 20 <? n + 1 then 20 else n) in
  let* tracker_ip := blit (replicate 20 junk) 0 src in
  let* text := cstr tracker_ip in
  Ok ((0, wrap_s 16 self_port), text).

Definition init (self : addr) (inbox : bytes) : chat_client := mk_client self 0 0 (replicate 1600 0) inbox.

(** ** Requests *)
Definition create_room_request : event := SendTracker (mk_datagram 99 0 junk 0 []).
Definition join_room_request (new_room_num : Z) : event :=
  SendTracker (mk_datagram 106 0 (new_room_num mod 2 ^ 32) 0 []).
Definition leave_room_request (c : chat_client) : event := SendTracker (mk_datagram 108 0 (room_num c) 0 []).
Definition request_available_rooms (c : chat_client) : event := SendTracker (mk_datagram 114 0 (room_num c) 0 []).

(** the entries of [peer_list] from [i] on, [n] of them *)
Fixpoint read_peers (c : chat_client) (i : Z) (n : nat) : res (list addr) :=
  match n with
  | O => Ok []
  | S n =>
      let* m := slice (peer_list c) (sizeof_sockaddr_in * i) sizeof_sockaddr_in in
      let* l := read_peers c (i + 1) n in
      Ok (read_sockaddr m :: l)
  end.

Definition send_message (c : chat_client) (msg : bytes) : res (list event) :=
  let* n := strlen msg in
  let payload_length := n + 1 in
  check* payload_length <=? 1000 else OutOfBounds in
  let* payload := slice msg 0 payload_length in
  let* l := read_peers c 0 (Z.to_nat (peer_num c)) in
  Ok (map (fun a => Send a (mk_datagram 109 0 (room_num c) payload_length payload)) l).

Definition get_room_info (c : chat_client) : res (list event) :=
  if peer_num c =? 0 then Ok []
  else let* l := read_peers c 0 (Z.to_nat (peer_num c)) in Ok [Info (room_num c) l].

(** the line read, without its last character, for the string [text] stored by
    [fgets] *)
Definition read_line (text : bytes) : res bytes :=
  let* line := blit (replicate 1000 0) 0 (text ++ [0]) in
  let* n := strlen line in
  wr line (n - 1) 0.

(** the body of the loop of [read_input] *)
Definition read_input (c : chat_client) (text : bytes) : res (list event) :=
  let* line := read_line text in
  let* c0 := rd line 0 in
  if negb (c0 =? 45) then Ok []
  else
    let* c1 := rd line 1 in
    if c1 =? 99 then Ok [create_room_request]
    else if c1 =? 106 then
      let* new_room_num := atoi (drop 3 line) in
      if new_room_num <? 0 then Ok [] else Ok [join_room_request new_room_num]
    else if c1 =? 108 then Ok [leave_room_request c]
    else if c1 =? 109 then send_message c (drop 3 line)
    else if c1 =? 114 then Ok [request_available_rooms c]
    else if c1 =? 105 then get_room_info c
    else Ok [].

(** ** Packets received *)
Definition with_peers (c : chat_client) (room_num peer_num : Z) (peer_list : bytes) : chat_client :=
  mk_client (self_addr c) room_num peer_num peer_list (inbox c).

Definition create_room_reply (c : chat_client) (d : datagram) : res chat_client :=
  if negb (derror d =? 0) then Ok c
  else
    let* l := blit (peer_list c) 0 (sockaddr 0 (self_addr c)) in
    Ok (with_peers c (droom d) 1 l).

Definition join_room_reply (c : chat_client) (d : datagram) : res chat_client :=
  if negb (derror d =? 0) then Ok c
  else
    let peer_num := to_int (dlength d / sizeof_sockaddr_in) in
    if peer_num <=? 0 then Ok (with_peers c 0 0 (peer_list c))
    else
      let* src := slice (inbox c) 0 (peer_num * sizeof_sockaddr_in) in
      let* l := blit (peer_list c) 0 src in
      Ok (with_peers c (droom d) peer_num l).

Definition leave_room_reply (c : chat_client) (d : datagram) : chat_client :=
  if negb (derror d =? 0) then c else with_peers c 0 0 (peer_list c).

Definition user_connection_updates (c : chat_client) (d : datagram) : res chat_client :=
  let new_peer_num := to_int (dlength d / sizeof_sockaddr_in) in
  if new_peer_num <=? 0 then Ok c
  else
    let* src := slice (inbox c) 0 (new_peer_num * sizeof_sockaddr_in) in
    let* l := blit (peer_list c) 0 src in
    Ok (with_peers c (room_num c) new_peer_num l).

Definition receive_available_rooms (c : chat_client) : res (list event) :=
  let* text := cstr (inbox c) in Ok [Rooms text].

Definition receive_message (c : chat_client) (sender : addr) (d : datagram) : res (list event) :=
  if droom d =? room_num c then let* text := cstr (inbox c) in Ok [Message sender text] else Ok [].

Definition reply_to_ping (sender : addr) : event := Send sender (mk_datagram 112 0 junk 0 []).

(** [recvfrom]: the payload of the packet has 1000 bytes *)
Definition recv (c : chat_client) (d : datagram) : chat_client :=
  let p := take 1000 (dpayload d) in
  mk_client (self_addr c) (room_num c) (peer_num c) (peer_list c) (p ++ drop (length p) (inbox c)).

(** the body of the loop of [receive_packet] *)
Definition receive_packet (c : chat_client) (sender : addr) (d : datagram) : res (chat_client * list event) :=
  let c := recv c d in
  if dtype d =? 99 then let* c := create_room_reply c d in Ok (c, [])
  else if dtype d =? 106 then let* c := join_room_reply c d in Ok (c, [])
  else if dtype d =? 108 then Ok (leave_room_reply c d, [])
  else if dtype d =? 117 then let* c := user_connection_updates c d in Ok (c, [])
  else if dtype d =? 114 then let* out := receive_available_rooms c in Ok (c, out)
  else if dtype d =? 109 then let* out := receive_message c sender d in Ok (c, out)
  else if dtype d =? 112 then Ok (c, [reply_to_ping sender])
  else Ok (c, []).
End chat_client.

(** ** The network *)
Section network.
Variable junk : Z.
Variables tracker ping_sock : addr.

(** a packet of the tracker: only the header when there is no list of peers,
    else the whole packet *)
Definition wire (p : packet) : datagram :=
  mk_datagram (type p) (error p) (default junk (proom p)) (payload_length p)
    (match payload p with
     | [] => []
     | l => let b := concat (map (sockaddr junk) l) in b ++ replicate (1000 - length b) junk
     end).

Record net := mk_net { peers : list peer; clients : gmap addr chat_client }.

(** A datagram to an address without a client is lost. *)
Definition deliver (cs : gmap addr chat_client) (src to : addr) (d : datagram)
  : res (gmap addr chat_client * list (addr * event)) :=
  match cs !! to with
  | None => Ok (cs, [])
  | Some c => let* (c, out) := receive_packet junk c src d in Ok (<[to := c]> cs, map (pair to) out)
  end.

Fixpoint deliver_all (cs : gmap addr chat_client) (src : addr) (l : list (addr * datagram))
  : res (gmap addr chat_client * list (addr * event)) :=
  match l with
  | [] => Ok (cs, [])
  | (to, d) :: l =>
      let* (cs, out) := deliver cs src to d in
      let* (cs, outs) := deliver_all cs src l in
      Ok (cs, out ++ outs)
  end.

Definition wires (out : sent) : list (addr * datagram) := map (fun x => (x.1, wire x.2)) out.

(** what the client at [a] does *)
Definition act (n : net) (a : addr) (e : event) : res (net * list (addr * event)) :=
  match e with
  | SendTracker d =>
      let* (ps, r) := tracker_receive junk (peers n) a.1 a.2 (dtype d) (droom d) in
      let l := match r with
               | Packets out => wires out
               | RoomList to len text =>
                   [(to, mk_datagram 114 0 junk len (text ++ 0 :: replicate (999 - length text) junk))]
               end in
      let* (cs, out) := deliver_all (clients n) tracker l in Ok (mk_net ps cs, out)
  | Send to d => let* (cs, out) := deliver (clients n) a to d in Ok (mk_net (peers n) cs, out)
  | e => Ok (n, [(a, e)])
  end.

Fixpoint act_all (n : net) (a : addr) (l : list event) : res (net * list (addr * event)) :=
  match l with
  | [] => Ok (n, [])
  | e :: l =>
      let* (n, out) := act n a e in
      let* (n, outs) := act_all n a l in
      Ok (n, out ++ outs)
  end.

(** the answers to a ping *)
Fixpoint answer_pings (ps : list peer) (l : list (addr * event)) : res (list peer) :=
  match l with
  | [] => Ok ps
  | (a, Send _ d) :: l => let* ps := ping_input junk ps a.1 a.2 (dtype d) in answer_pings ps l
  | _ :: l => answer_pings ps l
  end.

(** a line typed at the client at an address, and a round of pings *)
Inductive net_op :=
  | Input (a : addr) (text : bytes)
  | Ping.

Definition net_step (n : net) (op : net_op) : res (net * list (addr * event)) :=
  match op with
  | Input a text =>
      match clients n !! a with
      | None => Ok (n, [])
      | Some c => let* l := read_input junk c text in act_all n a l
      end
  | Ping =>
      let* (ps, out) := ping_output junk (peers n) in
      let* (cs, l) := deliver_all (clients n) ping_sock (wires out) in
      let* ps := answer_pings ps l in
      Ok (mk_net ps cs, [])
  end.

Fixpoint net_run (n : net) (ops : list net_op) : res net :=
  match ops with
  | [] => Ok n
  | op :: ops => let* (n, _) := net_step n op in net_run n ops
  end.
End network.

(** ** Specification *)
(** the commands of a user and the lines that give them *)
Inductive command :=
  | Create
  | Join (n : Z)
  | Leave
  | Say (msg : bytes)
  | ShowInfo.

Definition line_of (cmd : command) : bytes :=
  match cmd with
  | Create => str "-c"
  | Join n => str "-j " ++ dec n
  | Leave => str "-l"
  | Say msg => str "-m " ++ msg
  | ShowInfo => str "-i"
  end ++ [10].

Definition valid_command (cmd : command) : Prop :=
  match cmd with
  | Join n => 0 <= n < 2 ^ 31
  | Say msg => no_nul msg /\ zlen msg <= 995
  | _ => True
  end.

(** what the tracker's table becomes by a command from [a] *)
Definition spec_command (es : list entry) (a : addr) (cmd : command) : list entry :=
  match cmd with
  | Create => (spec_create es a).1
  | Join n => (spec_join es a n).1
  | Leave => (spec_leave es a).1
  | _ => es
  end.

Inductive user_op :=
  | Command (a : addr) (cmd : command)
  | PingRound.

Definition net_op_of (op : user_op) : net_op :=
  match op with Command a cmd => Input a (line_of cmd) | PingRound => Ping end.

Definition valid_user_op (op : user_op) : Prop :=
  match op with Command _ cmd => valid_command cmd | PingRound => True end.

(** only the addresses in [dom] have a client *)
Definition spec_user_op (dom : gset addr) (es : list entry) (op : user_op) : list entry :=
  match op with
  | Command a cmd => if decide (a ∈ dom) then spec_command es a cmd else es
  | PingRound => es
  end.

(** A client keeps room [r] with the members [l]. *)
Record keeps (c : chat_client) (a : addr) (r : Z) (l : list addr) : Prop := {
  keeps_self : self_addr c = (0, a.2);
  keeps_room : room_num c = r;
  keeps_num : peer_num c = zlen l;
  keeps_list : exists j rest, peer_list c = concat (map (sockaddr j) l) ++ rest;
  keeps_size : zlen (peer_list c) = 1600;
  keeps_inbox : zlen (inbox c) = 1000 }.

(** What the client at [a] should keep: no room; or its room in the table, with
    the members it has there.  Until somebody joins the room it created, it
    lists itself, under the address it is bound to. *)
Definition should_keep (es : list entry) (a : addr) (r : Z) (l : list addr) : Prop :=
  match lookup_addr es a with
  | None => r = 0 /\ l = []
  | Some e => r = eroom e /\ (l = members es r \/ members es r = [a] /\ l = [(0, a.2)])
  end.

(** The address of a client: the tracker takes address 0 and port -1 for
    none. *)
Definition client_addr (a : addr) : Prop := valid a /\ a.1 <> 0 /\ a.2 <> -1.

(** The tracker and the clients agree on a table. *)
Record agree (junk : Z) (es : list entry) (n : net) : Prop := {
  agree_peers : peers n = map (conc junk) es;
  agree_wf : wf es;
  agree_alive : Forall (fun e => ealive e = 1) es;
  agree_known : Forall (fun e => is_Some (clients n !! eaddr e)) es;
  agree_clients : forall a c, clients n !! a = Some c ->
    client_addr a /\ exists r l, keeps c a r l /\ should_keep es a r l }.

(** ** Lemmas: addresses in memory *)
Lemma sockaddr_length j a : length (sockaddr j a) = 16%nat.
Proof. reflexivity. Qed.

Lemma read_sockaddr_spec j a m : valid a -> read_sockaddr (sockaddr j a ++ m) = a.
Proof.
  intros [Hi Hp]. destruct a as [ip port]. cbn [fst snd] in *. unfold read_sockaddr. f_equal.
  - transitivity (le_val (le 4 ip)); [reflexivity|]. rewrite le_val_le. apply Z.mod_small. simpl. lia.
  - transitivity (wrap_s 16 (le_val (le 2 port))); [reflexivity|]. rewrite le_val_le.
    change (8 * Z.of_nat 2) with 16. rewrite wrap_s_mod by lia. apply wrap_s_small; simpl; lia.
Qed.

Abbreviation addrs_mem j l := (concat (map (sockaddr j) l)).

Lemma addrs_mem_length j l : length (addrs_mem j l) = (16 * length l)%nat.
Proof. induction l as [|a l IH]; [done|]. cbn [map concat]. rewrite length_app, IH, sockaddr_length. cbn [length]. lia. Qed.

Lemma addrs_mem_zlen j l : zlen (addrs_mem j l) = 16 * zlen l.
Proof. unfold zlen. rewrite addrs_mem_length. lia. Qed.

Lemma read_peers_spec c j pre l rest :
  Forall valid l -> peer_list c = addrs_mem j pre ++ addrs_mem j l ++ rest ->
  read_peers c (zlen pre) (length l) = Ok l.
Proof.
  intros Hl. revert pre. induction Hl as [|a l Ha Hl IH]; intros pre E; [done|].
  cbn [map concat] in E. cbn [length read_peers]. rewrite E, <- (app_assoc (sockaddr j a)).
  rewrite slice_at; [|by rewrite addrs_mem_zlen|reflexivity]. cbn [res_bind].
  specialize (IH (pre ++ [a])). rewrite zlen_app in IH. change (zlen [a]) with 1 in IH. rewrite IH.
  - cbn [res_bind]. pose proof (read_sockaddr_spec j a [] Ha) as R. rewrite app_nil_r in R. by rewrite R.
  - rewrite E, map_app, concat_app, <- !app_assoc. cbn [map concat]. by rewrite app_nil_r.
Qed.

Lemma keeps_read c a r l : keeps c a r l -> Forall valid l -> read_peers c 0 (Z.to_nat (peer_num c)) = Ok l.
Proof.
  intros K Hl. destruct (keeps_list _ _ _ _ K) as (j & rest & E). rewrite (keeps_num _ _ _ _ K).
  unfold zlen. rewrite Nat2Z.id. by apply (read_peers_spec c j [] l rest).
Qed.

(** ** Lemmas: packets received *)
Lemma keeps_recv c a r l d : keeps c a r l -> keeps (recv c d) a r l.
Proof.
  intros [? ? ? ? ? Hi]. constructor; [done..|]. cbn [recv inbox]. unfold zlen in *. rewrite length_app, length_drop, length_take. lia.
Qed.

Lemma recv_short c d m : dpayload d = m -> zlen m <= 1000 -> inbox (recv c d) = m ++ drop (length m) (inbox c).
Proof. intros <- Hm. cbn [recv inbox]. by rewrite take_ge by (unfold zlen in Hm; lia). Qed.

Lemma recv_full c d m : dpayload d = m -> zlen m = 1000 -> zlen (inbox c) = 1000 -> inbox (recv c d) = m.
Proof.
  intros Hd Hm Hi. rewrite (recv_short c d m) by (done || lia). rewrite drop_ge by (unfold zlen in *; lia). apply app_nil_r.
Qed.

(** a list of peers is copied from the packet received *)
Lemma keeps_copy c a r l junk r' l' m :
  keeps c a r l -> inbox c = addrs_mem junk l' ++ m -> zlen l' <= 62 ->
  exists src pl, slice (inbox c) 0 (zlen l' * sizeof_sockaddr_in) = Ok src /\ blit (peer_list c) 0 src = Ok pl /\
  keeps (with_peers c r' (zlen l') pl) a r' l'.
Proof.
  intros [Hs Hr Hn Hl Hz Hi] E Hlen. exists (addrs_mem junk l'). pose proof (zlen_nonneg l').
  set (k := length (addrs_mem junk l')).
  exists (addrs_mem junk l' ++ drop k (peer_list c)). split; [|split].
  - rewrite E. apply slice_prefix. rewrite addrs_mem_zlen. unfold sizeof_sockaddr_in. lia.
  - rewrite <- (take_drop k (peer_list c)) at 1. apply blit_prefix.
    unfold k, zlen in *. rewrite length_take, addrs_mem_length. lia.
  - constructor; [done..| | |done].
    + exists junk, (drop k (peer_list c)). done.
    + cbn [with_peers peer_list]. unfold k, zlen in *. rewrite length_app, length_drop, !addrs_mem_length. lia.
Qed.

Section wire.
Variable junk : Z.

Lemma wire_list_inbox c ty r l :
  l <> [] -> zlen l <= 62 -> zlen (inbox c) = 1000 ->
  inbox (recv c (wire junk (mk_packet ty 0 r (16 * zlen l) l))) =
  addrs_mem junk l ++ replicate (1000 - length (addrs_mem junk l)) junk.
Proof.
  intros Hl Hn Hi. apply recv_full; [|unfold zlen in *; rewrite length_app, length_replicate, addrs_mem_length; lia|done].
  by destruct l.
Qed.

Lemma list_count l : zlen l <= 62 -> to_int (16 * zlen l / sizeof_sockaddr_in) = zlen (A := addr) l.
Proof.
  intros Hl. pose proof (zlen_nonneg l). unfold sizeof_sockaddr_in. rewrite Z.mul_comm, Z.div_mul by lia. apply to_int_id. bounds.
Qed.

Lemma receive_update c a r l src l' :
  keeps c a r l -> l' <> [] -> zlen l' <= 62 ->
  exists c', receive_packet junk c src (wire junk (mk_packet 117 0 None (16 * zlen l') l')) = Ok (c', []) /\ keeps c' a r l'.
Proof.
  intros K Hl Hn. set (d := wire junk _). pose proof (keeps_recv _ _ _ _ d K) as K'.
  pose proof (wire_list_inbox c 117 None l' Hl Hn (keeps_inbox _ _ _ _ K)) as Ei.
  destruct (keeps_copy _ _ _ _ junk r l' _ K' Ei Hn) as (s & pl & Es & Eb & K'').
  exists (with_peers (recv c d) r (zlen l') pl). split; [|done].
  unfold receive_packet. cbn [dtype d wire type Z.eqb Pos.eqb]. unfold user_connection_updates.
  cbn [dlength d wire payload_length]. rewrite list_count by done.
  assert (0 < zlen l') by (destruct l'; [done|rewrite zlen_cons; pose proof (zlen_nonneg l'); lia]).
  rewrite (proj2 (Z.leb_gt _ _)) by done. fold d. rewrite Es. cbn [res_bind]. rewrite Eb. cbn [res_bind].
  by rewrite (keeps_room _ _ _ _ K').
Qed.

Lemma receive_joined c a r l src r' l' :
  keeps c a r l -> l' <> [] -> zlen l' <= 62 ->
  exists c', receive_packet junk c src (wire junk (mk_packet 106 0 (Some r') (16 * zlen l') l')) = Ok (c', []) /\ keeps c' a r' l'.
Proof.
  intros K Hl Hn. set (d := wire junk _). pose proof (keeps_recv _ _ _ _ d K) as K'.
  pose proof (wire_list_inbox c 106 (Some r') l' Hl Hn (keeps_inbox _ _ _ _ K)) as Ei.
  destruct (keeps_copy _ _ _ _ junk r' l' _ K' Ei Hn) as (s & pl & Es & Eb & K'').
  exists (with_peers (recv c d) r' (zlen l') pl). split; [|done].
  unfold receive_packet. cbn [dtype d wire type Z.eqb Pos.eqb]. unfold join_room_reply.
  cbn [derror dlength d wire error payload_length Z.eqb negb]. rewrite list_count by done.
  assert (0 < zlen l') by (destruct l'; [done|rewrite zlen_cons; pose proof (zlen_nonneg l'); lia]).
  rewrite (proj2 (Z.leb_gt _ _)) by done. fold d. rewrite Es. cbn [res_bind]. rewrite Eb. done.
Qed.

(** a room was created *)
Lemma receive_created c a r l src r' :
  keeps c a r l ->
  exists c', receive_packet junk c src (wire junk (mk_packet 99 0 (Some r') 0 [])) = Ok (c', []) /\
  keeps c' a r' [(0, a.2)].
Proof.
  intros K. set (d := wire junk _). pose proof (keeps_recv _ _ _ _ d K) as [Hs Hr Hn Hl Hz Hi].
  exists (with_peers (recv c d) r' 1 (sockaddr 0 (0, a.2) ++ drop 16 (peer_list (recv c d)))). split.
  - unfold receive_packet. cbn [dtype d wire type Z.eqb Pos.eqb]. unfold create_room_reply.
    cbn [derror d wire error Z.eqb negb]. rewrite Hs.
    rewrite <- (take_drop 16 (peer_list (recv c d))) at 1. fold d. rewrite blit_prefix; [done|].
    unfold zlen in *. rewrite length_take, sockaddr_length. lia.
  - constructor; [done..| | |done].
    + by exists 0, (drop 16 (peer_list (recv c d))).
    + cbn [with_peers peer_list]. rewrite zlen_app. change (zlen (sockaddr 0 (0, a.2))) with 16.
      unfold zlen in *. rewrite length_drop. lia.
Qed.

(** the room was left *)
Lemma receive_left c a r l src :
  keeps c a r l ->
  exists c', receive_packet junk c src (wire junk (mk_packet 108 0 None 0 [])) = Ok (c', []) /\ keeps c' a 0 [].
Proof.
  intros K. set (d := wire junk _). pose proof (keeps_recv _ _ _ _ d K) as [Hs Hr Hn Hl Hz Hi].
  eexists. split; [reflexivity|]. constructor; [done..| |done|done]. exists 0, (peer_list (recv c d)). done.
Qed.

(** an error changes nothing *)
Lemma receive_error c a r l src ty er :
  keeps c a r l -> ty ∈ [99; 106; 108] -> er <> 0 ->
  exists c', receive_packet junk c src (wire junk (mk_packet ty er None 0 [])) = Ok (c', []) /\ keeps c' a r l.
Proof.
  intros K Hty Her. set (d := wire junk _). pose proof (keeps_recv _ _ _ _ d K) as K'. exists (recv c d). split; [|done].
  assert ((derror d =? 0) = false) as E by by apply Z.eqb_neq.
  unfold receive_packet, create_room_reply, join_room_reply, leave_room_reply. fold d. rewrite E. cbn [negb res_bind].
  apply list_elem_of_In in Hty. destruct Hty as [<-|[<-|[<-|[]]]]; reflexivity.
Qed.

Lemma receive_ping c a r l src :
  keeps c a r l ->
  exists c', receive_packet junk c src (wire junk (mk_packet 112 0 None 0 [])) = Ok (c', [reply_to_ping junk src]) /\ keeps c' a r l.
Proof. intros K. eexists. split; [reflexivity|]. by apply keeps_recv. Qed.

(** a message is shown in its room *)
Lemma receive_said c a r l src r' msg :
  keeps c a r l -> no_nul msg -> zlen msg <= 999 ->
  exists c', receive_packet junk c src (mk_datagram 109 0 r' (zlen msg + 1) (msg ++ [0])) =
    Ok (c', if r' =? r then [Message src msg] else []) /\ keeps c' a r l.
Proof.
  intros K Hm Hn. set (d := mk_datagram _ _ _ _ _). pose proof (keeps_recv _ _ _ _ d K) as K'. exists (recv c d). split; [|done].
  unfold receive_packet. cbn [dtype d Z.eqb Pos.eqb]. unfold receive_message. fold d. cbn [droom d].
  rewrite (keeps_room _ _ _ _ K'). destruct (r' =? r); [|done].
  rewrite (recv_short c d (msg ++ [0])); [|done|rewrite zlen_app; change (zlen [0]) with 1; lia].
  rewrite <- app_assoc. cbn [app]. by rewrite cstr_app by done.
Qed.
End wire.

(** ** Lemmas: delivery *)
Section delivery.
Variable junk : Z.

Lemma deliver_one (Q : chat_client -> Prop) cs src b d out :
  (forall c, cs !! b = Some c -> exists c', receive_packet junk c src d = Ok (c', out) /\ Q c') ->
  exists cs', deliver junk cs src b d = Ok (cs', match cs !! b with None => [] | Some _ => map (pair b) out end) /\
  (forall a, a <> b -> cs' !! a = cs !! a) /\ (forall c', cs' !! b = Some c' -> is_Some (cs !! b) /\ Q c') /\ dom cs' = dom cs.
Proof.
  intros H. unfold deliver. destruct (cs !! b) as [c|] eqn:Eb.
  - destruct (H c eq_refl) as (c' & -> & HQ). exists (<[b := c']> cs). split; [done|]. split; [|split].
    + intros a Ha. by apply lookup_insert_ne.
    + intros c'' Hc. rewrite lookup_insert_eq in Hc. injection Hc as <-. by eauto.
    + apply dom_insert_lookup_L. by eauto.
  - exists cs. split; [done|]. split; [done|]. split; [|done]. intros c' E. congruence.
Qed.

Lemma deliver_each (P : addr -> chat_client -> chat_client -> Prop) (h : addr -> list event) (f : addr -> datagram) src l cs :
  NoDup l ->
  (forall b c, b ∈ l -> cs !! b = Some c -> exists c', receive_packet junk c src (f b) = Ok (c', h b) /\ P b c c') ->
  exists cs', deliver_all junk cs src (map (fun b => (b, f b)) l) =
    Ok (cs', concat (map (fun b => match cs !! b with None => [] | Some _ => map (pair b) (h b) end) l)) /\
  (forall b, b ∉ l -> cs' !! b = cs !! b) /\
  (forall b c', b ∈ l -> cs' !! b = Some c' -> exists c, cs !! b = Some c /\ P b c c') /\ dom cs' = dom cs.
Proof.
  revert cs. induction l as [|b l IH]; intros cs Hn H.
  { exists cs. split; [done|]. split; [done|]. split; [|done]. by intros b c' ?%not_elem_of_nil. }
  apply NoDup_cons in Hn as [Hb Hn]. cbn [map deliver_all].
  destruct (deliver_one (fun c' => exists c, cs !! b = Some c /\ P b c c') cs src b (f b) (h b)) as (cs1 & -> & Hne & Heq & Hd).
  { intros c Hc. destruct (H b c) as (c' & E & HP); [by left|done|]. by eauto. }
  cbn [res_bind]. assert (forall b', b' ∈ l -> cs1 !! b' = cs !! b') as Hl by (intros b' Hb'; apply Hne; congruence).
  destruct (IH cs1 Hn) as (cs2 & -> & Hne2 & Heq2 & Hd2).
  { intros b' c Hb' Hc. rewrite Hl in Hc by done. apply H; [by right|done]. }
  exists cs2. cbn [res_bind map concat]. split; [|split; [|split; [|congruence]]].
  - do 2 f_equal. f_equal. f_equal. apply map_ext_in. intros b' Hb'%list_elem_of_In. by rewrite Hl.
  - intros b' [Hb' Hni]%not_elem_of_cons. rewrite Hne2 by done. by apply Hne.
  - intros b' c' [->|Hb']%elem_of_cons Hc.
    + rewrite Hne2 in Hc by done. by destruct (Heq c' Hc) as [_ ?].
    + destruct (Heq2 b' c' Hb' Hc) as (c & E & HP). rewrite Hl in E by done. by eauto.
Qed.

Lemma deliver_all_app cs src l1 l2 :
  deliver_all junk cs src (l1 ++ l2) =
  (let* (cs, out) := deliver_all junk cs src l1 in
   let* (cs, outs) := deliver_all junk cs src l2 in Ok (cs, out ++ outs)).
Proof.
  revert cs. induction l1 as [|[to d] l1 IH]; intros cs.
  { cbn [app deliver_all res_bind]. by destruct (deliver_all junk cs src l2) as [[? ?]| |]. }
  cbn [app deliver_all]. destruct (deliver junk cs src to d) as [[cs1 out]| |]; [|done..]. cbn [res_bind]. rewrite IH.
  destruct (deliver_all junk cs1 src l1) as [[cs2 out2]| |]; [|done..]. cbn [res_bind].
  destruct (deliver_all junk cs2 src l2) as [[cs3 out3]| |]; [|done..]. cbn [res_bind]. by rewrite app_assoc.
Qed.

Lemma no_events (cs : gmap addr chat_client) l :
  concat (map (fun b => match cs !! b with None => [] | Some _ => map (pair b) [] end) l) = @nil (addr * event).
Proof. induction l as [|b l IH]; [done|]. cbn [map concat]. by destruct (cs !! b). Qed.

(** a list of members is delivered to all of them *)
Lemma deliver_list src es cs join r :
  NoDup (members es r) -> zlen (members es r) <= 5 ->
  (forall b c, cs !! b = Some c -> exists rb lb, keeps c b rb lb) ->
  exists cs', deliver_all junk cs src (wires junk (spec_list es join r)) = Ok (cs', []) /\
  (forall b, b ∉ members es r -> cs' !! b = cs !! b) /\
  (forall b c', b ∈ members es r -> cs' !! b = Some c' -> exists c, cs !! b = Some c /\
     keeps c' b (if negb (join.2 =? -1) && negb (join.1 =? 0) && bool_decide (b = join) then r else room_num c) (members es r)) /\
  dom cs' = dom cs.
Proof.
  intros Hn Hs Hc. unfold wires, spec_list. rewrite map_map. cbn [fst snd]. set (l := members es r) in *.
  edestruct (deliver_each (fun b c c' =>
    keeps c' b (if negb (join.2 =? -1) && negb (join.1 =? 0) && bool_decide (b = join) then r else room_num c) l)
    (fun _ => [])) as (cs' & E & H); [exact Hn| |exists cs'; split; [|exact H]].
  2:{ rewrite no_events in E. exact E. }
  intros b c Hb E. destruct (Hc b c E) as (rb & lb & K). rewrite (keeps_room _ _ _ _ K).
  assert (l <> []) as Hl by (intros El; rewrite El in Hb; by apply not_elem_of_nil in Hb).
  destruct (_ && _); [apply (receive_joined junk c b rb lb)|apply (receive_update junk c b rb lb)]; (done || lia).
Qed.
End delivery.

(** ** Lemmas: the table seen from an address *)
Section table.
Implicit Types (es : list entry) (a b : addr).

Lemma lookup_addr_iff es a e : wf es -> lookup_addr es a = Some e <-> e ∈ es /\ eaddr e = a.
Proof.
  intros Hwf. split; [apply lookup_addr_Some|]. intros [He Ha]. destruct (lookup_addr es a) as [e'|] eqn:E.
  - apply lookup_addr_Some in E as [He' Ha']. f_equal. pose proof (wf_nodup _ Hwf) as Hn.
    apply list_elem_of_lookup in He as [i Hi]. apply list_elem_of_lookup in He' as [j Hj].
    assert (i = j) as ->; [|congruence].
    apply (NoDup_lookup _ _ _ a Hn); rewrite list_lookup_fmap; [rewrite Hi|rewrite Hj]; cbn; congruence.
  - apply lookup_addr_None in E. exfalso. apply E. rewrite <- Ha. by apply list_elem_of_fmap_2.
Qed.

Lemma lookup_addr_same es es' a :
  wf es -> wf es' -> (forall e, eaddr e = a -> e ∈ es' <-> e ∈ es) -> lookup_addr es' a = lookup_addr es a.
Proof.
  intros H H' Hin. apply option_eq. intros e. rewrite !lookup_addr_iff by done. specialize (Hin e). tauto.
Qed.

Lemma members_lookup es a r : wf es -> a ∈ members es r <-> exists e, lookup_addr es a = Some e /\ eroom e = r.
Proof.
  intros Hwf. unfold members. rewrite list_elem_of_fmap. split.
  - intros (e & -> & [Hr He]%list_elem_of_filter). exists e. split; [by apply lookup_addr_iff|done].
  - intros (e & [He Ha]%lookup_addr_Some & Hr). exists e. split; [done|]. by apply list_elem_of_filter.
Qed.

Lemma members_NoDup es r : wf es -> NoDup (members es r).
Proof.
  intros [Hn _ _ _]. unfold members. induction es as [|e es IH]; [constructor|]. cbn [fmap list_fmap] in Hn.
  apply NoDup_cons in Hn as [Hni Hn]. destruct (decide (eroom e = r)).
  - rewrite filter_cons_True by done. cbn [fmap list_fmap]. apply NoDup_cons. split; [|by apply IH].
    intros (e' & E & [_ He']%list_elem_of_filter)%list_elem_of_fmap. apply Hni. rewrite E. by apply list_elem_of_fmap_2.
  - rewrite filter_cons_False by done. by apply IH.
Qed.

Lemma members_valid es r : wf es -> Forall valid (members es r).
Proof.
  intros [_ Hv _ _]. unfold members. rewrite Forall_forall in Hv. apply Forall_forall.
  intros a (e & -> & [_ He]%list_elem_of_filter)%list_elem_of_fmap. by apply Hv.
Qed.

Lemma members_without_other es a q :
  (forall e, e ∈ es -> eaddr e = a -> eroom e <> q) -> members (without es a) q = members es q.
Proof.
  unfold without. induction es as [|e es IH]; intros H; [done|].
  assert (members (filter (fun e => eaddr e <> a) es) q = members es q) as IH'.
  { apply IH. intros e' He'. apply H. by right. }
  destruct (decide (eaddr e = a)).
  - rewrite filter_cons_False by tauto. rewrite members_cons, decide_False; [done|]. apply H; [by left|done].
  - rewrite filter_cons_True by done. by rewrite !members_cons, IH'.
Qed.

Lemma members_add es a r q : members (es ++ [mk_entry a r 1]) q = members es q ++ if decide (r = q) then [a] else [].
Proof. rewrite members_app, members_cons. cbn [eroom eaddr]. by destruct (decide _). Qed.

(** tables in which [a] is added, moved or removed *)
Lemma lookup_add es a r b :
  wf es -> wf (es ++ [mk_entry a r 1]) ->
  lookup_addr (es ++ [mk_entry a r 1]) b = if decide (b = a) then Some (mk_entry a r 1) else lookup_addr es b.
Proof.
  intros H H'. destruct (decide (b = a)) as [->|Hb].
  - apply lookup_addr_iff; [done|]. split; [|done]. apply elem_of_app. right. by left.
  - apply lookup_addr_same; [done..|]. intros e He. rewrite elem_of_app, list_elem_of_singleton. split; [|by left].
    intros [?| ->]; [done|]. cbn in He. congruence.
Qed.

Lemma lookup_without es a b :
  wf es -> lookup_addr (without es a) b = if decide (b = a) then None else lookup_addr es b.
Proof.
  intros H. pose proof (wf_without es a H) as H'. destruct (decide (b = a)) as [->|Hb].
  - destruct (lookup_addr _ a) as [e|] eqn:E; [|done]. apply lookup_addr_Some in E as [[_ Hne]%without_elem ?]. done.
  - apply lookup_addr_same; [done..|]. intros e He. rewrite without_elem. split; [by intros []|]. intros ?. split; congruence.
Qed.

Lemma should_keep_same es es' b r l :
  lookup_addr es' b = lookup_addr es b ->
  (forall e, lookup_addr es b = Some e -> members es' (eroom e) = members es (eroom e)) ->
  should_keep es b r l -> should_keep es' b r l.
Proof. unfold should_keep. intros -> H. destruct (lookup_addr es b) as [e|]; [|done]. intros [-> Hl]. by rewrite (H e). Qed.
End table.

(** ** Lemmas: agreement *)
(** the client at [b], if there is one, keeps what the table says *)
Definition agreed_at (es : list entry) (cs : gmap addr chat_client) (b : addr) : Prop :=
  forall c, cs !! b = Some c -> client_addr b /\ exists r l, keeps c b r l /\ should_keep es b r l.

Definition agreed (es : list entry) (cs : gmap addr chat_client) : Prop := forall b, agreed_at es cs b.

(** the client at [b] keeps its room, or is about to be told as [join] *)
Definition room_right (es : list entry) (join : addr) (cs : gmap addr chat_client) (b : addr) : Prop :=
  forall c, cs !! b = Some c -> client_addr b /\ (exists r l, keeps c b r l) /\
    (b = join \/ forall e, lookup_addr es b = Some e -> room_num c = eroom e).

Lemma agreed_room_right es join cs b : agreed_at es cs b -> room_right es join cs b.
Proof.
  intros H c Hc. destruct (H c Hc) as (Hb & r & l & K & Hs). split; [done|]. split; [by eauto|]. right.
  intros e E. unfold should_keep in Hs. rewrite E in Hs. rewrite (keeps_room _ _ _ _ K). by destruct Hs.
Qed.

Lemma deliver_list_agreed junk src es cs join r :
  wf es -> (forall b, room_right es join cs b) ->
  exists cs', deliver_all junk cs src (wires junk (spec_list es join r)) = Ok (cs', []) /\
  (forall b, b ∉ members es r -> cs' !! b = cs !! b) /\ (forall b, b ∈ members es r -> agreed_at es cs' b) /\
  dom cs' = dom cs.
Proof.
  intros Hwf H. destruct (deliver_list junk src es cs join r) as (cs' & E & Hne & Hm & Hd).
  - by apply members_NoDup.
  - apply Hwf.
  - intros b c Hc. by destruct (H b c Hc) as (_ & ? & _).
  - exists cs'. split; [done|]. split; [done|]. split; [|done]. intros b Hb c' Hc'.
    destruct (Hm b c' Hb Hc') as (c & Hc & K). destruct (H b c Hc) as ((Hv & H0 & H1) & _ & Hr). split; [done|].
    apply members_lookup in Hb as (e & El & Er); [|done]. exists r, (members es r). split.
    + replace r with (if negb (join.2 =? -1) && negb (join.1 =? 0) && bool_decide (b = join) then r else room_num c) at 1; [done|].
      destruct (bool_decide_reflect (b = join)) as [->|Hne']; rewrite ?andb_false_r, ?andb_true_r.
      * rewrite (proj2 (Z.eqb_neq join.2 (-1))), (proj2 (Z.eqb_neq join.1 0)) by done. done.
      * destruct Hr as [?|Hr]; [done|]. rewrite (Hr e El). done.
    + unfold should_keep. rewrite El. subst r. by split; [|left].
Qed.

Section operations.
Variable junk : Z.
Variable tracker : addr.

(** a packet to the client at [a] *)
Lemma deliver_reply es es' cs a p :
  agreed es cs ->
  (forall c r l, cs !! a = Some c -> keeps c a r l -> should_keep es a r l ->
    exists c' r' l', receive_packet junk c tracker (wire junk p) = Ok (c', []) /\ keeps c' a r' l' /\ should_keep es' a r' l') ->
  exists cs', deliver_all junk cs tracker (wires junk [(a, p)]) = Ok (cs', []) /\
  (forall b, b <> a -> cs' !! b = cs !! b) /\ agreed_at es' cs' a /\ dom cs' = dom cs.
Proof.
  intros Ha H. cbn [wires map deliver_all fst snd].
  destruct (deliver_one junk (fun c' => client_addr a /\ exists r l, keeps c' a r l /\ should_keep es' a r l) cs tracker a (wire junk p) [])
    as (cs' & E & Hne & Heq & Hd).
  - intros c Hc. destruct (Ha a c Hc) as (Hv & r & l & K & Hs). destruct (H c r l Hc K Hs) as (c' & r' & l' & E & K' & Hs').
    exists c'. split; [done|]. split; [done|]. by exists r', l'.
  - rewrite E. exists cs'. cbn [res_bind]. split; [by destruct (cs !! a)|]. split; [done|]. split; [|done].
    intros c' Hc'. by destruct (Heq c' Hc').
Qed.

(** an error leaves the agreement *)
Lemma deliver_err es cs a ty er :
  agreed es cs -> ty ∈ [99; 106; 108] -> er <> 0 ->
  exists cs', deliver_all junk cs tracker (wires junk (err a ty er)) = Ok (cs', []) /\ agreed es cs' /\ dom cs' = dom cs.
Proof.
  intros Ha Hty Her. destruct (deliver_reply es es cs a (mk_packet ty er None 0 []) Ha) as (cs' & E & Hne & Heq & Hd).
  - intros c r l Hc K Hs. destruct (receive_error junk c a r l tracker ty er K Hty Her) as (c' & E & K'). by exists c', r, l.
  - exists cs'. split; [done|]. split; [|done]. intros b. destruct (decide (b = a)) as [->|Hba]; [done|].
    intros c Hc. rewrite Hne in Hc by done. by apply Ha.
Qed.

(** the lists of the rooms that changed are delivered *)
Lemma deliver_lists es es' cs a r old :
  wf es -> wf es' -> agreed es cs -> old <> r ->
  (forall b, b <> a -> lookup_addr es' b = lookup_addr es b) -> a ∈ members es' r ->
  (forall q, q <> r -> q <> old -> members es' q = members es q) ->
  exists cs', deliver_all junk cs tracker (wires junk (spec_list es' a r ++ spec_list es' (0, -1) old)) = Ok (cs', []) /\
  agreed es' cs' /\ dom cs' = dom cs.
Proof.
  intros Hwf Hwf' Ha Hr Hl Hin Hm.
  destruct (deliver_list_agreed junk tracker es' cs a r Hwf') as (cs1 & E1 & Hne1 & Hm1 & Hd1).
  { intros b c Hc. destruct (agreed_room_right es a cs b (Ha b) c Hc) as (? & ? & H). split; [done|]. split; [done|].
    destruct (decide (b = a)); [by left|]. right. rewrite Hl by done. by destruct H as [?|?]. }
  destruct (deliver_list_agreed junk tracker es' cs1 (0, -1) old Hwf') as (cs2 & E2 & Hne2 & Hm2 & Hd2).
  { intros b. destruct (decide (b ∈ members es' r)) as [Hb|Hb]; [apply agreed_room_right; by apply Hm1|].
    intros c Hc. rewrite Hne1 in Hc by done. destruct (agreed_room_right es (0, -1) cs b (Ha b) c Hc) as (Hv & ? & H).
    split; [done|]. split; [done|]. right. rewrite Hl by (by intros ->).
    destruct H as [->|?]; [|done]. by destruct Hv as (_ & [] & _). }
  exists cs2. unfold wires. rewrite map_app, deliver_all_app. fold (wires junk (spec_list es' a r)).
  fold (wires junk (spec_list es' (0, -1) old)). rewrite E1. cbn [res_bind]. rewrite E2. split; [done|]. split; [|congruence].
  intros b. destruct (decide (b ∈ members es' old)) as [Ho|Ho]; [by apply Hm2|].
  intros c Hc. rewrite Hne2 in Hc by done. destruct (decide (b ∈ members es' r)) as [Hb|Hb]; [by apply Hm1|].
  rewrite Hne1 in Hc by done. assert (b <> a) as Hba by (by intros ->).
  destruct (Ha b c Hc) as (Hv & r0 & l0 & K & Hs). split; [done|]. exists r0, l0. split; [done|].
  apply (should_keep_same es); [by apply Hl| |done]. intros e He.
  apply Hm; intros E; [apply Hb|apply Ho]; apply members_lookup; try done; exists e; by rewrite Hl.
Qed.

Lemma create_agreed es cs a :
  wf es -> valid a -> agreed es cs -> wf (spec_create es a).1 ->
  exists cs', deliver_all junk cs tracker (wires junk (spec_create es a).2) = Ok (cs', []) /\
  agreed (spec_create es a).1 cs' /\ dom cs' = dom cs.
Proof.
  intros Hwf Hv Ha Hwf'. unfold spec_create in *. bdestruct (5 <=? Z.of_nat (size (rooms_of es))).
  { apply deliver_err; [done|by left|done]. }
  destruct (lookup_addr es a) as [e|] eqn:El; [apply deliver_err; [done|by left|done]|].
  destruct (smallest_free_small es) as (_ & Hfree & _); [lia|]. set (r := smallest_free es 1 9) in *. cbn [fst snd] in *.
  assert (forall e, e ∈ es -> eroom e <> r) as Hroom.
  { intros e He <-. apply Hfree. unfold rooms_of. apply elem_of_list_to_set. by apply list_elem_of_fmap_2. }
  assert (members es r = []) as Hnil.
  { destruct (members es r) as [|b l] eqn:E; [done|]. assert (b ∈ members es r) as Hbm by (rewrite E; by left).
    apply members_lookup in Hbm as (e & [He _]%lookup_addr_Some & Er); [|done]. by apply Hroom in He. }
  destruct (deliver_reply es (es ++ [mk_entry a r 1]) cs a (mk_packet 99 0 (Some r) 0 []) Ha) as (cs' & E & Hne & Heq & Hd).
  - intros c r0 l Hc K Hs. destruct (receive_created junk c a r0 l tracker r K) as (c' & E & K'). exists c', r, [(0, a.2)].
    split; [done|]. split; [done|]. unfold should_keep. rewrite lookup_add, decide_True by done. cbn [eroom].
    split; [done|]. right. by rewrite members_add, Hnil, decide_True.
  - exists cs'. split; [done|]. split; [|done]. intros b. destruct (decide (b = a)) as [->|Hba]; [done|].
    intros c Hc. rewrite Hne in Hc by done. destruct (Ha b c Hc) as (Hvb & r0 & l0 & K & Hs). split; [done|]. exists r0, l0.
    split; [done|]. apply (should_keep_same es); [by rewrite lookup_add, decide_False by done| |done].
    intros e He. rewrite members_add, decide_False, app_nil_r; [done|]. apply not_eq_sym, Hroom. by apply lookup_addr_Some in He as [? _].
Qed.
Lemma room_bounds es e : wf es -> e ∈ es -> 1 <= eroom e <= 5.
Proof. intros [_ _ Hr _] He. rewrite Forall_forall in Hr. by apply Hr. Qed.

Lemma members_0 es : wf es -> members es 0 = [].
Proof.
  intros Hwf. destruct (members es 0) as [|b l] eqn:E; [done|]. assert (b ∈ members es 0) as Hb by (rewrite E; by left).
  apply members_lookup in Hb as (e & [He _]%lookup_addr_Some & Er); [|done]. apply room_bounds in He; [lia|done].
Qed.

Lemma join_agreed es cs a r :
  wf es -> valid a -> agreed es cs -> wf (spec_join es a r).1 ->
  exists cs', deliver_all junk cs tracker (wires junk (spec_join es a r).2) = Ok (cs', []) /\
  agreed (spec_join es a r).1 cs' /\ dom cs' = dom cs.
Proof.
  intros Hwf Hv Ha Hwf'. unfold spec_join in *.
  destruct (5 <=? zlen (members es r)); [apply deliver_err; [done|right; by left|done]|].
  destruct (zlen (members es r) =? 0); [apply deliver_err; [done|right; by left|done]|].
  destruct (lookup_addr es a) as [e|] eqn:El.
  - bdestruct (eroom e =? r); [apply deliver_err; [done|right; by left|done]|]. cbn [fst snd] in *.
    pose proof (wf_without es a Hwf) as Hw. apply (deliver_lists es); try done.
    + intros b Hba. rewrite lookup_add, decide_False by done. by rewrite lookup_without, decide_False.
    + rewrite members_add, decide_True by done. apply elem_of_app. right. by left.
    + intros q Hq Ho. rewrite members_add, decide_False, app_nil_r by congruence. apply members_without_other.
      intros e' He' Hea. assert (lookup_addr es a = Some e') as E by by apply lookup_addr_iff. congruence.
  - cbn [fst snd] in *. assert (1 <= r <= 5) as Hr.
    { apply (room_bounds _ (mk_entry a r 1) Hwf'). apply elem_of_app. right. by left. }
    pose proof (deliver_lists es (es ++ [mk_entry a r 1]) cs a r 0) as D.
    assert (spec_list (es ++ [mk_entry a r 1]) (0, -1) 0 = []) as E0 by (unfold spec_list; by rewrite members_0).
    rewrite E0, app_nil_r in D. apply D; [done..|lia| | |].
    + intros b Hb. by rewrite lookup_add, decide_False by done.
    + rewrite members_add, decide_True by done. apply elem_of_app. right. by left.
    + intros q Hq _. by rewrite members_add, decide_False, app_nil_r by congruence.
Qed.

Lemma leave_agreed es cs a :
  wf es -> agreed es cs -> wf (spec_leave es a).1 ->
  exists cs', deliver_all junk cs tracker (wires junk (spec_leave es a).2) = Ok (cs', []) /\
  agreed (spec_leave es a).1 cs' /\ dom cs' = dom cs.
Proof.
  intros Hwf Ha Hwf'. unfold spec_leave in *.
  destruct (lookup_addr es a) as [e|] eqn:El; [|apply deliver_err; [done|do 2 right; by left|done]]. cbn [fst snd] in *.
  assert (lookup_addr (without es a) a = None) as Hla by by rewrite lookup_without, decide_True.
  destruct (deliver_reply es (without es a) cs a (mk_packet 108 0 None 0 []) Ha) as (cs1 & E1 & Hne1 & Heq1 & Hd1).
  { intros c r l Hc K Hs. destruct (receive_left junk c a r l tracker K) as (c' & E & K'). exists c', 0, [].
    split; [done|]. split; [done|]. unfold should_keep. by rewrite Hla. }
  assert (forall b, b <> a -> lookup_addr (without es a) b = lookup_addr es b) as Hl.
  { intros b Hb. by rewrite lookup_without, decide_False. }
  destruct (deliver_list_agreed junk tracker (without es a) cs1 (0, -1) (eroom e) Hwf') as (cs2 & E2 & Hne2 & Hm2 & Hd2).
  { intros b. destruct (decide (b = a)) as [->|Hb]; [by apply agreed_room_right|]. intros c Hc. rewrite Hne1 in Hc by done.
    destruct (agreed_room_right es (0, -1) cs b (Ha b) c Hc) as (Hv & ? & H). split; [done|]. split; [done|]. by rewrite Hl. }
  exists cs2. rewrite <- (app_nil_l (spec_list _ _ _)), app_comm_cons. unfold wires. rewrite map_app, deliver_all_app.
  fold (wires junk [(a, mk_packet 108 0 None 0 [])]). fold (wires junk (spec_list (without es a) (0, -1) (eroom e))).
  rewrite E1. cbn [res_bind]. rewrite E2. split; [done|]. split; [|congruence].
  intros b. destruct (decide (b ∈ members (without es a) (eroom e))) as [Hm|Hm]; [by apply Hm2|].
  intros c Hc. rewrite Hne2 in Hc by done. destruct (decide (b = a)) as [->|Hb]; [by apply Heq1|].
  rewrite Hne1 in Hc by done. destruct (Ha b c Hc) as (Hv & r0 & l0 & K & Hs). split; [done|]. exists r0, l0. split; [done|].
  apply (should_keep_same es); [by apply Hl| |done]. intros e' He'. apply members_without_other. intros e'' He'' Hea Er.
  assert (lookup_addr es a = Some e'') as E by by apply lookup_addr_iff. apply Hm, members_lookup; [done|].
  exists e'. rewrite Hl by done. split; [done|]. congruence.
Qed.
End operations.

(** ** Lemmas: commands *)
Section commands.
Variable junk : Z.

Lemma read_line_spec s :
  no_nul s -> zlen s <= 998 -> read_line (s ++ [10]) = Ok (s ++ 0 :: replicate (999 - length s) 0).
Proof.
  intros Hs Hn. unfold read_line. set (z := replicate (999 - length s) 0).
  assert (replicate 1000 0 = replicate (length (s ++ [10; 0])) 0 ++ replicate (998 - length s) 0) as ->.
  { rewrite <- replicate_add. f_equal. rewrite length_app. cbn [length]. unfold zlen in Hn. lia. }
  rewrite <- app_assoc. cbn [app]. rewrite blit_prefix by by rewrite zlen_replicate. cbn [res_bind].
  assert ((s ++ [10; 0]) ++ replicate (998 - length s) 0 = (s ++ [10]) ++ 0 :: replicate (998 - length s) 0) as ->.
  { by rewrite <- !app_assoc. }
  rewrite strlen_app; [|apply no_nul_app; split; [done|by constructor]]. cbn [res_bind].
  unfold wr. rewrite !zlen_app. change (zlen [10]) with 1. rewrite zlen_cons.
  pose proof (zlen_nonneg s). pose proof (zlen_nonneg (replicate (998 - length s) 0)).
  rewrite (proj2 (Z.leb_le 0 _)), (proj2 (Z.ltb_lt _ _)) by lia. cbn [andb]. f_equal.
  replace (Z.to_nat (zlen s + 1 - 1)) with (length s + 0)%nat by (unfold zlen; lia).
  rewrite <- app_assoc, insert_app_r. cbn [app list_insert insert]. do 2 f_equal. subst z.
  replace (999 - length s)%nat with (S (998 - length s)) by (unfold zlen in Hn; lia). done.
Qed.

Lemma send_message_spec c a r l msg m :
  keeps c a r l -> Forall valid l -> no_nul msg -> zlen msg <= 999 ->
  send_message c (msg ++ 0 :: m) = Ok (map (fun b => Send b (mk_datagram 109 0 r (zlen msg + 1) (msg ++ [0]))) l).
Proof.
  intros K Hl Hm Hn. unfold send_message. rewrite strlen_app by done. cbn [res_bind].
  rewrite (proj2 (Z.leb_le _ _)) by lia.
  assert (msg ++ 0 :: m = (msg ++ [0]) ++ m) as -> by by rewrite <- app_assoc.
  rewrite slice_prefix by by rewrite zlen_app. cbn [res_bind]. rewrite (keeps_read c a r l) by done. cbn [res_bind].
  by rewrite (keeps_room _ _ _ _ K).
Qed.

Lemma read_input_create c : read_input junk c (line_of Create) = Ok [create_room_request junk].
Proof. reflexivity. Qed.

Lemma read_input_leave c : read_input junk c (line_of Leave) = Ok [leave_room_request c].
Proof. reflexivity. Qed.

Lemma read_input_join c n : 0 <= n < 2 ^ 31 -> read_input junk c (line_of (Join n)) = Ok [join_room_request n].
Proof.
  intros Hn. pose proof (dec_length10 9 n) as Hl. change (10 ^ Z.of_nat 10) with 10000000000 in Hl.
  unfold read_input, line_of. rewrite read_line_spec.
  - cbn [res_bind]. transitivity (let* v := atoi (dec n ++ 0 :: replicate (999 - length (str "-j " ++ dec n)) 0) in
      if v <? 0 then Ok [] else Ok [join_room_request v]); [reflexivity|].
    unfold atoi. rewrite strtoll_dec by (done || unfold LLONG_MIN, LLONG_MAX; lia). cbn [res_bind].
    rewrite to_int_id by bounds. by rewrite (proj2 (Z.ltb_ge n 0)) by lia.
  - apply no_nul_app. split; [vm_compute; repeat constructor; discriminate|apply dec_no_nul].
  - rewrite zlen_app. change (zlen (str "-j ")) with 3. unfold zlen. lia.
Qed.

Lemma read_input_say c a r l msg :
  keeps c a r l -> Forall valid l -> no_nul msg -> zlen msg <= 995 ->
  read_input junk c (line_of (Say msg)) =
  Ok (map (fun b => Send b (mk_datagram 109 0 r (zlen msg + 1) (msg ++ [0]))) l).
Proof.
  intros K Hl Hm Hn. unfold read_input, line_of. rewrite read_line_spec.
  - cbn [res_bind]. transitivity (send_message c (msg ++ 0 :: replicate (999 - length (str "-m " ++ msg)) 0)); [reflexivity|].
    apply (send_message_spec c a); (done || lia).
  - apply no_nul_app. split; [vm_compute; repeat constructor; discriminate|done].
  - rewrite zlen_app. change (zlen (str "-m ")) with 3. lia.
Qed.

Lemma read_input_info c a r l :
  keeps c a r l -> Forall valid l ->
  read_input junk c (line_of ShowInfo) = Ok (if zlen l =? 0 then [] else [Info r l]).
Proof.
  intros K Hl. transitivity (get_room_info c); [reflexivity|]. unfold get_room_info.
  rewrite (keeps_read c a r l) by done. rewrite (keeps_num _ _ _ _ K), (keeps_room _ _ _ _ K). by destruct (zlen l =? 0).
Qed.

Lemma spec_command_wf es a cmd : wf es -> valid a -> wf (spec_command es a cmd).
Proof.
  intros H Ha. destruct cmd; cbn [spec_command]; try done.
  - by apply (create_refines 0).
  - by apply (join_refines 0).
  - by apply (leave_refines 0).
Qed.

(** the entries of the table after a command *)
Lemma spec_command_elem es a cmd e :
  e ∈ spec_command es a cmd -> e ∈ es \/ eaddr e = a /\ ealive e = 1.
Proof.
  assert (forall r es', (forall e, e ∈ es' -> e ∈ es) -> e ∈ es' ++ [mk_entry a r 1] -> e ∈ es \/ eaddr e = a /\ ealive e = 1) as H.
  { intros r es' Hin [He| ->%list_elem_of_singleton]%elem_of_app; [left; by apply Hin|by right]. }
  assert (forall e, e ∈ without es a -> e ∈ es) as Hw by by intros e' [? _]%without_elem.
  destruct cmd; cbn [spec_command]; try by left.
  - unfold spec_create. repeat case_match; try by left. by apply H.
  - unfold spec_join. repeat case_match; cbn [fst]; try by left. all: by apply H.
  - unfold spec_leave. repeat case_match; try by left. intros He. left. by apply Hw.
Qed.
End commands.

(** ** Lemmas: the network *)
Section net_lemmas.
Variable junk : Z.
Variables tracker ping_sock : addr.
Abbreviation step := (net_step junk tracker ping_sock).

Lemma agree_agreed es n : agree junk es n -> agreed es (clients n).
Proof. intros Hn b c Hc. by apply (agree_clients _ _ _ Hn). Qed.

Lemma keeps_list_valid es a r l : wf es -> client_addr a -> should_keep es a r l -> Forall valid l.
Proof.
  intros Hwf [[Hi Hp] _]. unfold should_keep. destruct (lookup_addr es a) as [e|]; [|intros [_ ->]; constructor].
  intros [-> [->|[_ ->]]]; [by apply members_valid|]. constructor; [|constructor]. by split.
Qed.

(** the requests: what the tracker answers is what the specification says *)
Lemma act_request es n a d cmd :
  agree junk es n -> is_Some (clients n !! a) -> valid a ->
  match cmd with
  | Create => dtype d = 99
  | Join r => dtype d = 106 /\ droom d = r
  | Leave => dtype d = 108
  | _ => False
  end ->
  exists n', act junk tracker n a (SendTracker d) = Ok (n', []) /\ agree junk (spec_command es a cmd) n' /\
  dom (clients n') = dom (clients n).
Proof.
  intros Hn Ha Hv Hd. pose proof (agree_wf _ _ _ Hn) as Hwf. pose proof (agree_agreed es n Hn) as Hag.
  pose proof (spec_command_wf es a cmd Hwf Hv) as Hwf'.
  assert (exists out, tracker_receive junk (peers n) a.1 a.2 (dtype d) (droom d) =
      Ok (map (conc junk) (spec_command es a cmd), Packets out) /\
    exists cs', deliver_all junk (clients n) tracker (wires junk out) = Ok (cs', []) /\
    agreed (spec_command es a cmd) cs' /\ dom cs' = dom (clients n)) as (out & E & cs' & E' & Hag' & Hdom).
  { rewrite (agree_peers _ _ _ Hn). unfold tracker_receive. destruct cmd; [rewrite Hd|destruct Hd as [-> ->]|rewrite Hd|done..].
    - destruct (create_refines junk es a Hwf Hv) as [-> _]. eexists. split; [reflexivity|]. by apply create_agreed.
    - destruct (join_refines junk es a n0 Hwf Hv) as [-> _]. eexists. split; [reflexivity|]. by apply join_agreed.
    - destruct (leave_refines junk es a Hwf Hv) as [-> _]. eexists. split; [reflexivity|]. by apply leave_agreed. }
  unfold act. rewrite E. cbn [res_bind]. rewrite E'. exists (mk_net (map (conc junk) (spec_command es a cmd)) cs').
  split; [done|]. split; [|done]. constructor; [done..| | |done].
  - apply Forall_forall. intros e [He|[_ ?]]%spec_command_elem; [|done]. pose proof (agree_alive _ _ _ Hn) as Hal.
    rewrite Forall_forall in Hal. by apply Hal.
  - apply Forall_forall. intros e He%spec_command_elem. cbn [clients]. rewrite <- elem_of_dom, Hdom, elem_of_dom.
    destruct He as [He|[-> _]]; [|done]. pose proof (agree_known _ _ _ Hn) as Hk. rewrite Forall_forall in Hk. by apply Hk.
Qed.

(** the room of an address: 0 if it is in none *)
Definition room_at (es : list entry) (b : addr) : Z := from_option eroom 0 (lookup_addr es b).

Lemma should_keep_room es b r l : should_keep es b r l -> r = room_at es b.
Proof. unfold should_keep, room_at. destruct (lookup_addr es b); by intros [-> _]. Qed.

(** a message is delivered to one address *)
Lemma act_send es n a b r msg :
  agree junk es n -> no_nul msg -> zlen msg <= 999 ->
  exists n', act junk tracker n a (Send b (mk_datagram 109 0 r (zlen msg + 1) (msg ++ [0]))) =
    Ok (n', match clients n !! b with
            | None => []
            | Some _ => if r =? room_at es b then [(b, Message a msg)] else []
            end) /\ agree junk es n' /\ dom (clients n') = dom (clients n).
Proof.
  intros Hn Hm Hl. pose proof (agree_agreed es n Hn) as Hag. set (d := mk_datagram _ _ _ _ _).
  destruct (deliver_one junk (fun c' => client_addr b /\ exists r0 l, keeps c' b r0 l /\ should_keep es b r0 l)
    (clients n) a b d (if r =? room_at es b then [Message a msg] else [])) as (cs' & E & Hne & Heq & Hd).
  - intros c Hc. destruct (Hag b c Hc) as (Hb & r0 & l & K & Hs).
    destruct (receive_said junk c b r0 l a r msg K Hm Hl) as (c' & E & K'). exists c'. fold d in E. rewrite E.
    rewrite <- (should_keep_room es b r0 l) by done. split; [done|]. split; [done|]. by exists r0, l.
  - exists (mk_net (peers n) cs'). unfold act. rewrite E. cbn [res_bind]. split.
    { do 2 f_equal. destruct (clients n !! b); [|done]. by destruct (r =? room_at es b). }
    split; [|done]. constructor; [apply Hn..| |].
    + pose proof (agree_known _ _ _ Hn) as Hk. eapply Forall_impl; [exact Hk|]. intros e He. cbn [clients].
      by rewrite <- elem_of_dom, Hd, elem_of_dom.
    + intros b' c Hc. cbn [clients] in Hc. destruct (decide (b' = b)) as [->|Hb]; [by destruct (Heq c Hc)|].
      rewrite Hne in Hc by done. by apply Hag.
Qed.

(** a message to a list of addresses: those in room [r] show it *)
Lemma act_sends es n a r msg l :
  agree junk es n -> no_nul msg -> zlen msg <= 999 ->
  exists n', act_all junk tracker n a (map (fun b => Send b (mk_datagram 109 0 r (zlen msg + 1) (msg ++ [0]))) l) =
    Ok (n', concat (map (fun b => if bool_decide (b ∈ dom (clients n)) && (r =? room_at es b) then [(b, Message a msg)] else []) l)) /\
  agree junk es n' /\ dom (clients n') = dom (clients n).
Proof.
  intros Hn Hm Hl. revert n Hn. induction l as [|b l IH]; intros n Hn; [by exists n|]. cbn [map act_all].
  destruct (act_send es n a b r msg Hn Hm Hl) as (n1 & -> & Hn1 & Hd1). cbn [res_bind].
  destruct (IH n1 Hn1) as (n2 & -> & Hn2 & Hd2). cbn [res_bind]. exists n2. split; [|split; [done|congruence]].
  rewrite Hd1. cbn [concat]. do 3 f_equal. destruct (clients n !! b) eqn:Eb.
  - rewrite bool_decide_true by by apply elem_of_dom. done.
  - rewrite bool_decide_false; [done|]. by apply not_elem_of_dom.
Qed.

(** ** Lemmas: a round of pings *)
Definition alive_in (l : list addr) (es : list entry) : list entry :=
  map (fun e => if decide (eaddr e ∈ l) then set_alive 1 e else e) es.

Lemma alive_in_wf l es : wf es -> wf (alive_in l es).
Proof. apply wf_map_alive. intros e. by destruct (decide _). Qed.

Lemma alive_in_cons b l es : alive_in l (alive_in [b] es) = alive_in (b :: l) es.
Proof.
  unfold alive_in. rewrite map_map. apply map_ext. intros e.
  destruct (decide (eaddr e ∈ [b])) as [Hb%list_elem_of_singleton|Hb].
  - rewrite (decide_True (P := eaddr e ∈ b :: l)) by (rewrite Hb; by left). by destruct (decide _).
  - destruct (decide (eaddr e ∈ l)).
    + rewrite decide_True; [done|]. by right.
    + rewrite decide_False; [done|]. intros [E|?]%elem_of_cons; [|done]. apply Hb. rewrite E. by left.
Qed.

Lemma answer_pings_spec es l :
  wf es -> Forall valid l ->
  answer_pings junk (map (conc junk) es) (map (fun b => (b, reply_to_ping junk ping_sock)) l) =
  Ok (map (conc junk) (alive_in l es)).
Proof.
  intros Hwf Hl. revert es Hwf. induction Hl as [|b l Hb Hl IH]; intros es Hwf.
  - cbn [map answer_pings]. do 2 f_equal. unfold alive_in. rewrite <- (map_id es) at 1. apply map_ext. intros e.
    rewrite decide_False; [done|]. apply not_elem_of_nil.
  - cbn [map answer_pings reply_to_ping]. unfold ping_input. cbn [dtype Z.eqb Pos.eqb]. unfold mark_peer_alive.
    rewrite print_addr_array by done. cbn [res_bind]. rewrite hash_update_conc; [|apply Hwf|apply Hwf|done]. cbn [res_bind].
    assert (map (fun e => if decide (eaddr e = b) then set_alive 1 e else e) es = alive_in [b] es) as ->.
    { apply map_ext. intros e. destruct (decide (eaddr e = b)) as [->|He].
      - rewrite decide_True; [done|]. by left.
      - rewrite decide_False; [done|]. by rewrite list_elem_of_singleton. }
    rewrite IH by by apply alive_in_wf. by rewrite alive_in_cons.
Qed.

Lemma alive_again es :
  Forall (fun e => ealive e = 1) es -> alive_in (eaddr <$> es) (map (set_alive 0) es) = es.
Proof.
  intros Hal. unfold alive_in. rewrite map_map. transitivity (map (fun e => e) es); [|apply map_id].
  apply map_ext_in. intros e He%list_elem_of_In.
  rewrite decide_True by exact (list_elem_of_fmap_2 eaddr es e He). rewrite Forall_forall in Hal. specialize (Hal e He).
  destruct e as [a r al]. cbn in *. by subst.
Qed.

Lemma net_ping_round es n :
  agree junk es n -> exists n', step n Ping = Ok (n', []) /\ agree junk es n' /\ dom (clients n') = dom (clients n).
Proof.
  intros Hn. pose proof (agree_wf _ _ _ Hn) as Hwf. pose proof (agree_agreed es n Hn) as Hag.
  pose proof (agree_alive _ _ _ Hn) as Hal. pose proof (agree_known _ _ _ Hn) as Hk.
  unfold net_step, ping_output, delete_dead_peers. rewrite (agree_peers _ _ _ Hn), delete_dead_conc by done.
  assert (forallb (fun e => negb (ealive e =? 0)) es = true) as ->.
  { apply forallb_forall. intros e He%list_elem_of_In. rewrite Forall_forall in Hal. by rewrite (Hal e He). }
  cbn [res_bind]. rewrite send_pings_conc by apply Hwf. cbn [res_bind app].
  assert (wires junk (map (fun e => (eaddr e, mk_packet 112 0 None 0 [])) es) =
    map (fun b => (b, wire junk (mk_packet 112 0 None 0 []))) (eaddr <$> es)) as ->.
  { unfold wires. rewrite map_map. cbn [fst snd]. symmetry. apply map_map. }
  destruct (deliver_each junk (fun b c c' => exists r l, keeps c' b r l /\ should_keep es b r l)
    (fun _ => [reply_to_ping junk ping_sock]) (fun _ => wire junk (mk_packet 112 0 None 0 [])) ping_sock (eaddr <$> es) (clients n))
    as (cs' & E & Hne & Hin & Hd).
  { apply Hwf. }
  { intros b c Hb Hc. destruct (Hag b c Hc) as (_ & r & l & K & Hs).
    destruct (receive_ping junk c b r l ping_sock K) as (c' & E & K'). exists c'. split; [done|]. by exists r, l. }
  rewrite E. cbn [res_bind].
  assert (concat (map (fun b => match clients n !! b with None => [] | Some _ => map (pair b) [reply_to_ping junk ping_sock] end)
    (eaddr <$> es)) = map (fun b => (b, reply_to_ping junk ping_sock)) (eaddr <$> es)) as ->.
  { clear -Hk. induction Hk as [|e es [c Hc] Hk IH]; [done|]. cbn [fmap list_fmap map concat]. rewrite Hc. cbn [map app]. f_equal. exact IH. }
  rewrite answer_pings_spec; [|by apply wf_map_alive|].
  - cbn [res_bind]. rewrite alive_again by done. exists (mk_net (map (conc junk) es) cs'). split; [done|]. split; [|done].
    constructor; [done..| |].
    + eapply Forall_impl; [exact Hk|]. intros e He. cbn [clients]. by rewrite <- elem_of_dom, Hd, elem_of_dom.
    + intros b c Hc. cbn [clients] in Hc. destruct (decide (b ∈ eaddr <$> es)) as [Hb|Hb].
      * destruct (Hin b c Hb Hc) as (c0 & Hc0 & H). by destruct (Hag b c0 Hc0).
      * rewrite Hne in Hc by done. by apply Hag.
  - rewrite Forall_fmap. apply Hwf.
Qed.
End net_lemmas.

(** ** Lemmas: steps *)
Section steps.
Variable junk : Z.
Variables tracker ping_sock : addr.

Lemma say_step es n a c msg :
  agree junk es n -> clients n !! a = Some c -> no_nul msg -> zlen msg <= 995 ->
  exists n' l, should_keep es a (room_at es a) l /\
  net_step junk tracker ping_sock n (Input a (line_of (Say msg))) =
    Ok (n', concat (map (fun b => if bool_decide (b ∈ dom (clients n)) && (room_at es a =? room_at es b)
                                  then [(b, Message a msg)] else []) l)) /\
  agree junk es n' /\ dom (clients n') = dom (clients n).
Proof.
  intros Hn Hc Hm Hl. destruct (agree_clients _ _ _ Hn a c Hc) as (Ha & r & l & K & Hs).
  pose proof (should_keep_room es a r l Hs) as ->. unfold net_step. rewrite Hc.
  rewrite (read_input_say junk c a _ l msg K); [|apply (keeps_list_valid es a (room_at es a))|done..]; [|apply Hn|done..].
  cbn [res_bind].
  destruct (act_sends junk tracker es n a (room_at es a) msg l Hn Hm) as (n' & E & H); [lia|]. by exists n', l.
Qed.

Lemma act_all_one n a e n' out :
  act junk tracker n a e = Ok (n', out) -> act_all junk tracker n a [e] = Ok (n', out).
Proof. intros E. cbn [act_all]. rewrite E. cbn [res_bind]. by rewrite app_nil_r. Qed.

Lemma command_step es n a cmd :
  agree junk es n -> valid_command cmd ->
  exists n' out, net_step junk tracker ping_sock n (Input a (line_of cmd)) = Ok (n', out) /\
  agree junk (if decide (a ∈ dom (clients n)) then spec_command es a cmd else es) n' /\
  dom (clients n') = dom (clients n).
Proof.
  intros Hn Hcmd. destruct (decide (a ∈ dom (clients n))) as [[c Hc]%elem_of_dom|Hni%not_elem_of_dom].
  2:{ unfold net_step. rewrite Hni. by exists n, []. }
  destruct (agree_clients _ _ _ Hn a c Hc) as (Ha & r & l & K & Hs). destruct cmd as [|m| |msg|].
  4:{ destruct Hcmd as [H1 H2]. destruct (say_step es n a c msg) as (n' & l' & _ & E & H); [done..|]. by eexists n', _. }
  4:{ unfold net_step. rewrite Hc.
      rewrite (read_input_info junk c a r l K) by (by apply (keeps_list_valid es a r); [apply Hn| |]).
      cbn [res_bind]. destruct (zlen l =? 0); by eexists n, _. }
  all: unfold net_step; rewrite Hc.
  1: rewrite read_input_create; pose proof (act_request junk tracker es n a (mk_datagram 99 0 junk 0 []) Create) as H.
  2: rewrite read_input_join by done; cbn [valid_command] in Hcmd;
     pose proof (act_request junk tracker es n a (mk_datagram 106 0 (m mod 2 ^ 32) 0 []) (Join m)) as H.
  3: rewrite read_input_leave; pose proof (act_request junk tracker es n a (mk_datagram 108 0 (room_num c) 0 []) Leave) as H.
  all: destruct H as (n' & E & H);
    [done|by eexists|apply Ha|cbn [dtype droom]; try (split; [done|]; apply Z.mod_small; lia); done|].
  all: exists n', []; split; [|exact H]; apply act_all_one; exact E.
Qed.

Lemma user_op_step es n op :
  agree junk es n -> valid_user_op op ->
  exists n' out, net_step junk tracker ping_sock n (net_op_of op) = Ok (n', out) /\
  agree junk (spec_user_op (dom (clients n)) es op) n' /\ dom (clients n') = dom (clients n).
Proof.
  intros Hn Hop. destruct op as [a cmd|]; cbn [net_op_of spec_user_op].
  - by apply command_step.
  - destruct (net_ping_round junk tracker ping_sock es n Hn) as (n' & E & H). by exists n', [].
Qed.

Lemma net_run_agree es n ops :
  agree junk es n -> Forall valid_user_op ops ->
  exists n', net_run junk tracker ping_sock n (map net_op_of ops) = Ok n' /\
  agree junk (fold_left (spec_user_op (dom (clients n))) ops es) n' /\ dom (clients n') = dom (clients n).
Proof.
  intros Hn Hops. revert es n Hn. induction Hops as [|op ops Hop Hops IH]; intros es n Hn; [by exists n|].
  destruct (user_op_step es n op Hn Hop) as (n1 & out & E & Hn1 & Hd1).
  destruct (IH _ n1 Hn1) as (n2 & E2 & Hn2 & Hd2). exists n2. cbn [map net_run fold_left]. rewrite E. cbn [res_bind].
  rewrite Hd1 in Hn2. split; [done|]. split; [done|congruence].
Qed.
End steps.

(** a list of peers is copied within the packet, or not at all *)
Lemma copy_bounds c len :
  zlen (inbox c) = 1000 -> zlen (peer_list c) = 1600 -> 0 <= len < 2 ^ 32 ->
  to_int (len / sizeof_sockaddr_in) = len / 16 /\
  (0 < len / 16 ->
   if 1008 <=? len then slice (inbox c) 0 (len / 16 * sizeof_sockaddr_in) = Fault OutOfBounds
   else exists src, slice (inbox c) 0 (len / 16 * sizeof_sockaddr_in) = Ok src /\
     blit (peer_list c) 0 src = Ok (take (Z.to_nat (16 * (len / 16))) (inbox c) ++ drop (Z.to_nat (16 * (len / 16))) (peer_list c))).
Proof.
  intros Hi Hp Hl. unfold sizeof_sockaddr_in. pose proof (Z.div_mod len 16 ltac:(lia)) as Hdm.
  pose proof (Z.mod_pos_bound len 16 ltac:(lia)) as Hm. set (n := len / 16) in *. split; [apply to_int_id; bounds|].
  intros Hn. rewrite (Z.mul_comm n 16). bdestruct (1008 <=? len); [apply slice_oob; lia|].
  exists (take (Z.to_nat (16 * n)) (inbox c)). split; [rewrite slice_in_bounds by lia; reflexivity|].
  assert (length (take (Z.to_nat (16 * n)) (inbox c)) = Z.to_nat (16 * n)) as Ht by (unfold zlen in *; rewrite length_take; lia).
  unfold blit. rewrite (proj2 (Z.leb_le (0 + _) _)) by (unfold zlen in *; lia). cbn [andb]. by rewrite Ht.
Qed.

(** Before any request, with clients that have just started. *)
Lemma agree_init (junk : Z) (cs : gmap addr chat_client) :
  (forall a c, cs !! a = Some c -> client_addr a /\ exists inbox, zlen inbox = 1000 /\ c = init (0, a.2) inbox) ->
  agree junk [] (mk_net [] cs).
Proof.
  intros H. constructor; [done|apply wf_nil|constructor..|]. intros a c Hc. destruct (H a c Hc) as (Ha & m & Hm & ->).
  split; [done|]. exists 0, []. split; [|done]. constructor; [done..| |done|done]. by exists 0, (replicate 1600 0).
Qed.

(** The address of the tracker is copied without its NUL. *)
Lemma parse_args_unterminated junk ip m port v rest :
  no_nul ip -> zlen ip <= 19 -> junk <> 0 -> strtoll port = Ok (v, rest) ->
  parse_args junk (ip ++ 0 :: m) port = Fault OutOfBounds.
Proof.
  intros Hip Hn Hj Hp. unfold parse_args, atoi. rewrite Hp. cbn [res_bind]. rewrite strlen_app by done. cbn [res_bind].
  bdestruct (20 <? zlen ip + 1); [lia|]. rewrite slice_prefix by done. cbn [res_bind].
  rewrite <- (take_drop (length ip) (replicate 20 junk)). rewrite blit_prefix.
  - cbn [res_bind]. rewrite cstr_none; [done|]. apply no_nul_app. split; [done|]. rewrite drop_replicate.
    by apply Forall_replicate.
  - unfold zlen in *. rewrite length_take, length_replicate. lia.
Qed.



(** C15: A message typed by a member of a room with at least two members is shown
    by every member of the room, the sender included, with the sender's address,
    and by nobody else; the agreement remains. *)
Theorem message_reaches_room junk tracker ping_sock es n a e msg :
  agree junk es n -> lookup_addr es a = Some e -> 2 <= zlen (members es (eroom e)) ->
  no_nul msg -> zlen msg <= 995 ->
  exists n', net_step junk tracker ping_sock n (Input a (line_of (Say msg))) =
    Ok (n', map (fun b => (b, Message a msg)) (members es (eroom e))) /\ agree junk es n'.
Proof.
  intros Hn He H2 Hm Hl. pose proof (agree_wf _ _ _ Hn) as Hwf. pose proof (agree_known _ _ _ Hn) as Hk.
  rewrite Forall_forall in Hk. destruct (Hk e) as [c Hc]; [by apply lookup_addr_Some in He as [? _]|].
  destruct (lookup_addr_Some _ _ _ He) as [_ Ea]. rewrite Ea in Hc.
  destruct (say_step junk tracker ping_sock es n a c msg Hn Hc Hm Hl) as (n' & l & Hs & E & Hn' & _).
  exists n'. split; [|done]. rewrite E. do 2 f_equal. unfold should_keep, room_at in *. rewrite He in *. cbn [from_option] in *.
  destruct Hs as [_ [->|[Hs _]]]; [|rewrite Hs in H2; by change (zlen [a]) with 1 in H2].
  assert (Forall (fun b => b ∈ members es (eroom e)) (members es (eroom e))) as Hin by by apply Forall_forall.
  revert Hin. generalize (members es (eroom e)) at 2 3 4. intros l Hin. induction Hin as [|b l Hb Hin IH]; [done|].
  cbn [map concat]. rewrite IH. apply members_lookup in Hb as (e' & El & Er); [|done].
  rewrite bool_decide_true, El; cbn [from_option].
  - by rewrite Er, Z.eqb_refl.
  - apply elem_of_dom. apply lookup_addr_Some in El as [Hin' <-]. by apply Hk.
Qed.

Lemma message_reaches_room_witness :
  exists n n', agree 204 [mk_entry (2, 9) 1 1; mk_entry (3, 9) 1 1] n /\
  net_step 204 (1, 8080) (1, 8081) n (Input (3, 9) (line_of (Say (str "hi")))) =
    Ok (n', [((2, 9), Message (3, 9) (str "hi")); ((3, 9), Message (3, 9) (str "hi"))]).
Proof.
  destruct (net_run_agree 204 (1, 8080) (1, 8081) []
    (mk_net [] (<[(2, 9) := init (0, 9) (replicate 1000 204)]> {[(3, 9) := init (0, 9) (replicate 1000 204)]}))
    [Command (2, 9) Create; Command (3, 9) (Join 1)]) as (n & _ & Hn & _).
  - apply agree_init. intros a c Hc. apply lookup_insert_Some in Hc as [[<- <-]|[_ Hc%lookup_singleton_Some]].
    + split; [repeat split; discriminate|]. exists (replicate 1000 204). split; reflexivity.
    + destruct Hc as [<- <-]. split; [repeat split; discriminate|]. exists (replicate 1000 204). split; reflexivity.
  - repeat (apply Forall_cons; split; [try exact I|]); [split; [discriminate|reflexivity]|apply Forall_nil; exact I].
  - destruct (message_reaches_room 204 (1, 8080) (1, 8081) [mk_entry (2, 9) 1 1; mk_entry (3, 9) 1 1] n (3, 9)
      (mk_entry (3, 9) 1 1) (str "hi")) as (n' & E & _).
    + exact Hn.
    + reflexivity.
    + discriminate.
    + vm_compute. repeat constructor; discriminate.
    + discriminate.
    + exists n, n'. split; [exact Hn|exact E].
Defined.

(** C30: The length in the header of a list of peers is trusted: an update, or a
    successful reply to a join, faults exactly if it announces 63 addresses or
    more, which do not fit the packet.  Else that many addresses are taken from
    the packet, from bytes of earlier datagrams if this one was shorter, with the
    room of the reply; without any address a reply leaves the room, and an update
    changes nothing. *)
Theorem client_list_bounds junk c src d :
  zlen (inbox c) = 1000 -> zlen (peer_list c) = 1600 -> 0 <= dlength d < 2 ^ 32 ->
  dtype d = 117 \/ dtype d = 106 /\ derror d = 0 ->
  let n := dlength d / 16 in
  let k := Z.to_nat (16 * n) in
  receive_packet junk c src d =
  if 1008 <=? dlength d then Fault OutOfBounds
  else Ok (if n =? 0 then if dtype d =? 106 then with_peers (recv c d) 0 0 (peer_list c) else recv c d
           else with_peers (recv c d) (if dtype d =? 106 then droom d else room_num c) n
                  (take k (inbox (recv c d)) ++ drop k (peer_list c)), []).
Proof.
  intros Hi Hp Hd Ht n k. destruct (copy_bounds (recv c d) (dlength d)) as [En E]; [|done..|].
  { cbn [recv inbox]. unfold zlen in *. rewrite length_app, length_drop, length_take. lia. }
  fold n in En, E. fold k in E. unfold receive_packet, join_room_reply, user_connection_updates.
  assert (0 <= n) as Hn by (apply Z.div_pos; lia).
  pose proof (Z.div_mod (dlength d) 16 ltac:(lia)) as Hdm. pose proof (Z.mod_pos_bound (dlength d) 16 ltac:(lia)). fold n in Hdm.
  destruct Ht as [-> |[-> ->]]; cbn [Z.eqb Pos.eqb negb]; rewrite En; bdestruct (n =? 0).
  1,3: rewrite (proj2 (Z.leb_gt 1008 _)) by lia;
    rewrite (proj2 (Z.leb_le n 0)) by lia; reflexivity.
  all: rewrite (proj2 (Z.leb_gt n 0)) by lia; specialize (E ltac:(lia)).
  all: bdestruct (1008 <=? dlength d); [by rewrite E|]; destruct E as (src0 & -> & E); cbn [res_bind]; by rewrite E.
Qed.

Lemma client_list_bounds_witness :
  receive_packet 0 (init (0, 9) (replicate 1000 204)) (1, 8080) (mk_datagram 117 0 0 1008 []) = Fault OutOfBounds /\
  exists c, receive_packet 0 (init (0, 9) (replicate 1000 204)) (1, 8080) (mk_datagram 106 0 3 16 (sockaddr 0 (2, 9))) = Ok (c, []) /\
    room_num c = 3 /\ read_peers c 0 1 = Ok [(2, 9)].
Proof.
  split.
  - etransitivity; [apply (client_list_bounds 0); [reflexivity|reflexivity|split; [discriminate|reflexivity]|left; reflexivity]|reflexivity].
  - eexists. split.
    + etransitivity; [apply (client_list_bounds 0); [reflexivity|reflexivity|split; [discriminate|reflexivity]|right; split; reflexivity]|].
      reflexivity.
    + split; reflexivity.
Defined.
